(** * Flux torrent client: session core, peer filter and RSS ingester

    A shallow embedding of the Python sources under [flux/core] and the
    properties the specification states about them.

    - [peer_filter.py]     : [PeerFilter.check_peer] and its helpers
    - [rss_monitor.py]     : [FeedItem.download_url], [FeedConfig.from_dict],
                             [RSSMonitor.load_config]
    - [torrent.py]         : [Torrent.snapshot], [Torrent._resolve_state]
    - [session_worker.py]  : [SessionWorker] commands, the resume database
                             and the stats tick

    Conventions.  A Python [str] is a list of Unicode code points, [bytes] a
    list of [Byte.byte].  A Python [dict] whose iteration order is observed is
    an association list in insertion order ([odict]); a dict that is only
    looked up is a [gmap].  Code that can raise returns [option] or a sum;
    code that mutates [self] passes the state explicitly.  What belongs to
    an external library (libtorrent, [re], [socket], [json], floats) is a
    field of a type class, so every theorem holds for every implementation
    of it. *)

From Stdlib Require Import ZArith NArith List String Ascii Bool Lia.
From stdpp Require Import gmap list.
Import ListNotations.

Open Scope Z_scope.

(** ** Python strings *)

Module Py.

(** A [str] is a sequence of code points. *)
Definition str := list N.

(** [py "abc"] is the [str] literal ['abc'] (ASCII literals only). *)
Definition py (s : string) : str :=
  map N_of_ascii (list_ascii_of_string s).

(** [bool(s)]: a string is true when it is not empty. *)
Definition nonempty (s : str) : bool :=
  match s with [] => false | _ :: _ => true end.

Definition str_eqb (a b : str) : bool := bool_decide (a = b).

(** [s.startswith(prefix)] *)
Fixpoint startswith (s prefix : str) {struct prefix} : bool :=
  match prefix, s with
  | [], _ => true
  | _ :: _, [] => false
  | p :: prefix', c :: s' => N.eqb p c && startswith s' prefix'
  end.

(** [s.endswith(suffix)] *)
Definition endswith (s suffix : str) : bool :=
  startswith (rev s) (rev suffix).

(** [sub in s] *)
Fixpoint contains (sub s : str) : bool :=
  startswith s sub ||
  match s with
  | [] => false
  | _ :: s' => contains sub s'
  end.

(** [c.isspace()] for one code point: the characters Python's [str.strip()]
    removes (Unicode whitespace, which includes the ASCII separators
    0x1c-0x1f). *)
Definition isspace (c : N) : bool :=
  ((9 <=? c) && (c <=? 13) || (28 <=? c) && (c <=? 32) ||
   (c =? 133) || (c =? 160) || (c =? 5760) ||
   (8192 <=? c) && (c <=? 8202) || (c =? 8232) || (c =? 8233) ||
   (c =? 8239) || (c =? 8287) || (c =? 12288))%N.

(** [s.lstrip()] *)
Fixpoint lstrip (s : str) : str :=
  match s with
  | c :: s' => if isspace c then lstrip s' else s
  | [] => []
  end.

(** [s.strip()] *)
Definition strip (s : str) : str := rev (lstrip (rev (lstrip s))).

(** [s[:n]] for [n >= 0] *)
Definition slice_to (n : nat) (s : str) : str := firstn n s.

(** A value found in a configuration dictionary (the settings, a saved feed).
    Nothing checks the type of such a value, so a field that is filled from
    a dictionary holds whatever the dictionary held. *)
Inductive pyval :=
| VNone
| VBool (b : bool)
| VInt (z : Z)
| VStr (s : str).

#[global] Instance pyval_eq_dec : EqDecision pyval.
Proof. solve_decision. Defined.

(** [bool(v)] *)
Definition truthy (v : pyval) : bool :=
  match v with
  | VNone => false
  | VBool b => b
  | VInt z => negb (z =? 0)
  | VStr s => nonempty s
  end.

(** Python's [==] on these values, which is also the equality of dictionary
    keys: [True == 1] and [False == 0]. *)
Definition as_int (v : pyval) : option Z :=
  match v with
  | VBool b => Some (if b then 1 else 0)
  | VInt z => Some z
  | _ => None
  end.

Definition py_eqb (a b : pyval) : bool :=
  match as_int a, as_int b with
  | Some x, Some y => x =? y
  | _, _ => bool_decide (a = b)
  end.

End Py.
Export Py.

(** ** Insertion-ordered dictionaries

    Since Python 3.7 a [dict] iterates in insertion order, and
    [SessionWorker._update_stats] walks [self._torrents.values()], so the
    torrent table is kept as an association list in that order. *)

Module OrderedDict.

Section Odict.
Context {K V : Type} `{EqDecision K}.

Definition odict := list (K * V).

(** [d.get(k)] *)
Fixpoint od_get (k : K) (d : list (K * V)) : option V :=
  match d with
  | [] => None
  | (k', v) :: d' => if decide (k' = k) then Some v else od_get k d'
  end.

(** [k in d] *)
Definition od_mem (k : K) (d : list (K * V)) : bool :=
  match od_get k d with Some _ => true | None => false end.

(** [d[k] = v]: an existing key keeps its place, a new key goes last. *)
Fixpoint od_set (k : K) (v : V) (d : list (K * V)) : list (K * V) :=
  match d with
  | [] => [(k, v)]
  | (k', v') :: d' =>
      if decide (k' = k) then (k', v) :: d' else (k', v') :: od_set k v d'
  end.

(** [del d[k]] (the caller has checked that [k] is present) *)
Fixpoint od_del (k : K) (d : list (K * V)) : list (K * V) :=
  match d with
  | [] => []
  | (k', v') :: d' =>
      if decide (k' = k) then d' else (k', v') :: od_del k d'
  end.

(** [d.keys()], [d.values()] *)
Definition od_keys (d : list (K * V)) : list K := map fst d.
Definition od_values (d : list (K * V)) : list V := map snd d.

End Odict.

End OrderedDict.
Export OrderedDict.

(** ** What the code takes from outside

    The Python standard library and libtorrent are not part of the
    repository.  Each is a type class; the controller is written against
    the class and proved for every instance. *)

(** A raised exception, by its message [str(e)]. *)
Definition exn := str.

(** The outcome of a call that can raise. *)
Definition result (A : Type) : Type := exn + A.

Definition ok {A : Type} (x : A) : result A := inr x.
Definition raise {A : Type} (e : exn) : result A := inl e.

(** Python floats ([time.time()], [progress], [ratio]) are kept abstract:
    no property below depends on their arithmetic. *)
Class PyFloat := {
  float : Type;
  float_zero : float;                    (* 0.0 *)
  float_truthy : float -> bool;          (* bool(x) *)
  float_div : Z -> Z -> float;           (* a / b on ints, b <> 0 *)
  float_trunc : float -> Z               (* int(x) *)
}.

(** The pieces of the standard library the peer filter and the worker
    call. *)
Class PyLib := {
  (** [re.search(pattern, text, re.IGNORECASE) is not None];
      [None] when the pattern does not compile ([re.error]). *)
  re_search : str -> str -> option bool;
  (** [socket.inet_aton(ip)]: the packed address, [None] when the string
      is no IPv4 address ([socket.error]). *)
  inet_aton : str -> option (list Byte.byte);
  (** [json.loads(text)] for the tag lists the GUI sends (a JSON array of
      strings). *)
  json_loads : str -> result (list str);
  (** [json.dumps(tags)] for a list of strings *)
  json_dumps : list str -> str
}.

(** ** RSS ingester ([flux/core/rss_monitor.py]) *)

Module Rss.

(** *** [FeedItem] *)

Record FeedItem := {
  title : str;
  link : str;
  magnet : str;
  torrent_url : str;
  pub_date : str;
  size : Z;
  guid : str
}.

(** [FeedItem.download_url] (a property):
<<
    if self.magnet: return self.magnet
    if self.torrent_url: return self.torrent_url
    if self.link and (self.link.endswith('.torrent') or 'magnet:' in self.link):
        return self.link
    return ""
>> *)
Definition download_url (self : FeedItem) : str :=
  if nonempty (magnet self) then magnet self
  else if nonempty (torrent_url self) then torrent_url self
  else if nonempty (link self) &&
          (endswith (link self) (py ".torrent") ||
           contains (py "magnet:") (link self))
       then link self
  else [].

(** The derivation as the specification words it: magnet first, then
    torrent_url, else link if it ends [.torrent] or begins [magnet:], else
    empty. *)
Definition download_url_spec (self : FeedItem) : str :=
  if bool_decide (magnet self <> []) then magnet self
  else if bool_decide (torrent_url self <> []) then torrent_url self
  else if endswith (link self) (py ".torrent") ||
          startswith (link self) (py "magnet:")
       then link self
  else [].

(** The four cases of [download_url] as a relation, with "contains" where
    the code has ['magnet:' in self.link]. *)
Inductive download_url_is (it : FeedItem) : str -> Prop :=
| du_magnet :
    magnet it <> [] -> download_url_is it (magnet it)
| du_torrent_url :
    magnet it = [] -> torrent_url it <> [] ->
    download_url_is it (torrent_url it)
| du_link :
    magnet it = [] -> torrent_url it = [] ->
    endswith (link it) (py ".torrent") = true \/
    contains (py "magnet:") (link it) = true ->
    download_url_is it (link it)
| du_empty :
    magnet it = [] -> torrent_url it = [] ->
    endswith (link it) (py ".torrent") = false ->
    contains (py "magnet:") (link it) = false ->
    download_url_is it [].

(** A plain web link that carries a magnet URI as a query parameter. *)
Definition item_magnet_inside : FeedItem :=
  {| title := py "Redirect"; link := py "http://t.example/go?to=magnet:?xt=urn:btih:abc";
     magnet := []; torrent_url := []; pub_date := []; size := 0; guid := [] |}.

(** *** [FeedConfig] *)

Record FeedConfig := {
  url : pyval;
  name : pyval;
  enabled : pyval;
  interval_minutes : pyval;
  include_pattern : pyval;
  exclude_pattern : pyval;
  save_path : pyval;
  category : pyval;
  auto_download : pyval
}.

(** The dataclass defaults. *)
Definition FeedConfig_default : FeedConfig :=
  {| url := VStr []; name := VStr []; enabled := VBool true;
     interval_minutes := VInt 30;
     include_pattern := VStr []; exclude_pattern := VStr [];
     save_path := VStr []; category := VStr [];
     auto_download := VBool true |}.

(** [FeedConfig.from_dict(d)]:
<<
    kwargs = {k: v for k, v in d.items() if k in cls.__dataclass_fields__}
    return cls( **kwargs )
>>
    Keys that are no field are dropped, a field without a key takes its
    default, and every value is stored as it is. *)
Definition field (d : gmap str pyval) (k : string) (dflt : FeedConfig -> pyval) : pyval :=
  match d !! py k with
  | Some v => v
  | None => dflt FeedConfig_default
  end.

Definition from_dict (d : gmap str pyval) : FeedConfig :=
  {| url := field d "url" url;
     name := field d "name" name;
     enabled := field d "enabled" enabled;
     interval_minutes := field d "interval_minutes" interval_minutes;
     include_pattern := field d "include_pattern" include_pattern;
     exclude_pattern := field d "exclude_pattern" exclude_pattern;
     save_path := field d "save_path" save_path;
     category := field d "category" category;
     auto_download := field d "auto_download" auto_download |}.

(** [FeedConfig.to_dict()] *)
Definition to_dict (c : FeedConfig) : gmap str pyval :=
  <[py "url" := url c]> (
  <[py "name" := name c]> (
  <[py "enabled" := enabled c]> (
  <[py "interval_minutes" := interval_minutes c]> (
  <[py "include_pattern" := include_pattern c]> (
  <[py "exclude_pattern" := exclude_pattern c]> (
  <[py "save_path" := save_path c]> (
  <[py "category" := category c]> (
  <[py "auto_download" := auto_download c]> ∅)))))))).

(** The invariant the specification states for a [FeedConfig]. *)
Definition interval_ok (c : FeedConfig) : Prop :=
  match interval_minutes c with
  | VInt z => 5 <= z
  | _ => False
  end.

(** *** [RSSMonitor]: the feed table and its timers *)

(** A [QTimer] as far as the monitor uses it: its period and whether it
    runs. *)
Record Timer := { period_ms : Z; running : bool }.

(** Insertion-ordered dictionaries keyed by Python values (key equality is
    [==]). *)
Fixpoint pd_get {V} (k : pyval) (d : list (pyval * V)) : option V :=
  match d with
  | [] => None
  | (k', v) :: d' => if py_eqb k' k then Some v else pd_get k d'
  end.

Fixpoint pd_set {V} (k : pyval) (v : V) (d : list (pyval * V)) : list (pyval * V) :=
  match d with
  | [] => [(k, v)]
  | (k', v') :: d' =>
      if py_eqb k' k then (k', v) :: d' else (k', v') :: pd_set k v d'
  end.

Record RSSMonitor := {
  feeds : list (pyval * FeedConfig);   (* self._feeds *)
  timers : list (pyval * Timer)        (* self._timers *)
}.

(** [config.interval_minutes * 60 * 1000] handed to [QTimer.start], which
    takes a C [int]: a value that is no integer, or one out of range, raises
    ([None]). *)
Definition timer_period (v : pyval) : option Z :=
  match as_int v with
  | Some m =>
      let ms := m * 60 * 1000 in
      if (-2147483648 <=? ms) && (ms <=? 2147483647) then Some ms else None
  | None => None
  end.

(** [RSSMonitor._restart_timer(config)]; the one-shot warm-up fetch it
    schedules changes no state here.  The second component says whether the
    call raised. *)
Definition _restart_timer (config : FeedConfig) (ts : list (pyval * Timer))
  : list (pyval * Timer) * bool :=
  let ts1 :=
    match pd_get (url config) ts with
    | Some t => pd_set (url config) {| period_ms := period_ms t; running := false |} ts
    | None => ts
    end in
  if negb (truthy (enabled config)) then (ts1, false)
  else match timer_period (interval_minutes config) with
       | Some ms => (pd_set (url config) {| period_ms := ms; running := true |} ts1, false)
       | None => (ts1, true)
       end.

(** [RSSMonitor.add_feed(config)]: the feed is stored before its timer is
    armed. *)
Definition add_feed (config : FeedConfig) (m : RSSMonitor) : RSSMonitor * bool :=
  let fs := pd_set (url config) config (feeds m) in
  let '(ts, raised) := _restart_timer config (timers m) in
  ({| feeds := fs; timers := ts |}, raised).

(** [RSSMonitor.load_config(feed_list)]:
<<
    for d in feed_list:
        try:
            config = FeedConfig.from_dict(d)
            if config.url:
                self.add_feed(config)
        except Exception as e:
            logger.error(...)
>> *)
Fixpoint load_config (feed_list : list (gmap str pyval)) (m : RSSMonitor) : RSSMonitor :=
  match feed_list with
  | [] => m
  | d :: rest =>
      let config := from_dict d in
      let m' := if truthy (url config) then fst (add_feed config m) else m in
      load_config rest m'
  end.

Definition RSSMonitor_init : RSSMonitor := {| feeds := []; timers := [] |}.

(** A saved feed whose interval was set to one minute. *)
Definition dict_one_minute : gmap str pyval :=
  <[py "url" := VStr (py "http://feeds.example/rss")]> (
  <[py "interval_minutes" := VInt 1]> ∅).

End Rss.

(** ** Torrent state ([flux/core/torrent.py]) *)

Module TorrentState.

(** [class TorrentState(Enum)] *)
Inductive TorrentState :=
| DOWNLOADING | SEEDING | PAUSED | QUEUED | CHECKING
| ERROR | STALLED | COMPLETED | METADATA | MOVING.

#[global] Instance TorrentState_eq_dec : EqDecision TorrentState.
Proof. solve_decision. Defined.

(** [lt.torrent_status.states] *)
Inductive lt_state :=
| queued_for_checking
| checking_files
| downloading_metadata
| downloading
| finished
| seeding
| allocating
| checking_resume_data.

#[global] Instance lt_state_eq_dec : EqDecision lt_state.
Proof. solve_decision. Defined.

(** [lt.torrent_flags.paused] and [lt.torrent_flags.auto_managed] as
    [Torrent._resolve_state] reads them; [None] when the binding has no
    such attribute. *)
Class TorrentFlags := {
  torrent_flags_paused : option Z;
  torrent_flags_auto_managed : option Z
}.

(** What [_resolve_state] reads of the status bundle [s].  Older bindings
    have [s.paused] and [s.auto_managed], newer ones only [s.flags]: an
    attribute the bundle lacks is [None]. *)
Record StateInputs := {
  errc_value : Z;                 (* s.errc.value() *)
  lt_st : lt_state;               (* s.state *)
  s_paused : option bool;         (* s.paused *)
  s_auto_managed : option bool;   (* s.auto_managed *)
  s_flags : option Z;             (* s.flags *)
  download_rate : Z;              (* s.download_rate *)
  num_seeds : Z                   (* s.num_seeds *)
}.

Section ResolveState.
Context `{TorrentFlags}.

(** The [except AttributeError] branch:
<<
    try:
        flags = s.flags
        is_paused = bool(flags & lt.torrent_flags.paused)
        is_auto_managed = bool(flags & lt.torrent_flags.auto_managed)
    except Exception:
        pass
>>
    [p0] is what [is_paused] holds when the branch is entered. *)
Definition flags_from_bits (s : StateInputs) (p0 : bool) : bool * bool :=
  match s_flags s with
  | None => (p0, false)
  | Some flags =>
      match torrent_flags_paused with
      | None => (p0, false)
      | Some fp =>
          let p := negb (Z.land flags fp =? 0) in
          match torrent_flags_auto_managed with
          | None => (p, false)
          | Some fa => (p, negb (Z.land flags fa =? 0))
          end
      end
  end.

(** [(is_paused, is_auto_managed)] after the [try]:
<<
    is_paused = False
    is_auto_managed = False
    try:
        is_paused = s.paused
        is_auto_managed = s.auto_managed
    except AttributeError:
        ...
>> *)
Definition paused_flags (s : StateInputs) : bool * bool :=
  match s_paused s with
  | None => flags_from_bits s false
  | Some p =>
      match s_auto_managed s with
      | None => flags_from_bits s p
      | Some a => (p, a)
      end
  end.

Definition is_paused (s : StateInputs) : bool := fst (paused_flags s).
Definition is_auto_managed (s : StateInputs) : bool := snd (paused_flags s).

(** [Torrent._resolve_state(s)] *)
Definition _resolve_state (s : StateInputs) : TorrentState :=
  if negb (errc_value s =? 0) then ERROR
  else
    let lt_state := lt_st s in
    let '(is_paused, is_auto_managed) := paused_flags s in
    if is_paused && negb is_auto_managed then PAUSED
    else if is_paused && is_auto_managed then QUEUED
    else if bool_decide (lt_state = checking_files) ||
            bool_decide (lt_state = checking_resume_data) then CHECKING
    else if bool_decide (lt_state = downloading_metadata) then METADATA
    else if bool_decide (lt_state = downloading) then
      if (download_rate s <? 1024) && (0 <? num_seeds s) then STALLED
      else DOWNLOADING
    else if bool_decide (lt_state = finished) then COMPLETED
    else if bool_decide (lt_state = seeding) then SEEDING
    else DOWNLOADING.

(** *** The decision tree as the specification words it *)

(** "Engine-reports-paused", read off the status bundle: the bundle's
    [paused] attribute; a bundle of a binding that no longer has the
    attribute says it in the paused bit of its [flags]. *)
Definition reports_paused (s : StateInputs) : Prop :=
  match s_paused s with
  | Some p => p = true
  | None =>
      match s_flags s, torrent_flags_paused with
      | Some flags, Some bit => Z.land flags bit <> 0
      | _, _ => False
      end
  end.

(** "Auto-managed", read off the status bundle in the same way. *)
Definition reports_auto_managed (s : StateInputs) : Prop :=
  match s_auto_managed s with
  | Some a => a = true
  | None =>
      match s_flags s, torrent_flags_auto_managed with
      | Some flags, Some bit => Z.land flags bit <> 0
      | _, _ => False
      end
  end.

(** A bundle has the two attributes [paused] and [auto_managed] together
    or not at all: libtorrent removed them in one step. *)
Definition bundle_shape (s : StateInputs) : Prop :=
  s_paused s = None <-> s_auto_managed s = None.

(** The specification's decision tree: ten rules, each a condition on the
    bundle and the state it yields; the first rule whose condition holds
    decides. *)
Definition decision_tree (s : StateInputs) : list (Prop * TorrentState) :=
  [ (errc_value s <> 0, ERROR);
    (reports_paused s /\ ~ reports_auto_managed s, PAUSED);
    (reports_paused s /\ reports_auto_managed s, QUEUED);
    (lt_st s = checking_files \/ lt_st s = checking_resume_data, CHECKING);
    (lt_st s = downloading_metadata, METADATA);
    (lt_st s = downloading /\ download_rate s < 1024 /\ num_seeds s > 0, STALLED);
    (lt_st s = downloading, DOWNLOADING);
    (lt_st s = finished, COMPLETED);
    (lt_st s = seeding, SEEDING);
    (True, DOWNLOADING) ].

End ResolveState.

(** [decides rules r]: [r] is the outcome of the first rule of [rules] whose
    condition holds. *)
Inductive decides : list (Prop * TorrentState) -> TorrentState -> Prop :=
| decides_here (c : Prop) (r : TorrentState) rest :
    c -> decides ((c, r) :: rest) r
| decides_next (c : Prop) (r0 r : TorrentState) rest :
    ~ c -> decides rest r -> decides ((c, r0) :: rest) r.

(** A binding that has [torrent_flags] with libtorrent's bit values. *)
Definition flags_lt12 : TorrentFlags :=
  {| torrent_flags_paused := Some 16; torrent_flags_auto_managed := Some 32 |}.

(** A bundle that has [paused] but no [auto_managed], which no binding
    produces: its attribute says running, its flags say paused. *)
Definition mixed_bundle : StateInputs :=
  {| errc_value := 0; lt_st := downloading;
     s_paused := Some false; s_auto_managed := None; s_flags := Some 16;
     download_rate := 4096; num_seeds := 3 |}.

(** A torrent that downloads slowly from a swarm with seeds. *)
Definition slow_download : StateInputs :=
  {| errc_value := 0; lt_st := downloading;
     s_paused := None; s_auto_managed := None; s_flags := Some 32;
     download_rate := 512; num_seeds := 3 |}.

End TorrentState.

(** ** Peer filter ([flux/core/peer_filter.py]) *)

Module PeerFilter.

(** [@dataclass class BanRule] *)
Record BanRule := {
  pattern : str;
  reason : str;
  enabled : bool
}.

Definition mk_rule (p r : string) : BanRule :=
  {| pattern := py p; reason := py r; enabled := true |}.

(** [PeerFilter.KNOWN_LEECHERS] *)
Definition KNOWN_LEECHERS : list BanRule :=
  [ mk_rule "-XL" "Xunlei/Thunder";
    mk_rule "-SD" "Thunder (Xunlei variant)";
    mk_rule "-XF" "Xfplay";
    mk_rule "-QD" "QQ Tornado/Whirlwind";
    mk_rule "-BN" "Baidu Net";
    mk_rule "-DL" "Dalunlei";
    mk_rule "-TS" "TorrentStorm";
    mk_rule "-FG" "FlashGet";
    mk_rule "-TT" "TuoTu" ].

(** [PeerFilter.SUSPICIOUS_CLIENTS] *)
Definition SUSPICIOUS_CLIENTS : list BanRule :=
  [ mk_rule "Xunlei" "Xunlei client name match";
    mk_rule "Thunder" "Thunder client name match";
    mk_rule "QQDownload" "QQ Download";
    mk_rule "7\.\d+\.\d+\.\d+" "Xunlei version pattern" ].

Section Filter.
Context `{PyFloat} `{PyLib}.

(** An entry of [self._ban_log] *)
Record BanLogEntry := {
  log_time : float;
  log_ip : str;
  log_client : str;
  log_reason : str
}.

Record PeerFilter := {
  _enabled : bool;
  _ban_xunlei : bool;
  _ban_qq : bool;
  _ban_baidu : bool;
  _custom_bans : list BanRule;
  _ip_blocklist : list (Z * Z);      (* (start_ip_int, end_ip_int) *)
  _whitelist : list str;
  _ban_log : list BanLogEntry;
  _max_log : nat
}.

(** [PeerFilter.__init__] *)
Definition PeerFilter_init : PeerFilter :=
  {| _enabled := true; _ban_xunlei := true; _ban_qq := true;
     _ban_baidu := true; _custom_bans := []; _ip_blocklist := [];
     _whitelist := []; _ban_log := []; _max_log := 500 |}.

Definition set_enabled (v : bool) (self : PeerFilter) : PeerFilter :=
  {| _enabled := v; _ban_xunlei := _ban_xunlei self; _ban_qq := _ban_qq self;
     _ban_baidu := _ban_baidu self; _custom_bans := _custom_bans self;
     _ip_blocklist := _ip_blocklist self; _whitelist := _whitelist self;
     _ban_log := _ban_log self; _max_log := _max_log self |}.

Definition set_ban_log (l : list BanLogEntry) (self : PeerFilter) : PeerFilter :=
  {| _enabled := _enabled self; _ban_xunlei := _ban_xunlei self;
     _ban_qq := _ban_qq self; _ban_baidu := _ban_baidu self;
     _custom_bans := _custom_bans self;
     _ip_blocklist := _ip_blocklist self; _whitelist := _whitelist self;
     _ban_log := l; _max_log := _max_log self |}.

Definition set_ip_blocklist (l : list (Z * Z)) (self : PeerFilter) : PeerFilter :=
  {| _enabled := _enabled self; _ban_xunlei := _ban_xunlei self;
     _ban_qq := _ban_qq self; _ban_baidu := _ban_baidu self;
     _custom_bans := _custom_bans self;
     _ip_blocklist := l; _whitelist := _whitelist self;
     _ban_log := _ban_log self; _max_log := _max_log self |}.

(** [PeerFilter.configure(settings)], the four flags already read from the
    settings dictionary (each defaults to [True]). *)
Definition configure (en xunlei qq baidu : bool) (self : PeerFilter) : PeerFilter :=
  {| _enabled := en; _ban_xunlei := xunlei; _ban_qq := qq;
     _ban_baidu := baidu; _custom_bans := _custom_bans self;
     _ip_blocklist := _ip_blocklist self; _whitelist := _whitelist self;
     _ban_log := _ban_log self; _max_log := _max_log self |}.

(** [add_custom_rule], [remove_custom_rule], [add_whitelist] *)
Definition add_custom_rule (p r : str) (self : PeerFilter) : PeerFilter :=
  {| _enabled := _enabled self; _ban_xunlei := _ban_xunlei self;
     _ban_qq := _ban_qq self; _ban_baidu := _ban_baidu self;
     _custom_bans := _custom_bans self ++ [{| pattern := p; reason := r; enabled := true |}];
     _ip_blocklist := _ip_blocklist self; _whitelist := _whitelist self;
     _ban_log := _ban_log self; _max_log := _max_log self |}.

Definition add_whitelist (prefix : str) (self : PeerFilter) : PeerFilter :=
  {| _enabled := _enabled self; _ban_xunlei := _ban_xunlei self;
     _ban_qq := _ban_qq self; _ban_baidu := _ban_baidu self;
     _custom_bans := _custom_bans self;
     _ip_blocklist := _ip_blocklist self;
     _whitelist := if bool_decide (prefix ∈ _whitelist self)
                   then _whitelist self else _whitelist self ++ [prefix];
     _ban_log := _ban_log self; _max_log := _max_log self |}.

(** [peer_id.decode("ascii", errors="replace")[:8] if peer_id else ""]:
    a byte above 127 decodes to U+FFFD. *)
Definition decode_ascii_replace (b : list Byte.byte) : str :=
  map (fun x => let n := Byte.to_N x in if (n <? 128)%N then n else 65533%N) b.

Definition peer_id_prefix (peer_id : list Byte.byte) : str :=
  slice_to 8 (decode_ascii_replace peer_id).

(** [PeerFilter._get_active_rules]:
<<
    for rule in self.KNOWN_LEECHERS:
        if rule.pattern in ("-XL", "-SD", "-DL") and not self._ban_xunlei: continue
        if rule.pattern == "-QD" and not self._ban_qq: continue
        if rule.pattern == "-BN" and not self._ban_baidu: continue
        if rule.enabled: rules.append(rule)
>> *)
Fixpoint active_of (self : PeerFilter) (known : list BanRule) : list BanRule :=
  match known with
  | [] => []
  | rule :: rest =>
      if (str_eqb (pattern rule) (py "-XL") || str_eqb (pattern rule) (py "-SD") ||
          str_eqb (pattern rule) (py "-DL")) && negb (_ban_xunlei self)
      then active_of self rest
      else if str_eqb (pattern rule) (py "-QD") && negb (_ban_qq self)
      then active_of self rest
      else if str_eqb (pattern rule) (py "-BN") && negb (_ban_baidu self)
      then active_of self rest
      else if enabled rule then rule :: active_of self rest
      else active_of self rest
  end.

Definition _get_active_rules (self : PeerFilter) : list BanRule :=
  active_of self KNOWN_LEECHERS.

(** [struct.unpack("!I", b)[0]]: four bytes, big-endian; any other length
    is a [struct.error] ([None]). *)
Definition unpack_I (b : list Byte.byte) : option Z :=
  match b with
  | [b3; b2; b1; b0] =>
      Some (Z.of_N (Byte.to_N b3) * 16777216 + Z.of_N (Byte.to_N b2) * 65536 +
            Z.of_N (Byte.to_N b1) * 256 + Z.of_N (Byte.to_N b0))
  | _ => None
  end.

(** The loop of [_check_ip_blocked] over the ranges. *)
Fixpoint in_ranges (ip_int : Z) (ranges : list (Z * Z)) : bool :=
  match ranges with
  | [] => false
  | (start, end_) :: rest =>
      if (start <=? ip_int) && (ip_int <=? end_) then true
      else in_ranges ip_int rest
  end.

(** [PeerFilter._check_ip_blocked(ip)]:
<<
    try:
        ip_int = struct.unpack("!I", socket.inet_aton(ip))[0]
        for start, end in self._ip_blocklist:
            if start <= ip_int <= end:
                return True
    except (socket.error, struct.error):
        pass
    return False
>> *)
Definition _check_ip_blocked (self : PeerFilter) (ip : str) : bool :=
  match inet_aton ip with
  | None => false
  | Some packed =>
      match unpack_I packed with
      | None => false
      | Some ip_int => in_ranges ip_int (_ip_blocklist self)
      end
  end.

(** [PeerFilter._log_ban(ip, client, reason)]; [now] is [time.time()]. *)
Definition _log_ban (now : float) (ip client rsn : str) (self : PeerFilter) : PeerFilter :=
  let l := _ban_log self ++
           [{| log_time := now; log_ip := ip; log_client := client; log_reason := rsn |}] in
  set_ban_log (if (_max_log self <? length l)%nat then tl l else l) self.

(** The whitelist loop: [True] when some entry is a prefix of the id. *)
Fixpoint whitelisted (peer_id_str : str) (wl : list str) : bool :=
  match wl with
  | [] => false
  | prefix :: rest =>
      if startswith peer_id_str prefix then true else whitelisted peer_id_str rest
  end.

(** The loop over the active built-in rules: the reason of the first rule
    whose pattern is a prefix of the id. *)
Fixpoint first_prefix_rule (peer_id_str : str) (rules : list BanRule) : option str :=
  match rules with
  | [] => None
  | rule :: rest =>
      if startswith peer_id_str (pattern rule) then Some (reason rule)
      else first_prefix_rule peer_id_str rest
  end.

(** The loop over [SUSPICIOUS_CLIENTS]; the outer [None] is a [re.error]
    leaving [check_peer].  [rule.enabled and re.search(...)] does not call
    [re.search] for a disabled rule. *)
Fixpoint first_client_rule (client_name : str) (rules : list BanRule)
  : option (option str) :=
  match rules with
  | [] => Some None
  | rule :: rest =>
      if enabled rule then
        match re_search (pattern rule) client_name with
        | None => None
        | Some true => Some (Some (reason rule))
        | Some false => first_client_rule client_name rest
        end
      else first_client_rule client_name rest
  end.

(** The loop over [self._custom_bans]; [or] does not call [re.search] when
    the prefix test already holds. *)
Fixpoint first_custom_rule (peer_id_str client_name : str) (rules : list BanRule)
  : option (option str) :=
  match rules with
  | [] => Some None
  | rule :: rest =>
      if enabled rule then
        if startswith peer_id_str (pattern rule) then Some (Some (reason rule))
        else match re_search (pattern rule) client_name with
             | None => None
             | Some true => Some (Some (reason rule))
             | Some false => first_custom_rule peer_id_str client_name rest
             end
      else first_custom_rule peer_id_str client_name rest
  end.

(** [PeerFilter.check_peer(peer_id, client_name, ip)].  The result is
    [None] when a [re.error] leaves the method (then nothing was logged
    yet), and otherwise the returned pair with the filter after the call. *)
Definition check_peer (now : float) (peer_id : list Byte.byte)
    (client_name ip : str) (self : PeerFilter)
  : option ((bool * str) * PeerFilter) :=
  if negb (_enabled self) then Some ((false, []), self)
  else
    let peer_id_str :=
      match peer_id with [] => [] | _ => peer_id_prefix peer_id end in
    if whitelisted peer_id_str (_whitelist self) then Some ((false, []), self)
    else
      let active_rules := _get_active_rules self in
      match first_prefix_rule peer_id_str active_rules with
      | Some rsn => Some ((true, rsn), _log_ban now ip client_name rsn self)
      | None =>
        match first_client_rule client_name SUSPICIOUS_CLIENTS with
        | None => None
        | Some (Some rsn) => Some ((true, rsn), _log_ban now ip client_name rsn self)
        | Some None =>
          match first_custom_rule peer_id_str client_name (_custom_bans self) with
          | None => None
          | Some (Some rsn) => Some ((true, rsn), _log_ban now ip client_name rsn self)
          | Some None =>
            if _check_ip_blocked self ip
            then Some ((true, py "IP blocklist"),
                       _log_ban now ip client_name (py "IP blocklist") self)
            else Some ((false, []), self)
          end
        end
      end.

(** *** The decision as the specification words it *)

Inductive verdict := allow | ban (rsn : str).

(** The pair [check_peer] returns for a verdict. *)
Definition returned (v : verdict) : bool * str :=
  match v with
  | allow => (false, [])
  | ban rsn => (true, rsn)
  end.

(** The category of a built-in prefix: [-XL], [-SD], [-DL] are the Xunlei
    family, [-QD] the QQ family, [-BN] the Baidu family; the others have
    none. *)
Inductive family := Xunlei | QQ | Baidu.

Definition family_of (p : str) : option family :=
  if bool_decide (p = py "-XL" \/ p = py "-SD" \/ p = py "-DL") then Some Xunlei
  else if bool_decide (p = py "-QD") then Some QQ
  else if bool_decide (p = py "-BN") then Some Baidu
  else None.

Definition family_banned (self : PeerFilter) (f : family) : bool :=
  match f with
  | Xunlei => _ban_xunlei self
  | QQ => _ban_qq self
  | Baidu => _ban_baidu self
  end.

(** A built-in rule is active unless the flag of its family is off. *)
Definition builtin_active (self : PeerFilter) (r : BanRule) : bool :=
  enabled r &&
  match family_of (pattern r) with
  | Some f => family_banned self f
  | None => true
  end.

(** A client-name pattern matches when the regular expression is found in
    the client string. *)
Definition re_match (p text : str) : bool :=
  match re_search p text with
  | Some b => b
  | None => false
  end.

(** [struct.unpack("!I", socket.inet_aton(ip))[0]], as
    [_check_ip_blocked] and [load_blocklist_p2p] compute it. *)
Definition ip_value (ip : str) : option Z :=
  match inet_aton ip with
  | Some packed => unpack_I packed
  | None => None
  end.

(** The peer-id prefix of the specification: the first 8 bytes of the
    peer-id, read as ASCII characters.  A byte that is no ASCII character
    reads as the replacement character U+FFFD. *)
Definition byte_char (b : Byte.byte) : N :=
  if (127 <? Byte.to_N b)%N then 65533%N else Byte.to_N b.

Definition id_prefix (peer_id : list Byte.byte) : str :=
  map byte_char (firstn 8 peer_id).

(** An IPv4 address as a number: its four octets in base 256, the first
    the most significant.  An address that does not parse to four octets
    has none. *)
Definition octets_number (octets : list Byte.byte) : option Z :=
  if (length octets =? 4)%nat
  then Some (fold_left (fun acc b => 256 * acc + Z.of_N (Byte.to_N b)) octets 0)
  else None.

Definition address_number (ip : str) : option Z :=
  match inet_aton ip with
  | Some octets => octets_number octets
  | None => None
  end.

(** The address falls in an inclusive range. *)
Definition ip_in_range (ip : str) (rg : Z * Z) : bool :=
  match address_number ip with
  | Some n => (fst rg <=? n) && (n <=? snd rg)
  | None => false
  end.

(** Every rule of the four steps, in the order the steps are taken, with
    whether it matches this peer and the reason it bans with. *)
Definition candidates (self : PeerFilter) (peer_id_str client_name ip : str)
  : list (bool * str) :=
  map (fun r => (startswith peer_id_str (pattern r), reason r))
      (List.filter (builtin_active self) KNOWN_LEECHERS) ++
  map (fun r => (enabled r && re_match (pattern r) client_name, reason r))
      SUSPICIOUS_CLIENTS ++
  map (fun r => (enabled r && (startswith peer_id_str (pattern r) ||
                               re_match (pattern r) client_name), reason r))
      (_custom_bans self) ++
  map (fun rg => (ip_in_range ip rg, py "IP blocklist")) (_ip_blocklist self).

(** Allow when the filter is off or the id starts with a whitelist entry;
    otherwise ban with the reason of the first matching rule; allow when
    none matches. *)
Definition check_peer_spec (self : PeerFilter) (peer_id : list Byte.byte)
    (client_name ip : str) : verdict :=
  let peer_id_str := id_prefix peer_id in
  if negb (_enabled self) then allow
  else if existsb (startswith peer_id_str) (_whitelist self) then allow
  else match List.find fst (candidates self peer_id_str client_name ip) with
       | Some (_, rsn) => ban rsn
       | None => allow
       end.

(** Every enabled client-name or custom pattern is a regular expression
    that compiles. *)
Definition patterns_compile (self : PeerFilter) : Prop :=
  forall r text,
    In r (SUSPICIOUS_CLIENTS ++ _custom_bans self) -> enabled r = true ->
    re_search (pattern r) text <> None.

End Filter.

End PeerFilter.

(** ** Small implementations of the outside world, for the examples

    The theorems hold for every instance of the classes above; the examples
    and the concrete runs below need one.  These cover what the examples
    use: integer "floats", the fragment of [re] the built-in patterns are
    written in, strict dotted-quad addresses, and JSON arrays of plain
    strings. *)

Module Fixtures.

(** Integers in place of floats. *)
Definition Zfloat : PyFloat :=
  {| float := Z; float_zero := 0; float_truthy := fun x => negb (x =? 0);
     float_div := Z.div; float_trunc := fun x => x |}.

(** *** Regular expressions: literals, [\.], [\d] and a postfix [+] *)

Inductive atom := Lit (c : N) | Digit.

Definition lower (c : N) : N :=
  if ((65 <=? c) && (c <=? 90))%N then (c + 32)%N else c.

Definition is_meta (c : N) : bool :=
  existsb (N.eqb c) (py ".^$*?{}[]|()").

(** Compile a pattern; [None] for anything outside the fragment. *)
Fixpoint compile (p : str) (esc : bool) (acc : list (atom * bool))
  : option (list (atom * bool)) :=
  match p with
  | [] => if esc then None else Some (rev acc)
  | c :: p' =>
      if esc then
        if (c =? 100)%N then compile p' false ((Digit, false) :: acc)
        else if (c =? 46)%N then compile p' false ((Lit c, false) :: acc)
        else None
      else if (c =? 92)%N then compile p' true acc
      else if (c =? 43)%N then
        match acc with
        | (a, false) :: acc' => compile p' false ((a, true) :: acc')
        | _ => None
        end
      else if is_meta c then None
      else compile p' false ((Lit (lower c), false) :: acc)
  end.

Definition accepts (a : atom) (c : N) : bool :=
  match a with
  | Lit x => (x =? lower c)%N
  | Digit => ((48 <=? c) && (c <=? 57))%N
  end.

Fixpoint match_here (toks : list (atom * bool)) (s : str) : bool :=
  match toks with
  | [] => true
  | (a, plus) :: rest =>
      (fix go (s : str) : bool :=
         match s with
         | [] => false
         | c :: s' => accepts a c && (match_here rest s' || (plus && go s'))
         end) s
  end.

Fixpoint search (toks : list (atom * bool)) (s : str) : bool :=
  match_here toks s ||
  match s with
  | [] => false
  | _ :: s' => search toks s'
  end.

Definition frag_re_search (p text : str) : option bool :=
  match compile p false [] with
  | Some toks => Some (search toks text)
  | None => None
  end.

(** *** Dotted-quad addresses *)

Fixpoint octets (s : str) (cur : option Z) (acc : list Z) : option (list Z) :=
  match s with
  | [] =>
      match cur with
      | Some v => Some (rev (v :: acc))
      | None => None
      end
  | c :: s' =>
      if (c =? 46)%N then
        match cur with
        | Some v => octets s' None (v :: acc)
        | None => None
        end
      else if ((48 <=? c) && (c <=? 57))%N then
        let v := match cur with Some v => v | None => 0 end * 10 + Z.of_N (c - 48) in
        if v <=? 255 then octets s' (Some v) acc else None
      else None
  end.

Definition quad_inet_aton (ip : str) : option (list Byte.byte) :=
  match octets ip None [] with
  | Some [a; b; c; d] =>
      match Byte.of_N (Z.to_N a), Byte.of_N (Z.to_N b),
            Byte.of_N (Z.to_N c), Byte.of_N (Z.to_N d) with
      | Some a', Some b', Some c', Some d' => Some [a'; b'; c'; d']
      | _, _, _, _ => None
      end
  | _ => None
  end.

(** *** JSON arrays of plain strings: [[]], [["a", "b"]] *)

Inductive jstate := JStart | JOpen | JInStr (cur : str) | JAfterStr | JAfterComma | JDone.

Fixpoint jarray (s : str) (st : jstate) (acc : list str) : option (list str) :=
  match s with
  | [] => match st with JDone => Some (rev acc) | _ => None end
  | c :: s' =>
      match st with
      | JStart => if (c =? 91)%N then jarray s' JOpen acc else None
      | JOpen =>
          if (c =? 93)%N then jarray s' JDone acc
          else if (c =? 34)%N then jarray s' (JInStr []) acc
          else None
      | JInStr cur =>
          if (c =? 34)%N then jarray s' JAfterStr (rev cur :: acc)
          else if (c =? 92)%N then None
          else jarray s' (JInStr (c :: cur)) acc
      | JAfterStr =>
          if (c =? 93)%N then jarray s' JDone acc
          else if (c =? 44)%N then jarray s' JAfterComma acc
          else None
      | JAfterComma =>
          if (c =? 32)%N then jarray s' JAfterComma acc
          else if (c =? 34)%N then jarray s' (JInStr []) acc
          else None
      | JDone => None
      end
  end.

Definition frag_json_loads (text : str) : result (list str) :=
  match jarray text JStart [] with
  | Some l => ok l
  | None => raise (py "Expecting value")
  end.

Fixpoint jitems (l : list str) : str :=
  match l with
  | [] => []
  | [x] => [34%N] ++ x ++ [34%N]
  | x :: rest => [34%N] ++ x ++ [34%N] ++ py ", " ++ jitems rest
  end.

Definition frag_json_dumps (l : list str) : str := py "[" ++ jitems l ++ py "]".

Definition frag_pylib : PyLib :=
  {| re_search := frag_re_search;
     inet_aton := quad_inet_aton;
     json_loads := frag_json_loads;
     json_dumps := frag_json_dumps |}.

End Fixtures.

(** Peer filters for the examples. *)
Module PeerFixture.
Import Py PeerFilter Fixtures.
#[local] Existing Instance Zfloat.
#[local] Existing Instance frag_pylib.

(** A bytes literal. *)
Definition bytes_of (s : string) : list Byte.byte := list_byte_of_string s.

(** A filter with a whitelist entry and one custom rule. *)
Definition filter_with_custom : PeerFilter :=
  add_custom_rule (py "-MY") (py "Custom leecher")
    (add_whitelist (py "-qB") PeerFilter_init).

(** A filter that blocks every IPv4 address. *)
Definition filter_block_all : PeerFilter :=
  set_ip_blocklist [(0, 4294967295)] PeerFilter_init.

End PeerFixture.

(** ** The filter after a verdict *)

Module PeerVerdict.
Import PeerFilter.

Section Verdict.
Context `{PyFloat} `{PyLib}.

(** What [check_peer] leaves behind for a verdict: a ban is logged, an
    allow changes nothing. *)
Definition after_verdict (now : float) (client_name ip : str) (self : PeerFilter)
    (v : verdict) : PeerFilter :=
  match v with
  | allow => self
  | ban rsn => _log_ban now ip client_name rsn self
  end.

End Verdict.

End PeerVerdict.

(** ** libtorrent, as the controller uses it *)

Module Status.

Section Status.
Context `{PyFloat}.

(** [lt.torrent_status], the bundle [handle.status()] returns: the fields
    [Torrent.snapshot] reads. *)
Record torrent_status := {
  for_state : TorrentState.StateInputs;  (* what _resolve_state reads *)
  errc_message : str;                    (* s.errc.message() *)
  has_metadata : bool;
  name : str;
  save_path : str;
  progress : float;
  total_wanted : Z;
  total_wanted_done : Z;
  all_time_download : Z;
  all_time_upload : Z;
  upload_rate : Z;
  num_peers : Z;
  num_connections : Z
}.

End Status.

End Status.

(** The engine.  A [session] value is the whole state of the engine at one
    moment; the engine changes it on its own between two controller steps
    (peers come and go), and a handle is answered by the engine in the state
    it is in.  A call that raises is [inl]. *)
Class Libtorrent `{PyFloat} := {
  session : Type;               (* lt.session *)
  torrent_handle : Type;        (* lt.torrent_handle *)
  add_torrent_params : Type;    (* lt.add_torrent_params *)
  engine_detail : Type;         (* files, peers, trackers, pieces of one torrent *)

  (** Module constants: [_FLAG_PAUSED] and [_FLAG_AUTO_MANAGED] of
      [session_worker.py], [lt.torrent_flags] as [torrent.py] reads it. *)
  _FLAG_PAUSED : Z;
  _FLAG_AUTO_MANAGED : Z;
  _FLAG_SEQUENTIAL : Z;
  lt_torrent_flags :: TorrentState.TorrentFlags;

  (** [lt.session(settings)] for the settings [initialize] builds from the
      configuration. *)
  lt_session : gmap str pyval -> session;
  (** [lt.parse_magnet_uri(uri)] (or [parse_magnet_uri_dict] where the
      binding lacks it) *)
  parse_magnet_uri : str -> result add_torrent_params;
  (** [atp = lt.add_torrent_params(); atp.ti = lt.torrent_info(filepath)] *)
  torrent_info : str -> result add_torrent_params;
  (** [lt.read_resume_data(data)] *)
  read_resume_data : list Byte.byte -> result add_torrent_params;
  (** [atp.save_path = v] *)
  set_save_path : pyval -> add_torrent_params -> result add_torrent_params;
  (** [atp.flags] and [atp.flags = f] *)
  flags : add_torrent_params -> Z;
  set_flags : Z -> add_torrent_params -> add_torrent_params;

  (** [session.add_torrent(atp)] *)
  add_torrent : add_torrent_params -> session -> result (torrent_handle * session);
  (** [session.remove_torrent(handle)] and
      [session.remove_torrent(handle, delete_files)] *)
  lt_remove_torrent : torrent_handle -> bool -> session -> result session;
  (** [session.pause()] *)
  session_pause : session -> session;
  (** [session.status()]: download rate, upload rate, DHT nodes *)
  session_status : session -> result (Z * Z * Z);
  (** The IP filter after the blocklist file named in the configuration
      was read ([_load_ip_blocklist]) *)
  load_ip_blocklist : gmap str pyval -> session -> session;

  (** [handle.is_valid()], [handle.status()], [str(handle.info_hash())],
      [handle.download_limit()], [handle.upload_limit()] *)
  is_valid : session -> torrent_handle -> result bool;
  status : session -> torrent_handle -> result Status.torrent_status;
  info_hash : session -> torrent_handle -> result str;
  download_limit : session -> torrent_handle -> result Z;
  upload_limit : session -> torrent_handle -> result Z;
  (** What [get_files], [get_peers], [get_trackers], [get_piece_states]
      and [piece_length] report (each catches its own failures). *)
  detail : session -> torrent_handle -> engine_detail
}.

(** ** [TorrentSnapshot] and [Torrent] ([flux/core/torrent.py]) *)

Module Snap.

Section Snap.
Context `{PyFloat}.

(** [@dataclass class TorrentSnapshot].  The record is written once for
    both models of memory below: [T] is how the [tags] list is held, the
    list itself ([list str]) where snapshots are plain values, an address
    where lists live in a store. *)
Record TorrentSnapshot_ (T : Type) := {
  valid : bool;
  state : TorrentState.TorrentState;
  name : str;
  info_hash : str;
  save_path : str;
  has_metadata : bool;
  progress : float;
  total_size : Z;
  completed_size : Z;
  total_downloaded : Z;
  total_uploaded : Z;
  download_speed : Z;
  upload_speed : Z;
  num_seeds : Z;
  num_peers : Z;
  num_connections : Z;
  ratio : float;
  eta : Z;
  error : str;
  category : str;
  tags : T;
  added_time : float;
  download_limit : Z;
  upload_limit : Z
}.

End Snap.

Arguments valid {_ _}. Arguments state {_ _}. Arguments name {_ _}.
Arguments info_hash {_ _}. Arguments save_path {_ _}.
Arguments has_metadata {_ _}. Arguments progress {_ _}.
Arguments total_size {_ _}. Arguments completed_size {_ _}.
Arguments total_downloaded {_ _}. Arguments total_uploaded {_ _}.
Arguments download_speed {_ _}. Arguments upload_speed {_ _}.
Arguments num_seeds {_ _}. Arguments num_peers {_ _}.
Arguments num_connections {_ _}. Arguments ratio {_ _}.
Arguments eta {_ _}. Arguments error {_ _}. Arguments category {_ _}.
Arguments tags {_ _}. Arguments added_time {_ _}.
Arguments download_limit {_ _}. Arguments upload_limit {_ _}.

End Snap.

Module TorrentModel.
Import TorrentState.

Section Torrent.
Context `{Libtorrent}.

(** [TorrentSnapshot(valid=False, state=TorrentState.ERROR, name=...,
    info_hash=..., category=..., tags=..., added_time=..., error=...)]:
    the fields not given take the dataclass defaults. *)
Definition failed_snapshot {T} (nm ih cat : str) (tgs : T) (added : float)
    (err : str) : Snap.TorrentSnapshot_ T :=
  {| Snap.valid := false; Snap.state := ERROR; Snap.name := nm;
     Snap.info_hash := ih; Snap.save_path := []; Snap.has_metadata := false;
     Snap.progress := float_zero; Snap.total_size := 0;
     Snap.completed_size := 0; Snap.total_downloaded := 0;
     Snap.total_uploaded := 0; Snap.download_speed := 0;
     Snap.upload_speed := 0; Snap.num_seeds := 0; Snap.num_peers := 0;
     Snap.num_connections := 0; Snap.ratio := float_zero; Snap.eta := 0;
     Snap.error := err; Snap.category := cat; Snap.tags := tgs;
     Snap.added_time := added; Snap.download_limit := 0;
     Snap.upload_limit := 0 |}.

(** [TorrentSnapshot()]: all defaults; [__post_init__] gives it a list of
    its own for [tags], here [tgs]. *)
Definition default_snapshot {T} (tgs : T) : Snap.TorrentSnapshot_ T :=
  failed_snapshot (py "Unknown") [] [] tgs float_zero [].

(** [x or dflt] on strings *)
Definition str_or (x dflt : str) : str := if nonempty x then x else dflt.

(** The name [snapshot] resolves:
<<
    name = "Unknown"
    if s.has_metadata: name = s.name
    elif hasattr(s, 'name') and s.name: name = s.name
    else:
        try: name = str(self._handle.info_hash())
        except Exception: name = self._snap.name or "Unknown"
>> *)
Definition resolve_name (ses : session) (h : torrent_handle)
    (s : Status.torrent_status) (prev_name : str) : str :=
  if Status.has_metadata s then Status.name s
  else if nonempty (Status.name s) then Status.name s
  else match info_hash ses h with
       | inr ih => ih
       | inl _ => str_or prev_name (py "Unknown")
       end.

(** [eta]:
<<
    eta = 0
    if s.download_rate > 0:
        remaining = s.total_wanted - s.total_wanted_done
        if remaining > 0: eta = int(remaining / s.download_rate)
>> *)
Definition resolve_eta (s : Status.torrent_status) : Z :=
  let rate := download_rate (Status.for_state s) in
  if 0 <? rate then
    let remaining := Status.total_wanted s - Status.total_wanted_done s in
    if 0 <? remaining then float_trunc (float_div remaining rate) else 0
  else 0.

(** The limits:
<<
    try:
        dl_limit = self._handle.download_limit()
        ul_limit = self._handle.upload_limit()
    except Exception:
        dl_limit = 0; ul_limit = 0
>> *)
Definition resolve_limits (ses : session) (h : torrent_handle) : Z * Z :=
  match download_limit ses h with
  | inr dl =>
      match upload_limit ses h with
      | inr ul => (dl, ul)
      | inl _ => (0, 0)
      end
  | inl _ => (0, 0)
  end.

(** The body of [Torrent.snapshot]: the snapshot it builds, from the
    engine's answers, the torrent's own fields, the name and info-hash of
    the snapshot cached so far, and the copy [self._tags[:]] it takes of
    the tags. *)
Definition snapshot_of {T} (ses : session) (h : torrent_handle)
    (cat : str) (added : float) (prev_name prev_info_hash : str)
    (tags_copy : T) : Snap.TorrentSnapshot_ T :=
  let on_exception (e : exn) :=
    failed_snapshot (str_or prev_name (py "Error")) prev_info_hash cat
                    tags_copy added e in
  match is_valid ses h with
  | inl e => on_exception e
  | inr false =>
      failed_snapshot (str_or prev_name (py "Invalid")) prev_info_hash cat
                      tags_copy added (py "Handle is invalid")
  | inr true =>
      match status ses h with
      | inl e => on_exception e
      | inr s =>
          let nm := resolve_name ses h s prev_name in
          let st := _resolve_state (Status.for_state s) in
          let err := if negb (errc_value (Status.for_state s) =? 0)
                     then Status.errc_message s else [] in
          let total_dl := Status.all_time_download s in
          let total_ul := Status.all_time_upload s in
          let rat := if 0 <? total_dl then float_div total_ul total_dl
                     else float_zero in
          let et := resolve_eta s in
          let '(dl_limit, ul_limit) := resolve_limits ses h in
          match info_hash ses h with
          | inl e => on_exception e
          | inr ih =>
              {| Snap.valid := true; Snap.state := st; Snap.name := nm;
                 Snap.info_hash := ih;
                 Snap.save_path := Status.save_path s;
                 Snap.has_metadata := Status.has_metadata s;
                 Snap.progress := Status.progress s;
                 Snap.total_size := if Status.has_metadata s
                                    then Status.total_wanted s else 0;
                 Snap.completed_size := Status.total_wanted_done s;
                 Snap.total_downloaded := total_dl;
                 Snap.total_uploaded := total_ul;
                 Snap.download_speed := download_rate (Status.for_state s);
                 Snap.upload_speed := Status.upload_rate s;
                 Snap.num_seeds := num_seeds (Status.for_state s);
                 Snap.num_peers := Status.num_peers s;
                 Snap.num_connections := Status.num_connections s;
                 Snap.ratio := rat; Snap.eta := et; Snap.error := err;
                 Snap.category := cat; Snap.tags := tags_copy;
                 Snap.added_time := added;
                 Snap.download_limit := dl_limit;
                 Snap.upload_limit := ul_limit |}
          end
      end
  end.

(** [append] then [pop(0)] when the list grew past [max]: the bounded
    histories of the torrent and of the session. *)
Definition push_bounded {A} (max : nat) (x : A) (l : list A) : list A :=
  let l' := l ++ [x] in
  if (max <? length l')%nat then tl l' else l'.

(** *** Snapshots as values *)

Definition TorrentSnapshot := Snap.TorrentSnapshot_ (list str).

(** [class Torrent] *)
Record Torrent := {
  _handle : torrent_handle;
  _category : str;
  _tags : list str;
  _added_time : float;
  _speed_history_dl : list Z;
  _speed_history_ul : list Z;
  _max_history : nat;
  _snap : TorrentSnapshot
}.

Definition set_snap (snap : TorrentSnapshot) (self : Torrent) : Torrent :=
  {| _handle := _handle self; _category := _category self;
     _tags := _tags self; _added_time := _added_time self;
     _speed_history_dl := _speed_history_dl self;
     _speed_history_ul := _speed_history_ul self;
     _max_history := _max_history self; _snap := snap |}.

(** [Torrent.snapshot()]: builds the snapshot, caches it in [self._snap]
    and returns it. *)
Definition snapshot (ses : session) (self : Torrent) : TorrentSnapshot * Torrent :=
  let snap := snapshot_of ses (_handle self) (_category self)
                (_added_time self) (Snap.name (_snap self))
                (Snap.info_hash (_snap self)) (_tags self) in
  (snap, set_snap snap self).

(** [Torrent.record_speed()] *)
Definition record_speed (self : Torrent) : Torrent :=
  {| _handle := _handle self; _category := _category self;
     _tags := _tags self; _added_time := _added_time self;
     _speed_history_dl :=
       push_bounded (_max_history self) (Snap.download_speed (_snap self))
                    (_speed_history_dl self);
     _speed_history_ul :=
       push_bounded (_max_history self) (Snap.upload_speed (_snap self))
                    (_speed_history_ul self);
     _max_history := _max_history self; _snap := _snap self |}.

(** [Torrent.__init__(handle, category, tags)]; [now] is [time.time()].
    The constructor ends with a first [self.snapshot()]. *)
Definition Torrent_init (ses : session) (now : float) (h : torrent_handle)
    (cat : str) (tgs : list str) : Torrent :=
  snd (snapshot ses
         {| _handle := h; _category := cat; _tags := tgs;
            _added_time := now; _speed_history_dl := [];
            _speed_history_ul := []; _max_history := 120;
            _snap := default_snapshot [] |}).

(** The [added_time] setter, [category] setter, [add_tag], [remove_tag] *)
Definition set_added_time (v : float) (self : Torrent) : Torrent :=
  {| _handle := _handle self; _category := _category self;
     _tags := _tags self; _added_time := v;
     _speed_history_dl := _speed_history_dl self;
     _speed_history_ul := _speed_history_ul self;
     _max_history := _max_history self; _snap := _snap self |}.

Definition set_category (v : str) (self : Torrent) : Torrent :=
  {| _handle := _handle self; _category := v;
     _tags := _tags self; _added_time := _added_time self;
     _speed_history_dl := _speed_history_dl self;
     _speed_history_ul := _speed_history_ul self;
     _max_history := _max_history self; _snap := _snap self |}.

Definition set_tags (v : list str) (self : Torrent) : Torrent :=
  {| _handle := _handle self; _category := _category self;
     _tags := v; _added_time := _added_time self;
     _speed_history_dl := _speed_history_dl self;
     _speed_history_ul := _speed_history_ul self;
     _max_history := _max_history self; _snap := _snap self |}.

(** [list.remove(x)]: drops the first occurrence *)
Fixpoint list_remove_first (x : str) (l : list str) : list str :=
  match l with
  | [] => []
  | y :: l' => if bool_decide (y = x) then l' else y :: list_remove_first x l'
  end.

Definition tags_add (tag : str) (l : list str) : list str :=
  if bool_decide (tag ∈ l) then l else l ++ [tag].

Definition tags_remove (tag : str) (l : list str) : list str :=
  if bool_decide (tag ∈ l) then list_remove_first tag l else l.

Definition add_tag (tag : str) (self : Torrent) : Torrent :=
  set_tags (tags_add tag (_tags self)) self.

Definition remove_tag (tag : str) (self : Torrent) : Torrent :=
  set_tags (tags_remove tag (_tags self)) self.

End Torrent.

End TorrentModel.

(** ** The resume database ([resume.db], through [sqlite3])

    The database holds two tables.  [schema_version] is the one-row table
    this code creates; [resume_data] has the seven columns of the first
    schema and whatever integer columns were added since.  A statement
    takes effect when it runs ([commit] changes nothing more), and one that
    SQLite refuses raises [sqlite3.OperationalError] ([None] below).
    [sqlite3] can also raise for a reason that is not in the tables: the
    file is locked by another connection, is read-only, or the disk
    fails.  The [DELETE] of [remove_torrent], whose [except] is there for
    it, takes such a fault as an argument. *)

Module ResumeDb.

Section Db.
Context `{PyFloat}.

(** A row of [resume_data]. *)
Record ResumeRow := {
  info_hash : str;
  resume_data : list Byte.byte;
  name : str;
  category : str;
  tags : str;                      (* JSON text *)
  added_time : float;
  save_path : str;
  added_columns : list (str * Z)   (* the values in the columns added later *)
}.

Record ResumeTable := {
  extra_columns : list (str * Z);  (* added columns, each with its default *)
  rows : list ResumeRow
}.

Record Database := {
  (** [None]: no such table; [Some None]: the table has no row with
      [id = 1]; [Some (Some v)]: that row holds version [v]. *)
  schema_version : option (option Z);
  table : option ResumeTable       (* the table resume_data *)
}.

(** A database file that does not exist yet is opened empty. *)
Definition empty_db : Database := {| schema_version := None; table := None |}.

(** The columns of the first schema, as both [CREATE TABLE] statements
    list them. *)
Definition v1_columns : list str :=
  [py "info_hash"; py "resume_data"; py "name"; py "category"; py "tags";
   py "added_time"; py "save_path"].

Definition columns (t : ResumeTable) : list str :=
  v1_columns ++ map fst (extra_columns t).

(** The default of a column, for the columns that have one we use. *)
Definition column_default (t : ResumeTable) (c : str) : option Z :=
  od_get c (extra_columns t).

(** [CREATE TABLE IF NOT EXISTS schema_version (...)] *)
Definition create_schema_version (db : Database) : Database :=
  {| schema_version := match schema_version db with
                       | None => Some None
                       | Some r => Some r
                       end;
     table := table db |}.

(** [CREATE TABLE IF NOT EXISTS resume_data (info_hash ..., save_path ...)]:
    nothing happens when a table of that name exists, whatever its
    columns. *)
Definition create_resume_data (db : Database) : Database :=
  {| schema_version := schema_version db;
     table := match table db with
              | None => Some {| extra_columns := []; rows := [] |}
              | Some t => Some t
              end |}.

(** [ALTER TABLE resume_data ADD COLUMN c INTEGER DEFAULT 0]: refused when
    the table is missing or has a column [c]; the rows that exist read the
    default in the new column. *)
Definition add_column (c : str) (db : Database) : option Database :=
  match table db with
  | None => None
  | Some t =>
      if bool_decide (c ∈ columns t) then None
      else Some {| schema_version := schema_version db;
                   table := Some
                     {| extra_columns := extra_columns t ++ [(c, 0)];
                        rows := map (fun r =>
                          {| info_hash := info_hash r;
                             resume_data := resume_data r;
                             name := name r; category := category r;
                             tags := tags r; added_time := added_time r;
                             save_path := save_path r;
                             added_columns := added_columns r ++ [(c, 0)] |})
                          (rows t) |} |}
  end.

(** [execute("DELETE FROM resume_data WHERE info_hash = ?", (h,))] and
    [commit()].  [fault] is the exception [sqlite3] raises for a reason
    outside the tables (database locked or read-only, disk I/O error), if
    it does: the statement then changes nothing, whether the row is
    there or not.  Without a fault the statement is refused only when the
    table is missing. *)
Definition delete_row (fault : option exn) (h : str) (db : Database)
  : result Database :=
  match fault with
  | Some e => raise e
  | None =>
      match table db with
      | None => raise (py "no such table: resume_data")
      | Some t =>
          ok {| schema_version := schema_version db;
                table := Some
                  {| extra_columns := extra_columns t;
                     rows := List.filter
                               (fun r => negb (str_eqb (info_hash r) h))
                               (rows t) |} |}
      end
  end.

(** [INSERT OR REPLACE INTO resume_data (info_hash, resume_data, name,
    category, tags, added_time, save_path) VALUES (...)]: the row with this
    primary key is replaced; the added columns take their defaults. *)
Definition upsert_row (h : str) (data : list Byte.byte)
    (nm cat tgs : str) (added : float) (path : str) (db : Database)
  : option Database :=
  match table db with
  | None => None
  | Some t =>
      Some {| schema_version := schema_version db;
              table := Some
                {| extra_columns := extra_columns t;
                   rows := List.filter (fun r => negb (str_eqb (info_hash r) h))
                                       (rows t) ++
                           [{| info_hash := h; resume_data := data;
                               name := nm; category := cat; tags := tgs;
                               added_time := added; save_path := path;
                               added_columns := extra_columns t |}] |} |}
  end.

(** [SELECT info_hash, resume_data, category, tags, added_time FROM
    resume_data] *)
Definition select_rows (db : Database) : option (list ResumeRow) :=
  match table db with
  | None => None
  | Some t => Some (rows t)
  end.

(** Whether a row with this key is stored. *)
Definition has_row (h : str) (db : Database) : bool :=
  match table db with
  | None => false
  | Some t => existsb (fun r => str_eqb (info_hash r) h) (rows t)
  end.

(** [_SCHEMA_VERSION = 2] *)
Definition _SCHEMA_VERSION : Z := 2.

(** [SessionWorker._get_schema_version]:
<<
    try:
        cursor = self._resume_db.execute("SELECT version FROM schema_version WHERE id = 1")
        row = cursor.fetchone()
        return row[0] if row else 0
    except sqlite3.OperationalError:
        return 0
>> *)
Definition _get_schema_version (db : Database) : Z :=
  match schema_version db with
  | Some (Some v) => v
  | Some None => 0
  | None => 0
  end.

(** [SessionWorker._set_schema_version(version)]:
    [INSERT OR REPLACE INTO schema_version (id, version) VALUES (1, ?)];
    refused when the table is missing. *)
Definition _set_schema_version (version : Z) (db : Database) : option Database :=
  match schema_version db with
  | None => None
  | Some _ => Some {| schema_version := Some (Some version); table := table db |}
  end.

(** [SessionWorker._migrate_schema(from_version)]:
<<
    if from_version < 1:
        CREATE TABLE IF NOT EXISTS resume_data (...)
    if from_version < 2:
        try:
            ALTER TABLE resume_data ADD COLUMN dl_limit INTEGER DEFAULT 0
            ALTER TABLE resume_data ADD COLUMN ul_limit INTEGER DEFAULT 0
        except sqlite3.OperationalError:
            pass
    self._set_schema_version(_SCHEMA_VERSION)
>> *)
Definition _migrate_schema (from_version : Z) (db : Database) : option Database :=
  let db1 := if from_version <? 1 then create_resume_data db else db in
  let db2 :=
    if from_version <? 2 then
      match add_column (py "dl_limit") db1 with
      | None => db1
      | Some db' =>
          match add_column (py "ul_limit") db' with
          | None => db'
          | Some db'' => db''
          end
      end
    else db1 in
  _set_schema_version _SCHEMA_VERSION db2.

(** [SessionWorker._init_resume_db], on the database found on disk:
<<
    CREATE TABLE IF NOT EXISTS schema_version (...)
    version = self._get_schema_version()
    if version == 0:
        CREATE TABLE IF NOT EXISTS resume_data (...)
        self._set_schema_version(_SCHEMA_VERSION)
    elif version < _SCHEMA_VERSION:
        self._migrate_schema(version)
    self._resume_db.commit()
>> *)
Definition _init_resume_db (disk : Database) : option Database :=
  let db := create_schema_version disk in
  let version := _get_schema_version db in
  if version =? 0 then
    _set_schema_version _SCHEMA_VERSION (create_resume_data db)
  else if version <? _SCHEMA_VERSION then
    _migrate_schema version db
  else Some db.

(** A database written before the schema was versioned: no
    [schema_version] table, [resume_data] with the seven first columns. *)
Definition is_version0 (db : Database) : Prop :=
  schema_version db = None /\
  exists t, table db = Some t /\ extra_columns t = [] /\ rows t <> [].

End Db.

End ResumeDb.

(** ** The session controller ([flux/core/session_worker.py]) *)

Module Stats.

Section Stats.
Context `{PyFloat}.

(** [@dataclass class SessionStats].  [H] is how a history list is held
    and [L] how the list of snapshots is held: the lists themselves where
    statistics are plain values, addresses where lists live in a store. *)
Record SessionStats_ (H L : Type) := {
  download_rate : Z;
  upload_rate : Z;
  dht_nodes : Z;
  dl_history : H;
  ul_history : H;
  torrent_count : Z;
  torrents : L
}.

End Stats.

Arguments download_rate {_ _}. Arguments upload_rate {_ _}.
Arguments dht_nodes {_ _}. Arguments dl_history {_ _}.
Arguments ul_history {_ _}. Arguments torrent_count {_ _}.
Arguments torrents {_ _}.

End Stats.

Module Worker.
Import TorrentModel.

Section Worker.
Context `{Libtorrent} `{PyLib}.

Definition SessionStats :=
  Stats.SessionStats_ (list Z) (list TorrentSnapshot).

(** [@dataclass class DetailData] *)
Record DetailData := {
  detail_info_hash : str;
  detail_engine : engine_detail;    (* files, peers, trackers, pieces, piece_length *)
  detail_dl_history : list Z;
  detail_ul_history : list Z
}.

(** The outbound signals of [SessionWorker]. *)
Inductive Signal :=
| torrent_added (h : str)
| torrent_removed (h : str)
| torrent_finished (h : str)
| torrent_error (h msg : str)
| torrent_metadata (h : str)
| stats_updated (s : SessionStats)
| detail_updated (d : DetailData)
| peer_banned (ip rsn : str)
| magnet_uri_ready (uri : str)
| started
| stopped.

(** The state of a [SessionWorker].  [_timers] says whether the four
    periodic timers were started. *)
Record SessionWorker := {
  _cfg : gmap str pyval;
  _session : option session;
  _torrents : list (str * Torrent);
  _peer_filter : PeerFilter.PeerFilter;
  _resume_db : option ResumeDb.Database;
  _session_dl_history : list Z;
  _session_ul_history : list Z;
  _max_session_history : nat;
  _focused_hash : str;
  _timers : bool
}.

(** [SessionWorker.__init__(cfg)] *)
Definition SessionWorker_init (cfg : gmap str pyval) : SessionWorker :=
  {| _cfg := cfg; _session := None; _torrents := [];
     _peer_filter := PeerFilter.PeerFilter_init; _resume_db := None;
     _session_dl_history := []; _session_ul_history := [];
     _max_session_history := 300; _focused_hash := []; _timers := false |}.

Definition set_session (v : option session) (w : SessionWorker) : SessionWorker :=
  {| _cfg := _cfg w; _session := v; _torrents := _torrents w;
     _peer_filter := _peer_filter w; _resume_db := _resume_db w;
     _session_dl_history := _session_dl_history w;
     _session_ul_history := _session_ul_history w;
     _max_session_history := _max_session_history w;
     _focused_hash := _focused_hash w; _timers := _timers w |}.

Definition set_torrents (v : list (str * Torrent)) (w : SessionWorker) : SessionWorker :=
  {| _cfg := _cfg w; _session := _session w; _torrents := v;
     _peer_filter := _peer_filter w; _resume_db := _resume_db w;
     _session_dl_history := _session_dl_history w;
     _session_ul_history := _session_ul_history w;
     _max_session_history := _max_session_history w;
     _focused_hash := _focused_hash w; _timers := _timers w |}.

Definition set_peer_filter (v : PeerFilter.PeerFilter) (w : SessionWorker) : SessionWorker :=
  {| _cfg := _cfg w; _session := _session w; _torrents := _torrents w;
     _peer_filter := v; _resume_db := _resume_db w;
     _session_dl_history := _session_dl_history w;
     _session_ul_history := _session_ul_history w;
     _max_session_history := _max_session_history w;
     _focused_hash := _focused_hash w; _timers := _timers w |}.

Definition set_resume_db (v : option ResumeDb.Database) (w : SessionWorker) : SessionWorker :=
  {| _cfg := _cfg w; _session := _session w; _torrents := _torrents w;
     _peer_filter := _peer_filter w; _resume_db := v;
     _session_dl_history := _session_dl_history w;
     _session_ul_history := _session_ul_history w;
     _max_session_history := _max_session_history w;
     _focused_hash := _focused_hash w; _timers := _timers w |}.

Definition set_histories (dl ul : list Z) (w : SessionWorker) : SessionWorker :=
  {| _cfg := _cfg w; _session := _session w; _torrents := _torrents w;
     _peer_filter := _peer_filter w; _resume_db := _resume_db w;
     _session_dl_history := dl; _session_ul_history := ul;
     _max_session_history := _max_session_history w;
     _focused_hash := _focused_hash w; _timers := _timers w |}.

Definition set_timers (v : bool) (w : SessionWorker) : SessionWorker :=
  {| _cfg := _cfg w; _session := _session w; _torrents := _torrents w;
     _peer_filter := _peer_filter w; _resume_db := _resume_db w;
     _session_dl_history := _session_dl_history w;
     _session_ul_history := _session_ul_history w;
     _max_session_history := _max_session_history w;
     _focused_hash := _focused_hash w; _timers := v |}.

(** [SessionWorker.set_focused_torrent(info_hash)] *)
Definition set_focused_torrent (h : str) (w : SessionWorker) : SessionWorker :=
  {| _cfg := _cfg w; _session := _session w; _torrents := _torrents w;
     _peer_filter := _peer_filter w; _resume_db := _resume_db w;
     _session_dl_history := _session_dl_history w;
     _session_ul_history := _session_ul_history w;
     _max_session_history := _max_session_history w;
     _focused_hash := h; _timers := _timers w |}.

(** What a slot leaves behind: the state, the signals it emitted in
    order, and the exception that left it, if one did. *)
Record Outcome := {
  after : SessionWorker;
  emitted : list Signal;
  raised : option exn
}.

Definition done (w : SessionWorker) (sigs : list Signal) : Outcome :=
  {| after := w; emitted := sigs; raised := None |}.

(** *** Adding *)

(** [json.loads(tags_json) if tags_json else []] *)
Definition load_tags (tags_json : str) : result (list str) :=
  if nonempty tags_json then json_loads tags_json else ok [].

(** [save_path or self._cfg.get("default_save_path")] *)
Definition save_path_or_default (save_path : str) (cfg : gmap str pyval) : pyval :=
  if nonempty save_path then VStr save_path
  else match cfg !! py "default_save_path" with
       | Some v => v
       | None => VNone
       end.

(** The flags [add_magnet] sets:
<<
    if paused:
        atp.flags |= _FLAG_PAUSED
        atp.flags &= ~_FLAG_AUTO_MANAGED
    else:
        atp.flags |= _FLAG_AUTO_MANAGED
>> *)
Definition with_paused_flags (paused : bool) (atp : add_torrent_params)
  : add_torrent_params :=
  if paused then
    set_flags (Z.land (Z.lor (flags atp) _FLAG_PAUSED) (Z.lnot _FLAG_AUTO_MANAGED)) atp
  else set_flags (Z.lor (flags atp) _FLAG_AUTO_MANAGED) atp.

(** The part of [add_magnet] and [add_torrent_file] after the parameters
    are ready: hand them to the engine and register the torrent.
<<
    handle = self._session.add_torrent(atp)
    info_hash = str(handle.info_hash())
    if info_hash not in self._torrents:
        torrent = Torrent(handle, category=category, tags=tags)
        self._torrents[info_hash] = torrent
        self.torrent_added.emit(info_hash)
>>
    An exception is caught by the caller's [except Exception]; what the
    engine did before it stays done. *)
Definition register (now : float) (atp : add_torrent_params) (category : str)
    (tags : list str) (ses : session) (w : SessionWorker) : Outcome :=
  match add_torrent atp ses with
  | inl _ => done w []
  | inr (handle, ses') =>
      let w1 := set_session (Some ses') w in
      match info_hash ses' handle with
      | inl _ => done w1 []
      | inr ih =>
          if od_mem ih (_torrents w1) then done w1 []
          else
            let torrent := Torrent_init ses' now handle category tags in
            done (set_torrents (od_set ih torrent (_torrents w1)) w1)
                 [torrent_added ih]
      end
  end.

(** [SessionWorker.add_magnet(uri, save_path, category, tags_json, paused)]:
<<
    if not self._session:
        return
    if not uri or not uri.strip().startswith("magnet:"):
        logger.error(...)
        return
    try:
        tags = json.loads(tags_json) if tags_json else []
        atp = lt.parse_magnet_uri(uri.strip())
        atp.save_path = save_path or self._cfg.get("default_save_path")
        ...
    except Exception as e:
        logger.error(...)
>>
    [now] is the clock the [Torrent] constructor reads. *)
Definition add_magnet (now : float) (uri save_path category tags_json : str)
    (paused : bool) (w : SessionWorker) : Outcome :=
  match _session w with
  | None => done w []
  | Some ses =>
      if negb (nonempty uri) || negb (startswith (strip uri) (py "magnet:"))
      then done w []
      else
        match load_tags tags_json with
        | inl _ => done w []
        | inr tags =>
            match parse_magnet_uri (strip uri) with
            | inl _ => done w []
            | inr atp =>
                match set_save_path (save_path_or_default save_path (_cfg w)) atp with
                | inl _ => done w []
                | inr atp1 =>
                    register now (with_paused_flags paused atp1) category tags ses w
                end
            end
        end
  end.

(** [SessionWorker.add_torrent_file(filepath, save_path, category,
    tags_json, paused, sequential)] *)
Definition add_torrent_file (now : float) (filepath save_path category tags_json : str)
    (paused sequential : bool) (w : SessionWorker) : Outcome :=
  match _session w with
  | None => done w []
  | Some ses =>
      match load_tags tags_json with
      | inl _ => done w []
      | inr tags =>
          match torrent_info filepath with
          | inl _ => done w []
          | inr atp =>
              match set_save_path (save_path_or_default save_path (_cfg w)) atp with
              | inl _ => done w []
              | inr atp1 =>
                  let atp2 := with_paused_flags paused atp1 in
                  let atp3 := if sequential
                              then set_flags (Z.lor (flags atp2) _FLAG_SEQUENTIAL) atp2
                              else atp2 in
                  register now atp3 category tags ses w
              end
          end
      end
  end.

(** *** Removing *)

(** [SessionWorker.remove_torrent(info_hash, delete_files)]:
<<
    torrent = self._torrents.get(info_hash)
    if not torrent or not self._session:
        return
    ...
    self._session.remove_torrent(torrent.handle [, delete_files])
    del self._torrents[info_hash]
    if self._resume_db:
        try:
            self._resume_db.execute("DELETE FROM resume_data WHERE info_hash = ?", (info_hash,))
            self._resume_db.commit()
        except Exception as e:
            logger.error(...)
    self.torrent_removed.emit(info_hash)
>>
    The engine call is outside any [try]: when it raises, the exception
    leaves the slot and nothing was changed.  [sql_fault] is what
    [sqlite3] raises for the [DELETE] or the [commit] when the database
    is locked or cannot be written ([None]: no such fault); the [except]
    logs it and the slot goes on. *)
Definition remove_torrent (sql_fault : option exn) (h : str) (delete_files : bool)
    (w : SessionWorker) : Outcome :=
  match od_get h (_torrents w), _session w with
  | Some torrent, Some ses =>
      match lt_remove_torrent (_handle torrent) delete_files ses with
      | inl e => {| after := w; emitted := []; raised := Some e |}
      | inr ses' =>
          let w1 := set_torrents (od_del h (_torrents w)) (set_session (Some ses') w) in
          let w2 :=
            match _resume_db w1 with
            | Some db =>
                match ResumeDb.delete_row sql_fault h db with
                | inr db' => set_resume_db (Some db') w1
                | inl _ => w1
                end
            | None => w1
            end in
          done w2 [torrent_removed h]
      end
  | _, _ => done w []
  end.

(** *** Resume data *)

(** [SessionWorker._handle_save_resume_data(alert)]: [handle] is
    [alert.handle] and [buf] what [lt.write_resume_data_buf(alert.params)]
    gives.  Every failure is caught and logged. *)
Definition _handle_save_resume_data (now : float) (handle : torrent_handle)
    (buf : result (list Byte.byte)) (w : SessionWorker) : SessionWorker :=
  match _resume_db w, _session w with
  | Some db, Some ses =>
      match info_hash ses handle with
      | inl _ => w
      | inr ih =>
          let torrent := od_get ih (_torrents w) in
          match buf with
          | inl _ => w
          | inr data =>
              let row :=
                match torrent with
                | Some t =>
                    ResumeDb.upsert_row ih data (Snap.name (_snap t)) (_category t)
                      (json_dumps (_tags t)) (_added_time t)
                      (Snap.save_path (_snap t)) db
                | None =>
                    ResumeDb.upsert_row ih data [] [] (json_dumps []) now [] db
                end in
              match row with
              | Some db' => set_resume_db (Some db') w
              | None => w
              end
          end
      end
  | _, _ => w
  end.

(** One turn of the loop of [_load_resume_data]:
<<
    try:
        atp = lt.read_resume_data(data)
        handle = self._session.add_torrent(atp)
        tags = json.loads(tags_json) if tags_json else []
        torrent = Torrent(handle, category=category, tags=tags)
        torrent.added_time = added_time or time.time()
        self._torrents[str(handle.info_hash())] = torrent
    except Exception as e:
        logger.error(...)
>> *)
Definition load_row (now : float) (row : ResumeDb.ResumeRow)
    (st : session * list (str * Torrent)) : session * list (str * Torrent) :=
  let '(ses, table) := st in
  match read_resume_data (ResumeDb.resume_data row) with
  | inl _ => st
  | inr atp =>
      match add_torrent atp ses with
      | inl _ => st
      | inr (handle, ses') =>
          match load_tags (ResumeDb.tags row) with
          | inl _ => (ses', table)
          | inr tags =>
              let torrent := Torrent_init ses' now handle (ResumeDb.category row) tags in
              let torrent' :=
                set_added_time (if float_truthy (ResumeDb.added_time row)
                                then ResumeDb.added_time row else now) torrent in
              match info_hash ses' handle with
              | inl _ => (ses', table)
              | inr ih => (ses', od_set ih torrent' table)
              end
          end
      end
  end.

Definition load_rows (now : float) (rows : list ResumeDb.ResumeRow)
    (st : session * list (str * Torrent)) : session * list (str * Torrent) :=
  fold_left (fun st row => load_row now row st) rows st.

(** [SessionWorker._load_resume_data]; the [SELECT] is outside the [try],
    so a refused statement leaves the method. *)
Definition _load_resume_data (now : float) (w : SessionWorker) : Outcome :=
  match _resume_db w, _session w with
  | None, _ => done w []
  | Some db, Some ses =>
      match ResumeDb.select_rows db with
      | None => {| after := w; emitted := [];
                   raised := Some (py "no such table: resume_data") |}
      | Some rows =>
          let '(ses', table) := load_rows now rows (ses, _torrents w) in
          done (set_torrents table (set_session (Some ses') w)) []
      end
  | Some db, None =>
      (* every row fails inside its [try] *)
      match ResumeDb.select_rows db with
      | None => {| after := w; emitted := [];
                   raised := Some (py "no such table: resume_data") |}
      | Some _ => done w []
      end
  end.

(** [self._peer_filter.configure(self._cfg)]: each flag defaults to
    [True]. *)
Definition cfg_flag (cfg : gmap str pyval) (key : string) : bool :=
  match cfg !! py key with
  | Some v => truthy v
  | None => true
  end.

(** [SessionWorker.initialize], with the database [disk] found in
    [resume.db] (empty when the file is new):
<<
    self._session = lt.session(settings)
    self._peer_filter.configure(self._cfg)
    self._init_resume_db()
    self._load_ip_blocklist()
    self._load_resume_data()
    ... start the four timers ...
    self.started.emit()
>> *)
Definition initialize (now : float) (disk : ResumeDb.Database) (w : SessionWorker)
  : Outcome :=
  let ses := lt_session (_cfg w) in
  let w1 := set_session (Some ses) w in
  let w2 := set_peer_filter
              (PeerFilter.configure
                 (cfg_flag (_cfg w) "peer_filter_enabled")
                 (cfg_flag (_cfg w) "auto_ban_xunlei")
                 (cfg_flag (_cfg w) "auto_ban_qq")
                 (cfg_flag (_cfg w) "auto_ban_baidu")
                 (_peer_filter w1)) w1 in
  match ResumeDb._init_resume_db disk with
  | None =>
      {| after := set_resume_db (Some (ResumeDb.create_schema_version disk)) w2;
         emitted := [];
         raised := Some (py "no such table: schema_version") |}
  | Some db =>
      let w3 := set_resume_db (Some db) w2 in
      let w4 := set_session (Some (load_ip_blocklist (_cfg w) ses)) w3 in
      let o := _load_resume_data now w4 in
      match raised o with
      | Some e => o
      | None => done (set_timers true (after o)) [started]
      end
  end.

(** *** The stats tick *)

(** The loop of [_update_stats] over [self._torrents.values()]:
<<
    for torrent in self._torrents.values():
        try:
            snap = torrent.snapshot()
            torrent.record_speed()
            snapshots.append(snap)
        except Exception:
            pass
>> *)
Fixpoint snapshot_all (ses : session) (table : list (str * Torrent))
  : list TorrentSnapshot * list (str * Torrent) :=
  match table with
  | [] => ([], [])
  | (k, torrent) :: rest =>
      let '(snap, torrent1) := snapshot ses torrent in
      let torrent2 := record_speed torrent1 in
      let '(snaps, rest') := snapshot_all ses rest in
      (snap :: snaps, (k, torrent2) :: rest')
  end.

(** [SessionWorker._update_stats] *)
Definition _update_stats (w : SessionWorker) : Outcome :=
  match _session w with
  | None => done w []
  | Some ses =>
      let '(dl_rate, ul_rate, dht_count, w1) :=
        match session_status ses with
        | inr (dl_rate, ul_rate, dht_count) =>
            (dl_rate, ul_rate, dht_count,
             set_histories
               (push_bounded (_max_session_history w) dl_rate (_session_dl_history w))
               (push_bounded (_max_session_history w) ul_rate (_session_ul_history w))
               w)
        | inl _ => (0, 0, 0, w)
        end in
      let '(snapshots, table) := snapshot_all ses (_torrents w1) in
      let w2 := set_torrents table w1 in
      let stats : SessionStats :=
        {| Stats.download_rate := dl_rate; Stats.upload_rate := ul_rate;
           Stats.dht_nodes := dht_count;
           Stats.dl_history := _session_dl_history w2;
           Stats.ul_history := _session_ul_history w2;
           Stats.torrent_count := Z.of_nat (length (_torrents w2));
           Stats.torrents := snapshots |} in
      let detail :=
        if nonempty (_focused_hash w2) then
          match od_get (_focused_hash w2) (_torrents w2) with
          | Some t =>
              [detail_updated
                 {| detail_info_hash := _focused_hash w2;
                    detail_engine := detail ses (_handle t);
                    detail_dl_history := _speed_history_dl t;
                    detail_ul_history := _speed_history_ul t |}]
          | None => []
          end
        else [] in
      done w2 (stats_updated stats :: detail)
  end.

(** *** Invariants of the torrent table *)

(** The table is a dictionary: no key twice. *)
Definition table_ok (w : SessionWorker) : Prop :=
  NoDup (od_keys (_torrents w)).

(** Every torrent's cached snapshot carries the key the torrent is stored
    under, and the engine, in state [ses], reports that key as the
    info-hash of the torrent's handle whenever it reports one. *)
Definition keys_cached (ses : session) (table : list (str * Torrent)) : Prop :=
  Forall (fun kt =>
            Snap.info_hash (_snap (snd kt)) = fst kt /\
            forall ih, info_hash ses (_handle (snd kt)) = inr ih -> ih = fst kt)
         table.

(** How the info-hash of a snapshot taken at a tick comes about: from the
    engine when the snapshot is valid, from the snapshot cached before
    otherwise. *)
Definition info_hash_source (ses : session) (kt : str * Torrent)
    (snap : TorrentSnapshot) : Prop :=
  (Snap.valid snap = true ->
   info_hash ses (_handle (snd kt)) = inr (Snap.info_hash snap)) /\
  (Snap.valid snap = false ->
   Snap.info_hash snap = Snap.info_hash (_snap (snd kt))).

(** *** The events of the specification *)

(** The event vocabulary of the specification's public contract. *)
Inductive Event :=
| TorrentAdded (h : str)
| AddFailed (rsn : str)
| TorrentRemoved (h : str)
| TorrentFinished (h : str)
| TorrentError (h msg : str)
| MetadataReceived (h : str)
| StatsUpdated (s : SessionStats)
| DetailUpdated (d : DetailData)
| PeerBanned (address rsn : str)
| MagnetUriReady (uri : str)
| Started
| Stopped.

(** The event each signal of the code stands for. *)
Definition event_of (s : Signal) : Event :=
  match s with
  | torrent_added h => TorrentAdded h
  | torrent_removed h => TorrentRemoved h
  | torrent_finished h => TorrentFinished h
  | torrent_error h msg => TorrentError h msg
  | torrent_metadata h => MetadataReceived h
  | stats_updated s => StatsUpdated s
  | detail_updated d => DetailUpdated d
  | peer_banned ip rsn => PeerBanned ip rsn
  | magnet_uri_ready uri => MagnetUriReady uri
  | started => Started
  | stopped => Stopped
  end.

Definition events (o : Outcome) : list Event := map event_of (emitted o).

End Worker.

End Worker.

(** ** A small engine, for the examples

    Torrents are known by their info-hash alone.  A magnet URI names the
    hash after [magnet:?xt=urn:btih:], a resume blob holds the hash as
    bytes, and a [.torrent] path stands for its own hash.  While the engine
    is not [healthy] every status query raises. *)

Module EngineFixture.
Import Fixtures.

#[export] Existing Instance Zfloat.

Record toy_session := {
  healthy : bool;
  live : list (nat * str);     (* handle, info-hash *)
  next_handle : nat;
  blocked : bool               (* an IP blocklist was loaded *)
}.

Record toy_params := {
  p_hash : str;
  p_save_path : str;
  p_flags : Z
}.

Definition magnet_prefix : str := py "magnet:?xt=urn:btih:".

Definition toy_parse_magnet_uri (uri : str) : result toy_params :=
  if startswith uri magnet_prefix && (length magnet_prefix <? length uri)%nat
  then ok {| p_hash := skipn (length magnet_prefix) uri; p_save_path := [];
             p_flags := 0 |}
  else raise (py "unsupported URL protocol").

Definition toy_read_resume_data (data : list Byte.byte) : result toy_params :=
  match data with
  | [] => raise (py "bdecode error")
  | _ => ok {| p_hash := map Byte.to_N data; p_save_path := []; p_flags := 0 |}
  end.

Definition toy_set_save_path (v : pyval) (p : toy_params) : result toy_params :=
  match v with
  | VStr s => ok {| p_hash := p_hash p; p_save_path := s; p_flags := p_flags p |}
  | _ => raise (py "TypeError: No registered converter")
  end.

Fixpoint handle_of (h : str) (l : list (nat * str)) : option nat :=
  match l with
  | [] => None
  | (n, h') :: l' => if str_eqb h' h then Some n else handle_of h l'
  end.

(** Adding a torrent the engine has hands back the handle it has. *)
Definition toy_add_torrent (p : toy_params) (s : toy_session)
  : result (nat * toy_session) :=
  match handle_of (p_hash p) (live s) with
  | Some n => ok (n, s)
  | None =>
      ok (next_handle s,
          {| healthy := healthy s;
             live := live s ++ [(next_handle s, p_hash p)];
             next_handle := S (next_handle s); blocked := blocked s |})
  end.

Definition toy_remove_torrent (n : nat) (delete_files : bool) (s : toy_session)
  : result toy_session :=
  match od_get n (live s) with
  | None => raise (py "invalid torrent handle used")
  | Some _ =>
      ok {| healthy := healthy s;
            live := List.filter (fun e => negb (Nat.eqb (fst e) n)) (live s);
            next_handle := next_handle s; blocked := blocked s |}
  end.

Definition toy_status (s : toy_session) (n : nat) : result Status.torrent_status :=
  if healthy s then
    match od_get n (live s) with
    | None => raise (py "invalid torrent handle used")
    | Some h =>
        ok {| Status.for_state :=
                {| TorrentState.errc_value := 0;
                   TorrentState.lt_st := TorrentState.downloading_metadata;
                   TorrentState.s_paused := None;
                   TorrentState.s_auto_managed := None;
                   TorrentState.s_flags := Some 32;
                   TorrentState.download_rate := 0;
                   TorrentState.num_seeds := 0 |};
              Status.errc_message := []; Status.has_metadata := false;
              Status.name := []; Status.save_path := py "/tmp/x";
              Status.progress := 0; Status.total_wanted := 0;
              Status.total_wanted_done := 0; Status.all_time_download := 0;
              Status.all_time_upload := 0; Status.upload_rate := 0;
              Status.num_peers := 0; Status.num_connections := 0 |}
    end
  else raise (py "engine busy").

Definition zero_hash : str := py "0000000000000000000000000000000000000000".

Definition toy_engine : Libtorrent :=
  {| session := toy_session;
     torrent_handle := nat;
     add_torrent_params := toy_params;
     engine_detail := unit;
     _FLAG_PAUSED := 16;
     _FLAG_AUTO_MANAGED := 32;
     _FLAG_SEQUENTIAL := 512;
     lt_torrent_flags := TorrentState.flags_lt12;
     lt_session := fun _ => {| healthy := true; live := []; next_handle := 0;
                               blocked := false |};
     parse_magnet_uri := toy_parse_magnet_uri;
     torrent_info := fun path =>
       ok {| p_hash := path; p_save_path := []; p_flags := 0 |};
     read_resume_data := toy_read_resume_data;
     set_save_path := toy_set_save_path;
     flags := p_flags;
     set_flags := fun f p =>
       {| p_hash := p_hash p; p_save_path := p_save_path p; p_flags := f |};
     add_torrent := toy_add_torrent;
     lt_remove_torrent := toy_remove_torrent;
     session_pause := fun s => s;
     session_status := fun s =>
       if healthy s then ok (1000, 200, 50) else raise (py "engine busy");
     load_ip_blocklist := fun cfg s =>
       match cfg !! py "ip_blocklist_path" with
       | Some (VStr (_ :: _)) =>
           {| healthy := healthy s; live := live s;
              next_handle := next_handle s; blocked := true |}
       | _ => s
       end;
     is_valid := fun s n => ok (od_mem n (live s));
     status := toy_status;
     info_hash := fun s n =>
       match od_get n (live s) with
       | Some h => ok h
       | None => ok zero_hash
       end;
     download_limit := fun _ _ => ok 0;
     upload_limit := fun _ _ => ok 0;
     detail := fun _ _ => tt |}.

#[export] Existing Instance toy_engine.
#[export] Existing Instance frag_pylib.

(** The settings the examples run with. *)
Definition cfg0 : gmap str pyval :=
  <[py "default_save_path" := VStr (py "/home/user/Downloads")]> ∅.

(** A controller that was initialized on a new data directory. *)
Definition running : Worker.SessionWorker :=
  Worker.after (Worker.initialize 0 ResumeDb.empty_db (Worker.SessionWorker_init cfg0)).

(** The same controller at a moment when the engine answers no status
    query. *)
Definition running_engine_busy : Worker.SessionWorker :=
  Worker.set_session
    (Some {| healthy := false; live := []; next_handle := 0; blocked := false |})
    running.

Definition hash_a : str := py "aaaaaaaaaaaaaaaaaaaaaaaaaaaaaaaaaaaaaaaa".
Definition magnet_a : str := magnet_prefix ++ hash_a.


(** The JSON text [["hd"]]. *)
Definition tags_hd : str := py "[" ++ [34%N] ++ py "hd" ++ [34%N] ++ py "]".

(** The running controller after [AddMagnet] of [magnet_a]. *)
Definition with_a : Worker.SessionWorker :=
  Worker.after (Worker.add_magnet 5 magnet_a (py "/tmp/x") (py "Movies") tags_hd
                  false running).

(** ... and after the engine acknowledged a resume save for it. *)
Definition blob_a : list Byte.byte :=
  list_byte_of_string "aaaaaaaaaaaaaaaaaaaaaaaaaaaaaaaaaaaaaaaa".


(** [AddMagnet] of [magnet_a] at a moment when the engine is busy. *)
Definition busy_with_a : Worker.SessionWorker :=
  Worker.after (Worker.add_magnet 5 magnet_a (py "/tmp/x") (py "Movies") tags_hd
                  false running_engine_busy).

(** The engine of [with_a], and the torrent object the controller holds
    for [hash_a]. *)
Definition session_a : toy_session :=
  {| healthy := true; live := [(0%nat, hash_a)]; next_handle := 1;
     blocked := false |}.

Definition torrent_a : TorrentModel.Torrent :=
  TorrentModel.Torrent_init session_a 5 0%nat (py "Movies") [py "hd"].

(** The same engine at a moment when it answers the status query and
    then raises for [handle.info_hash()]: the torrent went away between
    the two calls. *)
Definition engine_hash_fails : Libtorrent :=
  {| session := toy_session;
     torrent_handle := nat;
     add_torrent_params := toy_params;
     engine_detail := unit;
     _FLAG_PAUSED := 16;
     _FLAG_AUTO_MANAGED := 32;
     _FLAG_SEQUENTIAL := 512;
     lt_torrent_flags := TorrentState.flags_lt12;
     lt_session := fun _ => {| healthy := true; live := []; next_handle := 0;
                               blocked := false |};
     parse_magnet_uri := toy_parse_magnet_uri;
     torrent_info := fun path =>
       ok {| p_hash := path; p_save_path := []; p_flags := 0 |};
     read_resume_data := toy_read_resume_data;
     set_save_path := toy_set_save_path;
     flags := p_flags;
     set_flags := fun f p =>
       {| p_hash := p_hash p; p_save_path := p_save_path p; p_flags := f |};
     add_torrent := toy_add_torrent;
     lt_remove_torrent := toy_remove_torrent;
     session_pause := fun s => s;
     session_status := fun s =>
       if healthy s then ok (1000, 200, 50) else raise (py "engine busy");
     load_ip_blocklist := fun cfg s => s;
     is_valid := fun s n => ok (od_mem n (live s));
     status := toy_status;
     info_hash := fun s n => raise (py "invalid torrent handle used");
     download_limit := fun _ _ => ok 0;
     upload_limit := fun _ _ => ok 0;
     detail := fun _ _ => tt |}.

(** The torrent object for [hash_a] as it is after a snapshot that
    succeeded. *)
Definition torrent_a_hash_fails : @TorrentModel.Torrent Zfloat engine_hash_fails :=
  @TorrentModel.Build_Torrent Zfloat engine_hash_fails
    0%nat (py "Movies") [py "hd"] 5 [] [] 120%nat (TorrentModel._snap torrent_a).

(** A resume database written before the schema was versioned, holding
    one torrent. *)
Definition row_a : ResumeDb.ResumeRow :=
  {| ResumeDb.info_hash := hash_a; ResumeDb.resume_data := blob_a;
     ResumeDb.name := py "a"; ResumeDb.category := py "Movies";
     ResumeDb.tags := tags_hd; ResumeDb.added_time := 5;
     ResumeDb.save_path := py "/tmp/x"; ResumeDb.added_columns := [] |}.

Definition legacy_db : ResumeDb.Database :=
  {| ResumeDb.schema_version := None;
     ResumeDb.table :=
       Some {| ResumeDb.extra_columns := []; ResumeDb.rows := [row_a] |} |}.

End EngineFixture.

(** ** Shared lists: the stats tick over a store of Python objects

    A Python list is an object: [self._session_dl_history], a torrent's
    [_tags] and its speed histories are appended to and popped in place,
    and whoever holds a reference sees the change.  To say what an
    observer holding an emitted [SessionStats] can see later, this part
    re-states the snapshot and the tick over a store that maps addresses
    to objects.  Lists and the two dataclasses that are emitted live in
    the store; a list-valued field holds an address. *)

Module Store.
Import TorrentModel.

Definition loc := positive.

Section Store.
Context `{Libtorrent}.

Inductive obj :=
| OInts (l : list Z)                          (* a list of ints *)
| OStrs (l : list str)                        (* a list of str *)
| ORefs (l : list loc)                        (* a list of objects *)
| OSnap (s : Snap.TorrentSnapshot_ loc)       (* a TorrentSnapshot *)
| OStats (s : Stats.SessionStats_ loc loc).   (* a SessionStats *)

(** A new object gets an address no object has. *)
Definition alloc (o : obj) (σ : gmap loc obj) : loc * gmap loc obj :=
  let l := fresh (dom σ) in (l, <[l := o]> σ).

Definition get_ints (σ : gmap loc obj) (l : loc) : list Z :=
  match σ !! l with Some (OInts x) => x | _ => [] end.

Definition get_strs (σ : gmap loc obj) (l : loc) : list str :=
  match σ !! l with Some (OStrs x) => x | _ => [] end.

Definition get_refs (σ : gmap loc obj) (l : loc) : list loc :=
  match σ !! l with Some (ORefs x) => x | _ => [] end.

Definition get_snap (σ : gmap loc obj) (l : loc)
  : option (Snap.TorrentSnapshot_ loc) :=
  match σ !! l with Some (OSnap s) => Some s | _ => None end.

Definition get_stats (σ : gmap loc obj) (l : loc)
  : option (Stats.SessionStats_ loc loc) :=
  match σ !! l with Some (OStats s) => Some s | _ => None end.

(** [class Torrent], its lists and its cached snapshot by address. *)
Record Torrent := {
  _handle : torrent_handle;
  _category : str;
  _tags : loc;
  _added_time : float;
  _speed_history_dl : loc;
  _speed_history_ul : loc;
  _max_history : nat;
  _snap : loc
}.

Definition set_snap (l : loc) (self : Torrent) : Torrent :=
  {| _handle := _handle self; _category := _category self;
     _tags := _tags self; _added_time := _added_time self;
     _speed_history_dl := _speed_history_dl self;
     _speed_history_ul := _speed_history_ul self;
     _max_history := _max_history self; _snap := l |}.

Definition set_category (v : str) (self : Torrent) : Torrent :=
  {| _handle := _handle self; _category := v;
     _tags := _tags self; _added_time := _added_time self;
     _speed_history_dl := _speed_history_dl self;
     _speed_history_ul := _speed_history_ul self;
     _max_history := _max_history self; _snap := _snap self |}.

(** [Torrent.snapshot()]: [self._tags[:]] is a new list, the
    [TorrentSnapshot] a new object, and [self._snap] is rebound to it.  The
    object cached before is not written to. *)
Definition snapshot (ses : session) (self : Torrent) (σ : gmap loc obj)
  : loc * Torrent * gmap loc obj :=
  let prev := get_snap σ (_snap self) in
  let prev_name := match prev with Some s => Snap.name s | None => [] end in
  let prev_ih := match prev with Some s => Snap.info_hash s | None => [] end in
  let '(ltags, σ1) := alloc (OStrs (get_strs σ (_tags self))) σ in
  let snap := snapshot_of ses (_handle self) (_category self)
                (_added_time self) prev_name prev_ih ltags in
  let '(lsnap, σ2) := alloc (OSnap snap) σ1 in
  (lsnap, set_snap lsnap self, σ2).

(** [Torrent.record_speed()]: [append] and [pop(0)] on the two history
    lists, in place. *)
Definition record_speed (self : Torrent) (σ : gmap loc obj) : gmap loc obj :=
  let speeds :=
    match get_snap σ (_snap self) with
    | Some s => (Snap.download_speed s, Snap.upload_speed s)
    | None => (0, 0)
    end in
  let σ1 := <[_speed_history_dl self :=
                OInts (push_bounded (_max_history self) (fst speeds)
                         (get_ints σ (_speed_history_dl self)))]> σ in
  <[_speed_history_ul self :=
      OInts (push_bounded (_max_history self) (snd speeds)
               (get_ints σ1 (_speed_history_ul self)))]> σ1.

(** [Torrent.add_tag(tag)], [Torrent.remove_tag(tag)]: on the list
    itself. *)
Definition add_tag (tag : str) (self : Torrent) (σ : gmap loc obj) : gmap loc obj :=
  <[_tags self := OStrs (tags_add tag (get_strs σ (_tags self)))]> σ.

Definition remove_tag (tag : str) (self : Torrent) (σ : gmap loc obj) : gmap loc obj :=
  <[_tags self := OStrs (tags_remove tag (get_strs σ (_tags self)))]> σ.

(** [Torrent.__init__(handle, category, tags)]: [tags] is the list the
    caller built ([json.loads] gives a new one), the histories are new
    lists, [TorrentSnapshot()] a new object with a new empty list. *)
Definition Torrent_init (ses : session) (now : float) (h : torrent_handle)
    (cat : str) (tgs : list str) (σ : gmap loc obj) : Torrent * gmap loc obj :=
  let '(ltags, σ1) := alloc (OStrs tgs) σ in
  let '(ldl, σ2) := alloc (OInts []) σ1 in
  let '(lul, σ3) := alloc (OInts []) σ2 in
  let '(lempty, σ4) := alloc (OStrs []) σ3 in
  let '(lsnap0, σ5) := alloc (OSnap (default_snapshot lempty)) σ4 in
  let self := {| _handle := h; _category := cat; _tags := ltags;
                 _added_time := now; _speed_history_dl := ldl;
                 _speed_history_ul := lul; _max_history := 120;
                 _snap := lsnap0 |} in
  let '(_, self', σ6) := snapshot ses self σ5 in
  (self', σ6).

(** The part of the [SessionWorker] the tick touches. *)
Record SessionWorker := {
  _session : option session;
  _torrents : list (str * Torrent);
  _session_dl_history : loc;
  _session_ul_history : loc;
  _max_session_history : nat;
  _focused_hash : str
}.

Definition set_torrents (v : list (str * Torrent)) (w : SessionWorker) : SessionWorker :=
  {| _session := _session w; _torrents := v;
     _session_dl_history := _session_dl_history w;
     _session_ul_history := _session_ul_history w;
     _max_session_history := _max_session_history w;
     _focused_hash := _focused_hash w |}.

Definition set_session (v : option session) (w : SessionWorker) : SessionWorker :=
  {| _session := v; _torrents := _torrents w;
     _session_dl_history := _session_dl_history w;
     _session_ul_history := _session_ul_history w;
     _max_session_history := _max_session_history w;
     _focused_hash := _focused_hash w |}.

(** What an observer receives: the address of the emitted object. *)
Inductive Signal :=
| torrent_added (h : str)
| torrent_removed (h : str)
| stats_updated (stats : loc)
| detail_updated (h : str) (d : engine_detail) (dl_history ul_history : loc).

(** The loop over [self._torrents.values()]. *)
Fixpoint snapshot_all (ses : session) (table : list (str * Torrent))
    (σ : gmap loc obj) : list loc * list (str * Torrent) * gmap loc obj :=
  match table with
  | [] => ([], [], σ)
  | (k, torrent) :: rest =>
      let '(lsnap, torrent1, σ1) := snapshot ses torrent σ in
      let σ2 := record_speed torrent1 σ1 in
      let '(snaps, rest', σ3) := snapshot_all ses rest σ2 in
      (lsnap :: snaps, (k, torrent1) :: rest', σ3)
  end.

(** [SessionWorker._update_stats]: the session histories are appended to
    in place; [snapshots], the two slices [self._session_dl_history[:]] and
    [self._session_ul_history[:]], and the [SessionStats] are new
    objects. *)
Definition _update_stats (w : SessionWorker) (σ : gmap loc obj)
  : SessionWorker * gmap loc obj * list Signal :=
  match _session w with
  | None => (w, σ, [])
  | Some ses =>
      let '(dl_rate, ul_rate, dht_count, σ1) :=
        match session_status ses with
        | inr (dl_rate, ul_rate, dht_count) =>
            let σa := <[_session_dl_history w :=
                          OInts (push_bounded (_max_session_history w) dl_rate
                                   (get_ints σ (_session_dl_history w)))]> σ in
            (dl_rate, ul_rate, dht_count,
             <[_session_ul_history w :=
                 OInts (push_bounded (_max_session_history w) ul_rate
                          (get_ints σa (_session_ul_history w)))]> σa)
        | inl _ => (0, 0, 0, σ)
        end in
      let '(snaps, table, σ2) := snapshot_all ses (_torrents w) σ1 in
      let w2 := set_torrents table w in
      let '(lsnaps, σ3) := alloc (ORefs snaps) σ2 in
      let '(ldl, σ4) := alloc (OInts (get_ints σ3 (_session_dl_history w))) σ3 in
      let '(lul, σ5) := alloc (OInts (get_ints σ4 (_session_ul_history w))) σ4 in
      let '(lstats, σ6) :=
        alloc (OStats {| Stats.download_rate := dl_rate;
                         Stats.upload_rate := ul_rate;
                         Stats.dht_nodes := dht_count;
                         Stats.dl_history := ldl; Stats.ul_history := lul;
                         Stats.torrent_count := Z.of_nat (length table);
                         Stats.torrents := lsnaps |}) σ5 in
      if nonempty (_focused_hash w2) then
        match od_get (_focused_hash w2) (_torrents w2) with
        | Some t =>
            let '(ddl, σ7) := alloc (OInts (get_ints σ6 (_speed_history_dl t))) σ6 in
            let '(dul, σ8) := alloc (OInts (get_ints σ7 (_speed_history_ul t))) σ7 in
            (w2, σ8, [stats_updated lstats;
                      detail_updated (_focused_hash w2) (detail ses (_handle t)) ddl dul])
        | None => (w2, σ6, [stats_updated lstats])
        end
      else (w2, σ6, [stats_updated lstats])
  end.

(** *** What the controller does between two ticks *)

(** Registering a torrent the engine returned a handle for, removing one,
    editing tags or the category of one, a tick, and the engine moving on
    by itself. *)
Inductive activity :=
| Tick
| Register (now : float) (ih : str) (handle : torrent_handle)
           (category : str) (tags : list str)
| Remove (ih : str)
| AddTag (ih tag : str)
| RemoveTag (ih tag : str)
| SetCategory (ih category : str)
| Snapshot (ih : str)
| EngineMoves (ses : session).

Definition on_torrent (ih : str) (w : SessionWorker) (σ : gmap loc obj)
    (f : Torrent -> Torrent * gmap loc obj) : SessionWorker * gmap loc obj :=
  match od_get ih (_torrents w) with
  | Some t => let '(t', σ') := f t in (set_torrents (od_set ih t' (_torrents w)) w, σ')
  | None => (w, σ)
  end.

Definition step (a : activity) (st : SessionWorker * gmap loc obj)
  : SessionWorker * gmap loc obj :=
  let '(w, σ) := st in
  match a with
  | Tick => let '(w', σ', _) := _update_stats w σ in (w', σ')
  | Register now ih handle category tags =>
      match _session w with
      | Some ses =>
          if od_mem ih (_torrents w) then (w, σ)
          else let '(t, σ') := Torrent_init ses now handle category tags σ in
               (set_torrents (od_set ih t (_torrents w)) w, σ')
      | None => (w, σ)
      end
  | Remove ih => (set_torrents (od_del ih (_torrents w)) w, σ)
  | AddTag ih tag => on_torrent ih w σ (fun t => (t, add_tag tag t σ))
  | RemoveTag ih tag => on_torrent ih w σ (fun t => (t, remove_tag tag t σ))
  | SetCategory ih c => on_torrent ih w σ (fun t => (set_category c t, σ))
  | Snapshot ih =>
      match _session w with
      | Some ses =>
          on_torrent ih w σ (fun t => let '(_, t', σ') := snapshot ses t σ in (t', σ'))
      | None => (w, σ)
      end
  | EngineMoves ses =>
      match _session w with
      | Some _ => (set_session (Some ses) w, σ)
      | None => (w, σ)
      end
  end.

Definition run (acts : list activity) (st : SessionWorker * gmap loc obj)
  : SessionWorker * gmap loc obj :=
  fold_left (fun st a => step a st) acts st.

(** *** What an emitted [SessionStats] is made of *)

(** The lists the controller writes to in place. *)
Definition torrent_lists (t : Torrent) : list loc :=
  [_tags t; _speed_history_dl t; _speed_history_ul t].

Definition mutable_lists (w : SessionWorker) : list loc :=
  _session_dl_history w :: _session_ul_history w ::
  concat (map (fun kt => torrent_lists (snd kt)) (_torrents w)).

(** The objects reached from a snapshot and from a statistics object. *)
Definition snap_parts (σ : gmap loc obj) (l : loc) : list loc :=
  l :: match get_snap σ l with
       | Some s => [Snap.tags s]
       | None => []
       end.

Definition stats_parts (σ : gmap loc obj) (l : loc) : list loc :=
  l :: match get_stats σ l with
       | Some s =>
           Stats.dl_history s :: Stats.ul_history s :: Stats.torrents s ::
           concat (map (snap_parts σ) (get_refs σ (Stats.torrents s)))
       | None => []
       end.

(** The statistics an observer reads through the address: the value of
    every field, lists followed. *)
Definition read_snap (σ : gmap loc obj) (l : loc) : option TorrentSnapshot :=
  match get_snap σ l with
  | Some s =>
      Some {| Snap.valid := Snap.valid s; Snap.state := Snap.state s;
              Snap.name := Snap.name s; Snap.info_hash := Snap.info_hash s;
              Snap.save_path := Snap.save_path s;
              Snap.has_metadata := Snap.has_metadata s;
              Snap.progress := Snap.progress s;
              Snap.total_size := Snap.total_size s;
              Snap.completed_size := Snap.completed_size s;
              Snap.total_downloaded := Snap.total_downloaded s;
              Snap.total_uploaded := Snap.total_uploaded s;
              Snap.download_speed := Snap.download_speed s;
              Snap.upload_speed := Snap.upload_speed s;
              Snap.num_seeds := Snap.num_seeds s;
              Snap.num_peers := Snap.num_peers s;
              Snap.num_connections := Snap.num_connections s;
              Snap.ratio := Snap.ratio s; Snap.eta := Snap.eta s;
              Snap.error := Snap.error s; Snap.category := Snap.category s;
              Snap.tags := get_strs σ (Snap.tags s);
              Snap.added_time := Snap.added_time s;
              Snap.download_limit := Snap.download_limit s;
              Snap.upload_limit := Snap.upload_limit s |}
  | None => None
  end.

Definition read_stats (σ : gmap loc obj) (l : loc)
  : option (Stats.SessionStats_ (list Z) (list (option TorrentSnapshot))) :=
  match get_stats σ l with
  | Some s =>
      Some {| Stats.download_rate := Stats.download_rate s;
              Stats.upload_rate := Stats.upload_rate s;
              Stats.dht_nodes := Stats.dht_nodes s;
              Stats.dl_history := get_ints σ (Stats.dl_history s);
              Stats.ul_history := get_ints σ (Stats.ul_history s);
              Stats.torrent_count := Stats.torrent_count s;
              Stats.torrents := map (read_snap σ) (get_refs σ (Stats.torrents s)) |}
  | None => None
  end.

(** The lists of the torrents of a table. *)
Definition table_lists (table : list (str * Torrent)) : list loc :=
  concat (map (fun kt => torrent_lists (snd kt)) table).

(** [frame M σ σ']: going from [σ] to [σ'], no object was lost and only
    objects at the addresses of [M] were written to. *)
Definition frame (M : list loc) (σ σ' : gmap loc obj) : Prop :=
  dom σ ⊆ dom σ' /\ forall l, l ∈ dom σ -> l ∉ M -> σ' !! l = σ !! l.

(** A snapshot object made on the way from [σ] to [σ']: it and its tags
    list are new, and both are in [σ']. *)
Definition new_snap (σ σ' : gmap loc obj) (ls : loc) : Prop :=
  (ls ∉ dom σ) /\ ls ∈ dom σ' /\
  exists s tg, σ' !! ls = Some (OSnap s) /\
               (Snap.tags s ∉ dom σ) /\ σ' !! Snap.tags s = Some (OStrs tg).

(** The controller's lists exist and none of them is an object of the
    frozen set [F]. *)
Definition separate (F : list loc) (w : SessionWorker) (σ : gmap loc obj) : Prop :=
  (forall l, l ∈ mutable_lists w -> l ∈ dom σ /\ l ∉ F) /\
  (forall l, l ∈ F -> l ∈ dom σ).

End Store.

End Store.

(** A store-level controller with one torrent, for the examples. *)
Module StoreFixture.
Import EngineFixture Store.

Definition engine_a : toy_session :=
  {| healthy := true; live := [(0%nat, hash_a)]; next_handle := 1;
     blocked := false |}.

(** The two session histories, empty. *)
Definition store0 : gmap loc obj :=
  <[1%positive := OInts []]> (<[2%positive := OInts []]> ∅).

Definition worker0 : SessionWorker :=
  {| _session := Some engine_a; _torrents := [];
     _session_dl_history := 1%positive; _session_ul_history := 2%positive;
     _max_session_history := 300; _focused_hash := hash_a |}.

(** The torrent is registered, then a first tick emits statistics. *)
Definition registered : SessionWorker * gmap loc obj :=
  step (Register 5 hash_a 0%nat (py "Movies") [py "hd"]) (worker0, store0).

Definition first_tick : SessionWorker * gmap loc obj * list Signal :=
  _update_stats (fst registered) (snd registered).

(** The controller, the store and the signals after that first tick. *)
Definition worker1 : SessionWorker := fst (fst first_tick).
Definition store1 : gmap loc obj := snd (fst first_tick).
Definition emitted : list Signal := snd first_tick.

(** What the controller does afterwards. *)
Definition later : list activity :=
  [AddTag hash_a (py "4k"); SetCategory hash_a (py "Films"); Tick;
   RemoveTag hash_a (py "hd"); Snapshot hash_a; Tick;
   Register 9 (py "bb") 1%nat [] []; Tick; Remove hash_a; Tick].

End StoreFixture.

(** ** More of Python's [str] *)

Module PyText.

(** [s.split(sep)] for a separator of one character: the pieces between
    the separators, at least one. *)
Fixpoint split (sep : N) (s : str) : list str :=
  match s with
  | [] => [[]]
  | c :: s' =>
      if (c =? sep)%N then [] :: split sep s'
      else match split sep s' with
           | part :: parts => (c :: part) :: parts
           | [] => [[c]]
           end
  end.

(** Where the last [sep] of [s] cuts it. *)
Fixpoint cut_last (sep : N) (s : str) : option (str * str) :=
  match s with
  | [] => None
  | c :: s' =>
      match cut_last sep s' with
      | Some (a, b) => Some (c :: a, b)
      | None => if (c =? sep)%N then Some ([], s') else None
      end
  end.

(** [s.rsplit(sep, 1)] for a separator of one character: two pieces, cut
    at the last separator, or [s] alone when it has none. *)
Definition rsplit1 (sep : N) (s : str) : list str :=
  match cut_last sep s with
  | Some (a, b) => [a; b]
  | None => [s]
  end.

End PyText.

(** ** Peer filter: rules, log and blocklist file ([flux/core/peer_filter.py]) *)

Module PeerFilterAdmin.
Import PeerFilter PyText.

Section Admin.
Context `{PyFloat} `{PyLib}.

Definition set_custom_bans (l : list BanRule) (self : PeerFilter) : PeerFilter :=
  {| _enabled := _enabled self; _ban_xunlei := _ban_xunlei self;
     _ban_qq := _ban_qq self; _ban_baidu := _ban_baidu self;
     _custom_bans := l;
     _ip_blocklist := _ip_blocklist self; _whitelist := _whitelist self;
     _ban_log := _ban_log self; _max_log := _max_log self |}.

(** [PeerFilter.remove_custom_rule(index)]:
<<
    if 0 <= index < len(self._custom_bans):
        self._custom_bans.pop(index)
>> *)
Definition remove_custom_rule (index : Z) (self : PeerFilter) : PeerFilter :=
  if (0 <=? index) && (index <? Z.of_nat (length (_custom_bans self)))
  then set_custom_bans (firstn (Z.to_nat index) (_custom_bans self) ++
                        skipn (S (Z.to_nat index)) (_custom_bans self)) self
  else self.

(** What [open(filepath, "r")] and the iteration over the file give:
    the file is missing, or [open] fails in another way, or lines are
    read, up to a read error ([UnicodeDecodeError], [OSError]) if one
    occurs. *)
Inductive opened :=
| FileNotFound
| OpenFails (e : exn)
| FileLines (lines : list str) (read_error : option exn).

(** One line of the file, after [line.strip()]:
<<
    _, ip_range = line.rsplit(":", 1)
    start_str, end_str = ip_range.split("-")
    start_int = struct.unpack("!I", socket.inet_aton(start_str.strip()))[0]
    end_int = struct.unpack("!I", socket.inet_aton(end_str.strip()))[0]
>>
    [None] when one of these raises ([ValueError], [socket.error],
    [struct.error]). *)
Definition parse_p2p_line (line : str) : option (Z * Z) :=
  match rsplit1 58 line with
  | [_; ip_range] =>
      match split 45 ip_range with
      | [start_str; end_str] =>
          match ip_value (strip start_str) with
          | Some start_int =>
              match ip_value (strip end_str) with
              | Some end_int => Some (start_int, end_int)
              | None => None
              end
          | None => None
          end
      | _ => None
      end
  | _ => None
  end.

(** The loop over the lines, appending to [self._ip_blocklist]. *)
Fixpoint load_lines (lines : list str) (blocklist : list (Z * Z)) : list (Z * Z) :=
  match lines with
  | [] => blocklist
  | line :: rest =>
      let line := strip line in
      if negb (nonempty line) || startswith line (py "#")
      then load_lines rest blocklist
      else match parse_p2p_line line with
           | Some rg => load_lines rest (blocklist ++ [rg])
           | None => load_lines rest blocklist
           end
  end.

(** [PeerFilter.load_blocklist_p2p(filepath)], with what opening and
    reading the file gives.  The list is cleared first; only
    [FileNotFoundError] is caught, so another failure leaves the method
    (second component). *)
Definition load_blocklist_p2p (file : opened) (self : PeerFilter)
  : PeerFilter * option exn :=
  match file with
  | FileNotFound => (set_ip_blocklist [] self, None)
  | OpenFails e => (set_ip_blocklist [] self, Some e)
  | FileLines lines read_error =>
      (set_ip_blocklist (load_lines lines []) self, read_error)
  end.

(** [PeerFilter.blocklist_count] *)
Definition blocklist_count (self : PeerFilter) : Z :=
  Z.of_nat (length (_ip_blocklist self)).

(** [PeerFilter.stats] *)
Record FilterStats := {
  stats_enabled : bool;
  rules_active : Z;
  ip_ranges_blocked : Z;
  total_bans : Z
}.

Definition stats (self : PeerFilter) : FilterStats :=
  {| stats_enabled := _enabled self;
     rules_active := Z.of_nat (length (_get_active_rules self)) +
                     Z.of_nat (length (_custom_bans self));
     ip_ranges_blocked := Z.of_nat (length (_ip_blocklist self));
     total_bans := Z.of_nat (length (_ban_log self)) |}.

End Admin.

End PeerFilterAdmin.

(** Filters and a blocklist file for the examples. *)
Module PeerAdminFixture.
Import Py PeerFilter PeerFilterAdmin Fixtures.
#[local] Existing Instance Zfloat.
#[local] Existing Instance frag_pylib.

(** A filter whose one custom rule has an empty pattern. *)
Definition filter_ban_everyone : PeerFilter :=
  add_custom_rule [] (py "everyone") PeerFilter_init.

(** The lines of a blocklist file: a comment, a blank line, one range, a
    line with an IPv6 range, a line without a range. *)
Definition blocklist_file : list str :=
  [py "# blocklist"; py ""; py "  Some org:1.2.3.0 - 1.2.3.255";
   py "v6:2001:db8::1-2001:db8::ff"; py "no range here"].

End PeerAdminFixture.

(** ** Invariants of the controller's histories *)

Module WorkerInvariants.
Import TorrentModel Worker.

Section Invariants.
Context `{Libtorrent} `{PyLib}.

(** A torrent's two speed histories go in step and stay within
    [_max_history]. *)
Definition torrent_histories_ok (t : Torrent) : Prop :=
  length (_speed_history_dl t) = length (_speed_history_ul t) /\
  (length (_speed_history_dl t) <= _max_history t)%nat.

(** The session's two rate histories go in step and stay within
    [_max_session_history], and every torrent's histories are in
    order. *)
Definition histories_ok (w : SessionWorker) : Prop :=
  length (_session_dl_history w) = length (_session_ul_history w) /\
  (length (_session_dl_history w) <= _max_session_history w)%nat /\
  Forall (fun kt => torrent_histories_ok (snd kt)) (_torrents w).

(** The histories a signal carries. *)
Definition signal_histories_ok (max_session : nat) (s : Signal) : Prop :=
  match s with
  | stats_updated st =>
      length (Stats.dl_history st) = length (Stats.ul_history st) /\
      (length (Stats.dl_history st) <= max_session)%nat
  | detail_updated d =>
      length (detail_dl_history d) = length (detail_ul_history d)
  | _ => True
  end.

(** What [register] does to the table: nothing, or one new entry at the
    end. *)
Definition adds_at_most_one (w : SessionWorker) (o : Outcome) : Prop :=
  raised o = None /\
  ((emitted o = [] /\ _torrents (after o) = _torrents w) \/
   (exists ih t,
      emitted o = [torrent_added ih] /\
      od_get ih (_torrents w) = None /\
      _torrents (after o) = _torrents w ++ [(ih, t)])).

End Invariants.

End WorkerInvariants.

(** ** RSS monitor: filters, history and timers ([flux/core/rss_monitor.py]) *)

(** [hashlib], as [FeedItem.unique_id] uses it. *)
Class PyHash := {
  (** [hashlib.sha256(raw.encode()).hexdigest()]; [encode] raises
      [UnicodeEncodeError] on a string that has no UTF-8 encoding. *)
  sha256_hexdigest : str -> result str
}.

Module RssMonitor.
Import Rss.

Section Monitor.
Context `{PyFloat} `{PyLib} `{PyHash}.

(** *** [FeedItem.unique_id] *)

(** [FeedItem.unique_id] (a property):
<<
    if self.guid: return self.guid
    raw = self.title + self.link + self.magnet
    return hashlib.sha256(raw.encode()).hexdigest()[:32]
>> *)
Definition unique_id (self : FeedItem) : result str :=
  if nonempty (guid self) then ok (guid self)
  else match sha256_hexdigest (title self ++ link self ++ magnet self) with
       | inl e => inl e
       | inr digest => ok (slice_to 32 digest)
       end.

(** *** [FeedConfig.matches] *)

(** [re.search(pattern, title, re.IGNORECASE)] for a pattern taken from a
    configuration: [inr None] is [re.error]; a pattern that is no string
    raises [TypeError], which no [except re.error] catches. *)
Definition search (pattern : pyval) (text : str) : result (option bool) :=
  match pattern with
  | VStr p => ok (re_search p text)
  | _ => raise (py "first argument must be string or compiled pattern")
  end.

(** [FeedConfig.matches(title)]:
<<
    if self.include_pattern:
        try:
            if not re.search(self.include_pattern, title, re.IGNORECASE):
                return False
        except re.error:
            return False
    if self.exclude_pattern:
        try:
            if re.search(self.exclude_pattern, title, re.IGNORECASE):
                return False
        except re.error:
            pass
    return True
>> *)
Definition excluded (self : FeedConfig) (title : str) : result bool :=
  if truthy (exclude_pattern self) then
    match search (exclude_pattern self) title with
    | inl e => inl e
    | inr (Some true) => ok true
    | inr (Some false) => ok false
    | inr None => ok false
    end
  else ok false.

Definition matches (self : FeedConfig) (title : str) : result bool :=
  let after_include :=
    match excluded self title with
    | inl e => inl e
    | inr b => ok (negb b)
    end in
  if truthy (include_pattern self) then
    match search (include_pattern self) title with
    | inl e => inl e
    | inr (Some true) => after_include
    | inr (Some false) => ok false
    | inr None => ok false
    end
  else after_include.

(** *** The history of seen items ([rss_history.db]) *)

(** A row of the table [seen_items]; [item_id] is its primary key. *)
Record SeenItem := {
  item_id : str;
  feed_url : pyval;
  seen_title : str;
  seen_time : float
}.

(** [RSSMonitor._is_seen(item_id)]; [None] is a closed database. *)
Definition _is_seen (id : str) (db : option (list SeenItem)) : bool :=
  match db with
  | None => false
  | Some rows => existsb (fun r => str_eqb (item_id r) id) rows
  end.

(** [RSSMonitor._mark_seen(item_id, feed_url, title)]:
    [INSERT OR IGNORE INTO seen_items ... VALUES (?, ?, ?, time.time())] *)
Definition _mark_seen (id : str) (url : pyval) (ttl : str) (now : float)
    (db : option (list SeenItem)) : option (list SeenItem) :=
  match db with
  | None => None
  | Some rows =>
      if existsb (fun r => str_eqb (item_id r) id) rows then Some rows
      else Some (rows ++ [{| item_id := id; feed_url := url;
                             seen_title := ttl; seen_time := now |}])
  end.

(** *** Signals *)

Inductive RssSignal :=
| new_torrent (download_url save_path category : str)
| feed_checked (feed_url : str) (total_items new_items : Z)
| feed_error (feed_url message : str).

(** An argument of a signal declared [str]: [emit] raises [TypeError] for
    a value that is no string. *)
Definition str_arg (v : pyval) : result str :=
  match v with
  | VStr s => ok s
  | _ => raise (py "argument has unexpected type")
  end.

(** [v or ""] *)
Definition or_empty (v : pyval) : pyval := if truthy v then v else VStr [].

(** *** [RSSMonitor._process_feed] *)

(** What a call leaves behind: the history database, the signals emitted
    in order, and the exception that left it, if one did. *)
Record FeedRun := {
  db_after : option (list SeenItem);
  signals : list RssSignal;
  raised : option exn
}.

(** The loop of [_process_feed]:
<<
    for item in items:
        if not item.download_url: continue
        if not config.matches(item.title): continue
        if self._is_seen(item.unique_id): continue
        self._mark_seen(item.unique_id, url, item.title)
        new_count += 1
        if config.auto_download:
            save_path = config.save_path or ""
            category = config.category or ""
            self.new_torrent.emit(item.download_url, save_path, category)
>>
    [clock n] is what [time.time()] returns at the [n]-th marking of this
    call.  The result is the database, the signals and either the
    exception that ended the loop or [new_count]. *)
Fixpoint process_items (config : FeedConfig) (url : pyval) (clock : nat -> float)
    (items : list FeedItem) (marked : nat) (new_count : Z)
    (db : option (list SeenItem))
  : option (list SeenItem) * list RssSignal * result Z :=
  match items with
  | [] => (db, [], ok new_count)
  | item :: rest =>
      if negb (nonempty (download_url item))
      then process_items config url clock rest marked new_count db
      else
        match matches config (title item) with
        | inl e => (db, [], inl e)
        | inr false => process_items config url clock rest marked new_count db
        | inr true =>
            match unique_id item with
            | inl e => (db, [], inl e)
            | inr id =>
                if _is_seen id db
                then process_items config url clock rest marked new_count db
                else
                  let db1 := _mark_seen id url (title item) (clock marked) db in
                  if truthy (auto_download config) then
                    match str_arg (or_empty (save_path config)),
                          str_arg (or_empty (category config)) with
                    | inr sp, inr cat =>
                        let '(db2, sigs, r) :=
                          process_items config url clock rest (S marked)
                            (new_count + 1) db1 in
                        (db2, new_torrent (download_url item) sp cat :: sigs, r)
                    | inl e, _ => (db1, [], inl e)
                    | _, inl e => (db1, [], inl e)
                    end
                  else process_items config url clock rest (S marked)
                         (new_count + 1) db1
            end
        end
  end.

(** [RSSMonitor._process_feed(url, xml_text)], with [items] what
    [parse_feed(xml_text)] returns:
<<
    config = self._feeds.get(url)
    if not config:
        return
    items = parse_feed(xml_text)
    new_count = 0
    for item in items: ...
    self.feed_checked.emit(url, len(items), new_count)
>> *)
Definition _process_feed (url : pyval) (items : list FeedItem)
    (clock : nat -> float) (feeds : list (pyval * FeedConfig))
    (db : option (list SeenItem)) : FeedRun :=
  match pd_get url feeds with
  | None => {| db_after := db; signals := []; raised := None |}
  | Some config =>
      match process_items config url clock items 0 0 db with
      | (db', sigs, inl e) =>
          {| db_after := db'; signals := sigs; raised := Some e |}
      | (db', sigs, inr new_count) =>
          match str_arg url with
          | inl e => {| db_after := db'; signals := sigs; raised := Some e |}
          | inr u =>
              {| db_after := db';
                 signals := sigs ++
                   [feed_checked u (Z.of_nat (length items)) new_count];
                 raised := None |}
          end
      end
  end.

(** An item that gets past the filters is seen in [db]. *)
Definition settled (c : FeedConfig) (db : option (list SeenItem))
    (it : FeedItem) : Prop :=
  nonempty (download_url it) = true ->
  matches c (title it) = inr false \/
  exists id, matches c (title it) = inr true /\ unique_id it = inr id /\
             _is_seen id db = true.

End Monitor.

(** The configuration without its exclude pattern. *)
Definition without_exclude (c : FeedConfig) : FeedConfig :=
  {| url := url c; name := name c; enabled := enabled c;
     interval_minutes := interval_minutes c;
     include_pattern := include_pattern c; exclude_pattern := VStr [];
     save_path := save_path c; category := category c;
     auto_download := auto_download c |}.

(** *** The feed table and its timers *)

(** [del d[k]] and [d.pop(k, None)] *)
Fixpoint pd_del {V} (k : pyval) (d : list (pyval * V)) : list (pyval * V) :=
  match d with
  | [] => []
  | (k', v) :: d' => if py_eqb k' k then d' else (k', v) :: pd_del k d'
  end.

(** [RSSMonitor.remove_feed(url)]:
<<
    if url in self._timers:
        self._timers[url].stop()
        del self._timers[url]
    self._feeds.pop(url, None)
>> *)
Definition remove_feed (u : pyval) (m : RSSMonitor) : RSSMonitor :=
  {| feeds := pd_del u (feeds m); timers := pd_del u (timers m) |}.

(** [RSSMonitor.get_feeds()] *)
Definition get_feeds (m : RSSMonitor) : list FeedConfig := map snd (feeds m).

(** [RSSMonitor.save_config()] *)
Definition save_config (m : RSSMonitor) : list (gmap str pyval) :=
  map (fun kc => to_dict (snd kc)) (feeds m).

(** [RSSMonitor.stop_all()]: every timer is stopped and the timer table
    is cleared; the history database is closed and forgotten.
<<
    for timer in self._timers.values():
        timer.stop()
    self._timers.clear()
    self._pool.shutdown(wait=False)
    if self._history_db:
        self._history_db.close()
        self._history_db = None
>> *)
Definition stop_all {Db : Type} (m : RSSMonitor) (db : option Db)
  : RSSMonitor * option Db :=
  ({| feeds := feeds m; timers := [] |}, None).

(** Whether [RSSMonitor._schedule_fetch(url)] submits a fetch:
<<
    config = self._feeds.get(url)
    if not config or not config.enabled:
        return
>> *)
Definition _schedule_fetch (u : pyval) (m : RSSMonitor) : bool :=
  match pd_get u (feeds m) with
  | None => false
  | Some config => truthy (enabled config)
  end.

(** The URLs a timer is running for. *)
Definition polling (m : RSSMonitor) (u : pyval) : Prop :=
  exists t, pd_get u (timers m) = Some t /\ running t = true.

(** No key twice in a dictionary. *)
Fixpoint pd_keys_distinct {V} (d : list (pyval * V)) : Prop :=
  match d with
  | [] => True
  | (k, _) :: d' => pd_get k d' = None /\ pd_keys_distinct d'
  end.

(** The monitor's tables are dictionaries, every feed is stored under its
    own URL, and a timer runs only for a feed that is in the table and
    enabled. *)
Definition monitor_ok (m : RSSMonitor) : Prop :=
  pd_keys_distinct (feeds m) /\
  pd_keys_distinct (timers m) /\
  Forall (fun kc => py_eqb (fst kc) (url (snd kc)) = true) (feeds m) /\
  forall u, polling m u ->
            exists c, pd_get u (feeds m) = Some c /\ truthy (enabled c) = true.

(** The names of the fields of [FeedConfig]. *)
Definition is_field (k : str) : Prop :=
  k ∈ [py "url"; py "name"; py "enabled"; py "interval_minutes";
       py "include_pattern"; py "exclude_pattern"; py "save_path";
       py "category"; py "auto_download"].

End RssMonitor.

(** A digest for the examples: the string itself, padded with [0] to 64
    characters (not a hash, but a function of the string, which is all
    the examples need). *)
Module RssFixture.
Import Rss RssMonitor Fixtures.

Definition toy_hash : PyHash :=
  {| sha256_hexdigest := fun s =>
       ok (firstn 64 (s ++ repeat 48%N 64)) |}.

(** A feed that takes titles with [1080p] and leaves out [CAM]. *)
Definition feed_hd : FeedConfig :=
  {| url := VStr (py "http://feeds.example/rss"); name := VStr (py "HD");
     enabled := VBool true; interval_minutes := VInt 30;
     include_pattern := VStr (py "1080p"); exclude_pattern := VStr (py "CAM");
     save_path := VStr (py "/data"); category := VStr (py "Films");
     auto_download := VBool true |}.

Definition item (t l m g : string) : FeedItem :=
  {| title := py t; link := py l; magnet := py m; torrent_url := [];
     pub_date := []; size := 0; guid := py g |}.

(** Four items: two wanted, one without a download, one excluded. *)
Definition items_hd : list FeedItem :=
  [ item "Film A 1080p" "http://t.example/a" "magnet:?xt=urn:btih:aa" "id-a";
    item "Film B 1080p" "http://t.example/b" "" "id-b";
    item "Film C 1080p CAM" "http://t.example/c" "magnet:?xt=urn:btih:cc" "id-c";
    item "Film D 1080p" "http://t.example/d.torrent" "" "" ].

Definition monitor_hd : RSSMonitor := fst (add_feed feed_hd RSSMonitor_init).

(** The clock of the examples. *)
Definition clock_hd (n : nat) : Z := 1000 + Z.of_nat n.

(** The same feed with an include pattern that is no regular
    expression. *)
Definition feed_bad_include : FeedConfig :=
  {| url := url feed_hd; name := name feed_hd; enabled := enabled feed_hd;
     interval_minutes := interval_minutes feed_hd;
     include_pattern := VStr (py "("); exclude_pattern := exclude_pattern feed_hd;
     save_path := save_path feed_hd; category := category feed_hd;
     auto_download := auto_download feed_hd |}.

End RssFixture.

(** ** The session controller: peers and the bandwidth schedule
    ([flux/core/session_worker.py]) *)

(** The engine's IP filter, as the controller uses it. *)
Class IpFilter `{Libtorrent} := {
  ip_filter : Type;                                   (* lt.ip_filter *)
  (** [ip_filter.add_rule(first, last, flags)]: the filter with the rule
      added; raises on a string that is no address. *)
  add_rule : str -> str -> Z -> ip_filter -> result ip_filter;
  (** [session.set_ip_filter(f)] *)
  set_ip_filter : ip_filter -> session -> result session
}.

Module WorkerPeers.
Import TorrentModel Worker PeerFilter.

Section Peers.
Context `{IpFilter} `{PyLib}.

(** An entry of [handle.get_peer_info()], as far as it is read:
    [peer.ip[0]], [peer.pid], [peer.client]. *)
Record PeerInfo := {
  peer_ip : str;
  pid : list Byte.byte;
  client : str
}.

(** [for peer in ...: if peer.ip[0] == peer_ip: ...; break]: the peer
    the loop stops at. *)
Fixpoint first_peer (ip : str) (peers : list PeerInfo) : option PeerInfo :=
  match peers with
  | [] => None
  | peer :: rest => if str_eqb (peer_ip peer) ip then Some peer else first_peer ip rest
  end.

(** [SessionWorker._on_peer_connect(alert)]:
<<
    if not self._peer_filter.enabled:
        return
    try:
        handle = alert.handle
        peer_ip = str(alert.ip[0]) if hasattr(alert, 'ip') else None
        if peer_ip:
            for peer in handle.get_peer_info():
                if peer.ip[0] == peer_ip:
                    should_ban, reason = self._peer_filter.check_peer(
                        peer.pid, peer.client, peer.ip[0])
                    if should_ban:
                        self._ip_filter.add_rule(peer.ip[0], peer.ip[0], 1)
                        self._session.set_ip_filter(self._ip_filter)
                        self.peer_banned.emit(peer.ip[0], reason)
                    break
    except Exception:
        pass
>>
    [alert_ip] is what the second line gives ([inl] when reading the
    alert raises), [peers] what [handle.get_peer_info()] gives, [now] the
    clock [check_peer] reads when it logs.  The state is the controller
    and [self._ip_filter] ([None] before [initialize]); a step that
    raises ends the method and leaves what was done before it. *)
Definition _on_peer_connect (now : float) (alert_ip : result (option str))
    (peers : result (list PeerInfo)) (st : SessionWorker * option ip_filter)
  : (SessionWorker * option ip_filter) * list Signal :=
  let '(w, ipf) := st in
  if negb (_enabled (_peer_filter w)) then (st, [])
  else
    match alert_ip with
    | inl _ => (st, [])
    | inr None => (st, [])
    | inr (Some ip) =>
        if negb (nonempty ip) then (st, [])
        else
          match peers with
          | inl _ => (st, [])
          | inr peers =>
              match first_peer ip peers with
              | None => (st, [])
              | Some peer =>
                  match check_peer now (pid peer) (client peer) (peer_ip peer)
                          (_peer_filter w) with
                  | None => (st, [])
                  | Some ((false, _), pf) => ((set_peer_filter pf w, ipf), [])
                  | Some ((true, rsn), pf) =>
                      let w1 := set_peer_filter pf w in
                      match ipf with
                      | None => ((w1, ipf), [])
                      | Some f =>
                          match add_rule (peer_ip peer) (peer_ip peer) 1 f with
                          | inl _ => ((w1, ipf), [])
                          | inr f1 =>
                              match _session w1 with
                              | None => ((w1, Some f1), [])
                              | Some ses =>
                                  match set_ip_filter f1 ses with
                                  | inl _ => ((w1, Some f1), [])
                                  | inr ses1 =>
                                      ((set_session (Some ses1) w1, Some f1),
                                       [peer_banned (peer_ip peer) rsn])
                                  end
                              end
                          end
                      end
                  end
              end
          end
    end.

(** *** The bandwidth schedule *)

(** A rule of the schedule: what [rule.get("start")], [rule.get("end")],
    [rule.get("dl")], [rule.get("ul")] find ([None]: no such key). *)
Record ScheduleRule := {
  rule_start : option pyval;
  rule_end : option pyval;
  rule_dl : option pyval;
  rule_ul : option pyval
}.

(** [self._cfg.get("bandwidth_schedule")] when it is a dictionary:
    [schedule.get("enabled")] and [schedule.get("rules")]. *)
Record Schedule := {
  schedule_enabled : option pyval;
  schedule_rules : option (list ScheduleRule)
}.

(** [d.get(key, default)] *)
Definition get_or (v : option pyval) (dflt : pyval) : pyval :=
  match v with Some x => x | None => dflt end.

(** [a <= b] and [a < b] between a configuration value and an integer;
    a value that is no number raises [TypeError]. *)
Definition py_le (a b : pyval) : result bool :=
  match as_int a, as_int b with
  | Some x, Some y => ok (x <=? y)
  | _, _ => raise (py "'<=' not supported between instances")
  end.

Definition py_lt (a b : pyval) : result bool :=
  match as_int a, as_int b with
  | Some x, Some y => ok (x <? y)
  | _, _ => raise (py "'<' not supported between instances")
  end.

(** [start <= current_hour < end]; the second comparison is made only
    when the first holds. *)
Definition in_hours (r : ScheduleRule) (current_hour : Z) : result bool :=
  match py_le (get_or (rule_start r) (VInt 0)) (VInt current_hour) with
  | inl e => inl e
  | inr false => ok false
  | inr true => py_lt (VInt current_hour) (get_or (rule_end r) (VInt 24))
  end.

(** [x if x > 0 else 0] *)
Definition positive_or_zero (x : pyval) : result pyval :=
  match py_lt (VInt 0) x with
  | inl e => inl e
  | inr true => ok x
  | inr false => ok (VInt 0)
  end.

(** The loop over the rules: the limits of the first rule the hour falls
    in, if there is one. *)
Fixpoint first_rule (rules : list ScheduleRule) (current_hour : Z)
  : result (option (pyval * pyval)) :=
  match rules with
  | [] => ok None
  | rule :: rest =>
      match in_hours rule current_hour with
      | inl e => inl e
      | inr true => ok (Some (get_or (rule_dl rule) (VInt 0),
                              get_or (rule_ul rule) (VInt 0)))
      | inr false => first_rule rest current_hour
      end
  end.

(** [SessionWorker._check_bandwidth_schedule]: the pair
    [(download_rate_limit, upload_rate_limit)] it hands to
    [session.apply_settings], [None] when it applies nothing.
<<
    schedule = self._cfg.get("bandwidth_schedule", None)
    if not schedule or not isinstance(schedule, dict): return
    if not schedule.get("enabled", False): return
    current_hour = datetime.now().hour
    rules = schedule.get("rules", [])
    applied = False
    for rule in rules:
        start = rule.get("start", 0); end = rule.get("end", 24)
        if start <= current_hour < end:
            if self._session:
                self._session.apply_settings({'download_rate_limit': rule.get("dl", 0),
                                              'upload_rate_limit': rule.get("ul", 0)})
            applied = True
            break
    if not applied and self._session:
        dl = self._cfg.get("max_download_speed", 0)
        ul = self._cfg.get("max_upload_speed", 0)
        self._session.apply_settings({'download_rate_limit': dl if dl > 0 else 0,
                                      'upload_rate_limit': ul if ul > 0 else 0})
>>
    [schedule] is [None] when the setting is missing, empty or no
    dictionary. *)
Definition _check_bandwidth_schedule (schedule : option Schedule)
    (current_hour : Z) (w : SessionWorker) : result (option (pyval * pyval)) :=
  match schedule with
  | None => ok None
  | Some sch =>
      if negb (truthy (get_or (schedule_enabled sch) (VBool false))) then ok None
      else
        match first_rule (match schedule_rules sch with
                          | Some rules => rules
                          | None => []
                          end) current_hour with
        | inl e => inl e
        | inr (Some limits) =>
            match _session w with
            | Some _ => ok (Some limits)
            | None => ok None
            end
        | inr None =>
            match _session w with
            | None => ok None
            | Some _ =>
                match positive_or_zero
                        (get_or (_cfg w !! py "max_download_speed") (VInt 0)) with
                | inl e => inl e
                | inr dl =>
                    match positive_or_zero
                            (get_or (_cfg w !! py "max_upload_speed") (VInt 0)) with
                    | inl e => inl e
                    | inr ul => ok (Some (dl, ul))
                    end
                end
            end
        end
  end.

(** A rule whose bounds are integers. *)
Definition rule_hours (r : ScheduleRule) (s e : Z) : Prop :=
  as_int (get_or (rule_start r) (VInt 0)) = Some s /\
  as_int (get_or (rule_end r) (VInt 24)) = Some e.

(** Whether the hour lies in the rule's interval, start included and end
    excluded. *)
Definition covers (current_hour : Z) (r : ScheduleRule) : bool :=
  match as_int (get_or (rule_start r) (VInt 0)),
        as_int (get_or (rule_end r) (VInt 24)) with
  | Some s, Some e => (s <=? current_hour) && (current_hour <? e)
  | _, _ => false
  end.

End Peers.

End WorkerPeers.

(** A schedule and an IP filter for the examples. *)
Module WorkerPeersFixture.
Import Worker WorkerPeers EngineFixture.

(** The filter is the list of its rules; setting it marks the session. *)
Definition toy_ip_filter : IpFilter :=
  {| ip_filter := list (str * str * Z);
     add_rule := fun a b fl f =>
       match Fixtures.quad_inet_aton a, Fixtures.quad_inet_aton b with
       | Some _, Some _ => ok (f ++ [(a, b, fl)])
       | _, _ => raise (py "invalid address")
       end;
     set_ip_filter := fun f s =>
       ok {| healthy := healthy s; live := live s;
             next_handle := next_handle s; blocked := true |} |}.

(** A night rule written 22 to 6, and a day rule 8 to 18. *)
Definition schedule_day_night : Schedule :=
  {| schedule_enabled := Some (VBool true);
     schedule_rules := Some
       [ {| rule_start := Some (VInt 22); rule_end := Some (VInt 6);
            rule_dl := Some (VInt 0); rule_ul := Some (VInt 0) |};
         {| rule_start := Some (VInt 8); rule_end := Some (VInt 18);
            rule_dl := Some (VInt 500000); rule_ul := Some (VInt 50000) |} ] |}.

(** The controller with global limits configured: download -1
    (unlimited, as some front ends write it), upload 13312. *)
Definition with_limits : SessionWorker :=
  {| _cfg := <[py "max_download_speed" := VInt (-1)]>
               (<[py "max_upload_speed" := VInt 13312]> (_cfg with_a));
     _session := _session with_a; _torrents := _torrents with_a;
     _peer_filter := _peer_filter with_a; _resume_db := _resume_db with_a;
     _session_dl_history := _session_dl_history with_a;
     _session_ul_history := _session_ul_history with_a;
     _max_session_history := _max_session_history with_a;
     _focused_hash := _focused_hash with_a; _timers := _timers with_a |}.

(** A peer that connects with a Xunlei peer id. *)
Definition xunlei_peer : PeerInfo :=
  {| peer_ip := py "10.0.0.7";
     pid := list_byte_of_string "-XL1234-abcdef";
     client := py "Xunlei 7.2" |}.

End WorkerPeersFixture.

(** ** The torrent table of the main window ([flux/gui/torrent_model.py])

    [TorrentListModel] receives the snapshots of every [stats_updated]
    signal; only its data is modelled, not the notifications it sends to
    the views. *)

Module TorrentListModel.
Import TorrentModel.

Section Model.
Context `{PyFloat}.

Record TorrentListModel := {
  _snapshots : list TorrentSnapshot;
  _hash_index : list (str * nat)       (* info_hash -> row index *)
}.

(** [TorrentListModel.__init__] *)
Definition TorrentListModel_init : TorrentListModel :=
  {| _snapshots := []; _hash_index := [] |}.

(** [{s.info_hash: i for i, s in enumerate(snapshots)}], from row [i]
    on. *)
Fixpoint index_from (i : nat) (snapshots : list TorrentSnapshot)
    (d : list (str * nat)) : list (str * nat) :=
  match snapshots with
  | [] => d
  | s :: rest => index_from (S i) rest (od_set (Snap.info_hash s) i d)
  end.

(** [TorrentListModel._rebuild_index] *)
Definition _rebuild_index (snapshots : list TorrentSnapshot) : list (str * nat) :=
  index_from 0 snapshots [].

(** [sorted(rows, reverse=True)] *)
Fixpoint insert_desc (x : nat) (l : list nat) : list nat :=
  match l with
  | [] => [x]
  | y :: rest => if (y <=? x)%nat then x :: l else y :: insert_desc x rest
  end.

Definition sorted_desc (l : list nat) : list nat := fold_right insert_desc [] l.

(** [l.pop(row)]: [IndexError] ([None]) when there is no such row. *)
Definition pop {A} (row : nat) (l : list A) : option (list A) :=
  if (row <? length l)%nat then Some (firstn row l ++ skipn (S row) l) else None.

(** [for row in remove_rows: self._snapshots.pop(row)] *)
Fixpoint pop_rows {A} (rows : list nat) (l : list A) : option (list A) :=
  match rows with
  | [] => Some l
  | row :: rest =>
      match pop row l with
      | Some l' => pop_rows rest l'
      | None => None
      end
  end.

(** [[self._hash_index[h] for h in removed]]: [KeyError] is [None]. *)
Fixpoint rows_of (index : list (str * nat)) (hashes : list str) : option (list nat) :=
  match hashes with
  | [] => Some []
  | h :: rest =>
      match od_get h index, rows_of index rest with
      | Some row, Some rows => Some (row :: rows)
      | _, _ => None
      end
  end.

(** [{s.info_hash: s for s in snapshots}] *)
Definition snap_map_of (snapshots : list TorrentSnapshot)
  : list (str * TorrentSnapshot) :=
  fold_left (fun d s => od_set (Snap.info_hash s) s d) snapshots [].

(** [l[row] = x]: [IndexError] when there is no such row. *)
Definition assign {A} (row : nat) (x : A) (l : list A) : option (list A) :=
  if (row <? length l)%nat then Some (<[row := x]> l) else None.

(** The loop that updates the rows in place:
<<
    for ih, row in self._hash_index.items():
        if ih in snap_map:
            self._snapshots[row] = snap_map[ih]
>> *)
Fixpoint update_rows (items : list (str * nat))
    (snap_map : list (str * TorrentSnapshot)) (l : list TorrentSnapshot)
  : option (list TorrentSnapshot) :=
  match items with
  | [] => Some l
  | (ih, row) :: rest =>
      match od_get ih snap_map with
      | Some s =>
          match assign row s l with
          | Some l' => update_rows rest snap_map l'
          | None => None
          end
      | None => update_rows rest snap_map l
      end
  end.

(** [TorrentListModel.update_from_snapshots(snapshots)]:
<<
    new_hashes = {s.info_hash for s in snapshots}
    old_hashes = set(self._hash_index.keys())
    removed = old_hashes - new_hashes
    if removed:
        remove_rows = sorted([self._hash_index[h] for h in removed], reverse=True)
        for row in remove_rows:
            self._snapshots.pop(row)
        self._rebuild_index()
    snap_map = {s.info_hash: s for s in snapshots}
    for ih, row in self._hash_index.items():
        if ih in snap_map:
            self._snapshots[row] = snap_map[ih]
    added = [s for s in snapshots if s.info_hash in (new_hashes - old_hashes)]
    if added:
        self._snapshots.extend(added)
        self._rebuild_index()
>>
    The two sets are kept as lists: [removed] is only sorted and
    [new_hashes - old_hashes] only tested for membership, so the order of
    a set never shows.  [None] is an exception leaving the method. *)
Definition update_from_snapshots (snapshots : list TorrentSnapshot)
    (self : TorrentListModel) : option TorrentListModel :=
  let new_hashes := map Snap.info_hash snapshots in
  let old_hashes := od_keys (_hash_index self) in
  let removed := List.filter (fun h => negb (bool_decide (h ∈ new_hashes))) old_hashes in
  let after_removal :=
    match removed with
    | [] => Some (_snapshots self, _hash_index self)
    | _ :: _ =>
        match rows_of (_hash_index self) removed with
        | None => None
        | Some rows =>
            match pop_rows (sorted_desc rows) (_snapshots self) with
            | None => None
            | Some l => Some (l, _rebuild_index l)
            end
        end
    end in
  match after_removal with
  | None => None
  | Some (l1, index1) =>
      match update_rows index1 (snap_map_of snapshots) l1 with
      | None => None
      | Some l2 =>
          let added :=
            List.filter (fun s => bool_decide (Snap.info_hash s ∈ new_hashes) &&
                                  negb (bool_decide (Snap.info_hash s ∈ old_hashes)))
                        snapshots in
          match added with
          | [] => Some {| _snapshots := l2; _hash_index := index1 |}
          | _ :: _ =>
              Some {| _snapshots := l2 ++ added;
                      _hash_index := _rebuild_index (l2 ++ added) |}
          end
      end
  end.

(** [TorrentListModel.set_snapshots(snapshots)]:
<<
    self._snapshots = list(snapshots)
    self._rebuild_index()
>> *)
Definition set_snapshots (snapshots : list TorrentSnapshot) : TorrentListModel :=
  {| _snapshots := snapshots; _hash_index := _rebuild_index snapshots |}.

(** [TorrentListModel.find_snapshot(info_hash)]:
<<
    row = self._hash_index.get(info_hash, -1)
    if 0 <= row < len(self._snapshots):
        return self._snapshots[row]
    return None
>> *)
Definition find_snapshot (h : str) (self : TorrentListModel) : option TorrentSnapshot :=
  match od_get h (_hash_index self) with
  | Some row => nth_error (_snapshots self) row
  | None => None
  end.

(** The table is in order: no hash on two rows, and the index is the one
    [_rebuild_index] builds for the rows. *)
Definition table_consistent (self : TorrentListModel) : Prop :=
  NoDup (map Snap.info_hash (_snapshots self)) /\
  _hash_index self = _rebuild_index (_snapshots self).

(** The incoming snapshot with the hash of [s], if there is one, else
    [s]. *)
Definition latest (snapshots : list TorrentSnapshot) (s : TorrentSnapshot)
  : TorrentSnapshot :=
  match od_get (Snap.info_hash s) (snap_map_of snapshots) with
  | Some s' => s'
  | None => s
  end.

(** The rows of a table as [_rebuild_index] lists them. *)
Definition items (i : nat) (l : list TorrentSnapshot) : list (str * nat) :=
  combine (map Snap.info_hash l) (seq i (length l)).

(** The rows whose snapshot satisfies [f], counted from [i]. *)
Fixpoint positions (f : TorrentSnapshot -> bool) (i : nat)
    (l : list TorrentSnapshot) : list nat :=
  match l with
  | [] => []
  | s :: rest => (if f s then [i] else []) ++ positions f (S i) rest
  end.

(** The rows [update_from_snapshots] leaves: the old rows whose hash is
    still reported, each replaced by the incoming snapshot of that hash,
    then the incoming snapshots with a new hash. *)
Definition updated_rows (incoming old : list TorrentSnapshot) : list TorrentSnapshot :=
  map (latest incoming)
      (List.filter (fun s => bool_decide (Snap.info_hash s ∈ map Snap.info_hash incoming)) old) ++
  List.filter (fun s => negb (bool_decide (Snap.info_hash s ∈ map Snap.info_hash old))) incoming.

(** The last row of [l] with hash [h]. *)
Fixpoint last_row (h : str) (l : list TorrentSnapshot) : option nat :=
  match l with
  | [] => None
  | s :: rest =>
      match last_row h rest with
      | Some k => Some (S k)
      | None => if decide (Snap.info_hash s = h) then Some 0%nat else None
      end
  end.

End Model.

End TorrentListModel.

Module TorrentListFixture.
Import TorrentModel TorrentListModel.

(** A snapshot as [Torrent.snapshot] returns it when the engine gives no
    status: only the name and the hash are set. *)
Definition row (h nm : str) : @TorrentSnapshot Fixtures.Zfloat :=
  @failed_snapshot Fixtures.Zfloat (list str) nm h [] [] 0 (py "Failed to get status").

Definition hash_b : str := py "bbbbbbbbbbbbbbbbbbbbbbbbbbbbbbbbbbbbbbbb".
Definition hash_c : str := py "cccccccccccccccccccccccccccccccccccccccc".

(** A table that shows [a] and [b]. *)
Definition table_ab : @TorrentListModel Fixtures.Zfloat :=
  {| _snapshots := [row EngineFixture.hash_a (py "a"); row hash_b (py "b")];
     _hash_index := [(EngineFixture.hash_a, 0%nat); (hash_b, 1%nat)] |}.

(** The next tick: [a] is gone, [b] has a new name, [c] is new. *)
Definition incoming_bc : list (@TorrentSnapshot Fixtures.Zfloat) :=
  [row hash_c (py "c"); row hash_b (py "b2")].

(** Two torrents whose handles never gave their hash: both snapshots carry
    the empty hash. *)
Definition incoming_no_hash : list (@TorrentSnapshot Fixtures.Zfloat) :=
  [row [] (py "first"); row [] (py "second")].

End TorrentListFixture.

(** ** Feed parsing ([parse_feed] in [flux/core/rss_monitor.py]) *)

(** An [xml.etree.ElementTree.Element] as the parser reads it: the tag,
    the attributes, the text before the first child, the children. *)
Module Xml.

#[local] Set Warnings "-register-all".

Inductive Element :=
| Elem (tag : str) (attrib : list (str * str)) (text : option str)
       (children : list Element).

Definition tag (e : Element) : str := match e with Elem t _ _ _ => t end.
Definition attrib (e : Element) : list (str * str) :=
  match e with Elem _ a _ _ => a end.
Definition text (e : Element) : option str := match e with Elem _ _ x _ => x end.
Definition children (e : Element) : list Element :=
  match e with Elem _ _ _ c => c end.

(** [e.find(t)] for a plain tag [t]: the first child with that tag. *)
Definition find (t : str) (e : Element) : option Element :=
  List.find (fun c => str_eqb (tag c) t) (children e).

(** [e.findall(t)] for a plain tag [t]: the children with that tag. *)
Definition findall (t : str) (e : Element) : list Element :=
  List.filter (fun c => str_eqb (tag c) t) (children e).

(** [e.get(key, dflt)] *)
Definition get (key dflt : str) (e : Element) : str :=
  match od_get key (attrib e) with
  | Some v => v
  | None => dflt
  end.

(** What [ET.fromstring] does with a text. *)
Inductive parse_outcome :=
| ParseError                     (* raises [ET.ParseError] *)
| OtherError (e : exn)           (* raises something else *)
| Root (root : Element).

End Xml.

(** The library calls of [parse_feed]. *)
Class FeedLib := {
  (** [ET.fromstring(xml_text)] *)
  fromstring : str -> Xml.parse_outcome;
  (** [int(s)] for a string: [None] is [ValueError]. *)
  int_of_str : str -> option Z
}.

Module RssParse.
Import Rss Xml.

Section Parse.
Context `{FeedLib}.

(** [el.text.strip() if el is not None and el.text else ""] *)
Definition text_of (el : option Element) : str :=
  match el with
  | Some el =>
      match text el with
      | Some t => if nonempty t then strip t else []
      | None => []
      end
  | None => []
  end.

(** [_text(parent, tag)] *)
Definition _text (parent : Element) (t : str) : str := text_of (find t parent).

(** [_text_ns(parent, tag)] *)
Definition _text_ns (parent : Element) (t : str) : str := text_of (find t parent).

(** [child.tag.split('}')[-1] if '}' in child.tag else child.tag] *)
Definition local_tag (t : str) : str :=
  if contains (py "}") t then List.last (PyText.split 125 t) [] else t.

(** [(child.text or '').strip()] *)
Definition child_text (child : Element) : str :=
  strip (match text child with
         | Some t => t
         | None => []
         end).

(** One round of the loop over the children of an item:
<<
    tag = child.tag.split('}')[-1] if '}' in child.tag else child.tag
    text = (child.text or '').strip()
    if tag == 'magnetURI' or (text.startswith('magnet:')):
        fi.magnet = text
    elif tag == 'link' and text.startswith('magnet:'):
        fi.magnet = text
>> *)
Definition magnet_step (m : str) (child : Element) : str :=
  let tg := local_tag (tag child) in
  let txt := child_text child in
  if str_eqb tg (py "magnetURI") || startswith txt (py "magnet:") then txt
  else if str_eqb tg (py "link") && startswith txt (py "magnet:") then txt
  else m.

(** The body of the loop of [_parse_rss] for one [item] element:
<<
    fi = FeedItem()
    fi.title = _text(item_el, 'title')
    fi.link = _text(item_el, 'link')
    fi.guid = _text(item_el, 'guid') or fi.link
    fi.pub_date = _text(item_el, 'pubDate')
    enc = item_el.find('enclosure')
    if enc is not None:
        url = enc.get('url', '')
        if url.endswith('.torrent') or 'torrent' in enc.get('type', ''):
            fi.torrent_url = url
        try:
            fi.size = int(enc.get('length', 0))
        except (ValueError, TypeError):
            pass
    for child in item_el: ...
    if not fi.magnet and fi.link.startswith('magnet:'):
        fi.magnet = fi.link
>> *)
Definition rss_item (item_el : Element) : FeedItem :=
  let title_ := _text item_el (py "title") in
  let link_ := _text item_el (py "link") in
  let guid_ :=
    let g := _text item_el (py "guid") in if nonempty g then g else link_ in
  let pub_date_ := _text item_el (py "pubDate") in
  let enc := find (py "enclosure") item_el in
  let torrent_url_ :=
    match enc with
    | Some enc =>
        let url := get (py "url") [] enc in
        if endswith url (py ".torrent") ||
           contains (py "torrent") (get (py "type") [] enc)
        then url else []
    | None => []
    end in
  let size_ :=
    match enc with
    | Some enc =>
        match od_get (py "length") (attrib enc) with
        | Some s => match int_of_str s with
                    | Some z => z
                    | None => 0
                    end
        | None => 0
        end
    | None => 0
    end in
  let magnet1 := fold_left magnet_step (children item_el) [] in
  let magnet_ :=
    if negb (nonempty magnet1) && startswith link_ (py "magnet:")
    then link_ else magnet1 in
  {| title := title_; link := link_; magnet := magnet_;
     torrent_url := torrent_url_; pub_date := pub_date_; size := size_;
     guid := guid_ |}.

(** [_parse_rss(root)] *)
Definition _parse_rss (root : Element) : list FeedItem :=
  match find (py "channel") root with
  | None => []
  | Some channel => map rss_item (findall (py "item") channel)
  end.

Definition atom_ns : str := py "{http://www.w3.org/2005/Atom}".

Definition set_magnet (v : str) (fi : FeedItem) : FeedItem :=
  {| title := title fi; link := link fi; magnet := v;
     torrent_url := torrent_url fi; pub_date := pub_date fi; size := size fi;
     guid := guid fi |}.

Definition set_torrent_url (v : str) (fi : FeedItem) : FeedItem :=
  {| title := title fi; link := link fi; magnet := magnet fi;
     torrent_url := v; pub_date := pub_date fi; size := size fi;
     guid := guid fi |}.

Definition set_link (v : str) (fi : FeedItem) : FeedItem :=
  {| title := title fi; link := v; magnet := magnet fi;
     torrent_url := torrent_url fi; pub_date := pub_date fi; size := size fi;
     guid := guid fi |}.

(** One round of the loop over the links of an entry:
<<
    href = link_el.get('href', '')
    rel = link_el.get('rel', '')
    ltype = link_el.get('type', '')
    if href.startswith('magnet:'):
        fi.magnet = href
    elif href.endswith('.torrent') or 'torrent' in ltype:
        fi.torrent_url = href
    elif rel == 'alternate' or rel == '':
        fi.link = href
>> *)
Definition link_step (fi : FeedItem) (link_el : Element) : FeedItem :=
  let href := get (py "href") [] link_el in
  let rel := get (py "rel") [] link_el in
  let ltype := get (py "type") [] link_el in
  if startswith href (py "magnet:") then set_magnet href fi
  else if endswith href (py ".torrent") || contains (py "torrent") ltype
       then set_torrent_url href fi
  else if str_eqb rel (py "alternate") || str_eqb rel [] then set_link href fi
  else fi.

(** The body of the loop of [_parse_atom] for one [entry] element. *)
Definition atom_item (entry : Element) : FeedItem :=
  let title_ := text_of (find (atom_ns ++ py "title") entry) in
  let guid_ := _text_ns entry (atom_ns ++ py "id") in
  let pub_date_ :=
    let u := _text_ns entry (atom_ns ++ py "updated") in
    if nonempty u then u else _text_ns entry (atom_ns ++ py "published") in
  fold_left link_step (findall (atom_ns ++ py "link") entry)
    {| title := title_; link := []; magnet := []; torrent_url := [];
       pub_date := pub_date_; size := 0; guid := guid_ |}.

(** [_parse_atom(root)] *)
Definition _parse_atom (root : Element) : list FeedItem :=
  map atom_item (findall (atom_ns ++ py "entry") root).

Definition is_some {A} (x : option A) : bool :=
  match x with Some _ => true | None => false end.

(** [parse_feed(xml_text)]:
<<
    items = []
    try:
        root = ET.fromstring(xml_text)
    except ET.ParseError as e:
        return items
    if root.tag == 'rss' or root.find('channel') is not None:
        items = _parse_rss(root)
    elif root.tag.endswith('feed') or root.find('{...Atom}entry') is not None:
        items = _parse_atom(root)
    else:
        logger.warning(...)
    return items
>> *)
Definition parse_feed (xml_text : str) : result (list FeedItem) :=
  match fromstring xml_text with
  | ParseError => ok []
  | OtherError e => raise e
  | Root root =>
      if str_eqb (tag root) (py "rss") || is_some (find (py "channel") root)
      then ok (_parse_rss root)
      else if endswith (tag root) (py "feed") ||
              is_some (find (atom_ns ++ py "entry") root)
      then ok (_parse_atom root)
      else ok []
  end.

End Parse.

(** What the loop over the links of an entry keeps true. *)
Definition atom_ok (fi : FeedItem) : Prop :=
  (magnet fi = [] \/ startswith (magnet fi) (py "magnet:") = true) /\
  startswith (link fi) (py "magnet:") = false /\
  endswith (link fi) (py ".torrent") = false /\
  startswith (torrent_url fi) (py "magnet:") = false /\
  size fi = 0.

(** A string that [strip] leaves as it is. *)
Definition trimmed (s : str) : Prop := strip s = s.

End RssParse.

Module RssParseFixture.
Import Rss Xml RssParse.

Definition leaf (t : string) (txt : string) : Element :=
  Elem (py t) [] (Some (py txt)) [].

(** The tree of the RSS document of the repository's tests. *)
Definition rss_sample : Element :=
  Elem (py "rss") [(py "version", py "2.0")] None
    [ Elem (py "channel") [] None
        [ leaf "title" "Test Feed";
          Elem (py "item") [] None
            [ leaf "title" "Ubuntu 22.04.3 LTS Desktop";
              leaf "link" "https://example.com/ubuntu";
              leaf "guid" "item-001";
              leaf "pubDate" "Mon, 01 Jan 2024 12:00:00 +0000";
              Elem (py "enclosure")
                [(py "url", py "https://example.com/ubuntu.torrent");
                 (py "type", py "application/x-bittorrent");
                 (py "length", py "3456789")] None [] ];
          Elem (py "item") [] None
            [ leaf "title" "Magnet Item";
              leaf "link" "magnet:?xt=urn:btih:abc123";
              leaf "guid" "item-002" ];
          Elem (py "item") [] None
            [ leaf "title" "No Download";
              leaf "link" "https://example.com/page";
              leaf "guid" "item-003" ] ] ].

Definition aleaf (t : string) (txt : string) : Element :=
  Elem (atom_ns ++ py t) [] (Some (py txt)) [].

(** The tree of the Atom document of the repository's tests. *)
Definition atom_sample : Element :=
  Elem (atom_ns ++ py "feed") [] None
    [ aleaf "title" "Atom Feed";
      Elem (atom_ns ++ py "entry") [] None
        [ aleaf "title" "Atom Torrent";
          aleaf "id" "atom-001";
          aleaf "updated" "2024-01-15T10:00:00Z";
          Elem (atom_ns ++ py "link")
            [(py "href", py "https://example.com/file.torrent");
             (py "type", py "application/x-bittorrent")] None [];
          Elem (atom_ns ++ py "link")
            [(py "href", py "https://example.com/page");
             (py "rel", py "alternate")] None [] ];
      Elem (atom_ns ++ py "entry") [] None
        [ aleaf "title" "Atom Magnet";
          aleaf "id" "atom-002";
          Elem (atom_ns ++ py "link")
            [(py "href", py "magnet:?xt=urn:btih:def456");
             (py "rel", py "alternate")] None [] ] ].

(** An item whose magnet element is empty and comes after its link. *)
Definition item_empty_magnet_uri : Element :=
  Elem (py "item") [] None
    [ leaf "title" "Reset";
      leaf "link" "magnet:?xt=urn:btih:abc123";
      Elem (py "magnetURI") [] None [] ].

(** Decimal digits only. *)
Fixpoint digits (s : str) (acc : Z) : option Z :=
  match s with
  | [] => Some acc
  | c :: s' =>
      if (48 <=? c)%N && (c <=? 57)%N
      then digits s' (10 * acc + (Z.of_N c - 48))
      else None
  end.

(** A parser that knows two documents, here under the names [rss] and
    [atom], and rejects every other text. *)
Definition toy_feedlib : FeedLib :=
  {| fromstring := fun s =>
       if str_eqb s (py "rss") then Root rss_sample
       else if str_eqb s (py "atom") then Root atom_sample
       else ParseError;
     int_of_str := fun s =>
       match s with
       | [] => None
       | _ :: _ => digits s 0
       end |}.

End RssParseFixture.

(** * Properties *)

(** Case analysis on the first [if] or [match] scrutinee of the goal. *)
Ltac split_if :=
  match goal with
  | |- context [if ?b then _ else _] => destruct b eqn:?
  | |- context [match ?x with _ => _ end] => destruct x eqn:?
  end.

(** String literals stay folded under [simpl] and [cbn]. *)
Arguments py : simpl never.

(** ** Python strings *)

Module PyFacts.

Lemma nonempty_true (s : str) : nonempty s = true <-> s <> [].
Proof. destruct s; simpl; split; congruence. Qed.

Lemma nonempty_false (s : str) : nonempty s = false <-> s = [].
Proof. destruct s; simpl; split; congruence. Qed.

Lemma startswith_app (p s : str) : startswith (p ++ s) p = true.
Proof.
  induction p as [|c p IH]; simpl; [reflexivity|].
  now rewrite N.eqb_refl, IH.
Qed.

Lemma startswith_prefix (s p : str) :
  startswith s p = true <-> exists t, s = p ++ t.
Proof.
  revert s; induction p as [|c p IH]; intros s; simpl.
  - split; eauto.
  - destruct s as [|d s].
    + split; [discriminate|]. intros [t Ht]; discriminate.
    + rewrite andb_true_iff, N.eqb_eq, IH. split.
      * intros [-> [t ->]]. now exists t.
      * intros [t Ht]. injection Ht as -> ->. eauto.
Qed.

(** A string that begins with [p] also contains [p]. *)
Lemma startswith_contains (s p : str) :
  startswith s p = true -> contains p s = true.
Proof. intros H. destruct s; simpl; rewrite H; reflexivity. Qed.

Lemma contains_infix (p s : str) :
  contains p s = true <-> exists a b, s = a ++ p ++ b.
Proof.
  induction s as [|c s IH]; simpl.
  - rewrite orb_false_r, startswith_prefix. split.
    + intros [t Ht]. exists [], t. exact Ht.
    + intros (a & b & H). destruct a; [|discriminate].
      exists b. exact H.
  - rewrite orb_true_iff, IH, startswith_prefix. split.
    + intros [[t Ht]|(a & b & ->)].
      * exists [], t. exact Ht.
      * exists (c :: a), b. reflexivity.
    + intros (a & b & H). destruct a as [|x a].
      * left. exists b. exact H.
      * right. injection H as -> ->. eauto.
Qed.

End PyFacts.

(** ** Insertion-ordered dictionaries *)

Module OdictFacts.
Section Odict.
Context {K V : Type} `{EqDecision K}.
Implicit Types (d : list (K * V)).

Lemma od_get_In k v d : od_get k d = Some v -> In (k, v) d.
Proof.
  induction d as [|[k' v'] d IH]; simpl; [discriminate|].
  destruct (decide (k' = k)) as [->|]; [intros [= ->]; now left | auto].
Qed.

Lemma od_get_None k d : od_get k d = None <-> k ∉ od_keys d.
Proof.
  induction d as [|[k' v'] d IH]; simpl.
  - split; [intros _; apply not_elem_of_nil | reflexivity].
  - rewrite not_elem_of_cons. destruct (decide (k' = k)) as [->|Hne].
    + split; [discriminate | tauto].
    + rewrite IH. split; [intros Hn; split; [congruence | exact Hn] | tauto].
Qed.

Lemma od_del_keys_subset k k' d : k' ∈ od_keys (od_del k d) -> k' ∈ od_keys d.
Proof.
  induction d as [|[k0 v0] d IH]; simpl; [tauto|].
  destruct (decide (k0 = k)); simpl; rewrite !elem_of_cons; tauto.
Qed.

Lemma od_del_NoDup k d : NoDup (od_keys d) -> NoDup (od_keys (od_del k d)).
Proof.
  induction d as [|[k0 v0] d IH]; simpl; [auto|].
  intros Hnd. apply NoDup_cons in Hnd as [Hn Hnd].
  destruct (decide (k0 = k)); simpl; [exact Hnd|].
  apply NoDup_cons. split; [|auto].
  intros Hin. apply Hn. eapply od_del_keys_subset, Hin.
Qed.



Lemma od_keys_set_new k v d :
  od_get k d = None -> od_keys (od_set k v d) = od_keys d ++ [k].
Proof.
  induction d as [|[k0 v0] d IH]; simpl; [reflexivity|].
  destruct (decide (k0 = k)); [discriminate|]. intros Hg. simpl. now rewrite IH.
Qed.

Lemma od_keys_set_old k v d :
  od_get k d <> None -> od_keys (od_set k v d) = od_keys d.
Proof.
  induction d as [|[k0 v0] d IH]; simpl; [congruence|].
  destruct (decide (k0 = k)); simpl; [reflexivity|]. intros Hg. now rewrite IH.
Qed.

Lemma od_set_NoDup k v d : NoDup (od_keys d) -> NoDup (od_keys (od_set k v d)).
Proof.
  intros Hnd. destruct (od_get k d) eqn:Hg.
  - rewrite od_keys_set_old by congruence. exact Hnd.
  - rewrite od_keys_set_new by exact Hg.
    apply NoDup_app. split; [exact Hnd|]. split.
    + intros x Hx Hk. apply list_elem_of_singleton in Hk as ->.
      apply od_get_None in Hg. exact (Hg Hx).
    + apply NoDup_singleton.
Qed.

Lemma od_get_set_eq k v d : od_get k (od_set k v d) = Some v.
Proof.
  induction d as [|[k0 v0] d IH]; simpl.
  - destruct (decide (k = k)); congruence.
  - destruct (decide (k0 = k)) as [->|Hne]; simpl.
    + destruct (decide (k = k)); congruence.
    + destruct (decide (k0 = k)); [contradiction | exact IH].
Qed.

Lemma od_mem_get k d : od_mem k d = false <-> od_get k d = None.
Proof. unfold od_mem. destruct (od_get k d); split; congruence. Qed.

End Odict.
End OdictFacts.

(** ** RSS ingester *)

Module RssFacts.
Import Rss PyFacts.

(** *** [FeedItem.download_url] *)

Example download_url_enclosure :
  download_url {| title := py "Ubuntu 22.04.3 LTS Desktop";
                  link := py "https://example.com/ubuntu";
                  magnet := [];
                  torrent_url := py "https://example.com/ubuntu.torrent";
                  pub_date := []; size := 3456789; guid := py "item-001" |}
  = py "https://example.com/ubuntu.torrent".
Proof. reflexivity. Qed.

Example download_url_plain_link :
  download_url {| title := py "No Download";
                  link := py "https://example.com/page";
                  magnet := []; torrent_url := [];
                  pub_date := []; size := 0; guid := py "item-003" |}
  = [].
Proof. reflexivity. Qed.

Lemma download_url_is_fun (it : FeedItem) (r r' : str) :
  download_url_is it r -> download_url_is it r' -> r = r'.
Proof.
  intros H H'.
  destruct H; destruct H'; try congruence;
    repeat match goal with
           | H : _ \/ _ |- _ => destruct H
           end; congruence.
Qed.

Lemma download_url_sound (it : FeedItem) : download_url_is it (download_url it).
Proof.
  unfold download_url.
  destruct (nonempty (magnet it)) eqn:Hm.
  { apply du_magnet. now apply nonempty_true. }
  apply nonempty_false in Hm.
  destruct (nonempty (torrent_url it)) eqn:Ht.
  { apply du_torrent_url; [exact Hm | now apply nonempty_true]. }
  apply nonempty_false in Ht.
  destruct (endswith (link it) (py ".torrent")) eqn:He;
    destruct (contains (py "magnet:") (link it)) eqn:Hc;
    destruct (nonempty (link it)) eqn:Hl; simpl;
    try (apply du_link; auto; fail);
    try (apply du_empty; auto; fail).
  all: apply nonempty_false in Hl; rewrite Hl in *; try discriminate.
Qed.

(** C5 (as the code has it).  For every [FeedItem], [download_url] is the
    magnet field if it is not empty; else the torrent_url field if it is not
    empty; else the link field if and only if the link ends with [.torrent]
    or contains [magnet:] anywhere; else the empty string. *)
Theorem download_url_cases (it : FeedItem) (r : str) :
  download_url_is it r <-> r = download_url it.
Proof.
  split.
  - intros H. exact (download_url_is_fun it _ _ H (download_url_sound it)).
  - intros ->. apply download_url_sound.
Qed.

(** C5 fails as stated: a link that neither ends with [.torrent] nor begins
    with [magnet:], but carries [magnet:] inside, is the download URL. *)
Lemma download_url_link_not_beginning_magnet :
  magnet item_magnet_inside = [] /\
  torrent_url item_magnet_inside = [] /\
  endswith (link item_magnet_inside) (py ".torrent") = false /\
  startswith (link item_magnet_inside) (py "magnet:") = false /\
  download_url item_magnet_inside = link item_magnet_inside /\
  download_url_spec item_magnet_inside = [] /\
  link item_magnet_inside <> [].
Proof. repeat split; try reflexivity. discriminate. Qed.

(** Where the link has [magnet:] only at its start, or not at all, the
    specification's wording and the code agree. *)
Lemma download_url_spec_agrees (it : FeedItem) :
  contains (py "magnet:") (link it) = startswith (link it) (py "magnet:") ->
  download_url it = download_url_spec it.
Proof.
  intros H. unfold download_url, download_url_spec. rewrite H.
  destruct (magnet it); simpl; [|reflexivity].
  destruct (torrent_url it); simpl; [|reflexivity].
  destruct (link it); reflexivity.
Qed.

(** *** [FeedConfig.from_dict] and [RSSMonitor.load_config] *)

Lemma from_dict_interval (d : gmap str pyval) :
  interval_minutes (from_dict d) =
  match d !! py "interval_minutes" with
  | Some v => v
  | None => VInt 30
  end.
Proof. reflexivity. Qed.

(** [to_dict] then [from_dict] gives the configuration back. *)
Lemma from_dict_to_dict (c : FeedConfig) : from_dict (to_dict c) = c.
Proof. destruct c. reflexivity. Qed.

Lemma pd_get_set {V} (k k' : pyval) (v c : V) (d : list (pyval * V)) :
  pd_get k (pd_set k' v d) = Some c -> c = v \/ pd_get k d = Some c.
Proof.
  induction d as [|[k0 v0] d IH]; simpl.
  - destruct (py_eqb k' k); [|discriminate]. intros [= ->]. now left.
  - destruct (py_eqb k0 k') eqn:E; simpl.
    + destruct (py_eqb k0 k); [|tauto]. intros [= ->]. now left.
    + destruct (py_eqb k0 k); [tauto|]. exact IH.
Qed.

Lemma add_feed_feeds (c : FeedConfig) (m : RSSMonitor) :
  feeds (fst (add_feed c m)) = pd_set (url c) c (feeds m).
Proof. unfold add_feed. destruct (_restart_timer c (timers m)). reflexivity. Qed.

(** C6 (as the code has it).  Config load does not clamp: every feed found
    in the table after [load_config] was there before or is [from_dict d]
    for a dictionary [d] of the list, and its [interval_minutes] is the
    dictionary's value as it stands (30 when the key is absent). *)
Theorem load_config_keeps_interval (feed_list : list (gmap str pyval))
    (m : RSSMonitor) (k : pyval) (c : FeedConfig) :
  pd_get k (feeds (load_config feed_list m)) = Some c ->
  pd_get k (feeds m) = Some c \/
  exists d, In d feed_list /\ c = from_dict d /\
            interval_minutes c =
            match d !! py "interval_minutes" with
            | Some v => v
            | None => VInt 30
            end.
Proof.
  revert m. induction feed_list as [|d rest IH]; intros m H;
    cbn [load_config] in H.
  - now left.
  - apply IH in H. destruct H as [H | (d' & Hin & -> & Hi)].
    + destruct (truthy (url (from_dict d))).
      * rewrite add_feed_feeds in H. apply pd_get_set in H.
        destruct H as [-> | H]; [|now left].
        right. exists d. split; [now left|]. split; reflexivity.
      * now left.
    + right. exists d'. split; [now right|]. split; [reflexivity | exact Hi].
Qed.

Lemma load_config_keeps_interval_witness :
  pd_get (VStr (py "http://feeds.example/rss"))
         (feeds (load_config [dict_one_minute] RSSMonitor_init))
    = Some (from_dict dict_one_minute) /\
  (pd_get (VStr (py "http://feeds.example/rss")) (feeds RSSMonitor_init)
     = Some (from_dict dict_one_minute) \/
   exists d, In d [dict_one_minute] /\ from_dict dict_one_minute = from_dict d /\
             interval_minutes (from_dict dict_one_minute) =
             match d !! py "interval_minutes" with
             | Some v => v
             | None => VInt 30
             end).
Proof.
  split; [reflexivity|].
  apply (load_config_keeps_interval [dict_one_minute] RSSMonitor_init).
  reflexivity.
Defined.

(** C6 fails as stated: a dictionary with [interval_minutes = 1] is loaded
    with that value, and the loaded feed breaks [interval_minutes >= 5]. *)
Lemma load_config_does_not_clamp :
  exists c,
    pd_get (VStr (py "http://feeds.example/rss"))
           (feeds (load_config [dict_one_minute] RSSMonitor_init)) = Some c /\
    interval_minutes c = VInt 1 /\
    ~ interval_ok c.
Proof.
  exists (from_dict dict_one_minute).
  split; [reflexivity|]. split; [reflexivity|].
  unfold interval_ok.
  replace (interval_minutes (from_dict dict_one_minute)) with (VInt 1)
    by reflexivity.
  lia.
Qed.

End RssFacts.

(** ** Torrent state *)

Module TorrentStateFacts.
Import TorrentState.

(** The first applicable rule is unique. *)
Lemma decides_fun rules r r' : decides rules r -> decides rules r' -> r = r'.
Proof.
  intros H. revert r'. induction H; intros r' H'; inversion H'; subst;
    try reflexivity; try contradiction; auto.
Qed.

Section WithFlags.
Context `{TorrentFlags}.

Lemma land_bit (flags bit : Z) :
  negb (Z.land flags bit =? 0) = true <-> Z.land flags bit <> 0.
Proof.
  destruct (Z.eqb_spec (Z.land flags bit) 0) as [He|Hne]; cbn [negb];
    split; intros Hx; try congruence; try reflexivity; try discriminate.
Qed.

(** What the code computes for [is_paused] and [is_auto_managed] is what
    the bundle reports, for a bundle that has both attributes or
    neither.  The auto-managed value matters only for a paused torrent. *)
Lemma paused_flags_reports (s : StateInputs) :
  bundle_shape s ->
  (fst (paused_flags s) = true <-> reports_paused s) /\
  (fst (paused_flags s) = true ->
   (snd (paused_flags s) = true <-> reports_auto_managed s)).
Proof.
  unfold bundle_shape, paused_flags, flags_from_bits, reports_paused,
    reports_auto_managed.
  intros [Hpa Hap].
  destruct (s_paused s) as [p|]; destruct (s_auto_managed s) as [a|].
  - cbn [fst snd]. tauto.
  - specialize (Hap eq_refl). discriminate.
  - specialize (Hpa eq_refl). discriminate.
  - destruct (s_flags s) as [flags|];
      [|cbn [fst snd]; split; [split; [discriminate | contradiction] | discriminate]].
    destruct torrent_flags_paused as [fp|];
      [|cbn [fst snd]; split; [split; [discriminate | contradiction] | discriminate]].
    destruct torrent_flags_auto_managed as [fa|]; cbn [fst snd].
    + split; [apply land_bit|]. intros _. apply land_bit.
    + split; [apply land_bit|]. intros _. split; [discriminate | contradiction].
Qed.

Lemma resolve_state_decides (s : StateInputs) :
  bundle_shape s -> decides (decision_tree s) (_resolve_state s).
Proof.
  intros Hshape. destruct (paused_flags_reports s Hshape) as [Hp Ha].
  unfold decision_tree, _resolve_state.
  destruct (paused_flags s) as [p a]; cbn [fst snd] in Hp, Ha.
  destruct (Z.eqb_spec (errc_value s) 0) as [He|He]; cbn [negb].
  2:{ now apply decides_here. }
  apply decides_next; [tauto|].
  destruct p; cbn [andb].
  - specialize (Ha eq_refl). destruct a; cbn [negb].
    + apply decides_next; [tauto|]. apply decides_here. tauto.
    + apply decides_here. split; [tauto|]. intros Hra. apply Ha in Hra. discriminate.
  - assert (Hnp : ~ reports_paused s) by (intros Hr; apply Hp in Hr; discriminate).
    do 2 (apply decides_next; [tauto|]).
    destruct (lt_st s) eqn:Hs; simpl;
      repeat first
        [ apply decides_here; solve [intuition congruence]
        | match goal with
          | |- context [(?x <? ?y) && (?u <? ?v)] =>
              destruct (Z.ltb_spec x y); destruct (Z.ltb_spec u v); simpl
          end
        | apply decides_here; solve [intuition (try congruence; try lia)]
        | apply decides_next; [solve [intuition (try congruence; try lia)]|] ].
Qed.

(** For a bundle that has both attributes or neither, [_resolve_state]
    returns the outcome of the first rule of the decision tree whose
    condition holds, and nothing else is such an outcome. *)
Lemma resolve_state_decision_tree (s : StateInputs) (r : TorrentState) :
  bundle_shape s ->
  decides (decision_tree s) r <-> r = _resolve_state s.
Proof.
  intros Hshape. split.
  - intros Hd. exact (decides_fun _ _ _ Hd (resolve_state_decides s Hshape)).
  - intros ->. now apply resolve_state_decides.
Qed.

End WithFlags.

Example resolve_slow_download :
  @_resolve_state flags_lt12 slow_download = STALLED.
Proof. reflexivity. Qed.

(** On a bundle with one of the two attributes only, which no binding
    produces, the code goes by the flags where the attribute says
    otherwise. *)
Example resolve_mixed_bundle :
  ~ @bundle_shape mixed_bundle /\
  @_resolve_state flags_lt12 mixed_bundle = PAUSED /\
  decides (@decision_tree flags_lt12 mixed_bundle) DOWNLOADING.
Proof.
  split; [|split; [reflexivity|]].
  - intros [_ Hx]. specialize (Hx eq_refl). discriminate.
  - unfold decision_tree, reports_paused, reports_auto_managed. cbn.
    apply decides_next; [tauto|].
    apply decides_next; [intros [Hx _]; discriminate|].
    apply decides_next; [intros [Hx _]; discriminate|].
    apply decides_next; [intros [Hx|Hx]; discriminate|].
    apply decides_next; [discriminate|].
    apply decides_next; [intros (_ & Hr & _); lia|].
    now apply decides_here.
Qed.

End TorrentStateFacts.

(** ** Peer filter *)

Module PeerFilterFacts.
Import PeerFilter PeerVerdict PeerFixture.

(** *** The repository's tests, run on the model *)

Section Tests.
Import Fixtures.
#[local] Existing Instance Zfloat.
#[local] Existing Instance frag_pylib.

Example test_disabled_passes_all :
  option_map fst (check_peer 0 (bytes_of "-XL1234-") (py "Xunlei") (py "1.2.3.4")
                    (set_enabled false PeerFilter_init))
  = Some (false, []).
Proof. reflexivity. Qed.

Example test_ban_xunlei_peer_id :
  option_map fst (check_peer 0 (bytes_of "-XL1234-abcdef") (py "Unknown") (py "1.2.3.4")
                    PeerFilter_init)
  = Some (true, py "Xunlei/Thunder").
Proof. reflexivity. Qed.

Example test_pass_qbittorrent :
  option_map fst (check_peer 0 (bytes_of "-qB4500-abcdef") (py "qBittorrent/4.5.0")
                    (py "1.2.3.4") PeerFilter_init)
  = Some (false, []).
Proof. reflexivity. Qed.

Example test_ban_by_client_name :
  option_map fst (check_peer 0 (bytes_of "-XX1234-abcdef") (py "Xunlei 7.2.1")
                    (py "1.2.3.4") PeerFilter_init)
  = Some (true, py "Xunlei client name match").
Proof. reflexivity. Qed.

Example test_whitelist_overrides :
  option_map fst (check_peer 0 (bytes_of "-XL1234-abcdef") (py "Unknown") (py "1.2.3.4")
                    (add_whitelist (py "-XL") PeerFilter_init))
  = Some (false, []).
Proof. reflexivity. Qed.

Example test_custom_rule :
  option_map fst (check_peer 0 (bytes_of "-MY1234-abcdef") (py "Unknown") (py "1.2.3.4")
                    (add_custom_rule (py "-MY") (py "Custom leecher") PeerFilter_init))
  = Some (true, py "Custom leecher").
Proof. reflexivity. Qed.

Example test_disable_xunlei_only :
  option_map fst (check_peer 0 (bytes_of "-XL1234-abcdef") (py "Unknown") (py "1.2.3.4")
                    (configure true false true true PeerFilter_init))
  = Some (false, []) /\
  option_map fst (check_peer 0 (bytes_of "-QD1234-abcdef") (py "Unknown") (py "1.2.3.4")
                    (configure true false true true PeerFilter_init))
  = Some (true, py "QQ Tornado/Whirlwind").
Proof. split; reflexivity. Qed.

Example test_ip_blocklist :
  option_map fst (check_peer 0 (bytes_of "-qB1234-abcdef") (py "qBittorrent") (py "1.2.3.50")
                    (set_ip_blocklist [(16909056, 16909311); (167772161, 167772170)]
                       PeerFilter_init))
  = Some (true, py "IP blocklist") /\
  option_map fst (check_peer 0 (bytes_of "-qB1234-abcdef") (py "qBittorrent") (py "2.2.2.2")
                    (set_ip_blocklist [(16909056, 16909311); (167772161, 167772170)]
                       PeerFilter_init))
  = Some (false, []).
Proof. split; reflexivity. Qed.

Example test_ban_log :
  option_map (fun r => map log_ip (_ban_log (snd r)))
    (check_peer 0 (bytes_of "-XL1234-abcdef") (py "Xunlei") (py "1.2.3.4") PeerFilter_init)
  = Some [py "1.2.3.4"].
Proof. reflexivity. Qed.

(** C4 fails as stated.  A custom rule whose pattern does not compile
    makes [check_peer] raise [re.error] for a peer no earlier rule bans:
    it returns neither allow nor ban, while no rule matches the peer and
    the claim has it allowed. *)
Lemma custom_rule_bad_pattern_raises :
  check_peer 0 (bytes_of "-qB4500-abcdef") (py "qBittorrent") (py "1.2.3.4")
    (add_custom_rule (py "(") (py "broken") PeerFilter_init) = None /\
  check_peer_spec (add_custom_rule (py "(") (py "broken") PeerFilter_init)
    (bytes_of "-qB4500-abcdef") (py "qBittorrent") (py "1.2.3.4") = allow.
Proof. split; reflexivity. Qed.

End Tests.

(** *** The steps of [check_peer] *)

Section Steps.
Context `{PyFloat} `{PyLib}.

Lemma peer_id_prefix_nil : peer_id_prefix [] = [].
Proof. reflexivity. Qed.

Lemma peer_id_str_eq (peer_id : list Byte.byte) :
  match peer_id with [] => [] | _ => peer_id_prefix peer_id end
  = peer_id_prefix peer_id.
Proof. destruct peer_id; reflexivity. Qed.

Lemma peer_id_prefix_length (peer_id : list Byte.byte) :
  (length (peer_id_prefix peer_id) <= 8)%nat.
Proof. unfold peer_id_prefix, slice_to. rewrite length_firstn. lia. Qed.

(** The code decodes the whole id and cuts the text; the specification
    takes the first 8 bytes and reads them.  Both give the same prefix. *)
Lemma peer_id_prefix_id (peer_id : list Byte.byte) :
  peer_id_prefix peer_id = id_prefix peer_id.
Proof.
  unfold peer_id_prefix, id_prefix, slice_to, decode_ascii_replace.
  rewrite firstn_map. apply map_ext. intros b. unfold byte_char.
  destruct (N.ltb_spec (Byte.to_N b) 128); destruct (N.ltb_spec 127 (Byte.to_N b));
    try reflexivity; lia.
Qed.

(** [struct.unpack("!I", ...)] gives the number of the four octets. *)
Lemma unpack_I_number (b : list Byte.byte) : unpack_I b = octets_number b.
Proof.
  unfold unpack_I, octets_number.
  destruct b as [|b3 [|b2 [|b1 [|b0 [|b4 rest]]]]]; try reflexivity.
  cbn [length Nat.eqb fold_left]. f_equal. lia.
Qed.

Lemma ip_value_number (ip : str) : ip_value ip = address_number ip.
Proof.
  unfold ip_value, address_number.
  destruct (inet_aton ip); [apply unpack_I_number | reflexivity].
Qed.

Lemma whitelisted_existsb (s : str) (wl : list str) :
  whitelisted s wl = existsb (startswith s) wl.
Proof.
  induction wl as [|p wl IH]; simpl; [reflexivity|].
  rewrite IH. now destruct (startswith s p).
Qed.

Lemma builtin_active_code (self : PeerFilter) (r : BanRule) :
  builtin_active self r =
  if (str_eqb (pattern r) (py "-XL") || str_eqb (pattern r) (py "-SD") ||
      str_eqb (pattern r) (py "-DL")) && negb (_ban_xunlei self) then false
  else if str_eqb (pattern r) (py "-QD") && negb (_ban_qq self) then false
  else if str_eqb (pattern r) (py "-BN") && negb (_ban_baidu self) then false
  else enabled r.
Proof.
  unfold builtin_active, family_of, str_eqb.
  destruct r as [p rsn en]; destruct self as [e bx bq bb cb ib wl bl ml]; simpl.
  destruct (decide (p = py "-XL")) as [->|NXL];
    [destruct bx, en; reflexivity|].
  destruct (decide (p = py "-SD")) as [->|NSD];
    [destruct bx, en; reflexivity|].
  destruct (decide (p = py "-DL")) as [->|NDL];
    [destruct bx, en; reflexivity|].
  destruct (decide (p = py "-QD")) as [->|NQD];
    [destruct bq, en; reflexivity|].
  destruct (decide (p = py "-BN")) as [->|NBN];
    [destruct bb, en; reflexivity|].
  rewrite (bool_decide_eq_false_2 (p = py "-XL") NXL),
          (bool_decide_eq_false_2 (p = py "-SD") NSD),
          (bool_decide_eq_false_2 (p = py "-DL") NDL),
          (bool_decide_eq_false_2 (p = py "-QD") NQD),
          (bool_decide_eq_false_2 (p = py "-BN") NBN).
  rewrite (bool_decide_eq_false_2 (p = py "-XL" \/ p = py "-SD" \/ p = py "-DL"))
    by tauto.
  simpl. destruct en; reflexivity.
Qed.

Lemma active_of_filter (self : PeerFilter) (known : list BanRule) :
  active_of self known = List.filter (builtin_active self) known.
Proof.
  induction known as [|r known IH]; [reflexivity|].
  cbn [active_of List.filter]. rewrite builtin_active_code, IH.
  repeat split_if; reflexivity.
Qed.

Lemma find_fst_app {A} (l1 l2 : list (bool * A)) :
  List.find fst (l1 ++ l2) =
  match List.find fst l1 with
  | Some x => Some x
  | None => List.find fst l2
  end.
Proof.
  induction l1 as [|[b x] l1 IH]; simpl; [reflexivity|].
  destruct b; [reflexivity | exact IH].
Qed.

Lemma first_prefix_rule_find (s : str) (rules : list BanRule) :
  first_prefix_rule s rules =
  option_map snd
    (List.find fst (map (fun r => (startswith s (pattern r), reason r)) rules)).
Proof.
  induction rules as [|r rules IH]; simpl; [reflexivity|].
  destruct (startswith s (pattern r)); [reflexivity | exact IH].
Qed.

Lemma first_client_rule_find (client : str) (rules : list BanRule) :
  (forall r, In r rules -> enabled r = true ->
             re_search (pattern r) client <> None) ->
  first_client_rule client rules =
  Some (option_map snd
          (List.find fst
             (map (fun r => (enabled r && re_match (pattern r) client, reason r))
                  rules))).
Proof.
  induction rules as [|r rules IH]; intros Hc; simpl; [reflexivity|].
  assert (IH' := IH (fun r' Hin => Hc r' (or_intror Hin))).
  unfold re_match.
  destruct (enabled r) eqn:En; simpl; [|exact IH'].
  specialize (Hc r (or_introl eq_refl) En).
  destruct (re_search (pattern r) client) as [[|]|]; simpl;
    [reflexivity | exact IH' | congruence].
Qed.

Lemma first_custom_rule_find (s client : str) (rules : list BanRule) :
  (forall r, In r rules -> enabled r = true ->
             re_search (pattern r) client <> None) ->
  first_custom_rule s client rules =
  Some (option_map snd
          (List.find fst
             (map (fun r => (enabled r && (startswith s (pattern r) ||
                                           re_match (pattern r) client), reason r))
                  rules))).
Proof.
  induction rules as [|r rules IH]; intros Hc; simpl; [reflexivity|].
  assert (IH' := IH (fun r' Hin => Hc r' (or_intror Hin))).
  unfold re_match.
  destruct (enabled r) eqn:En; simpl; [|exact IH'].
  destruct (startswith s (pattern r)); simpl; [reflexivity|].
  specialize (Hc r (or_introl eq_refl) En).
  destruct (re_search (pattern r) client) as [[|]|]; simpl;
    [reflexivity | exact IH' | congruence].
Qed.

Lemma check_ip_blocked_existsb (self : PeerFilter) (ip : str) :
  _check_ip_blocked self ip = existsb (ip_in_range ip) (_ip_blocklist self).
Proof.
  unfold _check_ip_blocked, ip_in_range.
  rewrite <- ip_value_number. unfold ip_value.
  destruct (inet_aton ip) as [packed|].
  2:{ induction (_ip_blocklist self); simpl; auto. }
  destruct (unpack_I packed) as [n|].
  2:{ induction (_ip_blocklist self); simpl; auto. }
  induction (_ip_blocklist self) as [|[a b] l IH]; simpl; [reflexivity|].
  rewrite <- IH. destruct ((a <=? n) && (n <=? b)); reflexivity.
Qed.

Lemma ranges_find (ip : str) (ranges : list (Z * Z)) :
  option_map snd
    (List.find fst (map (fun rg => (ip_in_range ip rg, py "IP blocklist")) ranges))
  = if existsb (ip_in_range ip) ranges then Some (py "IP blocklist") else None.
Proof.
  induction ranges as [|rg l IH]; simpl; [reflexivity|].
  destruct (ip_in_range ip rg); simpl; [reflexivity | exact IH].
Qed.

(** The verdict and the filter [check_peer] leaves behind: a ban is
    logged, an allow changes nothing. *)
Lemma check_peer_full (now : float) (peer_id : list Byte.byte)
    (client_name ip : str) (self : PeerFilter) :
  patterns_compile self ->
  check_peer now peer_id client_name ip self
  = Some (returned (check_peer_spec self peer_id client_name ip),
          after_verdict now client_name ip self
            (check_peer_spec self peer_id client_name ip)).
Proof.
  intros Hc. unfold check_peer, check_peer_spec.
  rewrite peer_id_str_eq, peer_id_prefix_id.
  destruct (_enabled self); cbn [negb]; [|reflexivity].
  rewrite whitelisted_existsb.
  destruct (existsb _ (_whitelist self)); [reflexivity|].
  unfold candidates. rewrite !find_fst_app.
  unfold _get_active_rules. rewrite active_of_filter, first_prefix_rule_find.
  destruct (List.find fst (map _ (List.filter _ KNOWN_LEECHERS))) as [[b r]|];
    [reflexivity|]. cbn [option_map].
  rewrite first_client_rule_find
    by (intros r Hin; apply Hc; apply in_or_app; now left).
  destruct (List.find fst (map _ SUSPICIOUS_CLIENTS)) as [[b r]|];
    [reflexivity|]. cbn [option_map].
  rewrite first_custom_rule_find
    by (intros r Hin; apply Hc; apply in_or_app; now right).
  destruct (List.find fst (map _ (_custom_bans self))) as [[b r]|];
    [reflexivity|]. cbn [option_map].
  rewrite check_ip_blocked_existsb.
  pose proof (ranges_find ip (_ip_blocklist self)) as Hr.
  destruct (existsb (ip_in_range ip) (_ip_blocklist self));
    destruct (List.find fst (map _ (_ip_blocklist self))) as [[b r]|];
    simpl in Hr; try discriminate; [|reflexivity].
  injection Hr as ->. reflexivity.
Qed.

(** The same for a call that returns although a pattern it never tried
    does not compile. *)
Lemma first_client_rule_some (client : str) (rules : list BanRule)
    (x : option str) :
  first_client_rule client rules = Some x ->
  x = option_map snd
        (List.find fst
           (map (fun r => (enabled r && re_match (pattern r) client, reason r))
                rules)).
Proof.
  induction rules as [|r rules IH]; simpl; [now intros [= <-]|].
  unfold re_match. destruct (enabled r); simpl; [|exact IH].
  destruct (re_search (pattern r) client) as [[|]|]; simpl;
    [now intros [= <-] | exact IH | discriminate].
Qed.

Lemma first_custom_rule_some (s client : str) (rules : list BanRule)
    (x : option str) :
  first_custom_rule s client rules = Some x ->
  x = option_map snd
        (List.find fst
           (map (fun r => (enabled r && (startswith s (pattern r) ||
                                         re_match (pattern r) client), reason r))
                rules)).
Proof.
  induction rules as [|r rules IH]; simpl; [now intros [= <-]|].
  unfold re_match. destruct (enabled r); simpl; [|exact IH].
  destruct (startswith s (pattern r)); simpl; [now intros [= <-]|].
  destruct (re_search (pattern r) client) as [[|]|]; simpl;
    [now intros [= <-] | exact IH | discriminate].
Qed.

Lemma check_peer_some (now : float) (peer_id : list Byte.byte)
    (client_name ip : str) (self : PeerFilter)
    (r : (bool * str) * PeerFilter) :
  check_peer now peer_id client_name ip self = Some r ->
  r = (returned (check_peer_spec self peer_id client_name ip),
       after_verdict now client_name ip self
         (check_peer_spec self peer_id client_name ip)).
Proof.
  unfold check_peer, check_peer_spec.
  rewrite peer_id_str_eq, peer_id_prefix_id.
  destruct (_enabled self); cbn [negb]; [|now intros [= <-]].
  rewrite whitelisted_existsb.
  destruct (existsb _ (_whitelist self)); [now intros [= <-]|].
  unfold candidates. rewrite !find_fst_app.
  unfold _get_active_rules. rewrite active_of_filter, first_prefix_rule_find.
  destruct (List.find fst (map _ (List.filter _ KNOWN_LEECHERS))) as [[b rs]|];
    [now intros [= <-]|]. cbn [option_map].
  destruct (first_client_rule client_name SUSPICIOUS_CLIENTS) as [x|] eqn:Hx;
    [|discriminate].
  apply first_client_rule_some in Hx. subst x.
  destruct (List.find fst (map _ SUSPICIOUS_CLIENTS)) as [[b rs]|];
    [now intros [= <-]|]. cbn [option_map].
  destruct (first_custom_rule (id_prefix peer_id) client_name (_custom_bans self))
    as [y|] eqn:Hy; [|discriminate].
  apply first_custom_rule_some in Hy. subst y.
  destruct (List.find fst (map _ (_custom_bans self))) as [[b rs]|];
    [now intros [= <-]|]. cbn [option_map].
  rewrite check_ip_blocked_existsb.
  pose proof (ranges_find ip (_ip_blocklist self)) as Hr.
  destruct (existsb (ip_in_range ip) (_ip_blocklist self));
    destruct (List.find fst (map _ (_ip_blocklist self))) as [[b rs]|];
    simpl in Hr; try discriminate; [|now intros [= <-]].
  injection Hr as ->. now intros [= <-].
Qed.


(** C4 (as the code has it).  For every peer (peer-id, client string, IP
    address): whenever [check_peer] returns, and it does return when the
    enabled client-name and custom patterns compile as regular
    expressions, it returns allow when the filter is disabled or when the
    peer-id prefix (the first 8 bytes of the id) starts with a whitelist
    entry, whatever the built-in rules say; otherwise ban with the reason
    of the first matching rule, taken in the order: built-in prefix rules
    left active by the category flags, client-name patterns, custom rules
    (prefix or pattern), blocklist ranges (the address as a number
    between the bounds); and allow when none matches. *)
Theorem check_peer_decision (now : float) (peer_id : list Byte.byte)
    (client_name ip : str) (self : PeerFilter) :
  (patterns_compile self ->
   option_map fst (check_peer now peer_id client_name ip self)
   = Some (returned (check_peer_spec self peer_id client_name ip))) /\
  (forall r, check_peer now peer_id client_name ip self = Some r ->
             fst r = returned (check_peer_spec self peer_id client_name ip)).
Proof.
  split.
  - intros Hc. now rewrite (check_peer_full now peer_id client_name ip self Hc).
  - intros r Hr. apply check_peer_some in Hr. now subst r.
Qed.







End Steps.

(** *** Concrete runs *)

Section Runs.
Import Fixtures.
#[local] Existing Instance Zfloat.
#[local] Existing Instance frag_pylib.

Lemma frag_compiles (p : string) (text : str) (toks : list (atom * bool)) :
  compile (py p) false [] = Some toks ->
  re_search (py p) text <> None.
Proof.
  intros Hc. cbn [re_search frag_pylib]. unfold frag_re_search.
  rewrite Hc. discriminate.
Qed.

(** The client-name patterns of the source compile, and so does a custom
    prefix rule. *)
Lemma builtin_patterns_compile (self : PeerFilter) :
  _custom_bans self = [mk_rule "-MY" "Custom leecher"] ->
  patterns_compile self.
Proof.
  intros Hcb r text Hin _. rewrite Hcb in Hin.
  simpl in Hin.
  destruct Hin as [<-|[<-|[<-|[<-|[<-|[]]]]]];
    eapply frag_compiles; vm_compute; reflexivity.
Qed.

Lemma check_peer_decision_witness :
  patterns_compile filter_with_custom /\
  check_peer_spec filter_with_custom (bytes_of "-MY1234-abcdef")
    (py "Unknown") (py "1.2.3.4") = ban (py "Custom leecher") /\
  option_map fst
    (check_peer 0 (bytes_of "-MY1234-abcdef") (py "Unknown") (py "1.2.3.4")
       filter_with_custom)
  = Some (true, py "Custom leecher").
Proof.
  assert (Hc : patterns_compile filter_with_custom)
    by (apply builtin_patterns_compile; reflexivity).
  split; [exact Hc|]. split; [reflexivity|].
  exact (proj1 (@check_peer_decision Zfloat frag_pylib 0 (bytes_of "-MY1234-abcdef")
                  (py "Unknown") (py "1.2.3.4") filter_with_custom) Hc).
Defined.

Example check_peer_spec_custom :
  check_peer_spec filter_with_custom (bytes_of "-MY1234-abcdef")
    (py "Unknown") (py "1.2.3.4") = ban (py "Custom leecher").
Proof. reflexivity. Qed.

Example block_all_bans_ipv4 :
  option_map fst
    (check_peer 0 (bytes_of "-qB4500-abcdef") (py "qBittorrent") (py "10.0.0.7")
       filter_block_all)
  = Some (true, py "IP blocklist").
Proof. reflexivity. Qed.


End Runs.

End PeerFilterFacts.

(** ** The resume database *)

Module ResumeDbFacts.
Import ResumeDb.

Section Generic.
Context `{PyFloat}.

Lemma add_column_schema_version (c : str) (db db' : Database) :
  add_column c db = Some db' -> schema_version db' = schema_version db.
Proof.
  unfold add_column. destruct (table db); [|discriminate].
  destruct (bool_decide _); [discriminate|]. now intros [= <-].
Qed.

Lemma set_schema_version_ok (v : Z) (db : Database) :
  schema_version db <> None ->
  exists db', _set_schema_version v db = Some db' /\
              _get_schema_version db' = v /\ table db' = table db.
Proof.
  unfold _set_schema_version. destruct (schema_version db); [|congruence].
  intros _. eexists. split; [reflexivity|]. split; reflexivity.
Qed.

Lemma migrate_schema_version (from_version : Z) (db : Database) :
  schema_version db <> None ->
  exists db', _migrate_schema from_version db = Some db' /\
              _get_schema_version db' = _SCHEMA_VERSION.
Proof.
  intros Hsv. unfold _migrate_schema.
  match goal with
  | |- context [_set_schema_version _ ?d] =>
      destruct (set_schema_version_ok _SCHEMA_VERSION d) as (db' & -> & Hv & _)
  end.
  - repeat split_if;
      repeat match goal with
             | Ha : add_column _ _ = Some _ |- _ =>
                 apply add_column_schema_version in Ha; rewrite Ha
             end; try exact Hsv.
  - eauto.
Qed.

(** Opening a database leaves it at the current version, whatever version
    below it the database had. *)
Lemma init_resume_db_version (disk : Database) :
  _get_schema_version (create_schema_version disk) <= _SCHEMA_VERSION ->
  exists db, _init_resume_db disk = Some db /\
             _get_schema_version db = _SCHEMA_VERSION.
Proof.
  intros Hle. unfold _init_resume_db.
  assert (Hsv : schema_version (create_schema_version disk) <> None).
  { unfold create_schema_version. now destruct (schema_version disk). }
  destruct (Z.eqb_spec (_get_schema_version (create_schema_version disk)) 0).
  - destruct (set_schema_version_ok _SCHEMA_VERSION
                (create_resume_data (create_schema_version disk)) Hsv)
      as (db' & -> & Hv & _).
    eauto.
  - destruct (Z.ltb_spec (_get_schema_version (create_schema_version disk))
                         _SCHEMA_VERSION).
    + now apply migrate_schema_version.
    + eexists. split; [reflexivity|]. lia.
Qed.

(** A version-0 database is stamped with version 2 and its table is left
    as it was: the branch for version 0 creates the table only if it is
    missing and does not run the migration. *)
Lemma init_resume_db_version0 (disk : Database) :
  is_version0 disk ->
  exists db, _init_resume_db disk = Some db /\
             schema_version db = Some (Some 2) /\
             table db = table disk.
Proof.
  intros [Hv (t & Ht & _)]. unfold _init_resume_db, create_schema_version,
    _get_schema_version. rewrite Hv. cbn. rewrite Ht. cbn.
  eexists. split; [reflexivity|]. split; reflexivity.
Qed.

(** The migration from version 1 adds both columns to a table of the
    first schema. *)
Lemma migrate_from_1_adds_columns (t : ResumeTable) :
  extra_columns t = [] ->
  exists db t',
    _init_resume_db {| schema_version := Some (Some 1); table := Some t |} = Some db /\
    table db = Some t' /\
    column_default t' (py "dl_limit") = Some 0 /\
    column_default t' (py "ul_limit") = Some 0.
Proof.
  intros He. unfold _init_resume_db, _migrate_schema, add_column. cbn.
  unfold columns. cbn. rewrite He. cbn.
  eexists _, _. split; [reflexivity|]. split; [reflexivity|].
  split; reflexivity.
Qed.

End Generic.

Import EngineFixture.

(** C2, run on a version-0 database with one row.  After
    [_init_resume_db] the stored version is 2, but [resume_data] still has
    the seven columns of the first schema: neither [dl_limit] nor
    [ul_limit].  The migration routine, had it been called for version 0,
    would have added both with default 0. *)
Theorem init_version0_lacks_limit_columns :
  is_version0 legacy_db /\
  (exists db t,
     _init_resume_db legacy_db = Some db /\
     schema_version db = Some (Some 2) /\
     table db = Some t /\
     columns t = v1_columns /\
     column_default t (py "dl_limit") = None /\
     column_default t (py "ul_limit") = None /\
     map info_hash (rows t) = [hash_a]) /\
  (exists db t,
     _migrate_schema 0 (create_schema_version legacy_db) = Some db /\
     table db = Some t /\
     column_default t (py "dl_limit") = Some 0 /\
     column_default t (py "ul_limit") = Some 0).
Proof.
  split; [|split].
  - split; [reflexivity|]. eexists. split; [reflexivity|].
    split; [reflexivity | discriminate].
  - eexists _, _. repeat split; reflexivity.
  - eexists _, _. repeat split; reflexivity.
Qed.

End ResumeDbFacts.

(** ** The session controller *)

Module WorkerFacts.
Import TorrentModel Worker OdictFacts.

Section Generic.
Context `{Libtorrent} `{PyLib}.

(** C1 (as the code has it).  For every AddMagnet command whose URI is
    empty or, once surrounding whitespace is stripped, does not begin with
    [magnet:], the controller changes nothing and emits nothing: the
    state after the command is the state before it (no torrent is added,
    the torrent table is unchanged), no signal is emitted (no
    TorrentAdded; the code has no AddFailed signal, the rejection is only
    logged) and no exception leaves the slot. *)
Theorem add_magnet_rejects_invalid (now : float)
    (uri save_path category tags_json : str) (paused : bool) (w : SessionWorker) :
  uri = [] \/ startswith (strip uri) (py "magnet:") = false ->
  after (add_magnet now uri save_path category tags_json paused w) = w /\
  emitted (add_magnet now uri save_path category tags_json paused w) = [] /\
  raised (add_magnet now uri save_path category tags_json paused w) = None.
Proof.
  intros Hbad. unfold add_magnet.
  destruct (_session w); [|repeat split; reflexivity].
  assert (negb (nonempty uri) || negb (startswith (strip uri) (py "magnet:")) = true) as ->.
  { destruct Hbad as [->| ->]; [reflexivity|]. apply orb_true_r. }
  repeat split; reflexivity.
Qed.

(** *** Snapshots *)

(** Where the info-hash of a snapshot comes from. *)
Lemma snapshot_of_info_hash {T} (ses : session) (h : torrent_handle)
    (cat : str) (added : float) (pn pih : str) (tg : T) :
  let snap := snapshot_of ses h cat added pn pih tg in
  (Snap.valid snap = true -> info_hash ses h = inr (Snap.info_hash snap)) /\
  (Snap.valid snap = false -> Snap.info_hash snap = pih).
Proof.
  unfold snapshot_of.
  destruct (is_valid ses h) as [e|[|]]; simpl; [split; [discriminate|reflexivity]| |split; [discriminate|reflexivity]].
  destruct (status ses h) as [e|s]; simpl; [split; [discriminate|reflexivity]|].
  destruct (resolve_limits ses h) as [dl ul].
  destruct (info_hash ses h) as [e|ih]; simpl; [split; [discriminate|reflexivity]|].
  split; [reflexivity|discriminate].
Qed.


Lemma snapshot_all_spec (ses : session) (table : list (str * Torrent)) :
  let '(snaps, table') := snapshot_all ses table in
  length snaps = length table /\
  od_keys table' = od_keys table /\
  Forall2 (info_hash_source ses) table snaps /\
  Forall2 (fun snap kt => _snap (snd kt) = snap /\
                          _handle (snd kt) = _handle (snd kt)) snaps table' /\
  Forall2 (fun kt kt' => fst kt' = fst kt /\
                         _handle (snd kt') = _handle (snd kt)) table table'.
Proof.
  induction table as [|[k t] rest IH]; simpl.
  - repeat split; constructor.
  - destruct (snapshot_all ses rest) as [snaps rest'].
    destruct IH as (Hlen & Hkeys & Hsrc & Hcache & Hsame).
    repeat split; simpl.
    + now rewrite Hlen.
    + now rewrite Hkeys.
    + constructor; [|exact Hsrc]. unfold info_hash_source. simpl.
      apply (snapshot_of_info_hash ses (_handle t)).
    + constructor; [|exact Hcache]. simpl. now split.
    + constructor; [|exact Hsame]. simpl. now split.
Qed.

Lemma keys_cached_snapshots (ses : session) (table : list (str * Torrent))
    (snaps : list TorrentSnapshot) :
  keys_cached ses table ->
  Forall2 (info_hash_source ses) table snaps ->
  map Snap.info_hash snaps = od_keys table.
Proof.
  intros Hk Hs. induction Hs as [|[k t] snap table snaps [Hv Hi] Hs IH]; simpl.
  - reflexivity.
  - apply Forall_cons in Hk as [[Hc He] Hk]. simpl in *.
    rewrite (IH Hk). f_equal.
    destruct (Snap.valid snap) eqn:V.
    + apply He. now apply Hv.
    + now rewrite Hi.
Qed.

Lemma NoDup_count_occ_1 (l : list str) (k : str) :
  NoDup l -> k ∈ l -> length (List.filter (str_eqb k) l) = 1%nat.
Proof.
  induction l as [|x l IH]; intros Hnd Hin.
  - now apply not_elem_of_nil in Hin.
  - apply NoDup_cons in Hnd as [Hx Hnd]. simpl. unfold str_eqb at 1.
    apply elem_of_cons in Hin as [->|Hin].
    + rewrite bool_decide_eq_true_2 by reflexivity. simpl. f_equal.
      clear IH Hnd. induction l as [|y l IH]; [reflexivity|].
      apply not_elem_of_cons in Hx as [Hne Hx]. simpl. unfold str_eqb at 1.
      rewrite bool_decide_eq_false_2 by exact Hne. auto.
    + rewrite bool_decide_eq_false_2 by (intros ->; contradiction). auto.
Qed.

Lemma filter_map_length {A B} (f : B -> bool) (g : A -> B) (l : list A) :
  length (List.filter f (map g l)) = length (List.filter (fun x => f (g x)) l).
Proof.
  induction l as [|x l IH]; simpl; [reflexivity|].
  destruct (f (g x)); simpl; now rewrite IH.
Qed.

(** X30.  At every stats tick of a running session,
    exactly one [stats_updated] is emitted; its list holds one snapshot
    for each entry of the torrent table, in the table's order, and
    [torrent_count] is the size of the table.  The info-hash of a snapshot
    is the one the engine reports when the snapshot is valid and the one
    of the snapshot cached before otherwise; so, when every cached
    snapshot carries its key and the engine reports the key for each
    handle, the info-hashes of the snapshots are the keys of the table,
    each key once. *)
Theorem update_stats_snapshots (w : SessionWorker) (ses : session) :
  _session w = Some ses ->
  exists stats rest,
    emitted (_update_stats w) = stats_updated stats :: rest /\
    (forall s, ~ In (stats_updated s) rest) /\
    length (Stats.torrents stats) = length (_torrents w) /\
    Stats.torrent_count stats = Z.of_nat (length (_torrents w)) /\
    Forall2 (info_hash_source ses) (_torrents w) (Stats.torrents stats) /\
    (keys_cached ses (_torrents w) ->
       map Snap.info_hash (Stats.torrents stats) = od_keys (_torrents w) /\
       (table_ok w ->
        forall k, k ∈ od_keys (_torrents w) ->
          length (List.filter (fun snap => str_eqb k (Snap.info_hash snap))
                              (Stats.torrents stats)) = 1%nat)).
Proof.
  intros Hses. unfold _update_stats. rewrite Hses.
  set (r := match session_status ses with
            | inl _ => _ | inr _ => _ end).
  assert (Ht : _torrents (snd r) = _torrents w).
  { subst r. destruct (session_status ses) as [e|[[dl ul] dht]]; reflexivity. }
  destruct r as [[[dl ul] dht] w1]. simpl in Ht.
  pose proof (snapshot_all_spec ses (_torrents w1)) as Hspec.
  destruct (snapshot_all ses (_torrents w1)) as [snaps table'].
  destruct Hspec as (Hlen & Hkeys & Hsrc & _ & _).
  rewrite Ht in *.
  eexists _, _. split; [reflexivity|]. cbn [Stats.torrents Stats.torrent_count].
  split; [|split; [exact Hlen|split; [|split; [exact Hsrc|]]]].
  - intros s. repeat split_if; simpl; intros Hin; try tauto.
    all: destruct Hin as [Hin|[]]; discriminate.
  - cbn [set_torrents _torrents]. f_equal.
    rewrite <- (length_map fst table'). change (map fst table') with (od_keys table').
    rewrite Hkeys. unfold od_keys. now rewrite length_map.
  - intros Hk. pose proof (keys_cached_snapshots ses _ _ Hk Hsrc) as Hm.
    split; [exact Hm|]. intros Hnd k Hin.
    pose proof (NoDup_count_occ_1 _ k Hnd Hin) as Hc.
    rewrite <- Hm, filter_map_length in Hc. exact Hc.
Qed.



Lemma delete_row_fault (e : exn) (h : str) (db : ResumeDb.Database) :
  ResumeDb.delete_row (Some e) h db = inl e.
Proof. reflexivity. Qed.


(** *** The table stays a dictionary *)
Lemma register_table_ok now atp cat tags ses w :
  table_ok w -> table_ok (after (register now atp cat tags ses w)).
Proof.
  unfold register, table_ok. intros Hok.
  repeat split_if; cbn; try exact Hok. now apply od_set_NoDup.
Qed.

Lemma add_magnet_table_ok now uri sp cat tj paused w :
  table_ok w -> table_ok (after (add_magnet now uri sp cat tj paused w)).
Proof.
  unfold add_magnet. intros Hok.
  repeat split_if; try exact Hok. now apply register_table_ok.
Qed.

Lemma remove_torrent_table_ok sql_fault h df w :
  table_ok w -> table_ok (after (remove_torrent sql_fault h df w)).
Proof.
  unfold remove_torrent, table_ok. intros Hok.
  repeat split_if; cbn; try exact Hok; now apply od_del_NoDup.
Qed.

Lemma update_stats_table_ok w :
  table_ok w -> table_ok (after (_update_stats w)).
Proof.
  unfold _update_stats, table_ok. intros Hok.
  destruct (_session w) as [ses|]; [|exact Hok].
  set (r := match session_status ses with
            | inl _ => _ | inr _ => _ end).
  assert (Ht : _torrents (snd r) = _torrents w).
  { subst r. destruct (session_status ses) as [e|[[dl ul] dht]]; reflexivity. }
  destruct r as [[[dl ul] dht] w1]. simpl in Ht.
  pose proof (snapshot_all_spec ses (_torrents w1)) as Hspec.
  destruct (snapshot_all ses (_torrents w1)) as [snaps table'].
  destruct Hspec as (_ & Hkeys & _).
  cbn [after done _torrents set_torrents]. rewrite Hkeys, Ht. exact Hok.
Qed.

(** The first snapshot of a torrent that is registered caches its key when
    it is valid. *)
Lemma register_caches_key now atp cat tags ses w ih :
  emitted (register now atp cat tags ses w) = [torrent_added ih] ->
  exists t, od_get ih (_torrents (after (register now atp cat tags ses w))) = Some t /\
            (Snap.valid (_snap t) = true -> Snap.info_hash (_snap t) = ih).
Proof.
  unfold register.
  destruct (add_torrent atp ses) as [e|[handle ses']]; [discriminate|].
  destruct (info_hash ses' handle) as [e|ih'] eqn:Hih; [discriminate|].
  destruct (od_mem ih' _); [discriminate|]. cbn. intros [= ->].
  eexists. split; [apply od_get_set_eq|].
  unfold Torrent_init, snapshot. cbn. intros Hv.
  destruct (snapshot_of_info_hash ses' handle cat now (py "Unknown") []
              tags) as [Hvalid _].
  specialize (Hvalid Hv). rewrite Hih in Hvalid.
  injection Hvalid as ->. reflexivity.
Qed.
End Generic.


(** *** Concrete runs, on the small engine *)

Import EngineFixture.

Lemma add_magnet_rejects_invalid_witness :
  (py "not-a-magnet" = [] \/
   startswith (strip (py "not-a-magnet")) (py "magnet:") = false) /\
  after (add_magnet 5 (py "not-a-magnet") [] [] (py "[]") false running) = running /\
  emitted (add_magnet 5 (py "not-a-magnet") [] [] (py "[]") false running) = [] /\
  raised (add_magnet 5 (py "not-a-magnet") [] [] (py "[]") false running) = None.
Proof.
  split; [right; reflexivity|].
  apply (@add_magnet_rejects_invalid Fixtures.Zfloat toy_engine Fixtures.frag_pylib
           5 (py "not-a-magnet") [] [] (py "[]")
           false running).
  right. reflexivity.
Defined.

(** C1 fails as stated, twice.  [AddMagnet("not-a-magnet")] emits no
    AddFailed event (it emits nothing).  And a URI that does not begin with
    [magnet:] because a blank precedes it is accepted: a torrent is added
    and TorrentAdded is emitted. *)
Lemma add_magnet_no_AddFailed_and_strips :
  (~ exists rsn,
       In (AddFailed rsn)
          (events (add_magnet 5 (py "not-a-magnet") [] [] (py "[]") false running))) /\
  startswith (py " " ++ magnet_a) (py "magnet:") = false /\
  events (add_magnet 5 (py " " ++ magnet_a) [] [] (py "[]") false running)
    = [TorrentAdded hash_a] /\
  od_keys (_torrents (after (add_magnet 5 (py " " ++ magnet_a) [] [] (py "[]")
                               false running)))
    = [hash_a] /\
  od_keys (_torrents running) = [].
Proof.
  split; [|repeat split; reflexivity].
  intros [rsn Hin]. exact Hin.
Qed.

Example scenario_a_snapshot :
  exists stats,
    emitted (_update_stats with_a) = [stats_updated stats] /\
    map (fun sn => (Snap.info_hash sn, Snap.category sn, Snap.tags sn))
        (Stats.torrents stats)
    = [(hash_a, py "Movies", [py "hd"])].
Proof. eexists. split; reflexivity. Qed.



Lemma keys_cached_with_a :
  keys_cached {| healthy := true; live := [(0%nat, hash_a)]; next_handle := 1;
                 blocked := false |}
              (_torrents with_a).
Proof.
  unfold keys_cached. vm_compute _torrents.
  constructor; [|constructor]. split; [reflexivity|].
  cbn. intros ih [= <-]. reflexivity.
Qed.

Lemma update_stats_snapshots_witness :
  exists stats rest,
    emitted (_update_stats with_a) = stats_updated stats :: rest /\
    length (Stats.torrents stats) = length (_torrents with_a) /\
    map Snap.info_hash (Stats.torrents stats) = od_keys (_torrents with_a).
Proof.
  destruct (@update_stats_snapshots Fixtures.Zfloat toy_engine with_a _ eq_refl)
    as (stats & rest & Hem & _ & Hlen & _ & _ & Hkeys).
  exists stats, rest. split; [exact Hem|]. split; [exact Hlen|].
  exact (proj1 (Hkeys keys_cached_with_a)).
Defined.

(** C8, run on a torrent added while the engine answered no status
    query.  The failure branches of [Torrent.snapshot] copy the info-hash
    of the cached snapshot so that a failed snapshot keeps its hash, but
    the cache starts as [TorrentSnapshot()], whose info-hash is empty:
    as long as the query keeps failing, the snapshot emitted for the
    torrent at a tick has the empty string as info-hash, not the key the
    torrent is stored under. *)
Lemma update_stats_info_hash_not_key :
  od_keys (_torrents busy_with_a) = [hash_a] /\
  exists stats,
    emitted (_update_stats busy_with_a) = [stats_updated stats] /\
    map Snap.valid (Stats.torrents stats) = [false] /\
    map Snap.info_hash (Stats.torrents stats) = [[]] /\
    map Snap.info_hash (Stats.torrents stats) <> od_keys (_torrents busy_with_a).
Proof.
  split; [reflexivity|]. eexists. split; [reflexivity|].
  split; [reflexivity|]. split; [reflexivity|]. discriminate.
Qed.

(** C2 at the level of [initialize]: started on the version-0 database,
    the controller loads the stored torrent and emits [started] alone; the
    database it holds says version 2 and has no [dl_limit] column. *)
Example initialize_on_version0 :
  exists db t,
    _resume_db (after (initialize 9 legacy_db (SessionWorker_init cfg0))) = Some db /\
    ResumeDb.schema_version db = Some (Some 2) /\
    ResumeDb.table db = Some t /\
    ResumeDb.columns t = ResumeDb.v1_columns /\
    od_keys (_torrents (after (initialize 9 legacy_db (SessionWorker_init cfg0))))
      = [hash_a] /\
    emitted (initialize 9 legacy_db (SessionWorker_init cfg0)) = [started].
Proof. eexists _, _. repeat split; reflexivity. Qed.

End WorkerFacts.

(** ** Shared lists: what an observer of an emitted [SessionStats] sees *)

Module StoreFacts.
Import TorrentModel Store.

#[local] Set Warnings "-clear-no-such-hyp".

Section Frame.
Context `{Libtorrent}.
Implicit Types (σ : gmap loc obj) (M F : list loc) (l : loc).

Lemma frame_refl M σ : frame M σ σ.
Proof. split; [set_solver | auto]. Qed.

Lemma frame_trans M σ1 σ2 σ3 : frame M σ1 σ2 -> frame M σ2 σ3 -> frame M σ1 σ3.
Proof.
  intros [Hd1 Hl1] [Hd2 Hl2]. split; [set_solver|].
  intros l Hin HM. rewrite Hl2 by set_solver. auto.
Qed.

Lemma frame_weaken M M' σ σ' :
  (forall l, l ∈ M -> l ∈ M') -> frame M σ σ' -> frame M' σ σ'.
Proof. intros Hsub [Hd Hl]. split; [exact Hd|]. intros l Hin HM. apply Hl; auto. Qed.

Lemma alloc_fresh o σ l σ' :
  alloc o σ = (l, σ') -> (l ∉ dom σ) /\ σ' = <[l := o]> σ.
Proof. unfold alloc. intros [= <- <-]. split; [apply is_fresh | reflexivity]. Qed.

Lemma frame_alloc M o σ l σ' : alloc o σ = (l, σ') -> frame M σ σ'.
Proof.
  intros [Hf ->]%alloc_fresh. split.
  - rewrite dom_insert_L. set_solver.
  - intros l' Hin _. rewrite lookup_insert_ne; [reflexivity|]. intros ->. contradiction.
Qed.

Lemma alloc_lookup o σ l σ' : alloc o σ = (l, σ') -> σ' !! l = Some o.
Proof. intros [_ ->]%alloc_fresh. apply lookup_insert_eq. Qed.

Lemma alloc_dom o σ l σ' : alloc o σ = (l, σ') -> l ∈ dom σ'.
Proof. intros Ha. apply elem_of_dom. rewrite (alloc_lookup _ _ _ _ Ha). eauto. Qed.

Lemma frame_insert M o σ l : l ∈ M -> l ∈ dom σ -> frame M σ (<[l := o]> σ).
Proof.
  intros HM Hd. split.
  - rewrite dom_insert_L. set_solver.
  - intros l' _ Hn. rewrite lookup_insert_ne; [reflexivity|]. intros ->. contradiction.
Qed.

Lemma insert_dom_same o σ l : l ∈ dom σ -> dom (<[l := o]> σ) = dom σ.
Proof. intros Hd. rewrite dom_insert_L. set_solver. Qed.

Lemma frame_lookup M σ σ' l : frame M σ σ' -> l ∈ dom σ -> l ∉ M -> σ' !! l = σ !! l.
Proof. intros [_ Hl]. apply Hl. Qed.

Lemma frame_dom M σ σ' l : frame M σ σ' -> l ∈ dom σ -> l ∈ dom σ'.
Proof. intros [Hd _]. set_solver. Qed.

(** *** [snapshot] and [record_speed] *)

Lemma snapshot_spec ses (t : Torrent) σ lsnap t' σ' :
  snapshot ses t σ = (lsnap, t', σ') ->
  frame [] σ σ' /\
  torrent_lists t' = torrent_lists t /\
  _snap t' = lsnap /\
  (lsnap ∉ dom σ) /\
  exists s, σ' !! lsnap = Some (OSnap s) /\
            (Snap.tags s ∉ dom σ) /\ Snap.tags s ∈ dom σ' /\
            (exists tg, σ' !! Snap.tags s = Some (OStrs tg)).
Proof.
  unfold snapshot.
  destruct (alloc (OStrs _) σ) as [ltags σ1] eqn:A1.
  destruct (alloc (OSnap _) σ1) as [ls σ2] eqn:A2.
  intros [= <- <- <-].
  pose proof (frame_alloc [] _ _ _ _ A1) as F1.
  pose proof (frame_alloc [] _ _ _ _ A2) as F2.
  destruct (alloc_fresh _ _ _ _ A1) as [Hf1 E1].
  destruct (alloc_fresh _ _ _ _ A2) as [Hf2 E2].
  split; [eapply frame_trans; eauto|]. split; [reflexivity|]. split; [reflexivity|].
  split.
  { intros Hin. apply Hf2. eapply frame_dom; eauto. }
  eexists. split; [eapply alloc_lookup; eauto|].
  assert (Ht : forall (s : Snap.TorrentSnapshot_ loc),
            s = snapshot_of ses (_handle t) (_category t) (_added_time t)
                  match get_snap σ (_snap t) with Some s => Snap.name s | None => [] end
                  match get_snap σ (_snap t) with Some s => Snap.info_hash s | None => [] end
                  ltags -> Snap.tags s = ltags).
  { intros s ->. unfold snapshot_of, failed_snapshot.
    repeat split_if; reflexivity. }
  rewrite (Ht _ eq_refl).
  split; [exact Hf1|]. split.
  - eapply frame_dom; [exact F2|]. eapply alloc_dom; eauto.
  - eexists. rewrite (frame_lookup [] σ1 σ2 ltags F2).
    + eapply alloc_lookup; eauto.
    + eapply alloc_dom; eauto.
    + apply not_elem_of_nil.
Qed.

Lemma record_speed_spec (t : Torrent) σ :
  _speed_history_dl t ∈ dom σ -> _speed_history_ul t ∈ dom σ ->
  frame (torrent_lists t) σ (record_speed t σ) /\
  dom (record_speed t σ) = dom σ.
Proof.
  intros Hd Hu. unfold record_speed.
  set (σ1 := <[_speed_history_dl t := _]> σ).
  assert (D1 : dom σ1 = dom σ) by (subst σ1; now apply insert_dom_same).
  split.
  - eapply frame_trans.
    + apply frame_insert; [|exact Hd]. unfold torrent_lists. set_solver.
    + apply frame_insert; [unfold torrent_lists; set_solver|].
      fold σ1. now rewrite D1.
  - rewrite insert_dom_same; [exact D1 | now rewrite D1].
Qed.


Lemma new_snap_frame M σ0 σ σ' σ'' ls :
  dom σ0 ⊆ dom σ ->
  (forall l, l ∈ M -> l ∈ dom σ0) ->
  new_snap σ σ' ls -> frame M σ' σ'' -> new_snap σ0 σ'' ls.
Proof.
  intros Hsub HM (Hf & Hd & s & tg & Hs & Htf & Ht) Hfr.
  assert (Hnot : forall l, l ∉ dom σ -> l ∉ M).
  { intros l Hl Hin. apply Hl, Hsub, HM, Hin. }
  split; [set_solver|]. split; [eapply frame_dom; eauto|].
  exists s, tg. split; [|split].
  - rewrite (frame_lookup M σ' σ'' ls Hfr); auto.
  - set_solver.
  - rewrite (frame_lookup M σ' σ'' _ Hfr); auto.
    apply elem_of_dom. rewrite Ht. eauto.
Qed.

Lemma snapshot_all_frame ses (table : list (str * Torrent)) σ snaps table' σ' :
  snapshot_all ses table σ = (snaps, table', σ') ->
  (forall l, l ∈ table_lists table -> l ∈ dom σ) ->
  frame (table_lists table) σ σ' /\
  table_lists table' = table_lists table /\
  od_keys table' = od_keys table /\
  Forall (new_snap σ σ') snaps.
Proof.
  revert σ snaps table' σ'.
  induction table as [|[k t] rest IH]; intros σ snaps table' σ'; cbn [snapshot_all].
  - intros Heq _. injection Heq as <- <- <-.
    split; [apply frame_refl|]. split; [reflexivity|]. split; [reflexivity|constructor].
  - destruct (snapshot ses t σ) as [[lsnap t1] σ1] eqn:Hsn.
    destruct (snapshot_all ses rest (record_speed t1 σ1)) as [[snaps' rest'] σ3] eqn:Hall.
    intros Heq Hin. injection Heq as <- <- <-.
    destruct (snapshot_spec _ _ _ _ _ _ Hsn)
      as (F1 & Hl1 & Hsnap & Hfresh & s & Hs & Htf & Htd & tg & Htg).
    assert (Hin_t : forall l, l ∈ torrent_lists t -> l ∈ dom σ).
    { intros l Hl. apply Hin. unfold table_lists. simpl. set_solver. }
    assert (Hin_r : forall l, l ∈ table_lists rest -> l ∈ dom σ).
    { intros l Hl. apply Hin. unfold table_lists in *. simpl. set_solver. }
    destruct (record_speed_spec t1 σ1) as [F2 D2].
    { eapply frame_dom; [exact F1|]. apply Hin_t. rewrite <- Hl1.
      unfold torrent_lists. set_solver. }
    { eapply frame_dom; [exact F1|]. apply Hin_t. rewrite <- Hl1.
      unfold torrent_lists. set_solver. }
    rewrite Hl1 in F2.
    assert (D1 : dom σ ⊆ dom (record_speed t1 σ1)).
    { rewrite D2. apply F1. }
    destruct (IH _ _ _ _ Hall) as (F3 & Hl3 & Hk3 & Hnew).
    { intros l Hl. apply D1. now apply Hin_r. }
    assert (Fall : frame (table_lists ((k, t) :: rest)) σ σ3).
    { eapply frame_trans; [|eapply frame_trans].
      - eapply frame_weaken; [|exact F1]. intros l Hl. now apply not_elem_of_nil in Hl.
      - eapply frame_weaken; [|exact F2]. intros l Hl. unfold table_lists. simpl. set_solver.
      - eapply frame_weaken; [|exact F3]. intros l Hl. unfold table_lists. simpl. set_solver. }
    split; [exact Fall|]. split; [|split].
    + unfold table_lists in *. cbn [map concat snd]. now rewrite Hl1, Hl3.
    + unfold od_keys in *. cbn [map fst]. now rewrite Hk3.
    + constructor.
      * apply (new_snap_frame (table_lists rest) σ σ (record_speed t1 σ1) σ3).
        -- set_solver.
        -- exact Hin_r.
        -- assert (F2' : frame (torrent_lists t) σ1 (record_speed t1 σ1)) by exact F2.
           apply (new_snap_frame (torrent_lists t) σ σ σ1 (record_speed t1 σ1)).
           ++ set_solver.
           ++ exact Hin_t.
           ++ split; [exact Hfresh|]. split.
              ** apply elem_of_dom. rewrite Hs. eauto.
              ** exists s, tg. auto.
           ++ exact F2'.
        -- exact F3.
      * eapply Forall_impl; [exact Hnew|]. intros ls Hn.
        apply (new_snap_frame [] σ (record_speed t1 σ1) σ3 σ3).
        -- exact D1.
        -- intros l Hl. now apply not_elem_of_nil in Hl.
        -- exact Hn.
        -- apply frame_refl.
Qed.

Lemma mutable_lists_eq (w : SessionWorker) :
  mutable_lists w =
  _session_dl_history w :: _session_ul_history w :: table_lists (_torrents w).
Proof. reflexivity. Qed.

Lemma new_snap_parts σ σ' ls l :
  new_snap σ σ' ls -> l ∈ snap_parts σ' ls -> (l ∉ dom σ) /\ l ∈ dom σ'.
Proof.
  intros (Hf & Hd & s & tg & Hs & Htf & Ht) Hin. unfold snap_parts, get_snap in Hin.
  rewrite Hs in Hin. apply elem_of_cons in Hin as [->|Hin]; [auto|].
  apply list_elem_of_singleton in Hin as ->. split; [exact Htf|].
  apply elem_of_dom. rewrite Ht. eauto.
Qed.

Lemma parts_of_new_snaps σ σ' snaps l :
  Forall (new_snap σ σ') snaps ->
  l ∈ concat (map (snap_parts σ') snaps) -> (l ∉ dom σ) /\ l ∈ dom σ'.
Proof.
  induction 1 as [|ls snaps Hn _ IH]; cbn [map concat]; intros Hin.
  - now apply not_elem_of_nil in Hin.
  - apply elem_of_app in Hin as [Hin|Hin]; [eapply new_snap_parts; eauto | auto].
Qed.

(** Objects that read the same in two stores are made of the same objects
    and have the same value. *)
Lemma snap_parts_agree σ σ' ls :
  (forall l, l ∈ snap_parts σ ls -> σ' !! l = σ !! l) ->
  snap_parts σ' ls = snap_parts σ ls.
Proof.
  intros Hp. unfold snap_parts, get_snap in *.
  rewrite (Hp ls); [reflexivity | apply list_elem_of_here].
Qed.

Lemma read_snap_agree σ σ' ls :
  (forall l, l ∈ snap_parts σ ls -> σ' !! l = σ !! l) ->
  read_snap σ' ls = read_snap σ ls.
Proof.
  intros Hp. unfold read_snap, snap_parts, get_snap in *.
  rewrite (Hp ls) by apply list_elem_of_here.
  destruct (σ !! ls) as [[| | |s|]|]; try reflexivity.
  unfold get_strs. rewrite (Hp (Snap.tags s)); [reflexivity|].
  apply list_elem_of_further, list_elem_of_here.
Qed.

Lemma elem_of_concat_map {A} (f : A -> list loc) (xs : list A) (x : A) l :
  x ∈ xs -> l ∈ f x -> l ∈ concat (map f xs).
Proof.
  intros Hx Hl. induction xs as [|y xs IH]; cbn [map concat].
  - now apply not_elem_of_nil in Hx.
  - apply elem_of_app. apply elem_of_cons in Hx as [->|Hx]; [now left | right; auto].
Qed.

Lemma stats_parts_agree σ σ' lstats :
  (forall l, l ∈ stats_parts σ lstats -> σ' !! l = σ !! l) ->
  stats_parts σ' lstats = stats_parts σ lstats.
Proof.
  intros Hp. unfold stats_parts in *. unfold get_stats in *.
  rewrite (Hp lstats) by apply list_elem_of_here.
  destruct (σ !! lstats) as [[| | | |s]|]; try reflexivity.
  f_equal. f_equal. f_equal. f_equal.
  unfold get_refs in *.
  rewrite (Hp (Stats.torrents s))
    by (do 3 apply list_elem_of_further; apply list_elem_of_here).
  f_equal. apply map_ext_in. intros ls Hls.
  apply snap_parts_agree. intros l Hl. apply Hp.
  do 4 apply list_elem_of_further.
  eapply elem_of_concat_map; [|exact Hl]. now apply list_elem_of_In.
Qed.

Lemma read_stats_agree σ σ' lstats :
  (forall l, l ∈ stats_parts σ lstats -> σ' !! l = σ !! l) ->
  read_stats σ' lstats = read_stats σ lstats.
Proof.
  intros Hp. unfold read_stats, stats_parts in *. unfold get_stats in *.
  rewrite (Hp lstats) by apply list_elem_of_here.
  destruct (σ !! lstats) as [[| | | |s]|]; try reflexivity.
  unfold get_ints, get_refs in *.
  rewrite (Hp (Stats.dl_history s))
    by (apply list_elem_of_further, list_elem_of_here).
  rewrite (Hp (Stats.ul_history s))
    by (do 2 apply list_elem_of_further; apply list_elem_of_here).
  rewrite (Hp (Stats.torrents s))
    by (do 3 apply list_elem_of_further; apply list_elem_of_here).
  f_equal. f_equal. apply map_ext_in. intros ls Hls.
  apply read_snap_agree. intros l Hl. apply Hp.
  do 4 apply list_elem_of_further.
  eapply elem_of_concat_map; [|exact Hl]. now apply list_elem_of_In.
Qed.

Lemma stats_parts_frame M σ σ' lstats :
  frame M σ σ' ->
  (forall l, l ∈ stats_parts σ lstats -> l ∈ dom σ /\ l ∉ M) ->
  stats_parts σ' lstats = stats_parts σ lstats.
Proof.
  intros Hfr Hp. apply stats_parts_agree. intros l Hl.
  apply (frame_lookup M σ σ' l Hfr); apply Hp, Hl.
Qed.

(** The tick writes only to the controller's lists, keeps them the same
    lists, and every object of the statistics it emits is new. *)
Lemma update_stats_spec (w w' : SessionWorker) σ σ' sigs :
  _update_stats w σ = (w', σ', sigs) ->
  (forall l, l ∈ mutable_lists w -> l ∈ dom σ) ->
  frame (mutable_lists w) σ σ' /\
  mutable_lists w' = mutable_lists w /\
  forall lstats, stats_updated lstats ∈ sigs ->
    get_stats σ' lstats <> None /\
    forall l, l ∈ stats_parts σ' lstats -> (l ∉ dom σ) /\ l ∈ dom σ'.
Proof.
  unfold _update_stats. intros Hup Hin.
  destruct (_session w) as [ses|].
  2:{ injection Hup as <- <- <-. split; [apply frame_refl|]. split; [reflexivity|].
      intros l Hl. now apply not_elem_of_nil in Hl. }
  assert (Hdl : _session_dl_history w ∈ dom σ).
  { apply Hin. rewrite mutable_lists_eq. set_solver. }
  assert (Hul : _session_ul_history w ∈ dom σ).
  { apply Hin. rewrite mutable_lists_eq. set_solver. }
  set (r := match session_status ses with inl _ => _ | inr _ => _ end) in Hup.
  assert (Hr : frame (mutable_lists w) σ (snd r) /\ dom (snd r) = dom σ).
  { subst r. destruct (session_status ses) as [e|[[dl ul] dht]]; simpl.
    - split; [apply frame_refl | reflexivity].
    - split.
      + eapply frame_trans; apply frame_insert.
        * rewrite mutable_lists_eq. set_solver.
        * exact Hdl.
        * rewrite mutable_lists_eq. set_solver.
        * rewrite insert_dom_same; auto.
      + rewrite !insert_dom_same; auto. rewrite insert_dom_same; auto. }
  destruct r as [[[dl_rate ul_rate] dht] σ1]. simpl in Hr. destruct Hr as [F1 D1].
  destruct (snapshot_all ses (_torrents w) σ1) as [[snaps table] σ2] eqn:Hall.
  destruct (snapshot_all_frame _ _ _ _ _ _ Hall) as (F2 & Hl2 & Hk2 & Hnew).
  { intros l Hl. rewrite D1. apply Hin. rewrite mutable_lists_eq. set_solver. }
  destruct (alloc (ORefs snaps) σ2) as [lsnaps σ3] eqn:A3.
  destruct (alloc (OInts _) σ3) as [ldl σ4] eqn:A4.
  destruct (alloc (OInts _) σ4) as [lul σ5] eqn:A5.
  destruct (alloc (OStats _) σ5) as [lstats σ6] eqn:A6.
  set (M := mutable_lists w) in *.
  assert (F2' : frame M σ1 σ2).
  { eapply frame_weaken; [|exact F2]. intros l Hl. subst M.
    rewrite mutable_lists_eq. set_solver. }
  pose proof (frame_alloc M _ _ _ _ A3) as F3.
  pose proof (frame_alloc M _ _ _ _ A4) as F4.
  pose proof (frame_alloc M _ _ _ _ A5) as F5.
  pose proof (frame_alloc M _ _ _ _ A6) as F6.
  assert (F26 : frame M σ2 σ6).
  { exact (frame_trans _ _ _ _ F3 (frame_trans _ _ _ _ F4
             (frame_trans _ _ _ _ F5 F6))). }
  assert (F16 : frame M σ σ6).
  { exact (frame_trans _ _ _ _ F1 (frame_trans _ _ _ _ F2' F26)). }
  assert (Hmut : mutable_lists (set_torrents table w) = M).
  { subst M. rewrite !mutable_lists_eq. simpl.
    change (concat (map (λ kt, torrent_lists kt.2) table)) with (table_lists table).
    now rewrite Hl2. }
  assert (HM : forall l, l ∈ M -> l ∈ dom σ) by exact Hin.
  (* the parts of the statistics, in the store after the four allocations *)
  assert (Hparts : get_stats σ6 lstats <> None /\
            forall l, l ∈ stats_parts σ6 lstats -> (l ∉ dom σ) /\ l ∈ dom σ6).
  { destruct (alloc_fresh _ _ _ _ A3) as [N3 E3].
    destruct (alloc_fresh _ _ _ _ A4) as [N4 E4].
    destruct (alloc_fresh _ _ _ _ A5) as [N5 E5].
    destruct (alloc_fresh _ _ _ _ A6) as [N6 E6].
    assert (S12 : dom σ ⊆ dom σ2) by (rewrite <- D1; apply F2).
    assert (S23 : dom σ2 ⊆ dom σ3) by apply F3.
    assert (S34 : dom σ3 ⊆ dom σ4) by apply F4.
    assert (S45 : dom σ4 ⊆ dom σ5) by apply F5.
    assert (S56 : dom σ5 ⊆ dom σ6) by apply F6.
    assert (Hnew6 : Forall (new_snap σ σ6) snaps).
    { eapply Forall_impl; [exact Hnew|]. intros ls Hn.
      apply (new_snap_frame M σ σ1 σ2 σ6); auto. rewrite D1. set_solver. }
    assert (L6 : σ6 !! lstats = Some (OStats
               {| Stats.download_rate := dl_rate; Stats.upload_rate := ul_rate;
                  Stats.dht_nodes := dht; Stats.dl_history := ldl;
                  Stats.ul_history := lul;
                  Stats.torrent_count := Z.of_nat (length table);
                  Stats.torrents := lsnaps |})) by (eapply alloc_lookup; eauto).
    assert (L3 : σ6 !! lsnaps = Some (ORefs snaps)).
    { rewrite E6, E5, E4. rewrite !lookup_insert_ne.
      - eapply alloc_lookup; eauto.
      - intros ->. apply N4. eapply alloc_dom; eauto.
      - intros ->. apply N5, S34. eapply alloc_dom; eauto.
      - intros ->. apply N6, S45, S34. eapply alloc_dom; eauto. }
    split; [unfold get_stats; rewrite L6; discriminate|].
    intros l Hl. unfold stats_parts, get_stats in Hl. rewrite L6 in Hl.
    cbn [Stats.dl_history Stats.ul_history Stats.torrents] in Hl.
    unfold get_refs in Hl. rewrite L3 in Hl.
    repeat (apply elem_of_cons in Hl as [->|Hl]).
    - split; [intros Hd; apply N6, S45, S34, S23, S12, Hd | eapply alloc_dom; eauto].
    - split; [intros Hd; apply N4, S23, S12, Hd | apply S56, S45; eapply alloc_dom; eauto].
    - split; [intros Hd; apply N5, S34, S23, S12, Hd | apply S56; eapply alloc_dom; eauto].
    - split; [intros Hd; apply N3, S12, Hd | apply S56, S45, S34; eapply alloc_dom; eauto].
    - eapply parts_of_new_snaps; eauto. }
  destruct (nonempty (_focused_hash (set_torrents table w))).
  2:{ injection Hup as <- <- <-. split; [exact F16|]. split; [exact Hmut|].
      intros ls Hs. apply list_elem_of_singleton in Hs.
      injection Hs as ->. exact Hparts. }
  destruct (od_get _ _) as [t|].
  2:{ injection Hup as <- <- <-. split; [exact F16|]. split; [exact Hmut|].
      intros ls Hs. apply list_elem_of_singleton in Hs.
      injection Hs as ->. exact Hparts. }
  destruct (alloc (OInts _) σ6) as [ddl σ7] eqn:A7.
  destruct (alloc (OInts _) σ7) as [dul σ8] eqn:A8.
  injection Hup as <- <- <-.
  pose proof (frame_alloc M _ _ _ _ A7) as F7.
  pose proof (frame_alloc M _ _ _ _ A8) as F8.
  assert (F68 : frame [] σ6 σ8).
  { eapply frame_trans; eapply frame_alloc; eauto. }
  split; [eapply frame_trans; [exact F16|]; eapply frame_trans; eauto|].
  split; [exact Hmut|].
  intros ls Hs. apply elem_of_cons in Hs as [Hs|Hs].
  2:{ apply list_elem_of_singleton in Hs. discriminate. }
  injection Hs as ->.
  (* the two detail lists are allocated after the statistics *)
  destruct Hparts as [Hsome Hparts].
  assert (Hsame : stats_parts σ8 lstats = stats_parts σ6 lstats).
  { apply (stats_parts_frame [] σ6 σ8 lstats F68).
    intros l Hl. split; [apply (Hparts l Hl) | apply not_elem_of_nil]. }
  split.
  { unfold get_stats in *.
    rewrite (frame_lookup [] σ6 σ8 lstats F68); [exact Hsome| |apply not_elem_of_nil].
    apply (Hparts lstats). unfold stats_parts. apply list_elem_of_here. }
  intros l Hl. rewrite Hsame in Hl. destruct (Hparts l Hl) as [Hn Hd].
  split; [exact Hn|]. eapply frame_dom; eauto.
Qed.

(** *** One activity *)

Lemma table_lists_od_set k (t : Torrent) d l :
  l ∈ table_lists (od_set k t d) -> l ∈ table_lists d \/ l ∈ torrent_lists t.
Proof.
  unfold table_lists. induction d as [|[k0 t0] d IH]; cbn [od_set map concat snd].
  - rewrite app_nil_r. auto.
  - destruct (decide (k0 = k)); cbn [map concat snd]; rewrite !elem_of_app; [tauto|].
    intros [Hl|Hl]; [tauto|]. destruct (IH Hl); tauto.
Qed.

Lemma table_lists_od_del k (d : list (str * Torrent)) l :
  l ∈ table_lists (od_del k d) -> l ∈ table_lists d.
Proof.
  unfold table_lists. induction d as [|[k0 t0] d IH]; cbn [od_del map concat snd];
    [auto|].
  destruct (decide (k0 = k)); cbn [map concat snd]; rewrite !elem_of_app; tauto.
Qed.

Lemma table_lists_od_get k (t : Torrent) d l :
  od_get k d = Some t -> l ∈ torrent_lists t -> l ∈ table_lists d.
Proof.
  unfold table_lists. induction d as [|[k0 t0] d IH]; cbn [od_get map concat snd];
    [discriminate|].
  destruct (decide (k0 = k)); rewrite elem_of_app.
  - intros [= ->]. auto.
  - auto.
Qed.

Lemma Torrent_init_spec ses now h cat tgs σ (t : Torrent) σ' :
  Torrent_init ses now h cat tgs σ = (t, σ') ->
  frame [] σ σ' /\ forall l, l ∈ torrent_lists t -> (l ∉ dom σ) /\ l ∈ dom σ'.
Proof.
  unfold Torrent_init.
  destruct (alloc (OStrs tgs) σ) as [ltags σ1] eqn:A1.
  destruct (alloc (OInts []) σ1) as [ldl σ2] eqn:A2.
  destruct (alloc (OInts []) σ2) as [lul σ3] eqn:A3.
  destruct (alloc (OStrs []) σ3) as [le σ4] eqn:A4.
  destruct (alloc (OSnap _) σ4) as [ls σ5] eqn:A5.
  destruct (snapshot ses _ σ5) as [[lsnap t1] σ6] eqn:Hsn.
  intros Heq. injection Heq as <- <-.
  destruct (snapshot_spec _ _ _ _ _ _ Hsn) as (F6 & Hl & _).
  pose proof (frame_alloc [] _ _ _ _ A1) as F1.
  pose proof (frame_alloc [] _ _ _ _ A2) as F2.
  pose proof (frame_alloc [] _ _ _ _ A3) as F3.
  pose proof (frame_alloc [] _ _ _ _ A4) as F4.
  pose proof (frame_alloc [] _ _ _ _ A5) as F5.
  destruct (alloc_fresh _ _ _ _ A1) as [N1 _].
  destruct (alloc_fresh _ _ _ _ A2) as [N2 _].
  destruct (alloc_fresh _ _ _ _ A3) as [N3 _].
  pose proof (alloc_dom _ _ _ _ A1) as D1.
  pose proof (alloc_dom _ _ _ _ A2) as D2.
  pose proof (alloc_dom _ _ _ _ A3) as D3.
  assert (F36 : frame [] σ3 σ6).
  { exact (frame_trans _ _ _ _ F4 (frame_trans _ _ _ _ F5 F6)). }
  split.
  { exact (frame_trans _ _ _ _ F1 (frame_trans _ _ _ _ F2
             (frame_trans _ _ _ _ F3 F36))). }
  rewrite Hl. unfold torrent_lists. simpl. intros l Hin.
  repeat (apply elem_of_cons in Hin as [->|Hin]).
  - split; [exact N1|]. eapply frame_dom; [exact F36|]. apply F3, F2, D1.
  - split; [intros Hd; apply N2, F1, Hd|]. eapply frame_dom; [exact F36|]. apply F3, D2.
  - split; [intros Hd; apply N3, F2, F1, Hd|]. eapply frame_dom; [exact F36|]. exact D3.
  - now apply not_elem_of_nil in Hin.
Qed.

Lemma mutable_set_torrents (w : SessionWorker) table l :
  l ∈ mutable_lists (set_torrents table w) ->
  l ∈ mutable_lists w \/ l ∈ table_lists table.
Proof.
  rewrite !mutable_lists_eq. simpl.
  change (concat (map (λ kt, torrent_lists kt.2) table)) with (table_lists table).
  rewrite !elem_of_cons. tauto.
Qed.

Lemma mutable_table (w : SessionWorker) l :
  l ∈ table_lists (_torrents w) -> l ∈ mutable_lists w.
Proof. rewrite mutable_lists_eq, !elem_of_cons. tauto. Qed.

(** An activity writes only to the controller's lists; the lists the
    controller holds afterwards are the ones it held or new ones. *)
Lemma step_spec (a : activity) (w w' : SessionWorker) σ σ' :
  step a (w, σ) = (w', σ') ->
  (forall l, l ∈ mutable_lists w -> l ∈ dom σ) ->
  frame (mutable_lists w) σ σ' /\
  forall l, l ∈ mutable_lists w' ->
            l ∈ mutable_lists w \/ ((l ∉ dom σ) /\ l ∈ dom σ').
Proof.
  intros Hstep Hin. destruct a; cbn [step] in Hstep.
  - (* Tick *)
    destruct (_update_stats w σ) as [[w1 σ1] sigs] eqn:Hup. injection Hstep as <- <-.
    destruct (update_stats_spec _ _ _ _ _ Hup Hin) as (Hfr & Hm & _).
    split; [exact Hfr|]. intros l Hl. left. now rewrite <- Hm.
  - (* Register *)
    destruct (_session w) as [ses|]; [|injection Hstep as <- <-; split; [apply frame_refl|auto]].
    destruct (od_mem ih (_torrents w)); [injection Hstep as <- <-; split; [apply frame_refl|auto]|].
    destruct (Torrent_init ses now handle category tags σ) as [t σ1] eqn:Hi.
    injection Hstep as <- <-. destruct (Torrent_init_spec _ _ _ _ _ _ _ _ Hi) as [Hfr Hnew].
    split; [eapply frame_weaken; [|exact Hfr]; intros l Hl; now apply not_elem_of_nil in Hl|].
    intros l Hl. apply mutable_set_torrents in Hl as [Hl|Hl]; [now left|].
    apply table_lists_od_set in Hl as [Hl|Hl]; [left; now apply mutable_table | right; auto].
  - (* Remove *)
    injection Hstep as <- <-. split; [apply frame_refl|]. intros l Hl. left.
    apply mutable_set_torrents in Hl as [Hl|Hl]; [exact Hl|].
    apply mutable_table. eapply table_lists_od_del, Hl.
  - (* AddTag *)
    unfold on_torrent in Hstep. destruct (od_get ih (_torrents w)) as [t|] eqn:Hg;
      [|injection Hstep as <- <-; split; [apply frame_refl|auto]].
    injection Hstep as <- <-.
    assert (Ht : _tags t ∈ mutable_lists w).
    { apply mutable_table. eapply table_lists_od_get; [exact Hg|].
      unfold torrent_lists. set_solver. }
    split; [apply frame_insert; auto|].
    intros l Hl. left. apply mutable_set_torrents in Hl as [Hl|Hl]; [exact Hl|].
    apply table_lists_od_set in Hl as [Hl|Hl]; apply mutable_table; [exact Hl|].
    eapply table_lists_od_get; eauto.
  - (* RemoveTag *)
    unfold on_torrent in Hstep. destruct (od_get ih (_torrents w)) as [t|] eqn:Hg;
      [|injection Hstep as <- <-; split; [apply frame_refl|auto]].
    injection Hstep as <- <-.
    assert (Ht : _tags t ∈ mutable_lists w).
    { apply mutable_table. eapply table_lists_od_get; [exact Hg|].
      unfold torrent_lists. set_solver. }
    split; [apply frame_insert; auto|].
    intros l Hl. left. apply mutable_set_torrents in Hl as [Hl|Hl]; [exact Hl|].
    apply table_lists_od_set in Hl as [Hl|Hl]; apply mutable_table; [exact Hl|].
    eapply table_lists_od_get; eauto.
  - (* SetCategory *)
    unfold on_torrent in Hstep. destruct (od_get ih (_torrents w)) as [t|] eqn:Hg;
      [|injection Hstep as <- <-; split; [apply frame_refl|auto]].
    injection Hstep as <- <-. split; [apply frame_refl|].
    intros l Hl. left. apply mutable_set_torrents in Hl as [Hl|Hl]; [exact Hl|].
    apply table_lists_od_set in Hl as [Hl|Hl]; apply mutable_table; [exact Hl|].
    eapply table_lists_od_get; eauto.
  - (* Snapshot *)
    destruct (_session w) as [ses|]; [|injection Hstep as <- <-; split; [apply frame_refl|auto]].
    unfold on_torrent in Hstep. destruct (od_get ih (_torrents w)) as [t|] eqn:Hg;
      [|injection Hstep as <- <-; split; [apply frame_refl|auto]].
    destruct (snapshot ses t σ) as [[ls t1] σ1] eqn:Hsn. injection Hstep as <- <-.
    destruct (snapshot_spec _ _ _ _ _ _ Hsn) as (Hfr & Hl1 & _).
    split; [eapply frame_weaken; [|exact Hfr]; intros l Hl; now apply not_elem_of_nil in Hl|].
    intros l Hl. left. apply mutable_set_torrents in Hl as [Hl|Hl]; [exact Hl|].
    apply table_lists_od_set in Hl as [Hl|Hl]; apply mutable_table; [exact Hl|].
    rewrite Hl1 in Hl. eapply table_lists_od_get; eauto.
  - (* EngineMoves *)
    destruct (_session w); injection Hstep as <- <-; (split; [apply frame_refl|auto]).
Qed.

(** [separate F] is kept by every activity, and the objects of [F] are not
    written to. *)
Lemma step_separate F (a : activity) (w w' : SessionWorker) σ σ' :
  step a (w, σ) = (w', σ') -> separate F w σ ->
  separate F w' σ' /\ frame (mutable_lists w) σ σ'.
Proof.
  intros Hstep [Hm HF].
  destruct (step_spec a w w' σ σ' Hstep) as [Hfr Hnew]; [intros l Hl; apply Hm, Hl|].
  split; [|exact Hfr]. split.
  - intros l Hl. destruct (Hnew l Hl) as [Hold|[Hn Hd]].
    + split; [eapply frame_dom; [exact Hfr|]|]; apply Hm, Hold.
    + split; [exact Hd|]. intros HlF. apply Hn, HF, HlF.
  - intros l Hl. eapply frame_dom; [exact Hfr|]. apply HF, Hl.
Qed.

Lemma run_cons (a : activity) (acts : list activity) (st : SessionWorker * gmap loc obj) :
  run (a :: acts) st = run acts (step a st).
Proof. reflexivity. Qed.

Lemma run_separate F (acts : list activity) (w : SessionWorker) σ :
  separate F w σ ->
  separate F (fst (run acts (w, σ))) (snd (run acts (w, σ))) /\
  forall l, l ∈ F -> snd (run acts (w, σ)) !! l = σ !! l.
Proof.
  revert w σ. induction acts as [|a acts IH]; intros w σ Hsep.
  - split; [exact Hsep | reflexivity].
  - rewrite run_cons. destruct (step a (w, σ)) as [w1 σ1] eqn:Hstep.
    destruct (step_separate F a w w1 σ σ1 Hstep Hsep) as [Hsep1 Hfr].
    destruct (IH w1 σ1 Hsep1) as [Hsepn Hl]. split; [exact Hsepn|].
    intros l HlF. rewrite (Hl l HlF).
    apply (frame_lookup _ _ _ _ Hfr); [apply Hsep, HlF|].
    intros Hm. now apply (proj1 Hsep) in Hm.
Qed.

(** After a tick, the controller's lists and the objects of the emitted
    statistics are apart. *)
Lemma update_stats_separate (w w' : SessionWorker) σ σ' sigs lstats :
  _update_stats w σ = (w', σ', sigs) ->
  (forall l, l ∈ mutable_lists w -> l ∈ dom σ) ->
  stats_updated lstats ∈ sigs ->
  separate (stats_parts σ' lstats) w' σ'.
Proof.
  intros Hup Hin Hs.
  destruct (update_stats_spec _ _ _ _ _ Hup Hin) as (Hfr & Hm & Hparts).
  split.
  - intros l Hl. rewrite Hm in Hl. split; [eapply frame_dom; eauto|].
    intros Hp. apply (proj2 (Hparts lstats Hs) l) in Hp as [Hn _]. auto.
  - intros l Hl. apply (proj2 (Hparts lstats Hs) l Hl).
Qed.

(** C9. A [SessionStats] is immutable once emitted.  Let a stats tick
    of a controller whose lists are all in the store emit
    [stats_updated lstats].  The object at [lstats] reads as a complete
    [SessionStats]; and after any list [acts] of later controller
    activity (further ticks, which append to the session rate
    histories; registering and removing torrents; tag and category
    edits; later snapshots; moves of the engine) every object it is
    made of (the record, its two history lists, its list of snapshots,
    each [TorrentSnapshot] and each snapshot's tags list) is the object
    it was, so the value an observer reads from [lstats] (fields,
    history lists and contained snapshots) is the value that was
    emitted. *)
Theorem emitted_stats_immutable (w w1 : SessionWorker) (σ σ1 : gmap loc obj)
    (sigs : list Signal) (lstats : loc) (acts : list activity) :
  (forall l, l ∈ mutable_lists w -> l ∈ dom σ) ->
  _update_stats w σ = (w1, σ1, sigs) ->
  stats_updated lstats ∈ sigs ->
  read_stats σ1 lstats <> None /\
  (forall l, l ∈ stats_parts σ1 lstats ->
             snd (run acts (w1, σ1)) !! l = σ1 !! l) /\
  stats_parts (snd (run acts (w1, σ1))) lstats = stats_parts σ1 lstats /\
  read_stats (snd (run acts (w1, σ1))) lstats = read_stats σ1 lstats.
Proof.
  intros Hin Hup Hs.
  pose proof (update_stats_separate _ _ _ _ _ _ Hup Hin Hs) as Hsep.
  destruct (run_separate _ acts w1 σ1 Hsep) as [_ Hl].
  destruct (update_stats_spec _ _ _ _ _ Hup Hin) as (_ & _ & Hparts).
  split.
  { unfold read_stats. destruct (get_stats σ1 lstats) eqn:Hg; [discriminate|].
    now destruct (proj1 (Hparts lstats Hs)). }
  split; [exact Hl|]. split.
  - now apply stats_parts_agree.
  - now apply read_stats_agree.
Qed.

End Frame.

(** *** A run: one torrent, a first tick, then ten more activities *)

Import EngineFixture StoreFixture.

Example first_tick_emits :
  emitted = [stats_updated 15%positive;
             detail_updated hash_a tt 16%positive 17%positive].
Proof. vm_compute. reflexivity. Qed.

Lemma emitted_stats_immutable_witness :
  read_stats store1 15%positive <> None /\
  (forall l, l ∈ stats_parts store1 15%positive ->
             snd (run later (worker1, store1)) !! l = store1 !! l) /\
  stats_parts (snd (run later (worker1, store1))) 15%positive
    = stats_parts store1 15%positive /\
  read_stats (snd (run later (worker1, store1))) 15%positive
    = read_stats store1 15%positive.
Proof.
  refine (@emitted_stats_immutable Fixtures.Zfloat toy_engine
            (fst registered) worker1 (snd registered) store1 emitted
            15%positive later _ _ _).
  - intros l Hl. apply elem_of_dom.
    assert (E : mutable_lists (fst registered)
                = [1; 2; 3; 4; 5]%positive) by (vm_compute; reflexivity).
    rewrite E in Hl.
    repeat (apply elem_of_cons in Hl as [->|Hl];
            [vm_compute; eexists; reflexivity|]).
    now apply elem_of_nil in Hl.
  - unfold worker1, store1, emitted, first_tick.
    destruct (_update_stats (fst registered) (snd registered)) as [[w1 s1] sigs].
    reflexivity.
  - assert (E : emitted
                = [stats_updated 15%positive;
                   detail_updated hash_a tt 16%positive 17%positive])
      by (vm_compute; reflexivity).
    rewrite E. apply list_elem_of_here.
Defined.

(** Meanwhile the controller's own lists, which the statistics were
    copied from, did change: the session history has five entries and
    the torrent's tags were edited. *)
Example controller_lists_changed :
  get_ints store1 1%positive = [1000] /\
  get_ints (snd (run later (worker1, store1))) 1%positive
    = [1000; 1000; 1000; 1000; 1000] /\
  get_strs store1 3%positive = [py "hd"] /\
  get_strs (snd (run later (worker1, store1))) 3%positive = [py "4k"].
Proof. vm_compute. repeat split. Qed.

(** The emitted statistics still show one history entry and the tag
    [hd]. *)
Example emitted_stats_after_run :
  option_map (fun s => (Stats.dl_history s, Stats.ul_history s,
                        map (option_map Snap.tags) (Stats.torrents s)))
             (read_stats (snd (run later (worker1, store1))) 15%positive)
  = Some ([1000], [200], [Some [py "hd"]]).
Proof. vm_compute. reflexivity. Qed.

End StoreFacts.

(** ** Peer filter: log, rules, whitelist and blocklist file *)

Module PeerFilterAdminFacts.
Import PeerFilter PeerVerdict PyText PeerFilterAdmin PyFacts.

Section Generic.
Context `{PyFloat} `{PyLib}.

(** *** The ban log *)

Lemma log_ban_fields (now : float) (ip client rsn : str) (self : PeerFilter) :
  set_ban_log (_ban_log self) (_log_ban now ip client rsn self) = self.
Proof. destruct self. reflexivity. Qed.

Lemma log_ban_bounded (now : float) (ip client rsn : str) (self : PeerFilter) :
  (length (_ban_log self) <= _max_log self)%nat ->
  (length (_ban_log (_log_ban now ip client rsn self)) <= _max_log self)%nat.
Proof.
  intros Hb. unfold _log_ban. cbn [_ban_log set_ban_log].
  destruct (Nat.ltb_spec (_max_log self)
              (length (_ban_log self ++
                 [{| log_time := now; log_ip := ip; log_client := client;
                     log_reason := rsn |}]))) as [Hlt|Hle].
  - rewrite length_tl, length_app. simpl. lia.
  - exact Hle.
Qed.

Lemma check_peer_cases (now : float) (peer_id : list Byte.byte)
    (client_name ip : str) (self self' : PeerFilter) (banned : bool) (rsn : str) :
  check_peer now peer_id client_name ip self = Some ((banned, rsn), self') ->
  (banned = false /\ rsn = [] /\ self' = self) \/
  (banned = true /\ self' = _log_ban now ip client_name rsn self).
Proof.
  unfold check_peer.
  repeat match goal with
         | |- context [match ?x with _ => _ end] => destruct x eqn:?
         end; intros [= <- <- <-]; auto.
Qed.

(** X1.  Whenever [check_peer] returns, its verdict and the ban log
    agree.  On allow the reason is empty and the filter is left exactly
    as it was.  On ban one entry with this peer's IP, client string and
    the returned reason, stamped with the current time, was appended to
    the log, and the oldest entry was dropped if that made the log longer
    than [_max_log]; nothing else of the filter changed; and a log within
    its bound stays within it. *)
Theorem check_peer_logs_bans (now : float) (peer_id : list Byte.byte)
    (client_name ip : str) (self self' : PeerFilter) (banned : bool) (rsn : str) :
  check_peer now peer_id client_name ip self = Some ((banned, rsn), self') ->
  (banned = false -> rsn = [] /\ self' = self) /\
  (banned = true ->
     let l := _ban_log self ++
              [{| log_time := now; log_ip := ip; log_client := client_name;
                  log_reason := rsn |}] in
     _ban_log self' = (if (_max_log self <? length l)%nat then tl l else l) /\
     set_ban_log (_ban_log self) self' = self) /\
  ((length (_ban_log self) <= _max_log self)%nat ->
   (length (_ban_log self') <= _max_log self')%nat).
Proof.
  intros Hc. apply check_peer_cases in Hc.
  destruct Hc as [(-> & -> & ->) | (-> & ->)].
  - split; [auto|]. split; [discriminate | auto].
  - split; [discriminate|]. split.
    + intros _. split; [reflexivity | apply log_ban_fields].
    + intros Hb. replace (_max_log (_log_ban now ip client_name rsn self))
        with (_max_log self) by (now destruct self).
      now apply log_ban_bounded.
Qed.

(** *** Custom rules *)

Lemma set_custom_bans_same (self : PeerFilter) :
  set_custom_bans (_custom_bans self) self = self.
Proof. destruct self. reflexivity. Qed.

(** X2.  [remove_custom_rule] undoes [add_custom_rule]: removing the
    index of the rule just added (the old length) gives the filter back.
    An index that is negative or not below the number of custom rules
    changes nothing.  An index in range removes exactly one rule, the
    one at that index, and keeps the others in order. *)
Theorem remove_custom_rule_cases (index : Z) (p r : str) (self : PeerFilter) :
  remove_custom_rule (Z.of_nat (length (_custom_bans self)))
    (add_custom_rule p r self) = self /\
  (index < 0 \/ Z.of_nat (length (_custom_bans self)) <= index ->
   remove_custom_rule index self = self) /\
  (0 <= index < Z.of_nat (length (_custom_bans self)) ->
   exists before rule after_,
     _custom_bans self = before ++ rule :: after_ /\
     length before = Z.to_nat index /\
     _custom_bans (remove_custom_rule index self) = before ++ after_).
Proof.
  split; [|split].
  - unfold remove_custom_rule.
    cbn [add_custom_rule _custom_bans]. rewrite length_app. cbn [length].
    replace ((0 <=? Z.of_nat (length (_custom_bans self))) &&
             (Z.of_nat (length (_custom_bans self)) <?
              Z.of_nat (length (_custom_bans self) + 1))) with true
      by (symmetry; apply andb_true_iff; split; [apply Z.leb_le|apply Z.ltb_lt]; lia).
    rewrite Nat2Z.id.
    rewrite firstn_app, Nat.sub_diag, firstn_all. cbn [firstn].
    rewrite app_nil_r.
    rewrite skipn_all2 by (rewrite length_app; simpl; lia).
    rewrite app_nil_r. destruct self. reflexivity.
  - intros Hout. unfold remove_custom_rule.
    destruct (Z.leb_spec 0 index); [|reflexivity].
    destruct (Z.ltb_spec index (Z.of_nat (length (_custom_bans self))));
      [lia | reflexivity].
  - intros [Hge Hlt]. unfold remove_custom_rule.
    replace ((0 <=? index) && (index <? Z.of_nat (length (_custom_bans self))))
      with true
      by (symmetry; apply andb_true_iff; split; [apply Z.leb_le|apply Z.ltb_lt]; lia).
    cbn [set_custom_bans _custom_bans].
    assert (Hn : (Z.to_nat index < length (_custom_bans self))%nat) by lia.
    destruct (skipn (Z.to_nat index) (_custom_bans self)) as [|rule after_] eqn:Hs.
    { apply (f_equal (@length _)) in Hs. rewrite length_skipn in Hs. simpl in Hs. lia. }
    exists (firstn (Z.to_nat index) (_custom_bans self)), rule, after_.
    split; [|split].
    + rewrite <- Hs. symmetry. apply firstn_skipn.
    + rewrite length_firstn. lia.
    + f_equal.
      replace (S (Z.to_nat index)) with (Z.to_nat index + 1)%nat by lia.
      rewrite <- drop_drop. fold (skipn (Z.to_nat index) (_custom_bans self)).
      rewrite Hs. reflexivity.
Qed.

(** *** The whitelist *)

Lemma whitelisted_app (s : str) (wl1 wl2 : list str) :
  whitelisted s (wl1 ++ wl2) = whitelisted s wl1 || whitelisted s wl2.
Proof.
  rewrite !PeerFilterFacts.whitelisted_existsb. apply existsb_app.
Qed.

Lemma whitelisted_In (s p : str) (wl : list str) :
  p ∈ wl -> startswith s p = true -> whitelisted s wl = true.
Proof.
  intros Hin Hs. rewrite PeerFilterFacts.whitelisted_existsb.
  apply existsb_exists. exists p. split; [now apply list_elem_of_In | exact Hs].
Qed.

Lemma startswith_length (s p : str) :
  startswith s p = true -> (length p <= length s)%nat.
Proof.
  revert s. induction p as [|c p IH]; intros s; simpl; [lia|].
  destruct s as [|d s]; [discriminate|].
  intros Hs. apply andb_true_iff in Hs as [_ Hs]. apply IH in Hs. simpl. lia.
Qed.

Lemma add_whitelist_In (p : str) (self : PeerFilter) :
  p ∈ _whitelist (add_whitelist p self).
Proof.
  cbn [add_whitelist _whitelist].
  destruct (bool_decide_reflect (p ∈ _whitelist self)); [assumption|].
  apply elem_of_app. right. apply list_elem_of_singleton. reflexivity.
Qed.

(** X3.  The whitelist comes first.  After [add_whitelist p], a peer
    whose decoded id (its first eight characters) starts with [p] is
    allowed, nothing is logged and no pattern is tried, so that not even
    a custom pattern that does not compile can make [check_peer] raise
    for it; while the filter is enabled or not.  The list keeps no
    duplicate: adding a prefix twice is adding it once. *)
Theorem whitelist_overrides_rules (now : float) (peer_id : list Byte.byte)
    (client_name ip p : str) (self : PeerFilter) :
  (startswith (peer_id_prefix peer_id) p = true ->
   check_peer now peer_id client_name ip (add_whitelist p self)
   = Some ((false, []), add_whitelist p self)) /\
  add_whitelist p (add_whitelist p self) = add_whitelist p self /\
  (NoDup (_whitelist self) -> NoDup (_whitelist (add_whitelist p self))).
Proof.
  split; [|split].
  - intros Hs. unfold check_peer.
    destruct (_enabled (add_whitelist p self)); [|reflexivity]. cbn [negb].
    rewrite PeerFilterFacts.peer_id_str_eq.
    rewrite (whitelisted_In _ p) by (apply add_whitelist_In || exact Hs).
    reflexivity.
  - unfold add_whitelist at 1. cbn [_whitelist].
    pose proof (add_whitelist_In p self) as Hin. cbn [add_whitelist _whitelist] in Hin.
    rewrite (bool_decide_eq_true_2 _ Hin). now destruct self.
  - intros Hnd. cbn [add_whitelist _whitelist].
    destruct (bool_decide_reflect (p ∈ _whitelist self)) as [Hin|Hnin]; [exact Hnd|].
    apply NoDup_app. split; [exact Hnd|]. split.
    + intros x Hx Hx'. apply list_elem_of_singleton in Hx'. now subst.
    + apply NoDup_singleton.
Qed.

(** X4.  Only the first eight characters of a peer id are looked at, so
    a whitelist entry longer than eight characters protects no peer:
    adding it changes no verdict. *)
Theorem long_whitelist_entry_is_dead (now : float) (peer_id : list Byte.byte)
    (client_name ip p : str) (self : PeerFilter) :
  (8 < length p)%nat ->
  option_map fst (check_peer now peer_id client_name ip (add_whitelist p self))
  = option_map fst (check_peer now peer_id client_name ip self).
Proof.
  intros Hlen.
  assert (Hns : startswith (peer_id_prefix peer_id) p = false).
  { destruct (startswith (peer_id_prefix peer_id) p) eqn:Hs; [|reflexivity].
    apply startswith_length in Hs.
    pose proof (PeerFilterFacts.peer_id_prefix_length peer_id). lia. }
  assert (Hw : whitelisted (peer_id_prefix peer_id) (_whitelist (add_whitelist p self))
               = whitelisted (peer_id_prefix peer_id) (_whitelist self)).
  { cbn [add_whitelist _whitelist].
    destruct (bool_decide (p ∈ _whitelist self)); [reflexivity|].
    rewrite whitelisted_app. cbn [whitelisted]. rewrite Hns.
    now rewrite orb_false_r. }
  unfold check_peer. rewrite !PeerFilterFacts.peer_id_str_eq, Hw.
  replace (_get_active_rules (add_whitelist p self)) with (_get_active_rules self)
    by (unfold _get_active_rules; generalize KNOWN_LEECHERS;
        intros l; induction l as [|r l IH]; [reflexivity|];
        cbn [active_of]; rewrite IH; reflexivity).
  replace (_check_ip_blocked (add_whitelist p self) ip)
    with (_check_ip_blocked self ip) by reflexivity.
  cbn [add_whitelist _enabled _custom_bans].
  repeat match goal with
         | |- context [match ?x with _ => _ end] => destruct x eqn:?
         end; reflexivity.
Qed.

(** *** Custom rules with an empty pattern *)

Lemma find_fst_none {A} (l : list (bool * A)) (x : A) :
  List.find fst l = None -> ~ In (true, x) l.
Proof.
  induction l as [|[b y] l IH]; simpl; [tauto|].
  destruct b; [discriminate|]. intros Hn [Heq|Hin]; [discriminate | now apply IH].
Qed.

(** X5.  Every string starts with the empty string: once an enabled
    custom rule has an empty pattern, every peer that is not whitelisted
    is banned while the filter is on (with that rule's reason or the
    reason of a rule that comes before it). *)
Theorem empty_custom_pattern_bans_all (now : float) (peer_id : list Byte.byte)
    (client_name ip : str) (self : PeerFilter) (rule : BanRule) :
  patterns_compile self ->
  _enabled self = true ->
  whitelisted (peer_id_prefix peer_id) (_whitelist self) = false ->
  In rule (_custom_bans self) -> enabled rule = true -> pattern rule = [] ->
  exists rsn self',
    check_peer now peer_id client_name ip self = Some ((true, rsn), self').
Proof.
  intros Hc Hen Hwl Hin Hre Hp.
  rewrite (PeerFilterFacts.check_peer_full now peer_id client_name ip self Hc).
  unfold check_peer_spec. rewrite <- PeerFilterFacts.peer_id_prefix_id.
  rewrite Hen. cbn [negb].
  rewrite <- PeerFilterFacts.whitelisted_existsb, Hwl.
  destruct (List.find fst (candidates self (peer_id_prefix peer_id) client_name ip))
    as [[b rsn]|] eqn:Hf.
  - eexists _, _. reflexivity.
  - exfalso. apply (find_fst_none _ (reason rule)) in Hf. apply Hf.
    unfold candidates. apply in_or_app. right. apply in_or_app. right.
    apply in_or_app. left.
    apply in_map_iff. exists rule. split; [|exact Hin].
    rewrite Hre, Hp. reflexivity.
Qed.

(** *** The blocklist file *)

Lemma load_lines_app (lines : list str) (acc : list (Z * Z)) :
  load_lines lines acc = acc ++ load_lines lines [].
Proof.
  revert acc. induction lines as [|line rest IH]; intros acc; cbn [load_lines].
  - now rewrite app_nil_r.
  - destruct (negb (nonempty (strip line)) || startswith (strip line) (py "#"));
      [apply IH|].
    destruct (parse_p2p_line (strip line)) as [rg|]; [|apply IH].
    rewrite (IH (acc ++ [rg])), (IH ([] ++ [rg])). now rewrite <- app_assoc.
Qed.

Lemma load_lines_In (lines : list str) (line : str) (rg : Z * Z) :
  In line lines ->
  nonempty (strip line) = true -> startswith (strip line) (py "#") = false ->
  parse_p2p_line (strip line) = Some rg ->
  In rg (load_lines lines []).
Proof.
  intros Hin Hne Hh Hp. induction lines as [|l rest IH]; [destruct Hin|].
  cbn [load_lines]. destruct Hin as [->|Hin].
  - rewrite Hne, Hh, Hp. cbn [negb orb].
    rewrite load_lines_app. apply in_or_app. left. now left.
  - destruct (negb (nonempty (strip l)) || startswith (strip l) (py "#"));
      [now apply IH|].
    destruct (parse_p2p_line (strip l)); [|now apply IH].
    rewrite load_lines_app. apply in_or_app. right. now apply IH.
Qed.

Lemma load_lines_source (lines : list str) (rg : Z * Z) :
  In rg (load_lines lines []) ->
  exists line, In line lines /\ nonempty (strip line) = true /\
               startswith (strip line) (py "#") = false /\
               parse_p2p_line (strip line) = Some rg.
Proof.
  induction lines as [|l rest IH]; cbn [load_lines]; [intros []|].
  destruct (nonempty (strip l)) eqn:Hne; cbn [negb orb].
  2:{ intros Hin. destruct (IH Hin) as (x & ? & ?). exists x. split; [now right | assumption]. }
  destruct (startswith (strip l) (py "#")) eqn:Hh.
  { intros Hin. destruct (IH Hin) as (x & ? & ?). exists x. split; [now right | assumption]. }
  destruct (parse_p2p_line (strip l)) as [rg'|] eqn:Hp.
  2:{ intros Hin. destruct (IH Hin) as (x & ? & ?). exists x. split; [now right | assumption]. }
  rewrite load_lines_app. intros Hin. apply in_app_or in Hin as [[<-|[]]|Hin].
  - exists l. split; [now left|]. auto.
  - destruct (IH Hin) as (x & ? & ?). exists x. split; [now right | assumption].
Qed.

Lemma load_lines_length (lines : list str) :
  (length (load_lines lines []) <= length lines)%nat.
Proof.
  induction lines as [|l rest IH]; cbn [load_lines]; [simpl; lia|].
  destruct (negb (nonempty (strip l)) || startswith (strip l) (py "#"));
    [simpl; lia|].
  destruct (parse_p2p_line (strip l)); [|simpl; lia].
  rewrite load_lines_app, length_app. simpl. lia.
Qed.

(** X6.  Loading a blocklist file replaces the list, never adds to it.
    The ranges after the call depend on the file alone, not on the
    ranges held before; a missing file leaves the list empty, without an
    exception; the rest of the filter is untouched.  Every range loaded
    comes from a line of the file that is neither blank nor a [#]
    comment, so there are at most as many ranges as lines. *)
Theorem load_blocklist_replaces (file : opened) (self : PeerFilter)
    (ranges : list (Z * Z)) :
  fst (load_blocklist_p2p file (set_ip_blocklist ranges self))
    = fst (load_blocklist_p2p file self) /\
  load_blocklist_p2p FileNotFound self = (set_ip_blocklist [] self, None) /\
  set_ip_blocklist (_ip_blocklist self) (fst (load_blocklist_p2p file self)) = self /\
  (forall lines read_error rg,
     file = FileLines lines read_error ->
     In rg (_ip_blocklist (fst (load_blocklist_p2p file self))) ->
     exists line, In line lines /\ nonempty (strip line) = true /\
                  startswith (strip line) (py "#") = false /\
                  parse_p2p_line (strip line) = Some rg) /\
  (forall lines read_error,
     file = FileLines lines read_error ->
     blocklist_count (fst (load_blocklist_p2p file self)) <= Z.of_nat (length lines)).
Proof.
  split; [|split; [|split; [|split]]].
  - destruct file; reflexivity.
  - reflexivity.
  - destruct file, self; reflexivity.
  - intros lines re rg -> Hin. cbn in Hin. now apply load_lines_source.
  - intros lines re ->. unfold blocklist_count. cbn.
    pose proof (load_lines_length lines). lia.
Qed.

(** *** From a line of the file to a blocked peer *)

Lemma cut_last_app (sep : N) (a b : str) :
  ~ In sep b -> cut_last sep (a ++ sep :: b) = Some (a, b).
Proof.
  intros Hb.
  assert (Hn : forall s, ~ In sep s -> cut_last sep s = None).
  { induction s as [|c s IH]; simpl; [reflexivity|].
    intros Hs. rewrite IH by tauto.
    destruct (N.eqb_spec c sep); [subst; tauto | reflexivity]. }
  induction a as [|c a IH]; simpl.
  - rewrite (Hn b Hb), N.eqb_refl. reflexivity.
  - now rewrite IH.
Qed.

Lemma split_none (sep : N) (s : str) : ~ In sep s -> split sep s = [s].
Proof.
  induction s as [|c s IH]; simpl; [reflexivity|].
  intros Hs. destruct (N.eqb_spec c sep); [subst; tauto|].
  rewrite IH by tauto. reflexivity.
Qed.

Lemma split_two (sep : N) (a b : str) :
  ~ In sep a -> ~ In sep b -> split sep (a ++ sep :: b) = [a; b].
Proof.
  intros Ha Hb. induction a as [|c a IH]; simpl.
  - rewrite N.eqb_refl, (split_none sep b Hb). reflexivity.
  - destruct (N.eqb_spec c sep); [subst; simpl in Ha; tauto|].
    rewrite IH by (simpl in Ha; tauto). reflexivity.
Qed.

Lemma in_ranges_In (n a b : Z) (ranges : list (Z * Z)) :
  In (a, b) ranges -> a <= n <= b -> in_ranges n ranges = true.
Proof.
  intros Hin Hab. induction ranges as [|[a' b'] l IH]; [destruct Hin|].
  cbn [in_ranges]. destruct Hin as [[= -> ->]|Hin].
  - replace ((a <=? n) && (n <=? b)) with true; [reflexivity|].
    symmetry. apply andb_true_iff. split; apply Z.leb_le; lia.
  - destruct ((a' <=? n) && (n <=? b')); [reflexivity | now apply IH].
Qed.

(** X7.  A line [description:START-END] of the blocklist file blocks the
    range it names.  If, once stripped, a line of the file reads
    [desc ++ ":" ++ start ++ "-" ++ end], is no [#] comment, the two
    addresses hold no colon and no dash and both parse as IPv4
    addresses, then after [load_blocklist_p2p] every address whose
    number lies between them (bounds included) is reported blocked by
    [_check_ip_blocked], and an enabled filter with no matching rule
    before the blocklist step bans it with reason [IP blocklist]. *)
Theorem loaded_line_blocks_range (lines : list str) (read_error : option exn)
    (self : PeerFilter) (raw desc start_str end_str ip : str) (a b n : Z) :
  In raw lines ->
  strip raw = desc ++ 58%N :: start_str ++ 45%N :: end_str ->
  startswith (strip raw) (py "#") = false ->
  ~ In 58%N start_str -> ~ In 58%N end_str ->
  ~ In 45%N start_str -> ~ In 45%N end_str ->
  ip_value (strip start_str) = Some a ->
  ip_value (strip end_str) = Some b ->
  ip_value ip = Some n -> a <= n <= b ->
  _check_ip_blocked
    (fst (load_blocklist_p2p (FileLines lines read_error) self)) ip = true.
Proof.
  intros Hin Hs Hh Hcs Hce Hds Hde Ha Hb Hn Hab.
  cbn [load_blocklist_p2p fst].
  assert (Hp : parse_p2p_line (strip raw) = Some (a, b)).
  { unfold parse_p2p_line, rsplit1. rewrite Hs.
    rewrite cut_last_app.
    2:{ intros Hx. apply in_app_or in Hx as [Hx|[Hx|Hx]]; [tauto|discriminate|tauto]. }
    rewrite split_two by assumption. now rewrite Ha, Hb. }
  assert (Hne : nonempty (strip raw) = true).
  { rewrite Hs. now destruct desc. }
  pose proof (load_lines_In lines raw (a, b) Hin Hne Hh Hp) as Hrg.
  unfold _check_ip_blocked. unfold ip_value in Hn.
  destruct (inet_aton ip) as [packed|]; [|discriminate].
  rewrite Hn. cbn [set_ip_blocklist _ip_blocklist].
  now apply (in_ranges_In n a b).
Qed.

End Generic.

(** *** Concrete runs *)

Section Runs.
Import Fixtures PeerFixture PeerAdminFixture.
#[local] Existing Instance Zfloat.
#[local] Existing Instance frag_pylib.

Ltac not_in_literal :=
  let Hx := fresh "Hx" in
  intros Hx; cbv in Hx;
  repeat (destruct Hx as [Hx|Hx]; [discriminate Hx|]); exact Hx.

Lemma check_peer_logs_bans_witness :
  check_peer 7 (bytes_of "-XL1234-abcdef") (py "Xunlei") (py "1.2.3.4") PeerFilter_init
  = Some ((true, py "Xunlei/Thunder"),
          _log_ban 7 (py "1.2.3.4") (py "Xunlei") (py "Xunlei/Thunder") PeerFilter_init) /\
  map log_ip (_ban_log (_log_ban 7 (py "1.2.3.4") (py "Xunlei") (py "Xunlei/Thunder")
                          PeerFilter_init)) = [py "1.2.3.4"].
Proof.
  split; [reflexivity|].
  destruct (@check_peer_logs_bans Zfloat frag_pylib 7 (bytes_of "-XL1234-abcdef")
              (py "Xunlei") (py "1.2.3.4") PeerFilter_init
              (@_log_ban Zfloat 7 (py "1.2.3.4") (py "Xunlei") (py "Xunlei/Thunder")
                 PeerFilter_init)
              true (py "Xunlei/Thunder") eq_refl) as (_ & Hban & _).
  destruct (Hban eq_refl) as [Hlog _]. rewrite Hlog. reflexivity.
Defined.

Lemma long_whitelist_entry_is_dead_witness :
  (8 < length (py "-XL1234-a"))%nat /\
  option_map fst (check_peer 0 (bytes_of "-XL1234-abcdef") (py "Unknown") (py "1.2.3.4")
                    (add_whitelist (py "-XL1234-a") PeerFilter_init))
  = Some (true, py "Xunlei/Thunder").
Proof.
  split; [vm_compute; lia|].
  rewrite (@long_whitelist_entry_is_dead Zfloat frag_pylib 0 (bytes_of "-XL1234-abcdef")
             (py "Unknown") (py "1.2.3.4") (py "-XL1234-a") PeerFilter_init)
    by (vm_compute; lia).
  reflexivity.
Defined.

(** A filter whose one custom rule has an empty pattern. *)
Lemma ban_everyone_compiles : patterns_compile filter_ban_everyone.
Proof.
  intros r text Hin _. simpl in Hin.
  destruct Hin as [<-|[<-|[<-|[<-|[<-|[]]]]]];
    cbn [re_search frag_pylib pattern mk_rule]; unfold frag_re_search;
    match goal with
    | |- context [compile ?p false []] =>
        let c := eval vm_compute in (compile p false []) in
        change (compile p false []) with c
    end; discriminate.
Qed.

Lemma empty_custom_pattern_bans_all_witness :
  exists rsn self',
    check_peer 0 (bytes_of "-qB4500-abcdef") (py "qBittorrent/4.5.0") (py "1.2.3.4")
      filter_ban_everyone = Some ((true, rsn), self').
Proof.
  apply (@empty_custom_pattern_bans_all Zfloat frag_pylib 0 (bytes_of "-qB4500-abcdef")
           (py "qBittorrent/4.5.0") (py "1.2.3.4") filter_ban_everyone
           {| pattern := []; reason := py "everyone"; enabled := true |}).
  - exact ban_everyone_compiles.
  - reflexivity.
  - reflexivity.
  - now left.
  - reflexivity.
  - reflexivity.
Defined.

Example qbittorrent_passes_without_the_empty_rule :
  option_map fst (check_peer 0 (bytes_of "-qB4500-abcdef") (py "qBittorrent/4.5.0")
                    (py "1.2.3.4") PeerFilter_init) = Some (false, []) /\
  option_map fst (check_peer 0 (bytes_of "-qB4500-abcdef") (py "qBittorrent/4.5.0")
                    (py "1.2.3.4") filter_ban_everyone) = Some (true, py "everyone").
Proof. split; reflexivity. Qed.

Example load_blocklist_example :
  _ip_blocklist (fst (load_blocklist_p2p (FileLines blocklist_file None)
                        filter_block_all))
  = [(16909056, 16909311)].
Proof. vm_compute. reflexivity. Qed.

Lemma loaded_line_blocks_range_witness :
  _check_ip_blocked
    (fst (load_blocklist_p2p (FileLines blocklist_file None) PeerFilter_init))
    (py "1.2.3.50") = true.
Proof.
  apply (@loaded_line_blocks_range Zfloat frag_pylib blocklist_file None PeerFilter_init
           (py "  Some org:1.2.3.0 - 1.2.3.255") (py "Some org")
           (py "1.2.3.0 ") (py " 1.2.3.255") (py "1.2.3.50")
           16909056 16909311 16909106).
  - right. right. now left.
  - vm_compute. reflexivity.
  - vm_compute. reflexivity.
  - not_in_literal.
  - not_in_literal.
  - not_in_literal.
  - not_in_literal.
  - vm_compute. reflexivity.
  - vm_compute. reflexivity.
  - vm_compute. reflexivity.
  - lia.
Defined.

End Runs.

End PeerFilterAdminFacts.

(** ** Torrent: snapshots, histories and tags *)

Module TorrentFacts.
Import TorrentState TorrentModel PyFacts.

Section Generic.
Context `{Libtorrent}.

(** *** What every snapshot carries *)

Lemma str_or_nonempty (x : str) (dflt : string) :
  py dflt <> [] -> str_or x (py dflt) <> [].
Proof.
  intros Hd. unfold str_or. destruct (nonempty x) eqn:Hx; [|exact Hd].
  now apply nonempty_true.
Qed.

Lemma failed_snapshot_shape {T} (nm ih cat : str) (tgs : T) (added : float)
    (err : str) (snap : Snap.TorrentSnapshot_ T) :
  snap = failed_snapshot nm ih cat tgs added err ->
  Snap.valid snap = false /\ Snap.state snap = ERROR /\
  Snap.name snap = nm /\ Snap.info_hash snap = ih /\
  Snap.category snap = cat /\ Snap.tags snap = tgs /\
  Snap.added_time snap = added /\
  Snap.download_speed snap = 0 /\ Snap.upload_speed snap = 0.
Proof. intros ->. repeat split. Qed.

Lemma resolve_state_error (s : StateInputs) :
  errc_value s <> 0 -> _resolve_state s = ERROR.
Proof.
  intros He. unfold _resolve_state.
  destruct (Z.eqb_spec (errc_value s) 0); [contradiction | reflexivity].
Qed.

Lemma resolve_state_not_moving (s : StateInputs) : _resolve_state s <> MOVING.
Proof.
  unfold _resolve_state. destruct (paused_flags s).
  repeat match goal with
         | |- context [if ?b then _ else _] => destruct b
         end; discriminate.
Qed.

(** The three ways [snapshot_of] ends. *)
Lemma snapshot_of_cases {T} (ses : session) (h : torrent_handle)
    (cat : str) (added : float) (prev_name prev_ih : str) (tgs : T) :
  let snap := snapshot_of ses h cat added prev_name prev_ih tgs in
  (exists nm err, nm <> [] /\
      snap = failed_snapshot nm prev_ih cat tgs added err) \/
  (exists s ih,
      status ses h = inr s /\ info_hash ses h = inr ih /\
      Snap.valid snap = true /\
      Snap.state snap = _resolve_state (Status.for_state s) /\
      Snap.error snap = (if negb (errc_value (Status.for_state s) =? 0)
                         then Status.errc_message s else []) /\
      Snap.info_hash snap = ih /\
      Snap.category snap = cat /\ Snap.tags snap = tgs /\
      Snap.added_time snap = added).
Proof.
  cbv zeta. unfold snapshot_of.
  destruct (is_valid ses h) as [e|[|]].
  - left. eexists _, e. split; [|reflexivity]. now apply str_or_nonempty.
  - destruct (status ses h) as [e|s].
    + left. eexists _, e. split; [|reflexivity]. now apply str_or_nonempty.
    + destruct (resolve_limits ses h) as [dl ul].
      destruct (info_hash ses h) as [e|ih].
      * left. eexists _, e. split; [|reflexivity]. now apply str_or_nonempty.
      * right. exists s, ih. repeat split.
  - left. eexists _, _. split; [|reflexivity]. now apply str_or_nonempty.
Qed.

(** C3 (as the code has it).  When the handle is valid and the engine
    returns a status bundle (one that has both [paused] and
    [auto_managed] or neither), the state field of the snapshot depends
    on the info-hash query that follows.  If the engine answers it, the
    snapshot is valid and its state is the outcome of the first rule of
    the decision tree whose condition holds: error code not 0 gives
    Error; paused and not auto-managed, Paused; paused and auto-managed,
    Queued; checking_files or checking_resume, Checking;
    downloading_metadata, Metadata; downloading with rate under 1024 B/s
    and seeds, Stalled; downloading, Downloading; finished, Completed;
    seeding, Seeding; anything else, Downloading.  If the engine raises
    there, the snapshot is invalid and its state is Error, whatever the
    bundle says. *)
Theorem snapshot_state_decision_tree (ses : session) (self : Torrent)
    (s : Status.torrent_status) :
  is_valid ses (_handle self) = inr true ->
  status ses (_handle self) = inr s ->
  bundle_shape (Status.for_state s) ->
  let snap := fst (snapshot ses self) in
  (forall ih, info_hash ses (_handle self) = inr ih ->
     Snap.valid snap = true /\
     forall r, decides (decision_tree (Status.for_state s)) r <-> r = Snap.state snap) /\
  (forall e, info_hash ses (_handle self) = inl e ->
     Snap.valid snap = false /\ Snap.state snap = ERROR).
Proof.
  intros Hv Hs Hshape. cbv zeta. unfold snapshot, snapshot_of. cbn [fst].
  rewrite Hv, Hs. destruct (resolve_limits ses (_handle self)) as [dl ul].
  split.
  - intros ih Hih. rewrite Hih. cbn [Snap.valid Snap.state].
    split; [reflexivity|]. intros r.
    now apply TorrentStateFacts.resolve_state_decision_tree.
  - intros e He. rewrite He. split; reflexivity.
Qed.

(** X8.  [Torrent.snapshot] never loses what the user set.  Whatever the
    engine answers (an invalid handle, an exception, a status), the
    snapshot returned carries the torrent's current category, a copy of
    its tags and its added time; it is the snapshot cached in [_snap]
    afterwards, and the call changes nothing else of the torrent. *)
Theorem snapshot_keeps_organisation (ses : session) (self : Torrent) :
  let snap := fst (snapshot ses self) in
  let self' := snd (snapshot ses self) in
  Snap.category snap = _category self /\
  Snap.tags snap = _tags self /\
  Snap.added_time snap = _added_time self /\
  _snap self' = snap /\
  set_snap (_snap self) self' = self.
Proof.
  cbv zeta. unfold snapshot. cbn [fst snd].
  pose proof (snapshot_of_cases ses (_handle self) (_category self)
                (_added_time self) (Snap.name (_snap self))
                (Snap.info_hash (_snap self)) (_tags self)) as Hc.
  cbv zeta in Hc.
  split; [|split; [|split; [|split]]].
  - destruct Hc as [(nm & err & _ & ->) | (s & ih & _ & _ & _ & _ & _ & _ & Hcat & _)];
      [reflexivity | exact Hcat].
  - destruct Hc as [(nm & err & _ & ->) | (s & ih & _ & _ & _ & _ & _ & _ & _ & Htg & _)];
      [reflexivity | exact Htg].
  - destruct Hc as [(nm & err & _ & ->) | (s & ih & _ & _ & _ & _ & _ & _ & _ & _ & Ha)];
      [reflexivity | exact Ha].
  - reflexivity.
  - destruct self. reflexivity.
Qed.

(** X9.  A snapshot that reports a failure is in state [ERROR].  An
    invalid snapshot (the handle is invalid, or the engine raised) has
    state [ERROR], a name that is not empty, zero download and upload
    speed, and keeps the info-hash cached before; a snapshot of any kind
    whose error text is not empty has state [ERROR]; and no snapshot
    ever has state [MOVING]. *)
Theorem snapshot_failure_is_error (ses : session) (self : Torrent) :
  let snap := fst (snapshot ses self) in
  (Snap.valid snap = false ->
     Snap.state snap = ERROR /\ Snap.name snap <> [] /\
     Snap.download_speed snap = 0 /\ Snap.upload_speed snap = 0 /\
     Snap.info_hash snap = Snap.info_hash (_snap self)) /\
  (Snap.error snap <> [] -> Snap.state snap = ERROR) /\
  Snap.state snap <> MOVING.
Proof.
  cbv zeta. unfold snapshot. cbn [fst].
  pose proof (snapshot_of_cases ses (_handle self) (_category self)
                (_added_time self) (Snap.name (_snap self))
                (Snap.info_hash (_snap self)) (_tags self)) as Hc.
  cbv zeta in Hc.
  destruct Hc as [(nm & err & Hnm & ->) |
                  (s & ih & _ & _ & Hv & Hst & Herr & _)].
  - split; [|split]; [| reflexivity | discriminate].
    intros _. repeat split. exact Hnm.
  - split; [|split].
    + rewrite Hv. discriminate.
    + rewrite Herr, Hst. intros Hne. apply resolve_state_error.
      destruct (Z.eqb_spec (errc_value (Status.for_state s)) 0) as [Hz|Hz];
        [now contradiction Hne | exact Hz].
    + rewrite Hst. apply resolve_state_not_moving.
Qed.

(** *** Bounded histories *)

Lemma push_bounded_length {A} (max : nat) (x : A) (l : list A) :
  (length l <= max)%nat -> (length (push_bounded max x l) <= max)%nat.
Proof.
  intros Hl. unfold push_bounded.
  destruct (Nat.ltb_spec max (length (l ++ [x]))) as [Hlt|Hle]; [|exact Hle].
  rewrite length_tl, length_app. simpl. lia.
Qed.

Lemma push_bounded_same_length {A B} (max : nat) (x : A) (y : B)
    (l : list A) (m : list B) :
  length l = length m ->
  length (push_bounded max x l) = length (push_bounded max y m).
Proof.
  intros Hl. unfold push_bounded. rewrite !length_app, Hl. cbn [length].
  destruct (max <? length m + 1)%nat.
  - rewrite !length_tl, !length_app, Hl. reflexivity.
  - now rewrite !length_app, Hl.
Qed.

Lemma tl_skipn_snoc {A} (k : nat) (xs : list A) (x : A) :
  (k <= length xs)%nat ->
  tl (skipn k xs ++ [x]) = skipn (S k) (xs ++ [x]).
Proof.
  revert k. induction xs as [|y xs IH]; intros k Hk.
  - assert (k = 0)%nat as -> by (simpl in Hk; lia). reflexivity.
  - destruct k as [|k]; [reflexivity|].
    cbn [skipn app]. rewrite IH by (simpl in Hk; lia). reflexivity.
Qed.

(** X10.  A bounded history holds the most recent samples, oldest first.
    Pushing the samples [xs] one after the other into an empty history
    of bound [max] (each push appends, then drops the first element if
    the list grew past [max]) leaves exactly the last [max] samples of
    [xs], or all of them if there are fewer.  This is how the torrent's
    speed histories (bound 120) and the session's rate histories
    (bound 300) are kept. *)
Theorem history_is_recent_window {A} (max : nat) (xs : list A) :
  fold_left (fun l x => push_bounded max x l) xs []
  = skipn (length xs - max) xs.
Proof.
  induction xs as [|x xs IH] using rev_ind; [reflexivity|].
  rewrite fold_left_app. cbn [fold_left]. rewrite IH.
  unfold push_bounded. rewrite !length_app, length_skipn. cbn [length].
  destruct (Nat.ltb_spec max (length xs - (length xs - max) + 1)) as [Hlt|Hle].
  - rewrite tl_skipn_snoc by lia. f_equal. lia.
  - replace (length xs + 1 - max)%nat with 0%nat by lia.
    replace (length xs - max)%nat with 0%nat by lia. reflexivity.
Qed.

(** *** Tags *)

Lemma remove_first_not_in (x : str) (l : list str) :
  x ∉ l -> list_remove_first x l = l.
Proof.
  induction l as [|y l IH]; [reflexivity|]. intros Hx.
  apply not_elem_of_cons in Hx as [Hne Hx]. cbn [list_remove_first].
  rewrite bool_decide_eq_false_2 by congruence. now rewrite IH.
Qed.

Lemma remove_first_elem (x y : str) (l : list str) :
  y ∈ list_remove_first x l -> y ∈ l.
Proof.
  induction l as [|z l IH]; cbn [list_remove_first]; [auto|].
  destruct (bool_decide (z = x)).
  - intros Hy. now apply list_elem_of_further.
  - intros Hy. apply elem_of_cons in Hy as [->|Hy].
    + apply list_elem_of_here.
    + apply list_elem_of_further. now apply IH.
Qed.

Lemma remove_first_other (x y : str) (l : list str) :
  y <> x -> y ∈ l -> y ∈ list_remove_first x l.
Proof.
  intros Hne. induction l as [|z l IH]; cbn [list_remove_first]; [auto|].
  intros Hy. apply elem_of_cons in Hy as [->|Hy].
  - rewrite bool_decide_eq_false_2 by exact Hne. apply list_elem_of_here.
  - destruct (bool_decide (z = x)); [exact Hy|].
    apply list_elem_of_further. now apply IH.
Qed.

Lemma remove_first_NoDup (x : str) (l : list str) :
  NoDup l -> NoDup (list_remove_first x l) /\ x ∉ list_remove_first x l.
Proof.
  induction l as [|z l IH]; cbn [list_remove_first].
  - intros _. split; [constructor | apply not_elem_of_nil].
  - intros Hnd. apply NoDup_cons in Hnd as [Hz Hnd].
    destruct (bool_decide_reflect (z = x)) as [->|Hne].
    + split; assumption.
    + destruct (IH Hnd) as [IH1 IH2]. split.
      * apply NoDup_cons. split; [|exact IH1].
        intros Hin. apply Hz. now apply (remove_first_elem x).
      * apply not_elem_of_cons. split; [congruence | exact IH2].
Qed.

Lemma remove_first_snoc (x : str) (l : list str) :
  x ∉ l -> list_remove_first x (l ++ [x]) = l.
Proof.
  induction l as [|y l IH]; intros Hx; cbn [list_remove_first app].
  - now rewrite bool_decide_eq_true_2.
  - apply not_elem_of_cons in Hx as [Hne Hx].
    rewrite bool_decide_eq_false_2 by congruence. now rewrite IH.
Qed.

Lemma set_tags_same (self : Torrent) : set_tags (_tags self) self = self.
Proof. destruct self. reflexivity. Qed.

(** X11.  Tags behave as a set kept in insertion order.  After
    [add_tag] the tag is present, and adding a tag that is present
    changes nothing; neither [add_tag] nor [remove_tag] introduces a
    duplicate; on a list without duplicates [remove_tag] leaves no
    occurrence of the tag; both leave every other tag in place; and
    removing a tag that was just added to a torrent that did not have it
    gives the torrent back. *)
Theorem tags_are_a_set (tag : str) (self : Torrent) :
  tag ∈ _tags (add_tag tag self) /\
  (tag ∈ _tags self -> add_tag tag self = self) /\
  (NoDup (_tags self) ->
   NoDup (_tags (add_tag tag self)) /\
   NoDup (_tags (remove_tag tag self)) /\
   tag ∉ _tags (remove_tag tag self)) /\
  (forall other, other <> tag ->
     (other ∈ _tags (add_tag tag self) <-> other ∈ _tags self) /\
     (other ∈ _tags (remove_tag tag self) <-> other ∈ _tags self)) /\
  (tag ∉ _tags self -> remove_tag tag (add_tag tag self) = self).
Proof.
  unfold add_tag, remove_tag, tags_add, tags_remove. cbn [_tags set_tags].
  split; [|split; [|split; [|split]]].
  - destruct (bool_decide_reflect (tag ∈ _tags self)); [assumption|].
    apply elem_of_app. right. apply list_elem_of_here.
  - intros Hin. rewrite (bool_decide_eq_true_2 _ Hin). apply set_tags_same.
  - intros Hnd. split; [|split].
    + destruct (bool_decide_reflect (tag ∈ _tags self)) as [Hin|Hnin]; [exact Hnd|].
      apply NoDup_app. split; [exact Hnd|]. split.
      * intros x Hx Hx'. apply list_elem_of_singleton in Hx'. now subst.
      * apply NoDup_singleton.
    + destruct (bool_decide_reflect (tag ∈ _tags self)) as [Hin|Hnin]; [|exact Hnd].
      now apply remove_first_NoDup.
    + destruct (bool_decide_reflect (tag ∈ _tags self)) as [Hin|Hnin]; [|exact Hnin].
      now apply remove_first_NoDup.
  - intros other Hne. split.
    + destruct (bool_decide (tag ∈ _tags self)); [tauto|].
      rewrite elem_of_app, list_elem_of_singleton. tauto.
    + destruct (bool_decide (tag ∈ _tags self)); [|tauto]. split.
      * apply remove_first_elem.
      * now apply remove_first_other.
  - intros Hnin. rewrite (bool_decide_eq_false_2 _ Hnin).
    cbn [_tags set_tags].
    rewrite bool_decide_eq_true_2
      by (apply elem_of_app; right; apply list_elem_of_here).
    rewrite remove_first_snoc by exact Hnin. destruct self. reflexivity.
Qed.

End Generic.

Section Runs.
Import EngineFixture.

Lemma bundle_a_shape (s : Status.torrent_status) :
  toy_status session_a 0%nat = inr s -> bundle_shape (Status.for_state s).
Proof. intros [= <-]. split; reflexivity. Qed.

Lemma snapshot_state_decision_tree_witness :
  exists s,
    is_valid session_a (_handle torrent_a) = inr true /\
    status session_a (_handle torrent_a) = inr s /\
    bundle_shape (Status.for_state s) /\
    Snap.valid (fst (snapshot session_a torrent_a)) = true /\
    Snap.state (fst (snapshot session_a torrent_a)) = METADATA /\
    decides (decision_tree (Status.for_state s)) METADATA.
Proof.
  destruct (toy_status session_a 0%nat) as [e|s] eqn:Hs; [discriminate|].
  exists s.
  destruct (@snapshot_state_decision_tree Fixtures.Zfloat toy_engine
              session_a torrent_a s eq_refl Hs (bundle_a_shape s Hs))
    as [Hvalid _].
  destruct (Hvalid hash_a eq_refl) as [Hv Htree].
  split; [reflexivity|]. split; [exact Hs|]. split; [exact (bundle_a_shape s Hs)|].
  split; [exact Hv|]. split; [reflexivity|].
  apply Htree. reflexivity.
Defined.

(** C3 fails as stated.  The engine returns a status bundle for which the
    tree gives Metadata, and then raises for [handle.info_hash()]: the
    snapshot is built by the [except] branch, and its state is Error. *)
Lemma snapshot_state_not_tree :
  exists s,
    @is_valid _ engine_hash_fails session_a (_handle torrent_a_hash_fails) = inr true /\
    @status _ engine_hash_fails session_a (_handle torrent_a_hash_fails) = inr s /\
    TorrentState.errc_value (Status.for_state s) = 0 /\
    decides (decision_tree (Status.for_state s)) METADATA /\
    Snap.valid (fst (@snapshot _ engine_hash_fails session_a torrent_a_hash_fails))
      = false /\
    Snap.state (fst (@snapshot _ engine_hash_fails session_a torrent_a_hash_fails))
      = ERROR.
Proof.
  destruct (toy_status session_a 0%nat) as [e|s] eqn:Hs; [discriminate|].
  exists s. split; [reflexivity|]. split; [exact Hs|].
  pose proof (TorrentStateFacts.resolve_state_decides (Status.for_state s)
                (bundle_a_shape s Hs)) as Hd.
  injection Hs as <-.
  split; [reflexivity|]. split; [exact Hd|]. split; reflexivity.
Qed.

End Runs.

End TorrentFacts.

(** ** The session controller: adding, histories, resume data *)

Module WorkerMoreFacts.
Import TorrentModel Worker WorkerInvariants OdictFacts.

Section Generic.
Context `{Libtorrent} `{PyLib}.

(** *** Adding never replaces *)

Lemma od_set_absent {K V} `{EqDecision K} (k : K) (v : V) (d : list (K * V)) :
  od_get k d = None -> od_set k v d = d ++ [(k, v)].
Proof.
  induction d as [|[k' v'] d IH]; simpl; [reflexivity|].
  destruct (decide (k' = k)); [discriminate|]. intros Hn. now rewrite IH.
Qed.

Lemma od_get_app_old {K V} `{EqDecision K} (k : K) (v : V) (d d' : list (K * V)) :
  od_get k d = Some v -> od_get k (d ++ d') = Some v.
Proof.
  induction d as [|[k' v'] d IH]; simpl; [discriminate|].
  destruct (decide (k' = k)); [auto | exact IH].
Qed.

Lemma register_adds (now : float) (atp : add_torrent_params) (cat : str)
    (tags : list str) (ses : session) (w : SessionWorker) :
  adds_at_most_one w (register now atp cat tags ses w).
Proof.
  unfold register, adds_at_most_one.
  destruct (add_torrent atp ses) as [e|[handle ses']];
    [split; [reflexivity | left; split; reflexivity]|].
  destruct (info_hash ses' handle) as [e|ih];
    [split; [reflexivity | left; split; reflexivity]|].
  destruct (od_mem ih (_torrents (set_session (Some ses') w))) eqn:Hm;
    [split; [reflexivity | left; split; reflexivity]|].
  split; [reflexivity|]. right.
  apply od_mem_get in Hm. cbn [set_session _torrents] in Hm.
  eexists ih, _. split; [reflexivity|]. split; [exact Hm|].
  cbn [done after set_torrents set_session _torrents].
  now apply od_set_absent.
Qed.

Lemma adds_at_most_one_refl (w : SessionWorker) : adds_at_most_one w (done w []).
Proof. split; [reflexivity|]. left. split; reflexivity. Qed.

Lemma add_magnet_adds now uri sp cat tj paused (w : SessionWorker) :
  adds_at_most_one w (add_magnet now uri sp cat tj paused w).
Proof.
  unfold add_magnet.
  repeat match goal with
         | |- adds_at_most_one _ (match ?x with _ => _ end) => destruct x
         | |- adds_at_most_one _ (if ?x then _ else _) => destruct x
         end; try apply adds_at_most_one_refl; apply register_adds.
Qed.

Lemma add_torrent_file_adds now fp sp cat tj paused sq (w : SessionWorker) :
  adds_at_most_one w (add_torrent_file now fp sp cat tj paused sq w).
Proof.
  unfold add_torrent_file.
  repeat match goal with
         | |- adds_at_most_one _ (match ?x with _ => _ end) => destruct x
         | |- adds_at_most_one _ (if ?x then _ else _) => destruct x
         | |- adds_at_most_one _ (let _ := _ in _) => cbv zeta
         end; try apply adds_at_most_one_refl; apply register_adds.
Qed.

(** X12.  Adding never replaces a torrent.  Whatever [add_magnet] or
    [add_torrent_file] is given and whatever the engine answers, no
    exception leaves the slot; either nothing is emitted and the torrent
    table is as before (also when the engine reports a hash the table
    already has), or exactly one [torrent_added] is emitted, for a hash
    that was not in the table, and the table is the old one with that
    one entry put last.  So a torrent that is in the table stays as it
    is. *)
Theorem add_never_replaces (now : float) (uri filepath save_path category tags_json : str)
    (paused sequential : bool) (w : SessionWorker) :
  let o1 := add_magnet now uri save_path category tags_json paused w in
  let o2 := add_torrent_file now filepath save_path category tags_json
              paused sequential w in
  (adds_at_most_one w o1 /\
   forall h t, od_get h (_torrents w) = Some t ->
               od_get h (_torrents (after o1)) = Some t) /\
  (adds_at_most_one w o2 /\
   forall h t, od_get h (_torrents w) = Some t ->
               od_get h (_torrents (after o2)) = Some t).
Proof.
  cbv zeta.
  assert (Hkeep : forall o, adds_at_most_one w o ->
            forall h t, od_get h (_torrents w) = Some t ->
                        od_get h (_torrents (after o)) = Some t).
  { intros o [_ [[_ ->] | (ih & t' & _ & _ & ->)]] h t Hg; [exact Hg|].
    now apply od_get_app_old. }
  split; (split; [|apply Hkeep]);
    first [apply add_magnet_adds | apply add_torrent_file_adds].
Qed.

(** *** Histories *)

Lemma torrent_init_histories_ok (ses : session) (now : float)
    (h : torrent_handle) (cat : str) (tags : list str) :
  torrent_histories_ok (Torrent_init ses now h cat tags).
Proof. split; [reflexivity | simpl; lia]. Qed.

Lemma record_speed_histories_ok (t : Torrent) :
  torrent_histories_ok t -> torrent_histories_ok (record_speed t).
Proof.
  intros [Heq Hle]. split; cbn [record_speed _speed_history_dl _speed_history_ul _max_history].
  - now apply TorrentFacts.push_bounded_same_length.
  - now apply TorrentFacts.push_bounded_length.
Qed.

Lemma snapshot_all_histories_ok (ses : session) (table : list (str * Torrent)) :
  Forall (fun kt => torrent_histories_ok (snd kt)) table ->
  Forall (fun kt => torrent_histories_ok (snd kt)) (snd (snapshot_all ses table)).
Proof.
  induction table as [|[k t] rest IH]; intros Hall; cbn [snapshot_all].
  - constructor.
  - apply Forall_cons in Hall as [Ht Hrest]. specialize (IH Hrest).
    destruct (snapshot_all ses rest) as [snaps rest']. cbn [snd] in *.
    unfold snapshot. cbn [snd]. apply Forall_cons. split; [|exact IH].
    cbn [snd]. apply record_speed_histories_ok. exact Ht.
Qed.

Lemma od_get_Forall {V} (P : str * V -> Prop) (k : str) (v : V) (d : list (str * V)) :
  Forall P d -> od_get k d = Some v -> P (k, v).
Proof.
  intros Hall Hg. apply od_get_In in Hg.
  rewrite Forall_forall in Hall. apply Hall. now apply list_elem_of_In.
Qed.

Lemma update_stats_histories (w : SessionWorker) :
  histories_ok w ->
  histories_ok (after (_update_stats w)) /\
  Forall (signal_histories_ok (_max_session_history w)) (emitted (_update_stats w)).
Proof.
  intros (Heq & Hle & Hall). unfold _update_stats.
  destruct (_session w) as [ses|]; [|split; [repeat split; assumption | constructor]].
  set (r := match session_status ses with
            | inl _ => _ | inr _ => _ end).
  assert (Hr : histories_ok (snd r) /\ _torrents (snd r) = _torrents w /\
               _max_session_history (snd r) = _max_session_history w).
  { subst r. destruct (session_status ses) as [e|[[dl ul] dht]]; cbn [snd].
    - repeat split; assumption.
    - split; [|split; reflexivity]. split; [|split].
      + cbn. now apply TorrentFacts.push_bounded_same_length.
      + cbn. now apply TorrentFacts.push_bounded_length.
      + exact Hall. }
  destruct r as [[[dl ul] dht] w1]. cbn [snd] in Hr.
  destruct Hr as ((Heq1 & Hle1 & Hall1) & Ht1 & Hm1).
  pose proof (snapshot_all_histories_ok ses (_torrents w1) Hall1) as Hsn.
  destruct (snapshot_all ses (_torrents w1)) as [snaps table']. cbn [snd] in Hsn.
  cbn [after done emitted]. split.
  - split; [exact Heq1|]. split; [exact Hle1 | exact Hsn].
  - apply Forall_cons. split.
    + cbn. rewrite <- Hm1. split; assumption.
    + destruct (nonempty (_focused_hash _)); [|constructor].
      destruct (od_get _ _) as [t|] eqn:Hg; [|constructor].
      apply Forall_cons. split; [|constructor]. cbn.
      cbn [set_torrents _torrents _focused_hash] in Hg.
      apply (od_get_Forall _ _ _ _ Hsn) in Hg. apply Hg.
Qed.

Lemma register_histories_ok now atp cat tags ses (w : SessionWorker) :
  histories_ok w -> histories_ok (after (register now atp cat tags ses w)).
Proof.
  intros (Heq & Hle & Hall). unfold register.
  destruct (add_torrent atp ses) as [e|[handle ses']];
    [repeat split; assumption|].
  destruct (info_hash ses' handle) as [e|ih];
    [repeat split; assumption|].
  destruct (od_mem ih (_torrents (set_session (Some ses') w))) eqn:Hm;
    [repeat split; assumption|].
  apply od_mem_get in Hm. cbn [set_session _torrents] in Hm.
  split; [exact Heq|]. split; [exact Hle|].
  cbn [done after set_torrents set_session _torrents].
  rewrite (od_set_absent _ _ _ Hm). apply Forall_app. split; [exact Hall|].
  apply Forall_cons. split; [|constructor]. apply torrent_init_histories_ok.
Qed.

Lemma od_del_Forall {V} (P : str * V -> Prop) (k : str) (d : list (str * V)) :
  Forall P d -> Forall P (od_del k d).
Proof.
  induction d as [|[k' v'] d IH]; intros Hall; simpl; [constructor|].
  apply Forall_cons in Hall as [Hh Ht].
  destruct (decide (k' = k)); [exact Ht|].
  apply Forall_cons. split; [exact Hh | now apply IH].
Qed.

(** X13.  The rate histories stay in step and within their bounds.  In
    a controller whose session histories have equal length at most
    [_max_session_history] (300) and whose torrents' speed histories
    have equal length at most [_max_history] (120), which is so after
    construction, this stays so after a stats tick, after [add_magnet]
    and after [remove_torrent] (whatever the database does); and the
    histories a tick hands out in
    [stats_updated] have equal length, at most the session bound, as do
    the two histories in [detail_updated]. *)
Theorem histories_stay_bounded (now : float) (w : SessionWorker)
    (uri save_path category tags_json h : str) (paused delete_files : bool)
    (sql_fault : option exn) :
  histories_ok w ->
  histories_ok (after (_update_stats w)) /\
  Forall (signal_histories_ok (_max_session_history w)) (emitted (_update_stats w)) /\
  histories_ok (after (add_magnet now uri save_path category tags_json paused w)) /\
  histories_ok (after (remove_torrent sql_fault h delete_files w)).
Proof.
  intros Hok.
  destruct (update_stats_histories w Hok) as [Hu Hs].
  split; [exact Hu|]. split; [exact Hs|]. split.
  - unfold add_magnet.
    repeat match goal with
           | |- histories_ok (after (match ?x with _ => _ end)) => destruct x
           | |- histories_ok (after (if ?x then _ else _)) => destruct x
           end; try exact Hok; now apply register_histories_ok.
  - destruct Hok as (Heq & Hle & Hall). unfold remove_torrent.
    destruct (od_get h (_torrents w)) as [t|]; [|repeat split; assumption].
    destruct (_session w) as [ses|]; [|repeat split; assumption].
    destruct (lt_remove_torrent (_handle t) delete_files ses) as [e|ses'];
      [repeat split; assumption|].
    cbn [after done].
    assert (Hw1 : histories_ok
                    (set_torrents (od_del h (_torrents w)) (set_session (Some ses') w))).
    { split; [exact Heq|]. split; [exact Hle|]. cbn. now apply od_del_Forall. }
    destruct (_resume_db _) as [db|]; [|exact Hw1].
    destruct (ResumeDb.delete_row sql_fault h db); exact Hw1.
Qed.

(** *** Resume data: what is saved comes back *)

Lemma filter_other_none (ih : str) (rows : list ResumeDb.ResumeRow) :
  List.filter (fun r => str_eqb (ResumeDb.info_hash r) ih)
    (List.filter (fun r => negb (str_eqb (ResumeDb.info_hash r) ih)) rows) = [].
Proof.
  induction rows as [|r rows IH]; [reflexivity|]. cbn [List.filter].
  destruct (str_eqb (ResumeDb.info_hash r) ih) eqn:E; cbn [negb List.filter];
    [exact IH|]. now rewrite E.
Qed.

Lemma torrent_init_fields (ses : session) (now : float) (h : torrent_handle)
    (cat : str) (tags : list str) :
  _category (Torrent_init ses now h cat tags) = cat /\
  _tags (Torrent_init ses now h cat tags) = tags /\
  _added_time (Torrent_init ses now h cat tags) = now.
Proof. repeat split. Qed.

(** X14.  What a resume save stores for a torrent is what the next
    start restores.  When the engine acknowledges a save for a torrent
    of the table (the database is open and has its table), the database
    afterwards holds exactly one row for the torrent's hash, with the
    resume blob, the torrent's category, its tags as JSON and its added
    time.  And loading that row (the engine accepts the blob, the JSON
    reads back as the tags) puts a torrent under the hash the engine
    reports, with the same category and tags, and with the same added
    time unless that is zero, in which case it gets the time of
    loading. *)
Theorem resume_round_trip (now now2 : float) (handle h2 : torrent_handle)
    (data : list Byte.byte) (w : SessionWorker) (db : ResumeDb.Database)
    (ses ses2 ses3 : session) (ih ih2 : str) (t : Torrent)
    (atp : add_torrent_params) (table2 : list (str * Torrent)) :
  _resume_db w = Some db -> ResumeDb.table db <> None ->
  _session w = Some ses -> info_hash ses handle = inr ih ->
  od_get ih (_torrents w) = Some t ->
  exists db' rows row,
    _resume_db (_handle_save_resume_data now handle (ok data) w) = Some db' /\
    ResumeDb.select_rows db' = Some rows /\
    List.filter (fun r => str_eqb (ResumeDb.info_hash r) ih) rows = [row] /\
    ResumeDb.resume_data row = data /\
    ResumeDb.category row = _category t /\
    ResumeDb.tags row = json_dumps (_tags t) /\
    ResumeDb.added_time row = _added_time t /\
    (read_resume_data data = inr atp ->
     add_torrent atp ses2 = inr (h2, ses3) ->
     load_tags (json_dumps (_tags t)) = inr (_tags t) ->
     info_hash ses3 h2 = inr ih2 ->
     exists t2,
       load_row now2 row (ses2, table2) = (ses3, od_set ih2 t2 table2) /\
       _category t2 = _category t /\ _tags t2 = _tags t /\
       _added_time t2 = (if float_truthy (_added_time t) then _added_time t
                         else now2)).
Proof.
  intros Hdb Htb Hses Hih Hget.
  unfold _handle_save_resume_data. rewrite Hdb, Hses, Hih, Hget.
  unfold ResumeDb.upsert_row, ok.
  destruct (ResumeDb.table db) as [tb|] eqn:Htab; [|congruence].
  eexists _, _, _. split; [reflexivity|]. split; [reflexivity|].
  split.
  { cbn [ResumeDb.rows]. rewrite List.filter_app, filter_other_none. cbn [List.filter app].
    unfold str_eqb. cbn [ResumeDb.info_hash].
    rewrite bool_decide_eq_true_2 by reflexivity. reflexivity. }
  split; [reflexivity|]. split; [reflexivity|]. split; [reflexivity|].
  split; [reflexivity|].
  intros Hread Hadd Htags Hih2.
  unfold load_row. cbn [ResumeDb.resume_data ResumeDb.tags ResumeDb.category
                        ResumeDb.added_time].
  rewrite Hread, Hadd, Htags, Hih2.
  eexists. split; [reflexivity|]. repeat split.
Qed.

(** *** Opening the resume database *)

Lemma has_row_add_column (c h : str) (db db' : ResumeDb.Database) :
  ResumeDb.add_column c db = Some db' ->
  ResumeDb.has_row h db' = ResumeDb.has_row h db.
Proof.
  unfold ResumeDb.add_column, ResumeDb.has_row.
  destruct (ResumeDb.table db) as [tb|]; [|discriminate].
  destruct (bool_decide _); [discriminate|]. intros [= <-].
  cbn [ResumeDb.table ResumeDb.rows].
  induction (ResumeDb.rows tb) as [|r rows IH]; [reflexivity|].
  cbn [map existsb ResumeDb.info_hash]. now rewrite IH.
Qed.

Lemma has_row_create (h : str) (db : ResumeDb.Database) :
  ResumeDb.has_row h (ResumeDb.create_resume_data db) = ResumeDb.has_row h db.
Proof.
  unfold ResumeDb.create_resume_data, ResumeDb.has_row.
  cbn [ResumeDb.table]. now destruct (ResumeDb.table db).
Qed.

Lemma migrate_columns_rows (h : str) (db : ResumeDb.Database) :
  let db2 := match ResumeDb.add_column (py "dl_limit") db with
             | None => db
             | Some db' =>
                 match ResumeDb.add_column (py "ul_limit") db' with
                 | None => db'
                 | Some db'' => db''
                 end
             end in
  ResumeDb.has_row h db2 = ResumeDb.has_row h db /\
  ResumeDb.schema_version db2 = ResumeDb.schema_version db.
Proof.
  cbv zeta.
  destruct (ResumeDb.add_column (py "dl_limit") db) as [db'|] eqn:Ha1;
    [|split; reflexivity].
  pose proof (has_row_add_column _ h _ _ Ha1) as R1.
  pose proof (ResumeDbFacts.add_column_schema_version _ _ _ Ha1) as S1.
  destruct (ResumeDb.add_column (py "ul_limit") db') as [db''|] eqn:Ha2;
    [|split; assumption].
  pose proof (has_row_add_column _ h _ _ Ha2) as R2.
  pose proof (ResumeDbFacts.add_column_schema_version _ _ _ Ha2) as S2.
  split; congruence.
Qed.

(** X15.  Opening the resume database always succeeds, keeps every
    saved torrent, and is idempotent.  For every database found on disk
    [_init_resume_db] returns a database; a hash has a row in it exactly
    if it had one before; opening the result again changes nothing; the
    stored version is 2 afterwards if it was at most 2 before, and a
    database of a later version is left as it is but for the (empty)
    [schema_version] table being created if missing. *)
Theorem init_resume_db_idempotent (disk : ResumeDb.Database) :
  exists db,
    ResumeDb._init_resume_db disk = Some db /\
    ResumeDb._init_resume_db db = Some db /\
    (forall h, ResumeDb.has_row h db = ResumeDb.has_row h disk) /\
    (ResumeDb._get_schema_version (ResumeDb.create_schema_version disk) <= 2 ->
     ResumeDb.schema_version db = Some (Some 2)) /\
    (2 < ResumeDb._get_schema_version (ResumeDb.create_schema_version disk) ->
     db = ResumeDb.create_schema_version disk).
Proof.
  unfold ResumeDb._init_resume_db.
  set (db0 := ResumeDb.create_schema_version disk).
  assert (Hsv : exists r, ResumeDb.schema_version db0 = Some r).
  { subst db0. unfold ResumeDb.create_schema_version. cbn.
    destruct (ResumeDb.schema_version disk); eauto. }
  assert (Hrow0 : forall h, ResumeDb.has_row h db0 = ResumeDb.has_row h disk)
    by reflexivity.
  destruct Hsv as [r Hr].
  destruct (Z.eqb_spec (ResumeDb._get_schema_version db0) 0) as [Hz|Hnz].
  - unfold ResumeDb._set_schema_version. cbn [ResumeDb.create_resume_data
      ResumeDb.schema_version]. rewrite Hr.
    eexists. split; [reflexivity|]. split; [reflexivity|].
    split; [intros h; rewrite <- Hrow0; apply (has_row_create h db0)|].
    split; [reflexivity | lia].
  - destruct (Z.ltb_spec (ResumeDb._get_schema_version db0) ResumeDb._SCHEMA_VERSION)
      as [Hlt|Hge].
    + unfold ResumeDb._migrate_schema.
      set (db1 := if ResumeDb._get_schema_version db0 <? 1
                  then ResumeDb.create_resume_data db0 else db0).
      assert (Hd1 : (forall h, ResumeDb.has_row h db1 = ResumeDb.has_row h db0) /\
                   ResumeDb.schema_version db1 = Some r).
      { subst db1. destruct (ResumeDb._get_schema_version db0 <? 1).
        - split; [intros h; apply has_row_create | exact Hr].
        - split; [reflexivity | exact Hr]. }
      destruct Hd1 as [Hrow1 Hsv1].
      replace (ResumeDb._get_schema_version db0 <? 2) with true
        by (symmetry; apply Z.ltb_lt; exact Hlt).
      set (db2 := match ResumeDb.add_column (py "dl_limit") db1 with
                  | None => _ | Some _ => _ end).
      assert (Hd2 : (forall h, ResumeDb.has_row h db2 = ResumeDb.has_row h db1) /\
                   ResumeDb.schema_version db2 = ResumeDb.schema_version db1).
      { split; [intros h|]; apply (migrate_columns_rows h db1) || 
          apply (migrate_columns_rows [] db1). }
      destruct Hd2 as [Hrow2 Hsv2].
      unfold ResumeDb._set_schema_version. rewrite Hsv2, Hsv1.
      eexists. split; [reflexivity|]. split; [reflexivity|].
      split; [intros h; rewrite <- Hrow0, <- Hrow1, <- Hrow2; reflexivity|].
      split; [reflexivity|]. unfold ResumeDb._SCHEMA_VERSION in Hlt. lia.
    + exists db0. split; [reflexivity|].
      assert (Hcs : ResumeDb.create_schema_version db0 = db0).
      { unfold ResumeDb.create_schema_version. rewrite Hr. destruct db0.
        cbn in Hr. now subst. }
      rewrite Hcs.
      replace (ResumeDb._get_schema_version db0 =? 0) with false
        by (symmetry; now apply Z.eqb_neq).
      replace (ResumeDb._get_schema_version db0 <? ResumeDb._SCHEMA_VERSION)
        with false by (symmetry; now apply Z.ltb_ge).
      split; [reflexivity|]. split; [exact Hrow0|].
      unfold ResumeDb._SCHEMA_VERSION in Hge. split.
      * intros Hle. assert (Hv : ResumeDb._get_schema_version db0 = 2) by lia.
        unfold ResumeDb._get_schema_version in Hv. rewrite Hr in Hv.
        rewrite Hr. destruct r as [v|]; [now subst | discriminate].
      * reflexivity.
Qed.

End Generic.

(** *** Concrete runs, on the small engine *)

Import EngineFixture.

Lemma histories_stay_bounded_witness :
  histories_ok with_a /\
  histories_ok (after (_update_stats with_a)) /\
  Forall (signal_histories_ok 300) (emitted (_update_stats with_a)).
Proof.
  assert (Hok : histories_ok with_a).
  { split; [reflexivity|]. split; [vm_compute; lia|].
    apply Forall_cons. split; [|constructor].
    split; [reflexivity | vm_compute; lia]. }
  split; [exact Hok|].
  destruct (@histories_stay_bounded Fixtures.Zfloat toy_engine Fixtures.frag_pylib
              5 with_a [] [] [] [] [] false false None Hok) as (Hu & Hs & _).
  split; [exact Hu | exact Hs].
Defined.

Example tick_histories_with_a :
  map (fun s => match s with
                | stats_updated st => (Stats.dl_history st, Stats.ul_history st)
                | _ => ([], [])
                end)
      (emitted (_update_stats (after (_update_stats with_a))))
  = [([1000; 1000], [200; 200])].
Proof. vm_compute. reflexivity. Qed.

Lemma resume_round_trip_witness :
  exists db' rows row,
    _resume_db (_handle_save_resume_data 6 0%nat (ok blob_a) with_a) = Some db' /\
    ResumeDb.select_rows db' = Some rows /\
    List.filter (fun r => str_eqb (ResumeDb.info_hash r) hash_a) rows = [row] /\
    ResumeDb.category row = py "Movies" /\
    ResumeDb.tags row = tags_hd /\
    exists t2 ses3,
      load_row 9 row (lt_session cfg0, []) = (ses3, [(hash_a, t2)]) /\
      _category t2 = py "Movies" /\ _tags t2 = [py "hd"] /\ _added_time t2 = 5.
Proof.
  edestruct (@resume_round_trip Fixtures.Zfloat toy_engine Fixtures.frag_pylib
               6 9 0%nat 0%nat blob_a with_a)
    with (ses2 := lt_session cfg0) (ih := hash_a) (ih2 := hash_a)
         (table2 := @nil (str * Torrent))
    as (db' & rows & row & Hdb & Hsel & Hf & _ & Hcat & Htags & _ & Hload).
  - reflexivity.
  - discriminate.
  - reflexivity.
  - reflexivity.
  - reflexivity.
  - exists db', rows, row. split; [exact Hdb|]. split; [exact Hsel|].
    split; [exact Hf|]. split; [exact Hcat|]. split; [exact Htags|].
    edestruct Hload as (t2 & Hl & Hc2 & Ht2 & Ha2);
      [reflexivity | reflexivity | reflexivity | reflexivity |].
    eexists t2, _. split; [exact Hl|]. split; [exact Hc2|].
    split; [exact Ht2 | exact Ha2].
Defined.

Example init_resume_db_twice :
  ResumeDb._init_resume_db legacy_db
  = Some {| ResumeDb.schema_version := Some (Some 2);
            ResumeDb.table := ResumeDb.table legacy_db |} /\
  ResumeDb._init_resume_db
    {| ResumeDb.schema_version := Some (Some 2);
       ResumeDb.table := ResumeDb.table legacy_db |}
  = Some {| ResumeDb.schema_version := Some (Some 2);
            ResumeDb.table := ResumeDb.table legacy_db |}.
Proof. split; reflexivity. Qed.

End WorkerMoreFacts.

(** ** RSS monitor: feed table, timers, filters and history *)

Module RssMonitorFacts.
Import Rss RssMonitor PyFacts.

(** *** Dictionaries keyed by Python values *)

Lemma py_eqb_refl (a : pyval) : py_eqb a a = true.
Proof.
  unfold py_eqb. destruct (as_int a); [apply Z.eqb_refl|].
  now apply bool_decide_eq_true_2.
Qed.

Lemma py_eqb_as_int (a b : pyval) :
  py_eqb a b = true ->
  (exists x, as_int a = Some x /\ as_int b = Some x) \/
  (as_int a = None /\ a = b).
Proof.
  unfold py_eqb. destruct (as_int a) as [x|] eqn:Ha.
  - destruct (as_int b) as [y|] eqn:Hb.
    + intros E. apply Z.eqb_eq in E. subst. left. eauto.
    + intros E. apply bool_decide_eq_true_1 in E. subst. congruence.
  - intros E. apply bool_decide_eq_true_1 in E. now right.
Qed.

Lemma py_eqb_sym (a b : pyval) : py_eqb a b = py_eqb b a.
Proof.
  unfold py_eqb. destruct (as_int a) eqn:Ha, (as_int b) eqn:Hb;
    try apply Z.eqb_sym;
    destruct (bool_decide_reflect (a = b)), (bool_decide_reflect (b = a));
    congruence.
Qed.

Lemma py_eqb_trans (a b c : pyval) :
  py_eqb a b = true -> py_eqb b c = true -> py_eqb a c = true.
Proof.
  intros Hab Hbc.
  apply py_eqb_as_int in Hab as [(x & Ha & Hb) | [Ha ->]]; [|exact Hbc].
  apply py_eqb_as_int in Hbc as [(y & Hb' & Hc) | [Hb' <-]]; [|congruence].
  unfold py_eqb. rewrite Ha, Hc. apply Z.eqb_eq. congruence.
Qed.

Lemma py_eqb_false_l (a b c : pyval) :
  py_eqb a b = true -> py_eqb a c = false -> py_eqb b c = false.
Proof.
  intros Hab Hac. destruct (py_eqb b c) eqn:Hbc; [|reflexivity].
  rewrite (py_eqb_trans a b c Hab Hbc) in Hac. discriminate.
Qed.

Section Dict.
Context {V : Type}.
Implicit Types (d : list (pyval * V)) (k : pyval) (v : V).

Lemma pd_get_eqb k k' d : py_eqb k k' = true -> pd_get k d = pd_get k' d.
Proof.
  intros E. induction d as [|[k0 v0] d IH]; [reflexivity|]. cbn [pd_get].
  destruct (py_eqb k0 k) eqn:E0.
  - now rewrite (py_eqb_trans k0 k k' E0 E).
  - rewrite py_eqb_sym in E.
    assert (py_eqb k0 k' = false) as ->; [|exact IH].
    destruct (py_eqb k0 k') eqn:E1; [|reflexivity].
    rewrite py_eqb_sym in E. rewrite py_eqb_sym in E.
    rewrite (py_eqb_trans k0 k' k E1 E) in E0. discriminate.
Qed.

Lemma pd_get_set_eq k v d : pd_get k (pd_set k v d) = Some v.
Proof.
  induction d as [|[k0 v0] d IH]; cbn [pd_set pd_get].
  - now rewrite py_eqb_refl.
  - destruct (py_eqb k0 k) eqn:E; cbn [pd_get]; now rewrite E.
Qed.

Lemma pd_get_set_ne k k' v d :
  py_eqb k' k = false -> pd_get k (pd_set k' v d) = pd_get k d.
Proof.
  intros Hne. induction d as [|[k0 v0] d IH]; cbn [pd_set pd_get].
  - now rewrite Hne.
  - destruct (py_eqb k0 k') eqn:E; cbn [pd_get].
    + rewrite (py_eqb_false_l k' k0 k) by (exact Hne || now rewrite py_eqb_sym);
      reflexivity.
    + destruct (py_eqb k0 k); [reflexivity | exact IH].
Qed.

Lemma pd_get_del_ne k k' d :
  py_eqb k' k = false -> pd_get k (pd_del k' d) = pd_get k d.
Proof.
  intros Hne. induction d as [|[k0 v0] d IH]; cbn [pd_del pd_get]; [reflexivity|].
  destruct (py_eqb k0 k') eqn:E; cbn [pd_get].
  - rewrite (py_eqb_false_l k' k0 k) by (exact Hne || now rewrite py_eqb_sym);
      reflexivity.
  - destruct (py_eqb k0 k); [reflexivity | exact IH].
Qed.

Lemma pd_get_del_eq k d :
  pd_keys_distinct d -> pd_get k (pd_del k d) = None.
Proof.
  induction d as [|[k0 v0] d IH]; cbn [pd_del pd_get pd_keys_distinct];
    [reflexivity|].
  intros [Hk0 Hd]. destruct (py_eqb k0 k) eqn:E.
  - now rewrite <- (pd_get_eqb k0 k d E).
  - cbn [pd_get]. rewrite E. now apply IH.
Qed.

Lemma pd_set_distinct k v d :
  pd_keys_distinct d -> pd_keys_distinct (pd_set k v d).
Proof.
  induction d as [|[k0 v0] d IH]; cbn [pd_set pd_keys_distinct]; [auto|].
  intros [Hk0 Hd]. destruct (py_eqb k0 k) eqn:E; cbn [pd_keys_distinct].
  - split; assumption.
  - split; [|now apply IH].
    rewrite pd_get_set_ne; [exact Hk0|]. now rewrite py_eqb_sym.
Qed.

Lemma pd_del_distinct k d :
  pd_keys_distinct d -> pd_keys_distinct (pd_del k d).
Proof.
  induction d as [|[k0 v0] d IH]; cbn [pd_del pd_keys_distinct]; [auto|].
  intros [Hk0 Hd]. destruct (py_eqb k0 k) eqn:E; cbn [pd_keys_distinct];
    [exact Hd|].
  split; [|now apply IH]. rewrite pd_get_del_ne; [exact Hk0|].
  now rewrite py_eqb_sym.
Qed.

Lemma pd_set_absent k v d : pd_get k d = None -> pd_set k v d = d ++ [(k, v)].
Proof.
  induction d as [|[k0 v0] d IH]; cbn [pd_set pd_get app]; [reflexivity|].
  destruct (py_eqb k0 k); [discriminate|]. intros Hn. now rewrite IH.
Qed.

Lemma pd_get_app_absent k d d' :
  pd_get k d = None -> pd_get k (d ++ d') = pd_get k d'.
Proof.
  induction d as [|[k0 v0] d IH]; cbn [pd_get app]; [reflexivity|].
  destruct (py_eqb k0 k); [discriminate | exact IH].
Qed.

End Dict.

Lemma pd_set_keyed (P : pyval * FeedConfig -> Prop) (k : pyval) (c : FeedConfig)
    (d : list (pyval * FeedConfig)) :
  (forall k', py_eqb k' k = true -> P (k', c)) ->
  Forall P d -> Forall P (pd_set k c d).
Proof.
  intros Hk. induction d as [|[k0 c0] d IH]; cbn [pd_set]; intros Hall.
  - apply Forall_cons. split; [apply Hk, py_eqb_refl | constructor].
  - apply Forall_cons in Hall as [H0 Hd]. destruct (py_eqb k0 k) eqn:E.
    + apply Forall_cons. split; [now apply Hk | exact Hd].
    + apply Forall_cons. split; [exact H0 | now apply IH].
Qed.

Lemma pd_del_Forall {V} (P : pyval * V -> Prop) (k : pyval) (d : list (pyval * V)) :
  Forall P d -> Forall P (pd_del k d).
Proof.
  induction d as [|[k0 v0] d IH]; cbn [pd_del]; intros Hall; [constructor|].
  apply Forall_cons in Hall as [H0 Hd]. destruct (py_eqb k0 k); [exact Hd|].
  apply Forall_cons. split; [exact H0 | now apply IH].
Qed.

(** *** The feed table and the timers *)

Lemma restart_timer_spec (c : FeedConfig) (ts : list (pyval * Timer)) :
  pd_keys_distinct ts ->
  pd_keys_distinct (fst (_restart_timer c ts)) /\
  (forall k, py_eqb (url c) k = false ->
             pd_get k (fst (_restart_timer c ts)) = pd_get k ts) /\
  (forall k t, py_eqb (url c) k = true ->
               pd_get k (fst (_restart_timer c ts)) = Some t ->
               running t = true -> truthy (enabled c) = true).
Proof.
  intros Hd. unfold _restart_timer.
  set (ts1 := match pd_get (url c) ts with
              | Some t => pd_set (url c) {| period_ms := period_ms t; running := false |} ts
              | None => ts
              end).
  assert (H1 : pd_keys_distinct ts1 /\
               (forall k, py_eqb (url c) k = false -> pd_get k ts1 = pd_get k ts) /\
               (forall k t, py_eqb (url c) k = true -> pd_get k ts1 = Some t ->
                            running t = false)).
  { subst ts1. destruct (pd_get (url c) ts) as [t0|] eqn:Hg.
    - split; [now apply pd_set_distinct|]. split.
      + intros k Hk. now apply pd_get_set_ne.
      + intros k t Hk. rewrite <- (pd_get_eqb (url c) k _ Hk), pd_get_set_eq.
        now intros [= <-].
    - split; [exact Hd|]. split; [reflexivity|].
      intros k t Hk. rewrite <- (pd_get_eqb (url c) k _ Hk), Hg. discriminate. }
  destruct H1 as (Hd1 & Hne1 & Heq1).
  destruct (truthy (enabled c)) eqn:Hen; cbn [negb].
  - destruct (timer_period (interval_minutes c)) as [ms|]; cbn [fst].
    + split; [now apply pd_set_distinct|]. split.
      * intros k Hk. rewrite pd_get_set_ne by exact Hk. now apply Hne1.
      * reflexivity.
    + split; [exact Hd1|]. split; [exact Hne1 | reflexivity].
  - cbn [fst]. split; [exact Hd1|]. split; [exact Hne1|].
    intros k t Hk Hg Hr. rewrite (Heq1 k t Hk Hg) in Hr. discriminate.
Qed.

Lemma monitor_init_ok : monitor_ok RSSMonitor_init.
Proof.
  split; [exact I|]. split; [exact I|]. split; [constructor|].
  intros u [t [Hg _]]. discriminate.
Qed.

Lemma add_feed_ok (c : FeedConfig) (m : RSSMonitor) :
  monitor_ok m -> monitor_ok (fst (add_feed c m)).
Proof.
  intros (Hf & Ht & Hk & Hp). unfold add_feed.
  pose proof (restart_timer_spec c (timers m) Ht) as (Hd & Hne & Heq).
  destruct (_restart_timer c (timers m)) as [ts raised]. cbn [fst] in *.
  split; [now apply pd_set_distinct|]. split; [exact Hd|]. split.
  - apply pd_set_keyed; [|exact Hk]. intros k' E. exact E.
  - intros u [t [Hg Hr]]. cbn [feeds timers] in *.
    destruct (py_eqb (url c) u) eqn:E.
    + exists c. split; [|now apply (Heq u t E Hg)].
      rewrite <- (pd_get_eqb (url c) u _ E). apply pd_get_set_eq.
    + rewrite pd_get_set_ne by exact E. apply Hp. exists t.
      split; [|exact Hr]. now rewrite <- (Hne u E).
Qed.

Lemma remove_feed_ok (u : pyval) (m : RSSMonitor) :
  monitor_ok m -> monitor_ok (remove_feed u m).
Proof.
  intros (Hf & Ht & Hk & Hp). unfold remove_feed.
  split; [now apply pd_del_distinct|]. split; [now apply pd_del_distinct|].
  split; [now apply pd_del_Forall|].
  intros k [t [Hg Hr]]. cbn [feeds timers] in *.
  destruct (py_eqb u k) eqn:E.
  - rewrite <- (pd_get_eqb u k _ E), pd_get_del_eq in Hg by exact Ht.
    discriminate.
  - rewrite pd_get_del_ne in Hg by exact E. rewrite pd_get_del_ne by exact E.
    apply Hp. now exists t.
Qed.

Lemma load_config_ok (feed_list : list (gmap str pyval)) (m : RSSMonitor) :
  monitor_ok m -> monitor_ok (load_config feed_list m).
Proof.
  revert m. induction feed_list as [|d rest IH]; intros m Hok;
    cbn [load_config]; [exact Hok|].
  apply IH. destruct (truthy (url (from_dict d))); [|exact Hok].
  now apply add_feed_ok.
Qed.

(** X16.  No timer polls a feed that is gone or switched off.  The
    invariant [monitor_ok] (the feed and timer tables are dictionaries,
    every feed is stored under its own URL, a timer runs only for a feed
    that is in the table and enabled) holds for a new monitor and is
    kept by [add_feed], [remove_feed], [load_config] and [stop_all].
    After [remove_feed u] neither a feed nor a timer is left for [u];
    after [add_feed] of a disabled configuration no timer runs for its
    URL; and [_schedule_fetch] submits nothing for a URL that has no
    feed or whose feed is disabled. *)
Theorem timers_follow_feeds (m : RSSMonitor) (c : FeedConfig) (u : pyval)
    (feed_list : list (gmap str pyval)) :
  monitor_ok RSSMonitor_init /\
  (monitor_ok m ->
   monitor_ok (fst (add_feed c m)) /\
   monitor_ok (remove_feed u m) /\
   monitor_ok (load_config feed_list m) /\
   monitor_ok (fst (stop_all m (@None unit))) /\
   pd_get u (feeds (remove_feed u m)) = None /\
   pd_get u (timers (remove_feed u m)) = None /\
   (truthy (enabled c) = false -> ~ polling (fst (add_feed c m)) (url c)) /\
   (polling m u -> _schedule_fetch u m = true)).
Proof.
  split; [exact monitor_init_ok|]. intros Hok.
  split; [now apply add_feed_ok|]. split; [now apply remove_feed_ok|].
  split; [now apply load_config_ok|].
  destruct Hok as (Hf & Ht & Hk & Hp).
  split.
  { split; [exact Hf|]. split; [exact I|]. split; [exact Hk|].
    intros k [t [Hg _]]. discriminate. }
  split; [now apply pd_get_del_eq|]. split; [now apply pd_get_del_eq|].
  split.
  - intros Hdis [t [Hg Hr]]. unfold add_feed in Hg.
    pose proof (restart_timer_spec c (timers m) Ht) as (_ & _ & Heq).
    destruct (_restart_timer c (timers m)) as [ts raised]. cbn [fst timers] in *.
    rewrite (Heq (url c) t (py_eqb_refl _) Hg Hr) in Hdis. discriminate.
  - intros Hpoll. destruct (Hp u Hpoll) as (c' & Hg & Hen).
    unfold _schedule_fetch. now rewrite Hg.
Qed.

(** *** Saving and loading the feed list *)

Lemma load_config_app (l1 l2 : list (gmap str pyval)) (m : RSSMonitor) :
  load_config (l1 ++ l2) m = load_config l2 (load_config l1 m).
Proof.
  revert m. induction l1 as [|d l1 IH]; intros m; [reflexivity|].
  cbn [app load_config]. apply IH.
Qed.

Lemma load_saved (cs : list (pyval * FeedConfig)) (m : RSSMonitor) :
  Forall (fun kc => py_eqb (fst kc) (url (snd kc)) = true /\
                    truthy (url (snd kc)) = true /\
                    pd_get (fst kc) (feeds m) = None) cs ->
  pd_keys_distinct cs ->
  feeds (load_config (map (fun kc => to_dict (snd kc)) cs) m)
  = feeds m ++ map (fun kc => (url (snd kc), snd kc)) cs.
Proof.
  revert m. induction cs as [|[k c] cs IH]; intros m Hall Hd.
  - cbn. now rewrite app_nil_r.
  - apply Forall_cons in Hall as [(Hk & Hu & Hn) Hall]. cbn [fst snd] in *.
    destruct Hd as [Hkd Hd].
    cbn [map load_config snd]. rewrite RssFacts.from_dict_to_dict, Hu.
    rewrite IH.
    + rewrite RssFacts.add_feed_feeds.
      rewrite pd_set_absent by (now rewrite <- (pd_get_eqb k (url c) _ Hk)).
      now rewrite <- app_assoc.
    + rewrite Forall_forall in Hall |- *. intros [k' c'] Hin.
      destruct (Hall _ Hin) as (Hk' & Hu' & Hn'). cbn [fst snd] in *.
      split; [exact Hk'|]. split; [exact Hu'|].
      rewrite RssFacts.add_feed_feeds.
      rewrite pd_set_absent by (now rewrite <- (pd_get_eqb k (url c) _ Hk)).
      rewrite pd_get_app_absent by exact Hn'. cbn [pd_get].
      destruct (py_eqb (url c) k') eqn:E; [|reflexivity].
      exfalso. assert (Hkk : py_eqb k k' = true) by (eapply py_eqb_trans; eauto).
      clear - Hkd Hin Hkk. induction cs as [|[k0 c0] cs IHc]; [now apply elem_of_nil in Hin|].
      cbn [pd_get] in Hkd. destruct (py_eqb k0 k) eqn:E0; [discriminate|].
      apply elem_of_cons in Hin as [[= -> ->]|Hin].
      * rewrite py_eqb_sym in Hkk. congruence.
      * now apply IHc.
    + exact Hd.
Qed.

(** X17.  A saved feed list loads back.  For a monitor whose feed table
    is a dictionary with every feed stored under its own URL, and whose
    URLs are all non-empty, loading what [save_config] returns into a
    new monitor gives the same feeds in the same order:
    [get_feeds] agrees. *)
Theorem save_config_load_config (m : RSSMonitor) :
  pd_keys_distinct (feeds m) ->
  Forall (fun kc => py_eqb (fst kc) (url (snd kc)) = true) (feeds m) ->
  Forall (fun c => truthy (url c) = true) (get_feeds m) ->
  get_feeds (load_config (save_config m) RSSMonitor_init) = get_feeds m.
Proof.
  intros Hd Hk Hu. unfold get_feeds, save_config.
  rewrite load_saved; [|clear Hd|exact Hd].
  - cbn [feeds RSSMonitor_init app]. rewrite map_map. reflexivity.
  - unfold get_feeds in Hu. rewrite Forall_map in Hu.
    rewrite Forall_forall in Hk, Hu |- *. intros kc Hin.
    split; [now apply Hk|]. split; [now apply Hu | reflexivity].
Qed.

(** *** [FeedConfig.from_dict] *)

(** X18.  [from_dict] reads the nine fields and nothing else.  A key
    that is no field name is ignored; a missing field takes its default
    (a dictionary without fields gives the default configuration); and
    [from_dict (to_dict c)] is [c]. *)
Theorem from_dict_reads_fields (d : gmap str pyval) (k : str) (v : pyval)
    (c : FeedConfig) :
  (~ is_field k -> from_dict (<[k := v]> d) = from_dict d) /\
  from_dict ∅ = FeedConfig_default /\
  from_dict (to_dict c) = c.
Proof.
  split; [|split].
  - intros Hk. unfold from_dict, field.
    assert (Hne : forall f, py f ∈ [py "url"; py "name"; py "enabled";
                     py "interval_minutes"; py "include_pattern";
                     py "exclude_pattern"; py "save_path"; py "category";
                     py "auto_download"] -> <[k := v]> d !! py f = d !! py f).
    { intros f Hin. apply lookup_insert_ne. intros ->. now apply Hk. }
    rewrite !Hne by (repeat first [apply list_elem_of_here | apply list_elem_of_further]).
    reflexivity.
  - reflexivity.
  - apply RssFacts.from_dict_to_dict.
Qed.

(** *** Processing a fetched feed *)

Section Process.
Context `{PyFloat} `{PyLib} `{PyHash}.

Lemma is_seen_mark (id id' : str) (u : pyval) (ttl : str) (now : float)
    (rows : list SeenItem) :
  _is_seen id (_mark_seen id' u ttl now (Some rows))
  = str_eqb id' id || _is_seen id (Some rows).
Proof.
  cbn [_mark_seen].
  destruct (existsb (fun r => str_eqb (item_id r) id') rows) eqn:E;
    cbn [_is_seen].
  - destruct (str_eqb id' id) eqn:E'; [|reflexivity].
    apply bool_decide_eq_true_1 in E'. subst. now rewrite E.
  - rewrite existsb_app. cbn [existsb item_id]. rewrite orb_false_r.
    apply orb_comm.
Qed.

Lemma mark_seen_some (id : str) (u : pyval) (ttl : str) (now : float)
    (rows : list SeenItem) :
  _is_seen id (Some rows) = false ->
  _mark_seen id u ttl now (Some rows)
  = Some (rows ++ [{| item_id := id; feed_url := u; seen_title := ttl;
                      seen_time := now |}]).
Proof. cbn [_is_seen _mark_seen]. now intros ->. Qed.

(** What a run that ends without an exception did. *)
Lemma process_items_run (c : FeedConfig) (u : pyval) (clock : nat -> float)
    (items : list FeedItem) (marked : nat) (cnt cnt' : Z)
    (rows : list SeenItem) (db' : option (list SeenItem))
    (sigs : list RssSignal) :
  process_items c u clock items marked cnt (Some rows) = (db', sigs, inr cnt') ->
  exists added,
    db' = Some (rows ++ added) /\
    cnt' = cnt + Z.of_nat (length added) /\
    (length added <= length items)%nat /\
    length sigs = (if truthy (auto_download c) then length added else 0%nat) /\
    (forall s, In s sigs ->
       exists du sp cat, s = new_torrent du sp cat /\
                         str_arg (or_empty (save_path c)) = inr sp /\
                         str_arg (or_empty (category c)) = inr cat) /\
    (NoDup (map item_id rows) -> NoDup (map item_id (rows ++ added))) /\
    Forall (settled c db') items.
Proof.
  revert marked cnt rows db' sigs cnt'.
  induction items as [|it rest IH]; intros marked cnt rows db' sigs cnt';
    cbn [process_items].
  { intros [= <- <- <-]. exists []. rewrite app_nil_r.
    split; [reflexivity|]. split; [cbn [length]; lia|].
    split; [cbn [length]; lia|].
    split; [now destruct (truthy (auto_download c))|].
    split; [intros s []|]. split; [auto | constructor]. }
  assert (Hskip : forall db' sigs cnt',
            process_items c u clock rest marked cnt (Some rows) = (db', sigs, inr cnt') ->
            (forall added, settled c (Some (rows ++ added)) it) ->
            exists added,
              db' = Some (rows ++ added) /\
              cnt' = cnt + Z.of_nat (length added) /\
              (length added <= length (it :: rest))%nat /\
              length sigs = (if truthy (auto_download c) then length added else 0%nat) /\
              (forall s, In s sigs ->
                 exists du sp cat, s = new_torrent du sp cat /\
                                   str_arg (or_empty (save_path c)) = inr sp /\
                                   str_arg (or_empty (category c)) = inr cat) /\
              (NoDup (map item_id rows) -> NoDup (map item_id (rows ++ added))) /\
              Forall (settled c db') (it :: rest)).
  { intros db'' sigs'' cnt'' Hrun Hset.
    destruct (IH _ _ _ _ _ _ Hrun) as (added & -> & Hc & Hl & Hs & Hsig & Hnd & Hall).
    exists added. split; [reflexivity|]. split; [exact Hc|].
    split; [simpl; lia|]. split; [exact Hs|]. split; [exact Hsig|].
    split; [exact Hnd|]. apply Forall_cons. split; [apply Hset | exact Hall]. }
  destruct (nonempty (download_url it)) eqn:Hne; cbn [negb].
  2:{ intros Hrun. apply Hskip; [exact Hrun|].
      intros added Hne'. congruence. }
  destruct (matches c (title it)) as [e|[|]] eqn:Hm; [discriminate| |].
  2:{ intros Hrun. apply Hskip; [exact Hrun|]. intros added _. now left. }
  destruct (unique_id it) as [e|id] eqn:Hid; [discriminate|].
  destruct (_is_seen id (Some rows)) eqn:Hseen.
  { intros Hrun. apply Hskip; [exact Hrun|].
    intros added _. right. exists id. split; [exact Hm|]. split; [exact Hid|].
    cbn [_is_seen] in *. rewrite existsb_app, Hseen. reflexivity. }
  rewrite (mark_seen_some _ _ _ _ _ Hseen).
  set (row := {| item_id := id; feed_url := u; seen_title := title it;
                 seen_time := clock marked |}).
  assert (Hstep : forall sigs0,
            process_items c u clock rest (S marked) (cnt + 1) (Some (rows ++ [row]))
              = (db', sigs0, inr cnt') ->
            exists added,
              db' = Some (rows ++ added) /\
              cnt' = cnt + Z.of_nat (length added) /\
              (length added <= length (it :: rest))%nat /\
              length sigs0 = (if truthy (auto_download c)
                              then (length added - 1)%nat else 0%nat) /\
              (1 <= length added)%nat /\
              (forall s, In s sigs0 ->
                 exists du sp cat, s = new_torrent du sp cat /\
                                   str_arg (or_empty (save_path c)) = inr sp /\
                                   str_arg (or_empty (category c)) = inr cat) /\
              (NoDup (map item_id rows) -> NoDup (map item_id (rows ++ added))) /\
              Forall (settled c db') (it :: rest)).
  { intros sigs0 Hrun.
    destruct (IH _ _ _ _ _ _ Hrun) as (added & -> & Hc & Hl & Hs & Hsig & Hnd & Hall).
    exists (row :: added).
    split; [now rewrite <- app_assoc|].
    split; [cbn [length]; lia|]. split; [cbn [length]; lia|].
    split; [cbn [length]; rewrite Hs; destruct (truthy (auto_download c)); lia|].
    split; [cbn [length]; lia|]. split; [exact Hsig|]. split.
    - intros Hr. replace (rows ++ row :: added) with ((rows ++ [row]) ++ added)
        by (now rewrite <- app_assoc).
      apply Hnd. rewrite map_app. cbn [map item_id row].
      apply NoDup_app. split; [exact Hr|]. split; [|apply NoDup_singleton].
      intros x Hx Hx'. apply list_elem_of_singleton in Hx'. subst x.
      cbn [_is_seen] in Hseen.
      assert (Hex : existsb (fun r => str_eqb (item_id r) id) rows = true);
        [|congruence].
      apply list_elem_of_In, in_map_iff in Hx as (r & Hr1 & Hr2).
      apply existsb_exists. exists r. split; [exact Hr2|].
      now apply bool_decide_eq_true_2.
    - apply Forall_cons. split; [|exact Hall].
      intros _. right. exists id. split; [exact Hm|]. split; [exact Hid|].
      cbn [_is_seen]. rewrite <- app_assoc, !existsb_app. cbn [existsb app item_id row].
      unfold str_eqb at 2. rewrite bool_decide_eq_true_2 by reflexivity.
      cbn [orb]. apply orb_true_r. }
  destruct (truthy (auto_download c)) eqn:Hauto.
  - destruct (str_arg (or_empty (save_path c))) as [e|sp] eqn:Hsp;
      [destruct (str_arg (or_empty (category c))); discriminate|].
    destruct (str_arg (or_empty (category c))) as [e|cat] eqn:Hcat; [discriminate|].
    destruct (process_items c u clock rest (S marked) (cnt + 1) (Some (rows ++ [row])))
      as [[db2 sigs2] r2] eqn:Hrun.
    intros [= <- <- ->].
    destruct (Hstep sigs2 eq_refl) as (added & Hdb & Hc & Hl & Hs & H1' & Hsig & Hnd & Hall).
    exists added. split; [exact Hdb|]. split; [exact Hc|]. split; [exact Hl|].
    split; [cbn [length]; rewrite Hs; lia|].
    split; [|split; [exact Hnd | exact Hall]].
    intros s [<-|Hin]; [|now apply Hsig]. eauto 6.
  - intros Hrun.
    destruct (Hstep sigs Hrun) as (added & Hdb & Hc & Hl & Hs & H1' & Hsig & Hnd & Hall).
    exists added. split; [exact Hdb|]. split; [exact Hc|]. split; [exact Hl|].
    split; [exact Hs|]. split; [exact Hsig|]. split; assumption.
Qed.

(** A run over items that are all settled does nothing. *)
Lemma process_items_quiet (c : FeedConfig) (u : pyval) (clock : nat -> float)
    (items : list FeedItem) (marked : nat) (cnt : Z) (db : option (list SeenItem)) :
  Forall (settled c db) items ->
  process_items c u clock items marked cnt db = (db, [], inr cnt).
Proof.
  induction items as [|it rest IH]; intros Hall; cbn [process_items]; [reflexivity|].
  apply Forall_cons in Hall as [Hit Hrest].
  destruct (nonempty (download_url it)) eqn:Hne; cbn [negb]; [|now apply IH].
  destruct (Hit Hne) as [-> | (id & -> & -> & ->)]; now apply IH.
Qed.

Lemma matches_patterns (c c' : FeedConfig) (ttl : str) :
  include_pattern c' = include_pattern c ->
  exclude_pattern c' = exclude_pattern c ->
  matches c' ttl = matches c ttl.
Proof. intros Hi He. unfold matches, excluded. now rewrite Hi, He. Qed.

(** X19.  No item is announced twice.  If a call of [_process_feed]
    for a feed ends without an exception while the history database is
    open, then a later call for the same items, under the same or any
    other configuration with the same include and exclude patterns
    (auto-download may have been switched on in between) and at any
    later time, emits [feed_checked] with zero new items and nothing
    else, and leaves the history as it is.  In particular an item seen
    while auto-download was off is never announced afterwards. *)
Theorem process_feed_announces_once (u : pyval) (items : list FeedItem)
    (clock clock2 : nat -> float) (feeds1 feeds2 : list (pyval * FeedConfig))
    (c1 c2 : FeedConfig) (rows : list SeenItem) :
  pd_get u feeds1 = Some c1 -> pd_get u feeds2 = Some c2 ->
  include_pattern c2 = include_pattern c1 ->
  exclude_pattern c2 = exclude_pattern c1 ->
  raised (_process_feed u items clock feeds1 (Some rows)) = None ->
  exists url_str,
    u = VStr url_str /\
    _process_feed u items clock2 feeds2
      (db_after (_process_feed u items clock feeds1 (Some rows)))
    = {| db_after := db_after (_process_feed u items clock feeds1 (Some rows));
         signals := [feed_checked url_str (Z.of_nat (length items)) 0];
         raised := None |}.
Proof.
  intros Hg1 Hg2 Hi He.
  assert (Hfirst : raised (_process_feed u items clock feeds1 (Some rows)) = None ->
            exists db' sigs cnt url_str,
              process_items c1 u clock items 0 0 (Some rows) = (db', sigs, inr cnt) /\
              str_arg u = inr url_str /\
              db_after (_process_feed u items clock feeds1 (Some rows)) = db').
  { unfold _process_feed. rewrite Hg1.
    destruct (process_items c1 u clock items 0 0 (Some rows))
      as [[db' sigs] [e|cnt]]; [discriminate|].
    destruct (str_arg u) as [e|url_str]; [discriminate|].
    intros _. now exists db', sigs, cnt, url_str. }
  intros Hr. destruct (Hfirst Hr) as (db' & sigs & cnt & url_str & Hrun & Hu & ->).
  clear Hfirst Hr. exists url_str.
  split; [destruct u; try discriminate; now injection Hu as ->|].
  destruct (process_items_run _ _ _ _ _ _ _ _ _ _ Hrun) as (added & _ & _ & _ & _ & _ & _ & Hall).
  unfold _process_feed. rewrite Hg2.
  rewrite process_items_quiet.
  - now rewrite Hu.
  - eapply Forall_impl; [exact Hall|]. intros it Hs Hne. unfold settled in Hs.
    rewrite !(matches_patterns c1 c2) by assumption. now apply Hs.
Qed.

(** X20.  What [feed_checked] reports is what happened.  When a call of
    [_process_feed] for a known feed ends without an exception and the
    history database is open, the history grew by some rows [added] at
    its end (and still has no item id twice if it had none), the last
    signal is [feed_checked] with the number of items parsed and the
    number of rows added, which is at most the number of items; before
    it come only [new_torrent] signals carrying the feed's save path
    and category: one per added row when auto-download is on, none
    when it is off (the items are marked seen all the same). *)
Theorem process_feed_counts (u : pyval) (items : list FeedItem)
    (clock : nat -> float) (feeds : list (pyval * FeedConfig))
    (c : FeedConfig) (rows : list SeenItem) :
  pd_get u feeds = Some c ->
  raised (_process_feed u items clock feeds (Some rows)) = None ->
  exists added announced url_str,
    u = VStr url_str /\
    db_after (_process_feed u items clock feeds (Some rows)) = Some (rows ++ added) /\
    signals (_process_feed u items clock feeds (Some rows))
      = announced ++ [feed_checked url_str (Z.of_nat (length items))
                                   (Z.of_nat (length added))] /\
    (length added <= length items)%nat /\
    length announced = (if truthy (auto_download c) then length added else 0%nat) /\
    (forall s, In s announced ->
       exists du sp cat, s = new_torrent du sp cat /\
                         str_arg (or_empty (save_path c)) = inr sp /\
                         str_arg (or_empty (category c)) = inr cat) /\
    (NoDup (map item_id rows) -> NoDup (map item_id (rows ++ added))).
Proof.
  intros Hg. unfold _process_feed. rewrite Hg.
  destruct (process_items c u clock items 0 0 (Some rows)) as [[db' sigs] [e|cnt]] eqn:Hrun;
    [discriminate|].
  destruct (str_arg u) as [e|url_str] eqn:Hu; [discriminate|].
  intros _. cbn [db_after signals].
  destruct (process_items_run _ _ _ _ _ _ _ _ _ _ Hrun)
    as (added & -> & -> & Hl & Hs & Hsig & Hnd & _).
  exists added, sigs, url_str.
  split; [destruct u; try discriminate; now injection Hu as ->|].
  split; [reflexivity|]. split; [reflexivity|]. repeat split; assumption.
Qed.

(** *** Patterns that do not compile *)

Lemma process_items_ext (c c' : FeedConfig) (u : pyval) (clock : nat -> float)
    (items : list FeedItem) (marked : nat) (cnt : Z) (db : option (list SeenItem)) :
  Forall (fun it => matches c' (title it) = matches c (title it)) items ->
  auto_download c' = auto_download c ->
  save_path c' = save_path c -> category c' = category c ->
  process_items c' u clock items marked cnt db
  = process_items c u clock items marked cnt db.
Proof.
  intros Hall Ha Hs Hc. revert marked cnt db.
  induction items as [|it rest IH]; intros marked cnt db; cbn [process_items];
    [reflexivity|].
  apply Forall_cons in Hall as [Hit Hrest]. specialize (IH Hrest).
  rewrite Hit, Ha, Hs, Hc.
  destruct (negb (nonempty (download_url it))); [apply IH|].
  destruct (matches c (title it)) as [e|[|]]; [reflexivity| |apply IH].
  destruct (unique_id it) as [e|id]; [reflexivity|].
  destruct (_is_seen id db); [apply IH|].
  destruct (truthy (auto_download c)); [|apply IH].
  destruct (str_arg (or_empty (save_path c)));
    destruct (str_arg (or_empty (category c))); try reflexivity.
  now rewrite IH.
Qed.

(** X21.  A pattern that does not compile fails in two different ways.
    With an include pattern that [re] rejects, no item matches: the
    call announces nothing, marks nothing seen and reports zero new
    items.  With an exclude pattern that [re] rejects, the feed behaves
    exactly as if it had no exclude pattern: nothing is excluded. *)
Theorem bad_patterns (u : str) (items : list FeedItem) (clock : nat -> float)
    (c : FeedConfig) (p : str) (db : option (list SeenItem)) :
  (forall ttl, re_search p ttl = None) -> p <> [] ->
  (include_pattern c = VStr p ->
   _process_feed (VStr u) items clock [(VStr u, c)] db
   = {| db_after := db;
        signals := [feed_checked u (Z.of_nat (length items)) 0];
        raised := None |}) /\
  (exclude_pattern c = VStr p ->
   _process_feed (VStr u) items clock [(VStr u, c)] db
   = _process_feed (VStr u) items clock [(VStr u, without_exclude c)] db).
Proof.
  intros Hbad Hp. apply nonempty_true in Hp. split.
  - intros Hi. unfold _process_feed. cbn [pd_get]. rewrite py_eqb_refl.
    rewrite process_items_quiet; [reflexivity|].
    apply Forall_forall. intros it _ _. left.
    unfold matches. rewrite Hi. cbn [truthy search]. rewrite Hp.
    unfold ok. now rewrite Hbad.
  - intros He. unfold _process_feed. cbn [pd_get]. rewrite py_eqb_refl.
    rewrite (process_items_ext c (without_exclude c)); [reflexivity| |reflexivity..].
    apply Forall_forall. intros it _.
    unfold matches, excluded. cbn [without_exclude include_pattern exclude_pattern].
    rewrite He. cbn [truthy search nonempty]. rewrite Hp. unfold ok.
    now rewrite Hbad.
Qed.

End Process.

(** *** Concrete runs *)

Section Runs.
Import Fixtures RssFixture.
#[local] Existing Instance Zfloat.
#[local] Existing Instance frag_pylib.
#[local] Existing Instance toy_hash.

Lemma save_config_load_config_witness :
  get_feeds (load_config (save_config monitor_hd) RSSMonitor_init) = [feed_hd].
Proof.
  rewrite (save_config_load_config monitor_hd).
  - reflexivity.
  - split; [reflexivity | exact I].
  - apply Forall_cons. split; [reflexivity | constructor].
  - apply Forall_cons. split; [reflexivity | constructor].
Defined.

Example first_run_hd :
  signals (_process_feed (url feed_hd) items_hd clock_hd (feeds monitor_hd) (Some []))
  = [new_torrent (py "magnet:?xt=urn:btih:aa") (py "/data") (py "Films");
     new_torrent (py "http://t.example/d.torrent") (py "/data") (py "Films");
     feed_checked (py "http://feeds.example/rss") 4 2].
Proof. vm_compute. reflexivity. Qed.

Lemma process_feed_announces_once_witness :
  raised (_process_feed (url feed_hd) items_hd clock_hd (feeds monitor_hd) (Some []))
    = None /\
  signals (_process_feed (url feed_hd) items_hd clock_hd (feeds monitor_hd)
             (db_after (_process_feed (url feed_hd) items_hd clock_hd
                          (feeds monitor_hd) (Some []))))
  = [feed_checked (py "http://feeds.example/rss") 4 0].
Proof.
  split; [vm_compute; reflexivity|].
  destruct (@process_feed_announces_once Zfloat frag_pylib toy_hash
              (url feed_hd) items_hd clock_hd clock_hd
              (feeds monitor_hd) (feeds monitor_hd) feed_hd feed_hd []
              eq_refl eq_refl eq_refl eq_refl)
    as (us & Hu & ->).
  - vm_compute. reflexivity.
  - injection Hu as <-. reflexivity.
Defined.

Lemma process_feed_counts_witness :
  exists added announced,
    db_after (_process_feed (url feed_hd) items_hd clock_hd (feeds monitor_hd) (Some []))
      = Some ([] ++ added) /\
    signals (_process_feed (url feed_hd) items_hd clock_hd (feeds monitor_hd) (Some []))
      = announced ++ [feed_checked (py "http://feeds.example/rss") 4
                                   (Z.of_nat (length added))] /\
    length announced = length added.
Proof.
  destruct (@process_feed_counts Zfloat frag_pylib toy_hash
              (url feed_hd) items_hd clock_hd (feeds monitor_hd) feed_hd []
              eq_refl)
    as (added & announced & us & Hu & Hdb & Hs & _ & Hl & _).
  - vm_compute. reflexivity.
  - injection Hu as <-. exists added, announced.
    split; [exact Hdb|]. split; [exact Hs | exact Hl].
Defined.

Lemma open_paren_never_compiles (ttl : str) : re_search (py "(") ttl = None.
Proof. reflexivity. Qed.

Lemma bad_patterns_witness :
  _process_feed (VStr (py "http://feeds.example/rss")) items_hd clock_hd
    [(VStr (py "http://feeds.example/rss"), feed_bad_include)] (Some [])
  = {| db_after := Some [];
       signals := [feed_checked (py "http://feeds.example/rss") 4 0];
       raised := None |}.
Proof.
  assert (Hp : py "(" <> []) by discriminate.
  exact (proj1 (@bad_patterns Zfloat frag_pylib toy_hash (py "http://feeds.example/rss")
                  items_hd clock_hd feed_bad_include (py "(") (Some [])
                  open_paren_never_compiles Hp) eq_refl).
Defined.

End Runs.

End RssMonitorFacts.

(** ** The session controller: peers and the bandwidth schedule *)

Module WorkerPeersFacts.
Import TorrentModel Worker PeerFilter PeerVerdict WorkerPeers PyFacts.

Section Generic.
Context `{IpFilter} `{PyLib}.

(** *** Peers *)

Lemma first_peer_ip (ip : str) (peers : list PeerInfo) (peer : PeerInfo) :
  first_peer ip peers = Some peer -> peer_ip peer = ip /\ In peer peers.
Proof.
  induction peers as [|p rest IH]; cbn [first_peer]; [discriminate|].
  destruct (str_eqb (peer_ip p) ip) eqn:E.
  - intros [= <-]. split; [now apply bool_decide_eq_true_1 in E | now left].
  - intros Hf. destruct (IH Hf). split; [assumption | now right].
Qed.

Lemma set_peer_filter_same (w : SessionWorker) :
  set_peer_filter (_peer_filter w) w = w.
Proof. destruct w. reflexivity. Qed.

(** X22.  [peer_banned] is emitted only for a peer [check_peer] bans.
    Whatever the alert and the engine give, [_on_peer_connect] emits
    nothing or one [peer_banned]; when it emits, the alert named the
    address, the peer is the first one of the torrent's peers with that
    address, [check_peer] banned it with the reason emitted, and the
    filter's log has that ban.  The torrent table is never touched, and
    a disabled filter means no change at all.  When the patterns
    compile and the engine accepts the rule, the signal is emitted
    exactly if the filter's decision for that peer is a ban, and the
    address was added to the engine's IP filter. *)
Theorem on_peer_connect_bans (now : float) (alert_ip : result (option str))
    (peers : result (list PeerInfo)) (w : SessionWorker) (ipf : option ip_filter) :
  let r := _on_peer_connect now alert_ip peers (w, ipf) in
  (snd r = [] \/
   exists peer rsn pf all_peers,
     snd r = [peer_banned (peer_ip peer) rsn] /\
     alert_ip = inr (Some (peer_ip peer)) /\
     peers = inr all_peers /\
     first_peer (peer_ip peer) all_peers = Some peer /\
     check_peer now (pid peer) (client peer) (peer_ip peer) (_peer_filter w)
       = Some ((true, rsn), pf) /\
     _peer_filter (fst (fst r)) = pf) /\
  _torrents (fst (fst r)) = _torrents w /\
  (_enabled (_peer_filter w) = false -> r = ((w, ipf), [])) /\
  (forall ip all_peers peer f f1 ses ses1,
     patterns_compile (_peer_filter w) ->
     _enabled (_peer_filter w) = true ->
     alert_ip = inr (Some ip) -> ip <> [] -> peers = inr all_peers ->
     first_peer ip all_peers = Some peer ->
     ipf = Some f -> add_rule ip ip 1 f = inr f1 ->
     _session w = Some ses -> set_ip_filter f1 ses = inr ses1 ->
     match check_peer_spec (_peer_filter w) (pid peer) (client peer) ip with
     | ban rsn => snd r = [peer_banned ip rsn] /\ snd (fst r) = Some f1
     | allow => r = ((w, ipf), [])
     end).
Proof.
  cbv zeta. split; [|split; [|split]].
  - unfold _on_peer_connect.
    destruct (negb (_enabled (_peer_filter w))); [now left|].
    destruct alert_ip as [e|[ip|]]; [now left| |now left].
    destruct (negb (nonempty ip)); [now left|].
    destruct peers as [e|all_peers]; [now left|].
    destruct (first_peer ip all_peers) as [peer|] eqn:Hf; [|now left].
    destruct (first_peer_ip _ _ _ Hf) as [Hip _].
    destruct (check_peer now (pid peer) (client peer) (peer_ip peer) (_peer_filter w))
      as [[[[|] rsn] pf]|] eqn:Hc; [|now left|now left].
    destruct ipf as [f|]; [|now left].
    destruct (add_rule (peer_ip peer) (peer_ip peer) 1 f) as [e|f1]; [now left|].
    cbn [_session set_peer_filter].
    destruct (_session w) as [ses|]; [|now left].
    destruct (set_ip_filter f1 ses) as [e|ses1]; [now left|].
    right. exists peer, rsn, pf, all_peers. subst ip.
    repeat split; try reflexivity; assumption.
  - unfold _on_peer_connect.
    repeat match goal with
           | |- context [match ?x with _ => _ end] => destruct x
           end; reflexivity.
  - intros Hdis. unfold _on_peer_connect. now rewrite Hdis.
  - intros ip all_peers peer f f1 ses ses1 Hc Hen -> Hne -> Hf -> Hadd Hses Hset.
    apply nonempty_true in Hne.
    destruct (first_peer_ip _ _ _ Hf) as [Hip _].
    unfold _on_peer_connect. rewrite Hen, Hne, Hf. cbn [negb].
    rewrite Hip.
    rewrite (PeerFilterFacts.check_peer_full now (pid peer) (client peer) ip
               (_peer_filter w) Hc).
    destruct (check_peer_spec (_peer_filter w) (pid peer) (client peer) ip)
      as [|rsn]; cbn [returned after_verdict].
    + now rewrite set_peer_filter_same.
    + rewrite Hadd. cbn [_session set_peer_filter]. rewrite Hses, Hset.
      split; reflexivity.
Qed.

(** *** The bandwidth schedule *)

Lemma in_hours_covers (r : ScheduleRule) (s e h : Z) :
  rule_hours r s e -> in_hours r h = ok (covers h r).
Proof.
  intros [Hs He]. unfold in_hours, covers, py_le, py_lt. rewrite Hs, He.
  cbn [as_int ok]. destruct (s <=? h); reflexivity.
Qed.

Lemma first_rule_find (rules : list ScheduleRule) (h : Z) :
  Forall (fun r => exists s e, rule_hours r s e) rules ->
  first_rule rules h
  = ok (option_map (fun r => (get_or (rule_dl r) (VInt 0),
                              get_or (rule_ul r) (VInt 0)))
                   (List.find (covers h) rules)).
Proof.
  induction rules as [|r rest IH]; intros Hall; cbn [first_rule List.find];
    [reflexivity|].
  apply Forall_cons in Hall as [(s & e & Hr) Hrest].
  rewrite (in_hours_covers r s e h Hr). unfold ok.
  destruct (covers h r); [reflexivity | now apply IH].
Qed.

(** X23.  The schedule applies the first rule the hour falls in, and a
    rule written across midnight never applies.  For an enabled
    schedule whose rules have integer bounds and a running session,
    [_check_bandwidth_schedule] hands the engine the limits of the first
    rule with [start <= hour < end]; if there is none, the global
    limits, a limit that is not positive being replaced by 0.  A rule
    whose end is not after its start (22 to 6, say) covers no hour. *)
Theorem schedule_first_rule_wins (sch : Schedule) (rules : list ScheduleRule)
    (h dl ul : Z) (w : SessionWorker) (ses : session) :
  truthy (get_or (schedule_enabled sch) (VBool false)) = true ->
  schedule_rules sch = Some rules ->
  Forall (fun r => exists s e, rule_hours r s e) rules ->
  _session w = Some ses ->
  _cfg w !! py "max_download_speed" = Some (VInt dl) ->
  _cfg w !! py "max_upload_speed" = Some (VInt ul) ->
  _check_bandwidth_schedule (Some sch) h w
  = ok (Some match List.find (covers h) rules with
             | Some r => (get_or (rule_dl r) (VInt 0), get_or (rule_ul r) (VInt 0))
             | None => (VInt (Z.max 0 dl), VInt (Z.max 0 ul))
             end) /\
  (forall r s e, rule_hours r s e -> e <= s -> covers h r = false).
Proof.
  intros Hen Hrules Hall Hses Hdl Hul. split.
  - unfold _check_bandwidth_schedule. rewrite Hen, Hrules. cbn [negb].
    rewrite (first_rule_find rules h Hall). unfold ok. rewrite Hses.
    destruct (List.find (covers h) rules) as [r|]; cbn [option_map]; [reflexivity|].
    rewrite Hdl, Hul. cbn [get_or]. unfold positive_or_zero, py_lt. cbn [as_int ok].
    destruct (Z.ltb_spec 0 dl), (Z.ltb_spec 0 ul);
      repeat f_equal; lia.
  - intros r s e [Hs He] Hle. unfold covers. rewrite Hs, He.
    destruct (Z.leb_spec s h), (Z.ltb_spec h e); try reflexivity. lia.
Qed.

End Generic.

(** *** Concrete runs *)

Section Runs.
Import Fixtures EngineFixture WorkerPeersFixture.
#[local] Existing Instance toy_ip_filter.

Example xunlei_peer_is_banned :
  snd (_on_peer_connect 9 (inr (Some (py "10.0.0.7")))
         (inr [xunlei_peer]) (with_a, Some []))
  = [peer_banned (py "10.0.0.7") (py "Xunlei/Thunder")] /\
  snd (fst (_on_peer_connect 9 (inr (Some (py "10.0.0.7")))
              (inr [xunlei_peer]) (with_a, Some [])))
  = Some [(py "10.0.0.7", py "10.0.0.7", 1)].
Proof. split; vm_compute; reflexivity. Qed.

(** Before [initialize] there is no IP filter object: the ban is logged
    by the peer filter but no signal is emitted. *)
Example ban_without_ip_filter :
  snd (_on_peer_connect 9 (inr (Some (py "10.0.0.7")))
         (inr [xunlei_peer]) (with_a, None)) = [] /\
  map log_ip (_ban_log (_peer_filter (fst (fst
    (_on_peer_connect 9 (inr (Some (py "10.0.0.7")))
       (inr [xunlei_peer]) (with_a, None)))))) = [py "10.0.0.7"].
Proof. split; vm_compute; reflexivity. Qed.

Lemma schedule_first_rule_wins_witness :
  _check_bandwidth_schedule (Some schedule_day_night) 9 with_limits
    = ok (Some (VInt 500000, VInt 50000)) /\
  _check_bandwidth_schedule (Some schedule_day_night) 23 with_limits
    = ok (Some (VInt 0, VInt 13312)).
Proof.
  assert (Hall : Forall (fun r => exists s e, rule_hours r s e)
                   [ {| rule_start := Some (VInt 22); rule_end := Some (VInt 6);
                        rule_dl := Some (VInt 0); rule_ul := Some (VInt 0) |};
                     {| rule_start := Some (VInt 8); rule_end := Some (VInt 18);
                        rule_dl := Some (VInt 500000);
                        rule_ul := Some (VInt 50000) |} ]).
  { apply Forall_cons. split; [exists 22, 6; split; reflexivity|].
    apply Forall_cons. split; [exists 8, 18; split; reflexivity | constructor]. }
  split.
  - rewrite (proj1 (@schedule_first_rule_wins Zfloat toy_engine
                      schedule_day_night _ 9 (-1) 13312 with_limits _
                      eq_refl eq_refl Hall eq_refl eq_refl eq_refl)).
    reflexivity.
  - rewrite (proj1 (@schedule_first_rule_wins Zfloat toy_engine
                      schedule_day_night _ 23 (-1) 13312 with_limits _
                      eq_refl eq_refl Hall eq_refl eq_refl eq_refl)).
    reflexivity.
Defined.

End Runs.

End WorkerPeersFacts.

(** ** The torrent table of the main window *)

Module TorrentListModelFacts.
Import TorrentModel TorrentListModel OdictFacts.

Section Generic.
Context `{PyFloat}.

Local Abbreviation hash := (@Snap.info_hash _ (list str)).

(** *** The index *)

Lemma od_set_new {V} (k : str) (v : V) (d : list (str * V)) :
  od_get k d = None -> od_set k v d = d ++ [(k, v)].
Proof.
  induction d as [|[k' v'] d IH]; simpl; [reflexivity|].
  destruct (decide (k' = k)); [discriminate|]. intros Hn. now rewrite IH.
Qed.

Lemma od_get_app {V} (k : str) (d d' : list (str * V)) :
  od_get k (d ++ d') = match od_get k d with
                       | Some v => Some v
                       | None => od_get k d'
                       end.
Proof.
  induction d as [|[k' v'] d IH]; simpl; [reflexivity|].
  destruct (decide (k' = k)); [reflexivity | exact IH].
Qed.

Lemma od_get_set_other {V} (k k' : str) (v : V) (d : list (str * V)) :
  k <> k' -> od_get k' (od_set k v d) = od_get k' d.
Proof.
  intros Hne. induction d as [|[k0 v0] d IH]; cbn [od_set od_get].
  - now rewrite decide_False.
  - destruct (decide (k0 = k)) as [->|Hk]; cbn [od_get].
    + now rewrite !decide_False.
    + destruct (decide (k0 = k')); [reflexivity | exact IH].
Qed.

Lemma index_from_items (i : nat) (l : list TorrentSnapshot) (d : list (str * nat)) :
  NoDup (map hash l) ->
  (forall h, h ∈ map hash l -> od_get h d = None) ->
  index_from i l d = d ++ items i l.
Proof.
  revert i d. induction l as [|s rest IH]; intros i d Hnd Hd; cbn [index_from].
  - unfold items. cbn. now rewrite app_nil_r.
  - cbn [map] in Hnd. apply NoDup_cons in Hnd as [Hs Hnd].
    rewrite od_set_new by (apply Hd; cbn [map]; apply list_elem_of_here).
    rewrite IH; [|exact Hnd|].
    + unfold items. cbn [map length seq combine]. now rewrite <- app_assoc.
    + intros h Hh. rewrite od_get_app, Hd by (cbn [map]; now apply list_elem_of_further).
      cbn [od_get]. destruct (decide (hash s = h)) as [<-|]; [contradiction | reflexivity].
Qed.

Lemma rebuild_items (l : list TorrentSnapshot) :
  NoDup (map hash l) -> _rebuild_index l = items 0 l.
Proof.
  intros Hnd. unfold _rebuild_index. now rewrite index_from_items.
Qed.

Lemma index_from_hashes (i : nat) (l l' : list TorrentSnapshot) (d : list (str * nat)) :
  map hash l = map hash l' -> index_from i l d = index_from i l' d.
Proof.
  revert i d l'. induction l as [|s rest IH]; intros i d [|s' rest'] Hm;
    try discriminate; [reflexivity|].
  cbn [map] in Hm. injection Hm as Hs Hm. cbn [index_from]. rewrite Hs.
  now apply IH.
Qed.

Lemma items_keys (i : nat) (l : list TorrentSnapshot) :
  od_keys (items i l) = map hash l.
Proof.
  unfold items, od_keys. revert i. induction l as [|s rest IH]; intros i;
    [reflexivity|].
  cbn [map length seq combine fst]. now rewrite IH.
Qed.

Lemma items_app (i : nat) (l1 l2 : list TorrentSnapshot) :
  items i (l1 ++ l2) = items i l1 ++ items (i + length l1) l2.
Proof.
  unfold items. revert i. induction l1 as [|s rest IH]; intros i.
  - cbn. now rewrite Nat.add_0_r.
  - cbn [app map length seq combine]. rewrite IH.
    now replace (S i + length rest)%nat with (i + S (length rest))%nat by lia.
Qed.

Lemma od_get_items_absent (h : str) (i : nat) (l : list TorrentSnapshot) :
  h ∉ map hash l -> od_get h (items i l) = None.
Proof.
  intros Hh. apply od_get_None. now rewrite items_keys.
Qed.

Lemma od_get_items (i : nat) (l1 l2 : list TorrentSnapshot) (s : TorrentSnapshot) :
  hash s ∉ map hash l1 ->
  od_get (hash s) (items i (l1 ++ s :: l2)) = Some (i + length l1)%nat.
Proof.
  intros Hs. rewrite items_app, od_get_app, od_get_items_absent by exact Hs.
  unfold items. cbn [map length seq combine od_get].
  now rewrite decide_True.
Qed.

(** *** Removing rows *)

Lemma positions_app (f : TorrentSnapshot -> bool) (i : nat)
    (l1 l2 : list TorrentSnapshot) :
  positions f i (l1 ++ l2) = positions f i l1 ++ positions f (i + length l1) l2.
Proof.
  revert i. induction l1 as [|s rest IH]; intros i.
  - cbn. now rewrite Nat.add_0_r.
  - cbn [app positions length]. rewrite IH, <- app_assoc.
    now replace (S i + length rest)%nat with (i + S (length rest))%nat by lia.
Qed.

Lemma positions_ge (f : TorrentSnapshot -> bool) (i : nat)
    (l : list TorrentSnapshot) (x : nat) :
  In x (positions f i l) -> (i <= x)%nat.
Proof.
  revert i. induction l as [|s rest IH]; intros i; cbn [positions]; [intros []|].
  intros Hin. apply in_app_or in Hin as [Hin|Hin].
  - destruct (f s); [|destruct Hin]. destruct Hin as [<-|[]]. lia.
  - apply IH in Hin. lia.
Qed.

Lemma insert_desc_small (x : nat) (l : list nat) :
  (forall y, In y l -> (x < y)%nat) -> insert_desc x l = l ++ [x].
Proof.
  induction l as [|y rest IH]; intros Hl; cbn [insert_desc app]; [reflexivity|].
  destruct (Nat.leb_spec y x) as [Hle|Hgt].
  - specialize (Hl y (or_introl eq_refl)). lia.
  - rewrite IH; [reflexivity|]. intros z Hz. apply Hl. now right.
Qed.

Lemma sorted_desc_positions (f : TorrentSnapshot -> bool) (i : nat)
    (l : list TorrentSnapshot) :
  sorted_desc (positions f i l) = rev (positions f i l).
Proof.
  revert i. induction l as [|s rest IH]; intros i; cbn [positions]; [reflexivity|].
  destruct (f s); cbn [app]; [|apply IH].
  unfold sorted_desc in *. cbn [fold_right rev]. rewrite IH.
  apply insert_desc_small. intros y Hy. apply in_rev in Hy.
  apply positions_ge in Hy. lia.
Qed.

Lemma pop_middle {A} (l1 l2 : list A) (x : A) :
  pop (length l1) (l1 ++ x :: l2) = Some (l1 ++ l2).
Proof.
  unfold pop. rewrite length_app. cbn [length].
  destruct (Nat.ltb_spec (length l1) (length l1 + S (length l2))); [|lia].
  f_equal. f_equal.
  - apply take_app_length.
  - replace (S (length l1)) with (length (l1 ++ [x]))
      by (rewrite length_app; cbn [length]; lia).
    replace (l1 ++ x :: l2) with ((l1 ++ [x]) ++ l2) by (now rewrite <- app_assoc).
    apply drop_app_length.
Qed.

Lemma pop_rows_positions (f : TorrentSnapshot -> bool)
    (l tail : list TorrentSnapshot) :
  pop_rows (rev (positions f 0 l)) (l ++ tail)
  = Some (List.filter (fun s => negb (f s)) l ++ tail).
Proof.
  revert tail. induction l as [|x l IH] using rev_ind; intros tail; [reflexivity|].
  rewrite positions_app, rev_app_distr, List.filter_app. cbn [positions List.filter].
  rewrite app_nil_r, Nat.add_0_l. destruct (f x); cbn [negb rev app].
  - cbn [pop_rows]. rewrite <- app_assoc. cbn [app].
    rewrite pop_middle, IH. now rewrite app_nil_r.
  - rewrite <- !app_assoc. cbn [app]. apply IH.
Qed.

Lemma rows_of_positions (g : str -> bool) (pre l : list TorrentSnapshot) :
  NoDup (map hash (pre ++ l)) ->
  rows_of (items 0 (pre ++ l)) (List.filter g (map hash l))
  = Some (positions (fun s => g (hash s)) (length pre) l).
Proof.
  revert pre. induction l as [|s rest IH]; intros pre Hnd; [reflexivity|].
  assert (Hnd' : NoDup (map hash ((pre ++ [s]) ++ rest)))
    by (now rewrite <- app_assoc).
  specialize (IH (pre ++ [s]) Hnd').
  rewrite <- app_assoc, length_app in IH. cbn [app length] in IH.
  rewrite Nat.add_1_r in IH.
  cbn [map List.filter positions]. destruct (g (hash s)); cbn [app rows_of].
  - rewrite od_get_items, IH; [reflexivity|].
    rewrite map_app in Hnd. apply NoDup_app in Hnd as (_ & Hdis & _).
    intros Hin. apply (Hdis _ Hin). cbn [map]. apply list_elem_of_here.
  - exact IH.
Qed.

(** *** Updating rows in place *)

Lemma assign_middle {A} (l1 l2 : list A) (x y : A) :
  assign (length l1) y (l1 ++ x :: l2) = Some (l1 ++ y :: l2).
Proof.
  unfold assign. rewrite length_app. cbn [length].
  destruct (Nat.ltb_spec (length l1) (length l1 + S (length l2))); [|lia].
  f_equal. rewrite insert_app_r_alt by lia. now rewrite Nat.sub_diag.
Qed.

Lemma update_rows_map (sm : list (str * TorrentSnapshot))
    (done_ l : list TorrentSnapshot) :
  update_rows (items (length done_) l) sm (done_ ++ l)
  = Some (done_ ++ map (fun s => match od_get (hash s) sm with
                                 | Some s' => s'
                                 | None => s
                                 end) l).
Proof.
  revert done_. induction l as [|s rest IH]; intros done_; [reflexivity|].
  unfold items. cbn [map length seq combine update_rows]. fold (items (S (length done_)) rest).
  destruct (od_get (hash s) sm) as [s'|].
  - rewrite assign_middle.
    specialize (IH (done_ ++ [s'])). rewrite length_app, <- app_assoc in IH.
    cbn [length app] in IH. rewrite Nat.add_1_r in IH. rewrite IH.
    now rewrite <- app_assoc.
  - specialize (IH (done_ ++ [s])). rewrite length_app, <- app_assoc in IH.
    cbn [length app] in IH. rewrite Nat.add_1_r in IH. rewrite IH.
    now rewrite <- app_assoc.
Qed.

(** *** The incoming snapshots by hash *)

Lemma snap_map_entries (incoming : list TorrentSnapshot) :
  forall h s, od_get h (snap_map_of incoming) = Some s -> hash s = h /\ In s incoming.
Proof.
  unfold snap_map_of.
  assert (Hgen : forall d,
            (forall h s, od_get h d = Some s -> hash s = h /\ In s incoming) ->
            forall todo, (forall s, In s todo -> In s incoming) ->
            forall h s, od_get h (fold_left (fun d s => od_set (hash s) s d) todo d)
                        = Some s -> hash s = h /\ In s incoming).
  { intros d Hd todo. revert d Hd. induction todo as [|x todo IH]; intros d Hd Hsub;
      cbn [fold_left]; [exact Hd|].
    apply IH; [|intros s Hs; apply Hsub; now right].
    intros h s. destruct (decide (hash x = h)) as [<-|Hne].
    - rewrite od_get_set_eq. intros [= <-]. split; [reflexivity|].
      apply Hsub. now left.
    - rewrite od_get_set_other by exact Hne. apply Hd. }
  apply Hgen; [discriminate | auto].
Qed.

Lemma snap_map_keys (incoming : list TorrentSnapshot) (h : str) :
  h ∈ map hash incoming -> od_get h (snap_map_of incoming) <> None.
Proof.
  unfold snap_map_of.
  assert (Hgen : forall todo d,
            h ∈ map hash todo \/ od_get h d <> None ->
            od_get h (fold_left (fun d s => od_set (hash s) s d) todo d) <> None).
  { induction todo as [|x todo IH]; intros d Hor; cbn [fold_left].
    - destruct Hor as [Hin|Hd]; [now apply elem_of_nil in Hin | exact Hd].
    - apply IH. destruct Hor as [Hin|Hd].
      + cbn [map] in Hin. apply elem_of_cons in Hin as [->|Hin]; [|now left].
        right. now rewrite od_get_set_eq.
      + right. destruct (decide (hash x = h)) as [<-|Hne];
          [now rewrite od_get_set_eq|].
        now rewrite od_get_set_other by exact Hne. }
  intros Hin. apply Hgen. now left.
Qed.

Lemma latest_hash (incoming : list TorrentSnapshot) (s : TorrentSnapshot) :
  hash (latest incoming s) = hash s.
Proof.
  unfold latest. destruct (od_get (hash s) (snap_map_of incoming)) as [s'|] eqn:Hg;
    [|reflexivity].
  now apply snap_map_entries in Hg.
Qed.

Lemma latest_In (incoming : list TorrentSnapshot) (s : TorrentSnapshot) :
  hash s ∈ map hash incoming -> In (latest incoming s) incoming.
Proof.
  intros Hin. unfold latest.
  destruct (od_get (hash s) (snap_map_of incoming)) as [s'|] eqn:Hg.
  - now apply snap_map_entries in Hg.
  - now apply snap_map_keys in Hin.
Qed.

(** *** The table after an update *)

Lemma filter_all {A} (f : A -> bool) (l : list A) :
  List.filter (fun x => negb (f x)) l = [] -> List.filter f l = l.
Proof.
  induction l as [|x l IH]; cbn [List.filter]; [reflexivity|].
  destruct (f x); cbn [negb]; [|discriminate]. intros Hn. now rewrite IH.
Qed.

Lemma filter_map_hash (g : str -> bool) (l : list TorrentSnapshot) :
  List.filter g (map hash l)
  = map hash (List.filter (fun s : TorrentSnapshot => g (hash s)) l).
Proof.
  induction l as [|s l IH]; cbn [map List.filter]; [reflexivity|].
  destruct (g (hash s)); cbn [map]; now rewrite IH.
Qed.

Lemma NoDup_filter_hash (f : TorrentSnapshot -> bool) (l : list TorrentSnapshot) :
  NoDup (map hash l) -> NoDup (map hash (List.filter f l)).
Proof.
  induction l as [|s l IH]; cbn [map List.filter]; [constructor|].
  intros Hnd. apply NoDup_cons in Hnd as [Hs Hnd].
  destruct (f s); [|now apply IH]. cbn [map].
  apply NoDup_cons. split; [|now apply IH].
  intros Hin. apply Hs. apply list_elem_of_In in Hin.
  apply in_map_iff in Hin as (s' & Hh & Hin). apply filter_In in Hin as [Hin _].
  apply list_elem_of_In. rewrite <- Hh. now apply in_map.
Qed.

Lemma update_computes (incoming : list TorrentSnapshot) (self : TorrentListModel) :
  table_consistent self ->
  exists self',
    update_from_snapshots incoming self = Some self' /\
    _snapshots self' = updated_rows incoming (_snapshots self) /\
    _hash_index self' = _rebuild_index (_snapshots self').
Proof.
  intros [Hnd Hidx]. unfold update_from_snapshots.
  rewrite Hidx, (rebuild_items _ Hnd), items_keys.
  set (old := _snapshots self) in *.
  set (keep := fun s : TorrentSnapshot =>
                 bool_decide (hash s ∈ map hash incoming)).
  (* the rows after the removal *)
  assert (Hrem :
    match List.filter (fun h => negb (bool_decide (h ∈ map hash incoming)))
                      (map hash old) with
    | [] => Some (old, items 0 old)
    | _ :: _ =>
        match rows_of (items 0 old)
                (List.filter (fun h => negb (bool_decide (h ∈ map hash incoming)))
                             (map hash old)) with
        | None => None
        | Some rows =>
            match pop_rows (sorted_desc rows) old with
            | None => None
            | Some l => Some (l, _rebuild_index l)
            end
        end
    end = Some (List.filter keep old, items 0 (List.filter keep old))).
  { destruct (List.filter _ (map hash old)) as [|h0 hs] eqn:Hf.
    - rewrite filter_map_hash in Hf. apply map_eq_nil in Hf.
      change (List.filter (fun s => negb (keep s)) old = []) in Hf.
      now rewrite (filter_all keep old Hf).
    - rewrite <- Hf.
      rewrite (rows_of_positions _ [] old) by exact Hnd.
      cbn [length]. rewrite sorted_desc_positions.
      pose proof (pop_rows_positions
                    (fun s => negb (bool_decide (hash s ∈ map hash incoming)))
                    old []) as Hp.
      rewrite !app_nil_r in Hp. rewrite Hp.
      assert (Hk : List.filter
                     (fun s : TorrentSnapshot =>
                        negb (negb (bool_decide (hash s ∈ map hash incoming))))
                     old = List.filter keep old).
      { apply List.filter_ext. intros s. apply negb_involutive. }
      rewrite Hk. f_equal. f_equal. apply rebuild_items.
      now apply NoDup_filter_hash. }
  rewrite Hrem. clear Hrem.
  pose proof (update_rows_map (snap_map_of incoming) [] (List.filter keep old)) as Hup.
  cbn [length app] in Hup. rewrite Hup. clear Hup.
  fold (latest incoming).
  change (fun s => match od_get (hash s) (snap_map_of incoming) with
                   | Some s' => s' | None => s end) with (latest incoming).
  assert (Hadd : List.filter
                   (fun s => bool_decide (hash s ∈ map hash incoming) &&
                             negb (bool_decide (hash s ∈ map hash old))) incoming
                 = List.filter (fun s => negb (bool_decide (hash s ∈ map hash old)))
                               incoming).
  { apply filter_ext_in. intros s Hs. rewrite bool_decide_eq_true_2; [reflexivity|].
    apply list_elem_of_In, in_map, Hs. }
  rewrite Hadd.
  destruct (List.filter (fun s => negb (bool_decide (hash s ∈ map hash old))) incoming)
    as [|a added] eqn:Ha.
  - eexists. split; [reflexivity|]. cbn [_snapshots _hash_index].
    unfold updated_rows. fold keep. rewrite Ha, app_nil_r. split; [reflexivity|].
    assert (Hnk : NoDup (map hash (List.filter keep old))).
    { now apply NoDup_filter_hash. }
    rewrite <- (rebuild_items _ Hnk). unfold _rebuild_index.
    apply index_from_hashes. rewrite map_map.
    apply map_ext. intros s. symmetry. apply latest_hash.
  - eexists. split; [reflexivity|]. cbn [_snapshots _hash_index].
    unfold updated_rows. fold keep. rewrite Ha. split; reflexivity.
Qed.

Lemma updated_rows_hashes (incoming old : list TorrentSnapshot) :
  map hash (updated_rows incoming old)
  = List.filter (fun h => bool_decide (h ∈ map hash incoming)) (map hash old) ++
    List.filter (fun h => negb (bool_decide (h ∈ map hash old))) (map hash incoming).
Proof.
  unfold updated_rows. rewrite map_app, map_map, !filter_map_hash.
  f_equal. apply map_ext. intros s. apply latest_hash.
Qed.

Lemma updated_rows_same_hashes (incoming old : list TorrentSnapshot) (h : str) :
  h ∈ map hash (updated_rows incoming old) <-> h ∈ map hash incoming.
Proof.
  rewrite updated_rows_hashes, elem_of_app, !list_elem_of_In, !filter_In.
  split.
  - intros [[_ Hk]|[Hin _]]; [|exact Hin].
    apply bool_decide_eq_true_1 in Hk. now apply list_elem_of_In.
  - intros Hin. destruct (decide (h ∈ map hash old)) as [Hold|Hnew].
    + left. split; [now apply list_elem_of_In|].
      apply bool_decide_eq_true_2. now apply list_elem_of_In.
    + right. split; [exact Hin|]. now rewrite bool_decide_eq_false_2.
Qed.

Lemma NoDup_filter_str (g : str -> bool) (l : list str) :
  NoDup l -> NoDup (List.filter g l).
Proof.
  induction l as [|h l IH]; cbn [List.filter]; [constructor|].
  intros Hnd. apply NoDup_cons in Hnd as [Hh Hnd].
  destruct (g h); [|now apply IH].
  apply NoDup_cons. split; [|now apply IH].
  intros Hin. apply Hh. apply list_elem_of_In in Hin.
  apply filter_In in Hin as [Hin _]. now apply list_elem_of_In.
Qed.

Lemma updated_rows_NoDup (incoming old : list TorrentSnapshot) :
  NoDup (map hash old) -> NoDup (map hash incoming) ->
  NoDup (map hash (updated_rows incoming old)).
Proof.
  intros Hold Hinc. rewrite updated_rows_hashes. apply NoDup_app.
  split; [now apply NoDup_filter_str|]. split; [|now apply NoDup_filter_str].
  intros h Hk Ha. apply list_elem_of_In, filter_In in Hk as [Hk _].
  apply list_elem_of_In, filter_In in Ha as [_ Ha].
  apply negb_true_iff, bool_decide_eq_false_1 in Ha. apply Ha.
  now apply list_elem_of_In.
Qed.

Lemma updated_rows_In (incoming old : list TorrentSnapshot) (s : TorrentSnapshot) :
  In s (updated_rows incoming old) -> In s incoming.
Proof.
  unfold updated_rows. intros Hin. apply in_app_or in Hin as [Hin|Hin].
  - apply in_map_iff in Hin as (s0 & <- & Hin). apply filter_In in Hin as [_ Hk].
    apply latest_In. now apply bool_decide_eq_true_1 in Hk.
  - now apply filter_In in Hin.
Qed.

Lemma hash_inj_In (l : list TorrentSnapshot) (a b : TorrentSnapshot) :
  NoDup (map hash l) -> In a l -> In b l -> hash a = hash b -> a = b.
Proof.
  induction l as [|s l IH]; cbn [map]; intros Hnd Ha Hb Hab; [destruct Ha|].
  apply NoDup_cons in Hnd as [Hs Hnd].
  destruct Ha as [<-|Ha], Hb as [<-|Hb]; [reflexivity| | |now apply IH].
  - exfalso. apply Hs. rewrite Hab. now apply list_elem_of_In, in_map.
  - exfalso. apply Hs. rewrite <- Hab. now apply list_elem_of_In, in_map.
Qed.

(** *** [find_snapshot] on a consistent table *)

Lemma find_snapshot_row (t : TorrentListModel) (s : TorrentSnapshot) :
  table_consistent t -> In s (_snapshots t) -> find_snapshot (hash s) t = Some s.
Proof.
  intros [Hnd Hidx] Hin. unfold find_snapshot.
  rewrite Hidx, (rebuild_items _ Hnd).
  apply in_split in Hin as (l1 & l2 & Hl). rewrite Hl in *.
  rewrite od_get_items.
  - cbn [Nat.add]. rewrite nth_error_app2, Nat.sub_diag by lia. reflexivity.
  - rewrite map_app in Hnd. apply NoDup_app in Hnd as (_ & Hdis & _).
    intros Hs. apply (Hdis _ Hs). cbn [map]. apply list_elem_of_here.
Qed.

Lemma find_snapshot_absent (t : TorrentListModel) (h : str) :
  table_consistent t -> h ∉ map hash (_snapshots t) -> find_snapshot h t = None.
Proof.
  intros [Hnd Hidx] Hh. unfold find_snapshot.
  rewrite Hidx, (rebuild_items _ Hnd). now rewrite od_get_items_absent.
Qed.

(** *** [set_snapshots] *)

Lemma index_from_last (h : str) (i : nat) (l : list TorrentSnapshot)
    (d : list (str * nat)) :
  od_get h (index_from i l d)
  = match last_row h l with
    | Some k => Some (i + k)%nat
    | None => od_get h d
    end.
Proof.
  revert i d. induction l as [|s rest IH]; intros i d; cbn [index_from last_row];
    [reflexivity|].
  rewrite IH. destruct (last_row h rest) as [k|].
  - f_equal. lia.
  - destruct (decide (hash s = h)) as [<-|Hne].
    + rewrite od_get_set_eq. f_equal. lia.
    + now apply od_get_set_other.
Qed.

Lemma find_snoc (f : TorrentSnapshot -> bool) (l : list TorrentSnapshot)
    (s : TorrentSnapshot) :
  find f (l ++ [s]) = match find f l with
                      | Some x => Some x
                      | None => if f s then Some s else None
                      end.
Proof.
  induction l as [|x l IH]; cbn [app find]; [reflexivity|].
  destruct (f x); [reflexivity | exact IH].
Qed.

Lemma last_row_find (h : str) (l : list TorrentSnapshot) :
  match last_row h l with
  | Some k => nth_error l k
  | None => None
  end = find (fun s : TorrentSnapshot => bool_decide (hash s = h)) (rev l).
Proof.
  induction l as [|s rest IH]; cbn [last_row rev]; [reflexivity|].
  rewrite find_snoc, <- IH. destruct (last_row h rest) as [k|] eqn:Hk.
  - cbn [nth_error]. destruct (nth_error rest k) eqn:Hn; [reflexivity|].
    exfalso. clear IH. revert k Hk Hn.
    induction rest as [|x rest IHr]; intros k Hk Hn; cbn [last_row] in Hk;
      [discriminate|].
    destruct (last_row h rest) as [k'|].
    + injection Hk as <-. cbn [nth_error] in Hn. now apply (IHr k').
    + destruct (decide (hash x = h)); [|discriminate].
      injection Hk as <-. discriminate.
  - destruct (decide (hash s = h)) as [He|Hne].
    + now rewrite bool_decide_eq_true_2.
    + now rewrite bool_decide_eq_false_2.
Qed.

(** X24.  After [set_snapshots], [find_snapshot] returns for a hash the
    last of the given snapshots that carries it, and [None] when none
    does: of two snapshots with one hash only the later one can be
    found. *)
Theorem set_snapshots_finds_last (snapshots : list TorrentSnapshot) (h : str) :
  find_snapshot h (set_snapshots snapshots)
  = find (fun s : TorrentSnapshot => bool_decide (hash s = h)) (rev snapshots).
Proof.
  unfold find_snapshot, set_snapshots, _rebuild_index. cbn [_hash_index _snapshots].
  rewrite index_from_last, <- last_row_find.
  destruct (last_row h snapshots); reflexivity.
Qed.

(** X25.  From a table in order, [update_from_snapshots] never raises, and
    it leaves the rows of the hashes that are still reported, in the order
    they had, followed by the new hashes in the order they arrive; the
    index is the one [_rebuild_index] gives for these rows. *)
Theorem update_keeps_row_order (incoming : list TorrentSnapshot)
    (self : TorrentListModel) :
  table_consistent self ->
  exists self',
    update_from_snapshots incoming self = Some self' /\
    map hash (_snapshots self')
    = List.filter (fun h => bool_decide (h ∈ map hash incoming))
                  (map hash (_snapshots self)) ++
      List.filter (fun h => negb (bool_decide (h ∈ map hash (_snapshots self))))
                  (map hash incoming) /\
    _hash_index self' = _rebuild_index (_snapshots self').
Proof.
  intros Hok. destruct (update_computes incoming self Hok) as (self' & Hup & Hrows & Hidx).
  exists self'. split; [exact Hup|]. split; [|exact Hidx].
  rewrite Hrows. apply updated_rows_hashes.
Qed.

(** X26.  If the table is in order and no two incoming snapshots share a
    hash, the table after [update_from_snapshots] is in order again, its
    rows are exactly the incoming snapshots, and [find_snapshot] returns
    the incoming snapshot for each of their hashes and [None] for every
    other hash. *)
Theorem update_shows_incoming (incoming : list TorrentSnapshot)
    (self : TorrentListModel) :
  table_consistent self ->
  NoDup (map hash incoming) ->
  exists self',
    update_from_snapshots incoming self = Some self' /\
    table_consistent self' /\
    (forall s, In s (_snapshots self') <-> In s incoming) /\
    (forall s, In s incoming -> find_snapshot (hash s) self' = Some s) /\
    (forall h, h ∉ map hash incoming -> find_snapshot h self' = None).
Proof.
  intros Hok Hinc.
  destruct (update_computes incoming self Hok) as (self' & Hup & Hrows & Hidx).
  destruct Hok as [Hold _].
  assert (Hok' : table_consistent self').
  { split; [|exact Hidx]. rewrite Hrows. now apply updated_rows_NoDup. }
  assert (Hsame : forall s, In s (_snapshots self') <-> In s incoming).
  { intros s. rewrite Hrows. split; [apply updated_rows_In|].
    intros Hin.
    assert (Hh : hash s ∈ map hash (updated_rows incoming (_snapshots self)))
      by (apply updated_rows_same_hashes; now apply list_elem_of_In, in_map).
    apply list_elem_of_In, in_map_iff in Hh as (r & Hr & Hrin).
    assert (r = s) as <-; [|exact Hrin].
    apply (hash_inj_In incoming); [exact Hinc| |exact Hin|exact Hr].
    now apply updated_rows_In in Hrin. }
  exists self'. split; [exact Hup|]. split; [exact Hok'|]. split; [exact Hsame|].
  split.
  - intros s Hin. apply find_snapshot_row; [exact Hok'|]. now apply Hsame.
  - intros h Hh. apply find_snapshot_absent; [exact Hok'|].
    rewrite Hrows. now rewrite updated_rows_same_hashes.
Qed.

End Generic.

Section Runs.
Import TorrentListFixture.

Local Abbreviation hash := (@Snap.info_hash Fixtures.Zfloat (list str)).

Lemma table_ab_consistent : @table_consistent Fixtures.Zfloat table_ab.
Proof.
  split; [|reflexivity].
  cbn. repeat (apply NoDup_cons; split); try apply NoDup_nil_2.
  - intros Hin. apply list_elem_of_singleton in Hin. discriminate.
  - apply not_elem_of_nil.
Qed.

Lemma incoming_bc_distinct : NoDup (map hash incoming_bc).
Proof.
  cbn. repeat (apply NoDup_cons; split); try apply NoDup_nil_2.
  - intros Hin. apply list_elem_of_singleton in Hin. discriminate.
  - apply not_elem_of_nil.
Qed.

Lemma update_keeps_row_order_witness :
  table_consistent table_ab /\
  exists self',
    update_from_snapshots incoming_bc table_ab = Some self' /\
    map hash (_snapshots self')
    = List.filter (fun h => bool_decide (h ∈ map hash incoming_bc))
                  (map hash (_snapshots table_ab)) ++
      List.filter (fun h => negb (bool_decide (h ∈ map hash (_snapshots table_ab))))
                  (map hash incoming_bc) /\
    _hash_index self' = _rebuild_index (_snapshots self').
Proof.
  split; [exact table_ab_consistent|].
  exact (@update_keeps_row_order Fixtures.Zfloat incoming_bc table_ab
           table_ab_consistent).
Defined.

Lemma update_shows_incoming_witness :
  table_consistent table_ab /\ NoDup (map hash incoming_bc) /\
  exists self',
    update_from_snapshots incoming_bc table_ab = Some self' /\
    table_consistent self' /\
    (forall s, In s (_snapshots self') <-> In s incoming_bc) /\
    (forall s, In s incoming_bc -> find_snapshot (hash s) self' = Some s) /\
    (forall h, h ∉ map hash incoming_bc -> find_snapshot h self' = None).
Proof.
  split; [exact table_ab_consistent|]. split; [exact incoming_bc_distinct|].
  exact (@update_shows_incoming Fixtures.Zfloat incoming_bc table_ab
           table_ab_consistent incoming_bc_distinct).
Defined.

(** The run itself: the row of [b] stays first and takes the new name, the
    row of [c] is added after it. *)
Example update_ab_bc :
  update_from_snapshots incoming_bc table_ab
  = Some {| _snapshots := [row hash_b (py "b2"); row hash_c (py "c")];
            _hash_index := [(hash_b, 0%nat); (hash_c, 1%nat)] |}.
Proof. vm_compute. reflexivity. Qed.

(** Without distinct hashes the table goes out of order: two snapshots
    with the empty hash give two rows and one index entry; the first row
    is never updated again, and it survives an update that reports no
    torrent at all. *)
Example same_hash_leaves_stale_row :
  exists t1 t2 t3,
    update_from_snapshots incoming_no_hash TorrentListModel_init = Some t1 /\
    length (_snapshots t1) = 2%nat /\ length (_hash_index t1) = 1%nat /\
    update_from_snapshots
      [row [] (py "first, later"); row [] (py "second, later")] t1 = Some t2 /\
    _snapshots t2 = [row [] (py "first"); row [] (py "second, later")] /\
    update_from_snapshots [] t2 = Some t3 /\
    _snapshots t3 = [row [] (py "first")].
Proof.
  do 3 eexists. split; [vm_compute; reflexivity|].
  split; [reflexivity|]. split; [reflexivity|].
  split; [vm_compute; reflexivity|]. split; [reflexivity|].
  split; [vm_compute; reflexivity|]. reflexivity.
Qed.

End Runs.

End TorrentListModelFacts.

(** ** Feed parsing *)

Module RssParseFacts.
Import Rss Xml RssParse RssMonitor.

(** *** [strip] *)

Lemma lstrip_idem (s : str) : lstrip (lstrip s) = lstrip s.
Proof.
  induction s as [|c s IH]; cbn [lstrip]; [reflexivity|].
  destruct (isspace c) eqn:E; [exact IH|]. cbn [lstrip]. now rewrite E.
Qed.

Lemma lstrip_suffix (s : str) : exists pre, s = pre ++ lstrip s.
Proof.
  induction s as [|c s [pre IH]]; cbn [lstrip]; [now exists []|].
  destruct (isspace c); [|now exists []].
  exists (c :: pre). cbn [app]. now rewrite <- IH.
Qed.

Lemma lstrip_fixed_head (c : N) (s : str) :
  lstrip (c :: s) = c :: s -> isspace c = false.
Proof.
  cbn [lstrip]. destruct (isspace c); [|reflexivity].
  intros Hs. destruct (lstrip_suffix s) as [pre Hpre].
  apply (f_equal (@length N)) in Hs. rewrite Hpre in Hs at 2.
  cbn [length] in Hs. rewrite length_app in Hs. lia.
Qed.

Lemma strip_trimmed (s : str) : trimmed (strip s).
Proof.
  unfold trimmed, strip.
  set (a := lstrip s). assert (Ha : lstrip a = a) by apply lstrip_idem.
  set (b := lstrip (rev a)).
  assert (Hb : lstrip (rev b) = rev b).
  { destruct (lstrip_suffix (rev a)) as [pre Hpre]. fold b in Hpre.
    apply (f_equal (@rev N)) in Hpre. rewrite rev_involutive, rev_app_distr in Hpre.
    destruct (rev b) as [|c r]; [reflexivity|].
    cbn [app] in Hpre. rewrite Hpre in Ha. apply lstrip_fixed_head in Ha.
    cbn [lstrip]. now rewrite Ha. }
  rewrite Hb, rev_involutive. f_equal. apply lstrip_idem.
Qed.

Lemma nil_trimmed : trimmed [].
Proof. reflexivity. Qed.

Lemma startswith_nonempty (s : str) (c : N) (p : str) :
  startswith s (c :: p) = true -> s <> [].
Proof. destruct s; [discriminate | intros _; discriminate]. Qed.

Lemma nonempty_nil (s : str) : nonempty s = false <-> s = [].
Proof. destruct s; split; intros Hs; try reflexivity; discriminate. Qed.

Section Generic.
Context `{PyFloat} `{PyLib} `{PyHash} `{FeedLib}.

Lemma text_of_trimmed (el : option Element) : trimmed (text_of el).
Proof.
  unfold text_of. destruct el as [el|]; [|apply nil_trimmed].
  destruct (text el) as [t|]; [|apply nil_trimmed].
  destruct (nonempty t); [apply strip_trimmed | apply nil_trimmed].
Qed.

(** *** RSS items *)

Lemma magnet_loop_trimmed (cs : list Element) (m : str) :
  trimmed m -> trimmed (fold_left magnet_step cs m).
Proof.
  revert m. induction cs as [|c cs IH]; intros m Hm; cbn [fold_left]; [exact Hm|].
  apply IH. unfold magnet_step, child_text.
  destruct (_ || _); [apply strip_trimmed|].
  destruct (_ && _); [apply strip_trimmed | exact Hm].
Qed.

Lemma rss_item_magnet_link (item_el : Element) :
  startswith (link (rss_item item_el)) (py "magnet:") = true ->
  magnet (rss_item item_el) <> [] /\
  download_url (rss_item item_el) = magnet (rss_item item_el).
Proof.
  intros Hl.
  assert (Hm : magnet (rss_item item_el) <> []).
  { unfold rss_item in *. cbn [magnet link] in *. rewrite Hl.
    destruct (fold_left magnet_step (children item_el) []) as [|c m];
      cbn [nonempty negb andb]; [|discriminate].
    exact (startswith_nonempty _ _ _ Hl). }
  split; [exact Hm|]. unfold download_url.
  destruct (magnet (rss_item item_el)); [contradiction | reflexivity].
Qed.

(** X27.  The fields of an RSS item.  Every item [_parse_rss] returns
    has its title, link, guid, date and magnet free of surrounding white
    space; its guid is empty only if its link is, so [unique_id] is the
    guid, without hashing, for every item that has a link; and a link that
    begins with [magnet:] leaves the magnet field non-empty, which then is
    the download URL. *)
Theorem parse_rss_items (root : Element) :
  Forall (fun it =>
            trimmed (title it) /\ trimmed (link it) /\ trimmed (guid it) /\
            trimmed (pub_date it) /\ trimmed (magnet it) /\
            (guid it = [] -> link it = []) /\
            (link it <> [] -> unique_id it = ok (guid it)) /\
            (startswith (link it) (py "magnet:") = true ->
             magnet it <> [] /\ download_url it = magnet it))
         (_parse_rss root).
Proof.
  unfold _parse_rss. destruct (find (py "channel") root) as [channel|];
    [|constructor].
  apply Forall_forall. intros it Hin. apply list_elem_of_In in Hin.
  apply in_map_iff in Hin as (item_el & <- & _).
  assert (Hg : guid (rss_item item_el) = [] -> link (rss_item item_el) = []).
  { unfold rss_item. cbn [guid link].
    destruct (nonempty (_text item_el (py "guid"))) eqn:Hn; [|auto].
    intros Hg. rewrite Hg in Hn. discriminate. }
  repeat split.
  - apply text_of_trimmed.
  - apply text_of_trimmed.
  - unfold rss_item. cbn [guid].
    destruct (nonempty _); apply text_of_trimmed.
  - apply text_of_trimmed.
  - unfold rss_item. cbn [magnet].
    destruct (_ && _); [apply text_of_trimmed|].
    apply magnet_loop_trimmed, nil_trimmed.
  - exact Hg.
  - intros Hl. unfold unique_id.
    destruct (guid (rss_item item_el)) eqn:Hgu; [|reflexivity].
    now specialize (Hg eq_refl).
  - now apply rss_item_magnet_link.
  - now apply rss_item_magnet_link.
Qed.

(** *** Atom entries *)

Lemma link_step_ok (fi : FeedItem) (link_el : Element) :
  atom_ok fi -> atom_ok (link_step fi link_el).
Proof.
  intros (Hm & Hl & He & Ht & Hs). unfold link_step.
  destruct (startswith (get (py "href") [] link_el) (py "magnet:")) eqn:E1.
  { unfold atom_ok. cbn [set_magnet magnet link torrent_url size]. auto 6. }
  destruct (endswith (get (py "href") [] link_el) (py ".torrent")) eqn:E2;
    cbn [orb].
  { unfold atom_ok. cbn [set_torrent_url magnet link torrent_url size]. auto 6. }
  destruct (contains (py "torrent") (get (py "type") [] link_el)).
  { unfold atom_ok. cbn [set_torrent_url magnet link torrent_url size]. auto 6. }
  destruct (_ || _); [|unfold atom_ok; auto 6].
  unfold atom_ok. cbn [set_link magnet link torrent_url size]. auto 6.
Qed.

Lemma link_loop_ok (ls : list Element) (fi : FeedItem) :
  atom_ok fi -> atom_ok (fold_left link_step ls fi).
Proof.
  revert fi. induction ls as [|l ls IH]; intros fi Hok; cbn [fold_left];
    [exact Hok|].
  now apply IH, link_step_ok.
Qed.

Lemma link_step_texts (fi : FeedItem) (link_el : Element) :
  title (link_step fi link_el) = title fi /\
  guid (link_step fi link_el) = guid fi /\
  pub_date (link_step fi link_el) = pub_date fi.
Proof.
  unfold link_step.
  destruct (startswith _ _); [now repeat split|].
  destruct (_ || _); [now repeat split|].
  destruct (_ || _); now repeat split.
Qed.

Lemma link_loop_texts (ls : list Element) (fi : FeedItem) :
  title (fold_left link_step ls fi) = title fi /\
  guid (fold_left link_step ls fi) = guid fi /\
  pub_date (fold_left link_step ls fi) = pub_date fi.
Proof.
  revert fi. induction ls as [|l ls IH]; intros fi; cbn [fold_left];
    [now repeat split|].
  destruct (IH (link_step fi l)) as (-> & -> & ->). apply link_step_texts.
Qed.

Lemma atom_item_ok (entry : Element) : atom_ok (atom_item entry).
Proof.
  unfold atom_item. apply link_loop_ok.
  unfold atom_ok. cbn [magnet link torrent_url size]. repeat split. now left.
Qed.

Lemma atom_item_texts (entry : Element) :
  title (atom_item entry) = text_of (find (atom_ns ++ py "title") entry) /\
  guid (atom_item entry) = _text_ns entry (atom_ns ++ py "id") /\
  pub_date (atom_item entry)
  = (if nonempty (_text_ns entry (atom_ns ++ py "updated"))
     then _text_ns entry (atom_ns ++ py "updated")
     else _text_ns entry (atom_ns ++ py "published")).
Proof.
  unfold atom_item.
  destruct (link_loop_texts (findall (atom_ns ++ py "link") entry)
              {| title := text_of (find (atom_ns ++ py "title") entry);
                 link := []; magnet := []; torrent_url := [];
                 pub_date :=
                   (if nonempty (_text_ns entry (atom_ns ++ py "updated"))
                    then _text_ns entry (atom_ns ++ py "updated")
                    else _text_ns entry (atom_ns ++ py "published"));
                 size := 0;
                 guid := _text_ns entry (atom_ns ++ py "id") |})
    as (Hti & Hgu & Hpd).
  cbv zeta. rewrite Hti, Hgu, Hpd. now repeat split.
Qed.

(** X28.  The fields of an Atom entry.  For every item [_parse_atom]
    returns: the magnet field is empty or begins with [magnet:]; the link
    field neither begins with [magnet:] nor ends with [.torrent]; the
    size is 0; title, guid and date carry no surrounding white space.  So
    the download URL is the magnet link if the entry has one, and an entry
    with neither magnet nor torrent link gets a download URL only from a
    link that has [magnet:] inside it. *)
Theorem parse_atom_items (root : Element) :
  Forall (fun it =>
            (magnet it = [] \/ startswith (magnet it) (py "magnet:") = true) /\
            startswith (link it) (py "magnet:") = false /\
            endswith (link it) (py ".torrent") = false /\
            startswith (torrent_url it) (py "magnet:") = false /\
            size it = 0 /\
            trimmed (title it) /\ trimmed (guid it) /\ trimmed (pub_date it) /\
            (magnet it <> [] -> download_url it = magnet it) /\
            (magnet it = [] -> torrent_url it = [] -> download_url it <> [] ->
             download_url it = link it /\
             contains (py "magnet:") (link it) = true))
         (_parse_atom root).
Proof.
  unfold _parse_atom. apply Forall_forall. intros it Hin.
  apply list_elem_of_In in Hin. apply in_map_iff in Hin as (entry & <- & _).
  destruct (atom_item_ok entry) as (Hm & Hl & He & Ht & Hs).
  destruct (atom_item_texts entry) as (Hti & Hgu & Hpd).
  split; [exact Hm|]. split; [exact Hl|]. split; [exact He|].
  split; [exact Ht|]. split; [exact Hs|].
  split; [rewrite Hti; apply text_of_trimmed|].
  split; [rewrite Hgu; apply text_of_trimmed|].
  split.
  { rewrite Hpd. destruct (nonempty _); apply text_of_trimmed. }
  split.
  - intros Hne. unfold download_url.
    destruct (magnet (atom_item entry)); [contradiction | reflexivity].
  - intros Hm0 Ht0. unfold download_url. rewrite Hm0, Ht0, He. cbn [nonempty orb].
    destruct (nonempty (link (atom_item entry)) &&
              contains (py "magnet:") (link (atom_item entry))) eqn:E;
      [|intros Hf; now contradiction Hf].
    intros _. apply andb_true_iff in E as [_ E]. now split.
Qed.

(** *** [parse_feed] *)

Lemma parse_rss_items_magnet (root : Element) :
  Forall (fun it => startswith (link it) (py "magnet:") = true ->
                    magnet it <> [] /\ download_url it = magnet it)
         (_parse_rss root).
Proof.
  unfold _parse_rss. destruct (find (py "channel") root) as [channel|];
    [|constructor].
  apply Forall_forall. intros it Hin. apply list_elem_of_In in Hin.
  apply in_map_iff in Hin as (item_el & <- & _). apply rss_item_magnet_link.
Qed.

Lemma parse_atom_items_link (root : Element) :
  Forall (fun it => startswith (link it) (py "magnet:") = false)
         (_parse_atom root).
Proof.
  unfold _parse_atom. apply Forall_forall. intros it Hin.
  apply list_elem_of_In in Hin. apply in_map_iff in Hin as (entry & <- & _).
  apply (atom_item_ok entry).
Qed.

(** X29.  [parse_feed] raises only what [ET.fromstring] raises beyond
    [ParseError]; a text that does not parse, or whose root is neither an
    RSS nor an Atom feed, gives no item.  A root that has a [channel]
    child is read as RSS whatever its tag.  In every item returned, from
    either format, a link that begins with [magnet:] comes with a
    non-empty magnet field, which is the download URL: the link field
    itself is the download URL only when it ends with [.torrent] or has
    [magnet:] after its first character. *)
Theorem parse_feed_cases (xml_text : str) :
  match fromstring xml_text with
  | ParseError => parse_feed xml_text = ok []
  | OtherError e => parse_feed xml_text = raise e
  | Root root =>
      exists items,
        parse_feed xml_text = ok items /\
        (is_some (find (py "channel") root) = true -> items = _parse_rss root) /\
        (tag root <> py "rss" -> find (py "channel") root = None ->
         endswith (tag root) (py "feed") = false ->
         find (atom_ns ++ py "entry") root = None -> items = []) /\
        Forall (fun it =>
                  (startswith (link it) (py "magnet:") = true ->
                   magnet it <> [] /\ download_url it = magnet it) /\
                  (magnet it = [] -> torrent_url it = [] ->
                   download_url it <> [] ->
                   download_url it = link it /\
                   startswith (link it) (py "magnet:") = false /\
                   (endswith (link it) (py ".torrent") = true \/
                    contains (py "magnet:") (link it) = true))) items
  end.
Proof.
  unfold parse_feed. destruct (fromstring xml_text) as [|e|root];
    [reflexivity | reflexivity |].
  assert (Hlink : forall it : FeedItem,
            (startswith (link it) (py "magnet:") = true ->
             magnet it <> [] /\ download_url it = magnet it) ->
            magnet it = [] -> torrent_url it = [] -> download_url it <> [] ->
            download_url it = link it /\
            startswith (link it) (py "magnet:") = false /\
            (endswith (link it) (py ".torrent") = true \/
             contains (py "magnet:") (link it) = true)).
  { intros it Hmag Hm Ht. unfold download_url. rewrite Hm, Ht. cbn [nonempty].
    destruct (nonempty (link it) &&
              (endswith (link it) (py ".torrent") ||
               contains (py "magnet:") (link it))) eqn:E;
      [|intros Hf; now contradiction Hf].
    intros _. apply andb_true_iff in E as [_ E]. apply orb_true_iff in E.
    split; [reflexivity|]. split; [|exact E].
    destruct (startswith (link it) (py "magnet:")) eqn:Es; [|reflexivity].
    destruct (Hmag eq_refl) as [Hne _]. contradiction. }
  assert (Hrss : Forall (fun it =>
            (startswith (link it) (py "magnet:") = true ->
             magnet it <> [] /\ download_url it = magnet it) /\
            (magnet it = [] -> torrent_url it = [] -> download_url it <> [] ->
             download_url it = link it /\
             startswith (link it) (py "magnet:") = false /\
             (endswith (link it) (py ".torrent") = true \/
              contains (py "magnet:") (link it) = true))) (_parse_rss root)).
  { eapply Forall_impl; [apply parse_rss_items_magnet|].
    intros it Hmag. split; [exact Hmag | now apply Hlink]. }
  assert (Hatom : Forall (fun it =>
            (startswith (link it) (py "magnet:") = true ->
             magnet it <> [] /\ download_url it = magnet it) /\
            (magnet it = [] -> torrent_url it = [] -> download_url it <> [] ->
             download_url it = link it /\
             startswith (link it) (py "magnet:") = false /\
             (endswith (link it) (py ".torrent") = true \/
              contains (py "magnet:") (link it) = true))) (_parse_atom root)).
  { eapply Forall_impl; [apply parse_atom_items_link|].
    intros it Hl.
    assert (Hmag : startswith (link it) (py "magnet:") = true ->
                   magnet it <> [] /\ download_url it = magnet it)
      by (rewrite Hl; discriminate).
    split; [exact Hmag | now apply Hlink]. }
  destruct (str_eqb (tag root) (py "rss")) eqn:Etag;
    destruct (find (py "channel") root) as [channel|] eqn:Ech;
    cbn [is_some orb].
  - exists (_parse_rss root). split; [reflexivity|]. split; [reflexivity|].
    split; [|exact Hrss]. intros _ Hf. discriminate.
  - exists (_parse_rss root). split; [reflexivity|]. split; [discriminate|].
    split; [|exact Hrss]. intros Hne.
    apply bool_decide_eq_true_1 in Etag. contradiction.
  - exists (_parse_rss root). split; [reflexivity|]. split; [reflexivity|].
    split; [|exact Hrss]. intros _ Hf. discriminate.
  - destruct (endswith (tag root) (py "feed")) eqn:Efeed;
      destruct (find (atom_ns ++ py "entry") root) as [entry|] eqn:Een;
      cbn [is_some orb].
    + exists (_parse_atom root). split; [reflexivity|]. split; [discriminate|].
      split; [|exact Hatom]. intros _ _ Hf. discriminate.
    + exists (_parse_atom root). split; [reflexivity|]. split; [discriminate|].
      split; [|exact Hatom]. intros _ _ Hf. discriminate.
    + exists (_parse_atom root). split; [reflexivity|]. split; [discriminate|].
      split; [|exact Hatom]. intros _ _ _ Hf. discriminate.
    + exists []. split; [reflexivity|]. split; [discriminate|].
      split; [reflexivity | constructor].
Qed.

End Generic.

(** *** The documents of the repository's tests *)

Section Runs.
Import RssParseFixture.
#[local] Existing Instance toy_feedlib.

Example test_parse_rss :
  exists i0 i1 i2,
    parse_feed (py "rss") = ok [i0; i1; i2] /\
    title i0 = py "Ubuntu 22.04.3 LTS Desktop" /\
    torrent_url i0 = py "https://example.com/ubuntu.torrent" /\
    size i0 = 3456789 /\ guid i0 = py "item-001" /\
    magnet i1 = py "magnet:?xt=urn:btih:abc123" /\
    download_url i0 = py "https://example.com/ubuntu.torrent" /\
    download_url i1 = py "magnet:?xt=urn:btih:abc123" /\
    download_url i2 = [].
Proof.
  do 3 eexists. split; [vm_compute; reflexivity|].
  repeat split; vm_compute; reflexivity.
Qed.

Example test_parse_atom :
  exists i0 i1,
    parse_feed (py "atom") = ok [i0; i1] /\
    title i0 = py "Atom Torrent" /\
    torrent_url i0 = py "https://example.com/file.torrent" /\
    link i0 = py "https://example.com/page" /\
    guid i0 = py "atom-001" /\
    magnet i1 = py "magnet:?xt=urn:btih:def456".
Proof.
  do 2 eexists. split; [vm_compute; reflexivity|].
  repeat split; vm_compute; reflexivity.
Qed.

Example test_parse_invalid_xml : parse_feed (py "not xml at all") = ok [].
Proof. reflexivity. Qed.

(** An empty [magnetURI] element after the link clears the magnet the
    link had set; the test after the loop then restores it from the
    link. *)
Example empty_magnet_uri_falls_back :
  fold_left magnet_step (children item_empty_magnet_uri) [] = [] /\
  magnet (rss_item item_empty_magnet_uri) = py "magnet:?xt=urn:btih:abc123".
Proof. split; vm_compute; reflexivity. Qed.

End Runs.

End RssParseFacts.
